(* ===== verification/_CoqProject ===== *)
-Q . S2P
Prelude.v
Bytes.v
Abi.v
Sched.v
Arguments.v
ArgSplit.v
Supervisor.v
Decimal.v
Version.v
Update.v
Sha256.v
TxnPath.v
TxnFormat.v
Txn.v
TxnStage.v
TxnCrash.v
TxnDisk.v
Manager.v
ManagerCycle.v
CMem.v
LibcString.v
LibcStdlib.v
LibcSort.v
LibcMalloc.v
LibcStdio.v
NetBase.v
NetStack.v
NetApi.v
NetRing.v
NetChecksum.v
NetPacket.v
NetUdp.v
NetInv.v
NetTcp.v
Kernel.v
Memory.v
Acpi.v
Iommu.v
Space.v
Ipc.v
Device.v
Core.v
IpcInv.v
SpaceInv.v
IpcCalls.v
IpcSafe.v
KernelFrame.v
SpaceKernel.v
KernelSteps.v
SpaceBuild.v
SpaceMap.v
SpaceTask.v
KernelRun.v
SpaceRun.v
Isolation.v
FirstTask.v
IpcMail.v
IpcDemo.v
Vtd.v
MachineDemo.v
