(* ===== verification/Prelude.v ===== *)
(** * SpiritFoxOS verification library

    SpiritFoxOS is a small x86-64 system: a microkernel ([src/kernel]) with
    capabilities, message passing, paging and one supervised DMA device; an
    init process and services in user space ([src/services]) for storage,
    updates, modules and packages; and a body of code recovered from an
    earlier monolithic system ([src/recovered]: libc, network stack, file
    systems, graphics, processes).  The library models the parts listed below
    as Rocq functions and proves what they promise.

    ** Conventions

    A C integer is a [Z]; the casts [u8], [u16], [u32], [u64], [s32], [s64]
    stand where the code relies on a width.  A byte array is a [list Z]
    ([Bytes]); where code works through pointers, memory is a total function
    from addresses to bytes ([CMem]).  A struct is a record with functional
    update ([r <| f := v |>]), a loop is [loop], [loop_exit] or [find_index]
    (this file), state is passed explicitly, an error is the code's own status
    number.  Code outside [src/] and hardware are parameters: block devices
    ([Txn]), the [brk] and file system calls of libc ([LibcMalloc],
    [LibcStdio]), the recovered kernel services under the network stack
    ([NetStack], [NetApi]), linker addresses and the processor's ports and
    registers ([Kernel]).  Each law about them is a hypothesis or a class with
    an instance that satisfies it.

    Loops that are not counted take fuel: the number of bytes still to read
    ([Arguments], [ArgSplit], [Acpi], [Memory]), the number of modules
    ([ManagerCycle]), the nesting depth of loopback packets ([NetStack]), the
    polls a driver allows itself ([Iommu], [Device]).  Where the theorems need
    it, they prove the fuel is enough; a libc routine that runs to a NUL gives
    [None] when the fuel ends first, and its theorems state that a long enough
    fuel gives a result.

    ** Files

    - [Prelude], [Bytes], [CMem], [Decimal]: integers, loops, buffers, memory,
      decimal text, and the routines of [services/memory.c].
    - [Abi]: [include/sf.h].
    - [Sched]: [kernel/sched_policy.c], [kernel/pid.c].  The pick is the
      highest aged priority and round robin among equals; nobody starves; a
      pid is never handed out twice.
    - [Arguments], [ArgSplit]: [services/arguments.c], [services/argparse.c].
      Packed arguments survive both validators and come back string by
      string; a command line is split as its quoting grammar says.
    - [Supervisor], [Version], [Update], [Sha256]: the services of the same
      names.  Restart budget, canonical versions and monotonic upgrades, the
      A/B record as a transaction, the digest of FIPS 180-4.
    - [TxnPath], [TxnFormat], [Txn], [TxnStage], [TxnCrash], [TxnDisk]:
      [services/txn.c].  A commit is atomic across power loss, the bank format
      is a bijection, reads see the last commit; [TxnDisk] is a disk with a
      volatile cache that satisfies the device laws.
    - [Manager], [ManagerCycle]: [services/manager.c].  The lease ledger and
      the dependency-cycle search.
    - [LibcString], [LibcStdlib], [LibcSort], [LibcMalloc], [LibcStdio]:
      [recovered/libc].
    - [NetBase], [NetStack], [NetApi] and the proofs [NetRing], [NetChecksum],
      [NetPacket], [NetUdp], [NetInv], [NetTcp]: [recovered/net].
    - [Kernel], [Memory], [Acpi], [Iommu], [Ipc], [Device], [Core]: the state
      of the kernel, [kernel/memory.c], [kernel/acpi.c] with
      [kernel/vtd_tables.c], [kernel/iommu.c], [kernel/ipc.c],
      [kernel/device.c] with the console of [kernel/arch.c], and
      [kernel/core.c]: task creation, scheduler loop, system calls, interrupts
      and boot.
    - [Space], [IpcInv], [IpcCalls], [IpcSafe], [IpcMail], [IpcDemo]: page
      table entries; the IPC invariant, its preservation by every event of the
      kernel, authority, handles and message queues; a concrete run.

    ** Not modelled

    Assembly ([kernel/entry.S], [services/start.S]) and the boot stub, which
    set up the machine; descriptor tables and control registers in [kernel/arch.c]; the
    translation lookaside buffer, caches and memory ordering; timing.  The
    probes under [services/] are test programs.  [vendor/monocypher] is third
    party.  The rest of [src/recovered] is listed in the manifest with the
    reason for each part. *)

From stdpp Require Export base list numbers option.
From Stdlib Require Export ZArith Lia.

#[global] Open Scope Z_scope.

Declare Scope sf_scope.
Delimit Scope sf_scope with sf.
#[global] Open Scope sf_scope.

(** ** Functional record update

    [r <| f := v |>] is the C assignment [r.f = v] and [r <| f ::= g |>]
    replaces [r.f] by [g r.f].  A record type only has to provide its eta
    expansion as a [Settable] instance; the setter of a projection is
    computed from it. *)

Class Settable (R : Type) := eta_of : R -> R.

Class Setter {R T : Type} (proj : R -> T) := over_field : (T -> T) -> R -> R.

Ltac derive_setter :=
  lazymatch goal with
  | |- @Setter ?R _ ?proj =>
      let inst := constr:(_ : Settable R) in
      let body := eval hnf in inst in
      lazymatch eval pattern proj in body with
      | ?rebuild proj => exact (fun g r => rebuild (fun r' => g (proj r')) r)
      end
  end.

#[export] Hint Extern 1 (Setter _) => derive_setter : typeclass_instances.

Notation "r <| f := v |>" := (over_field (proj:=f) (fun _ => v) r)
  (at level 1, left associativity, f at level 9, v at level 200) : sf_scope.
Notation "r <| f ::= g |>" := (over_field (proj:=f) g r)
  (at level 1, left associativity, f at level 9, g at level 200) : sf_scope.

(** ** Machine integers

    A C unsigned integer of width [w] is a [Z] in [[0, 2^w)]; every place
    where the code may wrap says so with one of these casts. *)

Definition u8 (x : Z) : Z := x mod 2 ^ 8.
Definition u16 (x : Z) : Z := x mod 2 ^ 16.
Definition u32 (x : Z) : Z := x mod 2 ^ 32.
Definition u64 (x : Z) : Z := x mod 2 ^ 64.

(** Reinterpretation of the low bits as a two's complement signed value. *)
Definition s32 (x : Z) : Z := (x + 2 ^ 31) mod 2 ^ 32 - 2 ^ 31.
Definition s64 (x : Z) : Z := (x + 2 ^ 63) mod 2 ^ 64 - 2 ^ 63.

Definition UINT8_MAX : Z := 255.
Definition UINT16_MAX : Z := 65535.
Definition UINT32_MAX : Z := 4294967295.
Definition UINT64_MAX : Z := 18446744073709551615.
Definition INT32_MAX : Z := 2147483647.
Definition INT64_MAX : Z := 9223372036854775807.

(** C truth values. *)
Definition truthy (x : Z) : bool := negb (x =? 0).
Definition b2z (b : bool) : Z := if b then 1 else 0.

Definition u32_ok (x : Z) : Prop := 0 <= x <= UINT32_MAX.
Definition u64_ok (x : Z) : Prop := 0 <= x <= UINT64_MAX.
Definition byte_ok (x : Z) : Prop := 0 <= x < 256.

Create HintDb sf discriminated.
#[export] Hint Unfold UINT8_MAX UINT16_MAX UINT32_MAX UINT64_MAX INT32_MAX
  INT64_MAX u32_ok u64_ok byte_ok truthy b2z : sf.

(** [sflia] closes arithmetic goals that mention the named constants. *)
Ltac sflia := autounfold with sf in *; lia.

Lemma truthy_false x : truthy x = false <-> x = 0.
Proof. sflia. Qed.

Lemma truthy_true x : truthy x = true <-> x <> 0.
Proof. sflia. Qed.

Lemma u32_small x : 0 <= x < 4294967296 -> u32 x = x.
Proof. intros; apply Z.mod_small; lia. Qed.

Lemma u64_small x : 0 <= x < 18446744073709551616 -> u64 x = x.
Proof. intros; apply Z.mod_small; lia. Qed.

Lemma u16_small x : 0 <= x < 65536 -> u16 x = x.
Proof. intros; apply Z.mod_small; lia. Qed.

Lemma u8_small x : 0 <= x < 256 -> u8 x = x.
Proof. intros; apply Z.mod_small; lia. Qed.

Lemma u64_bounds x : 0 <= u64 x < 18446744073709551616.
Proof. apply Z.mod_pos_bound; lia. Qed.

Lemma u32_bounds x : 0 <= u32 x < 4294967296.
Proof. apply Z.mod_pos_bound; lia. Qed.

Lemma u16_bounds x : 0 <= u16 x < 65536.
Proof. apply Z.mod_pos_bound; lia. Qed.

Lemma u8_bounds x : 0 <= u8 x < 256.
Proof. apply Z.mod_pos_bound; lia. Qed.

(** ** Counted loops

    [loop n body s] runs [for (i = 0; i < n; i++)] over an explicit state;
    [loop_exit] is the same loop with an early [return]. *)

Fixpoint loop_from {S : Type} (i n : nat) (body : nat -> S -> S) (s : S) : S :=
  match n with
  | O => s
  | Datatypes.S n' => loop_from (Datatypes.S i) n' body (body i s)
  end.

Definition loop {S : Type} (n : nat) (body : nat -> S -> S) (s : S) : S :=
  loop_from 0 n body s.

Inductive flow (R S : Type) :=
| Done (r : R)
| Go (s : S).
Arguments Done {R S} _.
Arguments Go {R S} _.

Fixpoint exit_from {R S : Type} (i n : nat) (body : nat -> S -> flow R S) (s : S)
  : flow R S :=
  match n with
  | O => Go s
  | Datatypes.S n' =>
      match body i s with
      | Done r => Done r
      | Go s' => exit_from (Datatypes.S i) n' body s'
      end
  end.

Definition loop_exit {R S : Type} (n : nat) (body : nat -> S -> flow R S) (s : S)
  : flow R S := exit_from 0 n body s.

(** First index below [n] satisfying a test: the search loops of the code. *)
Fixpoint find_from (p : nat -> bool) (i n : nat) : option nat :=
  match n with
  | O => None
  | Datatypes.S n' => if p i then Some i else find_from p (Datatypes.S i) n'
  end.

Definition find_index (p : nat -> bool) (n : nat) : option nat := find_from p 0 n.

(** All indices below [n] satisfy a test: the validation loops of the code. *)
Definition all_below (p : nat -> bool) (n : nat) : bool :=
  match find_index (fun i => negb (p i)) n with None => true | Some _ => false end.

(** The number of indices below [n] satisfying a test. *)
Definition count_below (p : nat -> bool) (n : nat) : nat :=
  loop n (fun i c => if p i then S c else c) 0%nat.

Lemma loop_from_inv {S} (P : nat -> S -> Prop) (body : nat -> S -> S) n : forall i s,
  P i s ->
  (forall j s', (i <= j < i + n)%nat -> P j s' -> P (Datatypes.S j) (body j s')) ->
  P (i + n)%nat (loop_from i n body s).
Proof.
  induction n as [|n IH]; intros i s H Hs; simpl.
  - by rewrite Nat.add_0_r.
  - rewrite <-Nat.add_succ_comm. apply IH.
    + apply Hs; [lia|done].
    + intros j s' Hj. apply Hs. lia.
Qed.

(** The loop invariant rule. *)
Lemma loop_inv {S} (P : nat -> S -> Prop) (body : nat -> S -> S) n s :
  P 0%nat s ->
  (forall j s', (j < n)%nat -> P j s' -> P (Datatypes.S j) (body j s')) ->
  P n (loop n body s).
Proof.
  intros H Hs. apply (loop_from_inv P body n 0 s); [done|].
  intros j s' Hj. apply Hs. lia.
Qed.

Lemma exit_from_inv {R S} (P : nat -> S -> Prop) (Q : R -> Prop)
    (body : nat -> S -> flow R S) n : forall i s,
  P i s ->
  (forall j s', (i <= j < i + n)%nat -> P j s' ->
     match body j s' with Go s'' => P (Datatypes.S j) s'' | Done r => Q r end) ->
  match exit_from i n body s with Go s' => P (i + n)%nat s' | Done r => Q r end.
Proof.
  induction n as [|n IH]; intros i s H Hs; simpl.
  - by rewrite Nat.add_0_r.
  - specialize (Hs i s ltac:(lia) H) as Hi.
    destruct (body i s) as [r|s']; [done|].
    rewrite <-Nat.add_succ_comm. apply IH; [done|].
    intros j s'' Hj. apply Hs. lia.
Qed.

(** The invariant rule for a loop with an early return. *)
Lemma loop_exit_inv {R S} (P : nat -> S -> Prop) (Q : R -> Prop)
    (body : nat -> S -> flow R S) n s :
  P 0%nat s ->
  (forall j s', (j < n)%nat -> P j s' ->
     match body j s' with Go s'' => P (Datatypes.S j) s'' | Done r => Q r end) ->
  match loop_exit n body s with Go s' => P n s' | Done r => Q r end.
Proof.
  intros H Hs. apply (exit_from_inv P Q body n 0 s); [done|].
  intros j s' Hj. apply Hs. lia.
Qed.

Lemma find_from_Some p n : forall i k,
  find_from p i n = Some k <->
  (i <= k < i + n)%nat /\ p k = true /\ (forall j, (i <= j < k)%nat -> p j = false).
Proof.
  induction n as [|n IH]; intros i k; simpl.
  - split; [done|lia].
  - destruct (p i) eqn:Hp.
    + split.
      * intros [= <-]. repeat split; [lia|lia|done|lia].
      * intros (Hk & Hpk & Hj). destruct (decide (k = i)) as [->|]; [done|].
        rewrite Hj in Hp; [done|lia].
    + rewrite IH. split.
      * intros (Hk & Hpk & Hj). repeat split; [lia|lia|done|].
        intros j Hj'. destruct (decide (j = i)) as [->|]; [done|apply Hj; lia].
      * intros (Hk & Hpk & Hj). destruct (decide (k = i)) as [->|]; [congruence|].
        repeat split; [lia|lia|done|]. intros j ?. apply Hj. lia.
Qed.

Lemma find_from_None p n : forall i,
  find_from p i n = None <-> (forall j, (i <= j < i + n)%nat -> p j = false).
Proof.
  induction n as [|n IH]; intros i; simpl.
  - split; [lia|done].
  - destruct (p i) eqn:Hp.
    + split; [done|]. intros Hj. rewrite Hj in Hp; [done|lia].
    + rewrite IH. split; intros Hj j ?.
      * destruct (decide (j = i)) as [->|]; [done|apply Hj; lia].
      * apply Hj. lia.
Qed.

Lemma find_index_Some p n k :
  find_index p n = Some k <->
  (k < n)%nat /\ p k = true /\ (forall j, (j < k)%nat -> p j = false).
Proof.
  unfold find_index. rewrite find_from_Some. split; intros (? & ? & Hj);
    (repeat split; [lia..|done|intros; apply Hj; lia]).
Qed.

Lemma find_index_None p n :
  find_index p n = None <-> (forall j, (j < n)%nat -> p j = false).
Proof.
  unfold find_index. rewrite find_from_None.
  split; intros Hj j ?; apply Hj; lia.
Qed.

Lemma find_index_ext p q n : (forall k, p k = q k) -> find_index p n = find_index q n.
Proof.
  intros H. unfold find_index. generalize 0%nat. induction n as [|n IH]; intros i; simpl; [done|]. by rewrite H, IH.
Qed.

Lemma all_below_true p n :
  all_below p n = true <-> (forall j, (j < n)%nat -> p j = true).
Proof.
  unfold all_below. destruct (find_index _ n) as [k|] eqn:Hf.
  - apply find_index_Some in Hf as (Hk & Hp & _). split; [done|].
    intros H. rewrite (H k Hk) in Hp. done.
  - rewrite find_index_None in Hf. split; [|done].
    intros _ j Hj. specialize (Hf j Hj). by destruct (p j).
Qed.

Lemma alter_insert_total {A} `{Inhabited A} (g : A -> A) i (l : list A) :
  (i < length l)%nat -> alter g i l = <[i := g (l !!! i)]> l.
Proof.
  intros Hi. destruct (lookup_lt_is_Some_2 l i Hi) as [x Hx].
  rewrite (list_lookup_total_correct _ _ _ Hx). apply list_eq. intros j.
  destruct (decide (j = i)) as [->|Hn].
  - rewrite list_lookup_alter_eq, list_lookup_insert_eq by done. by rewrite Hx.
  - by rewrite list_lookup_alter_ne, list_lookup_insert_ne by done.
Qed.

Lemma insert_lookup_total_eq {A} `{Inhabited A} (i : nat) (x : A) (l : list A) :
  (i < length l)%nat -> <[i := x]> l !!! i = x.
Proof. intros. by apply list_lookup_total_insert_eq. Qed.

Lemma insert_lookup_total_ne {A} `{Inhabited A} (i j : nat) (x : A) (l : list A) :
  i <> j -> <[i := x]> l !!! j = l !!! j.
Proof. intros. by apply list_lookup_total_insert_ne. Qed.

Lemma list_eq_total {A} `{Inhabited A} (l k : list A) :
  length l = length k -> (forall i, (i < length l)%nat -> l !!! i = k !!! i) -> l = k.
Proof.
  intros Hl He. apply list_eq. intros i. destruct (Nat.lt_ge_cases i (length l)) as [Hi|Hi].
  - rewrite !list_lookup_lookup_total_lt by lia. by rewrite He.
  - by rewrite !lookup_ge_None_2 by lia.
Qed.

(** ** Counting *)

Fixpoint countn (p : nat -> bool) (n : nat) : Z :=
  match n with O => 0 | S n' => b2z (p n') + countn p n' end.

Lemma countn_ext p q n : (forall i, (i < n)%nat -> p i = q i) -> countn p n = countn q n.
Proof.
  induction n as [|n IH]; intros Hpq; simpl; [done|]. rewrite Hpq by lia. f_equal. apply IH. auto.
Qed.

Lemma countn_flip p q n i : (i < n)%nat -> p i = false -> q i = true ->
  (forall k, (k < n)%nat -> k <> i -> p k = q k) -> countn q n = countn p n + 1.
Proof.
  induction n as [|n IH]; intros Hi Hp Hq Hpq; simpl; [lia|].
  destruct (decide (i = n)) as [->|Hne].
  - rewrite Hp, Hq, (countn_ext p q n) by (intros k Hk; apply Hpq; lia). simpl. lia.
  - rewrite (Hpq n) by lia. rewrite IH; [lia|lia|done|done|]. intros k Hk. apply Hpq. lia.
Qed.

Lemma countn_nonneg p n : 0 <= countn p n.
Proof. induction n; simpl; [lia|]. destruct (p n); simpl; lia. Qed.

Lemma countn_bound p n : countn p n <= Z.of_nat n.
Proof. induction n as [|n IH]; simpl; [lia|]. destruct (p n); simpl; lia. Qed.

Lemma countn_le p q n : (forall i, (i < n)%nat -> p i = true -> q i = true) -> countn p n <= countn q n.
Proof.
  induction n as [|n IH]; intros Hpq; simpl; [lia|]. specialize (IH ltac:(auto)). specialize (Hpq n ltac:(lia)).
  destruct (p n), (q n); simpl; try lia; by discriminate Hpq.
Qed.

Lemma countn_lt p q n i : (i < n)%nat -> p i = false -> q i = true ->
  (forall j, (j < n)%nat -> p j = true -> q j = true) -> countn p n < countn q n.
Proof.
  induction n as [|n IH]; intros Hi Hp Hq Hpq; simpl; [lia|].
  pose proof (countn_le p q n ltac:(auto)). destruct (decide (i = n)) as [->|Hne].
  - rewrite Hp, Hq. simpl. lia.
  - specialize (IH ltac:(lia) Hp Hq ltac:(auto)). specialize (Hpq n ltac:(lia)). destruct (p n), (q n); simpl; try lia; by discriminate Hpq.
Qed.

Lemma countn_zero p n i : countn p n = 0 -> (i < n)%nat -> p i = false.
Proof.
  induction n as [|n IH]; simpl; [lia|]. intros Hc Hi. pose proof (countn_nonneg p n).
  destruct (p n) eqn:E; simpl in Hc; [lia|]. destruct (decide (i = n)) as [->|]; [done|]. apply IH; lia.
Qed.

Lemma countn_all_false p n : (forall i, (i < n)%nat -> p i = false) -> countn p n = 0.
Proof. induction n as [|n IH]; intros Hp; simpl; [done|]. rewrite Hp by lia. rewrite IH; auto. Qed.

(** ** Bits

    An address aligned to [2^n] and flags below [2^n] share no bit. *)

Lemma testbit_aligned n p i : 0 <= n -> p mod 2 ^ n = 0 -> i < n -> Z.testbit p i = false.
Proof.
  intros Hn Hp Hi. rewrite (Z.div_mod p (2 ^ n)), Hp, Z.add_0_r by lia.
  rewrite Z.mul_comm. by apply Z.mul_pow2_bits_low.
Qed.

Lemma testbit_above n f i : 0 <= f < 2 ^ n -> n <= i -> Z.testbit f i = false.
Proof.
  intros Hf Hi. destruct (decide (f = 0)) as [->|]; [apply Z.bits_0|]. apply Z.bits_above_log2; [lia|].
  apply Z.log2_lt_pow2; [lia|]. apply Z.lt_le_trans with (2 ^ n); [lia|]. apply Z.pow_le_mono_r; lia.
Qed.

Lemma land_disjoint n p f : 0 <= n -> p mod 2 ^ n = 0 -> 0 <= f < 2 ^ n -> Z.land p f = 0.
Proof.
  intros Hn Hp Hf. apply Z.bits_inj'. intros i Hi. rewrite Z.land_spec, Z.bits_0.
  destruct (Z.ltb_spec i n).
  - by rewrite (testbit_aligned n).
  - rewrite (testbit_above n f) by lia. apply andb_false_r.
Qed.

Lemma lor_disjoint n p f : 0 <= n -> p mod 2 ^ n = 0 -> 0 <= f < 2 ^ n -> Z.lor p f = p + f.
Proof. intros. symmetry. apply Z.add_nocarry_lor. by apply (land_disjoint n). Qed.

(** ** Positions in a ring *)

(** A wrapped position is a position. *)
Lemma wrap_range p size : 0 < size -> 0 <= p mod size < size.
Proof. intros. by apply Z.mod_pos_bound. Qed.

Lemma wrap_step p j size : 0 < size -> ((p + 1) mod size + j) mod size = (p + (1 + j)) mod size.
Proof. intros. rewrite Z.add_mod_idemp_l by lia. f_equal. lia. Qed.

Lemma wrap_inj p j k size : 0 <= j < size -> 0 <= k < size -> (p + j) mod size = (p + k) mod size -> j = k.
Proof.
  intros Hj Hk He. pose proof (Z.div_mod (p + j) size ltac:(lia)) as H1.
  pose proof (Z.div_mod (p + k) size ltac:(lia)) as H2. rewrite He in H1.
  set (q := (p + j) / size - (p + k) / size). assert (j - k = size * q) by (unfold q; lia).
  assert (q = 0) by (clearbody q; clear H1 H2 He; nia). lia.
Qed.
