(* ===== verification/Bytes.v ===== *)
(** * Byte buffers, C strings and the freestanding memory routines

    A C object of type [uint8_t[n]] is a [list Z] of length [n]; a pointer
    into it is the suffix of the list that starts there.  This file models
    [services/memory.c] ([memcpy], [memset], [memcmp], [strlen], [strcmp])
    and the little-endian accessors used by every on-disk and on-wire
    format, and proves the buffer lemmas the other files rewrite with. *)

From S2P Require Import Prelude.

Definition zlen {A} (l : list A) : Z := Z.of_nat (length l).

(** [b[i]], reading the terminator's zero outside the buffer. *)
Definition at_ (b : list Z) (i : Z) : Z := default 0 (b !! Z.to_nat i).

(** The [n] bytes from offset [off]. *)
Definition slice (off n : Z) (b : list Z) : list Z :=
  take (Z.to_nat n) (drop (Z.to_nat off) b).

(** [memcpy(dst+off, src, sizeof src)]. *)
Definition blit (off : Z) (src dst : list Z) : list Z :=
  take (Z.to_nat off) dst ++ src ++ drop (Z.to_nat off + length src) dst.

(** [memset(p, v, n)] as a fresh buffer. *)
Definition fill (v n : Z) : list Z := replicate (Z.to_nat n) (u8 v).

(** [memcpy] of services/memory.c: the byte loop [while(n--)*d++=*s++]. *)
Fixpoint memcpy (dst src : list Z) (n : nat) : list Z :=
  match n, dst with
  | S n', _ :: dst' => hd 0 src :: memcpy dst' (tl src) n'
  | _, _ => dst
  end.

(** [memset] of services/memory.c: the byte loop [while(n--)*d++=(uint8_t)c]. *)
Fixpoint memset (dst : list Z) (c : Z) (n : nat) : list Z :=
  match n, dst with
  | S n', _ :: dst' => u8 c :: memset dst' c n'
  | _, _ => dst
  end.

(** [memcmp] of services/memory.c: difference of the first unequal pair. *)
Fixpoint memcmp (a b : list Z) (n : nat) : Z :=
  match n with
  | O => 0
  | S n' => if hd 0 a =? hd 0 b then memcmp (tl a) (tl b) n' else hd 0 a - hd 0 b
  end.

(** [strlen] of services/memory.c; the terminator ends the scan. *)
Fixpoint strlen (s : list Z) : Z :=
  match s with
  | [] => 0
  | c :: s' => if c =? 0 then 0 else 1 + strlen s'
  end.

(** [strcmp] of services/memory.c. *)
Fixpoint strcmp (a b : list Z) : Z :=
  match a with
  | [] => 0 - hd 0 b
  | x :: a' => if truthy x && (x =? hd 0 b) then strcmp a' (tl b) else x - hd 0 b
  end.

(** [!memcmp(a,b,n)] and [!strcmp(a,b)]. *)
Definition memeq (a b : list Z) (n : Z) : bool := memcmp a b (Z.to_nat n) =? 0.
Definition streq (a b : list Z) : bool := strcmp a b =? 0.

(** The characters before the terminator. *)
Definition cstr (s : list Z) : list Z := take (Z.to_nat (strlen s)) s.

(** [zero(p,n)]: the first [n] bytes are all zero. *)
Fixpoint zero_from (p : list Z) (n : nat) : bool :=
  match n with
  | O => true
  | S n' => if truthy (hd 0 p) then false else zero_from (tl p) n'
  end.

Definition zero (p : list Z) (n : Z) : bool := zero_from p (Z.to_nat n).

(** Little-endian integers. *)
Fixpoint le_val (bs : list Z) : Z :=
  match bs with [] => 0 | b :: r => b + 256 * le_val r end.

Fixpoint le_bytes (n : nat) (v : Z) : list Z :=
  match n with O => [] | S n' => v mod 256 :: le_bytes n' (v / 256) end.

Definition get16 (b : list Z) (off : Z) : Z := le_val (slice off 2 b).
Definition get32 (b : list Z) (off : Z) : Z := le_val (slice off 4 b).
Definition get64 (b : list Z) (off : Z) : Z := le_val (slice off 8 b).
Definition put32 (b : list Z) (off v : Z) : list Z := blit off (le_bytes 4 v) b.
Definition put64 (b : list Z) (off v : Z) : list Z := blit off (le_bytes 8 v) b.

Definition bytes_ok (b : list Z) : Prop := Forall byte_ok b.

(** ** Lookup characterisation *)

Lemma zlen_nonneg {A} (l : list A) : 0 <= zlen l.
Proof. unfold zlen; lia. Qed.

Lemma zlen_app {A} (l k : list A) : zlen (l ++ k) = zlen l + zlen k.
Proof. unfold zlen. rewrite length_app. lia. Qed.

Lemma zlen_cons {A} (x : A) l : zlen (x :: l) = 1 + zlen l.
Proof. unfold zlen. simpl length. lia. Qed.

Lemma zlen_nil {A} : zlen (@nil A) = 0.
Proof. done. Qed.

Lemma zlen_fill v n : 0 <= n -> zlen (fill v n) = n.
Proof. unfold zlen, fill. rewrite length_replicate. lia. Qed.

Lemma zlen_slice off n b :
  0 <= off -> 0 <= n -> off + n <= zlen b -> zlen (slice off n b) = n.
Proof. unfold zlen, slice. rewrite length_take, length_drop. lia. Qed.

Lemma zlen_blit off s d :
  0 <= off -> off + zlen s <= zlen d -> zlen (blit off s d) = zlen d.
Proof.
  unfold zlen, blit. rewrite !length_app, length_take, length_drop. lia.
Qed.

Lemma zlen_le_bytes n v : zlen (le_bytes n v) = Z.of_nat n.
Proof.
  unfold zlen. f_equal. revert v. induction n; intros; simpl; auto.
Qed.

Lemma lookup_slice off n b i :
  0 <= off -> 0 <= n ->
  slice off n b !! i = if decide (Z.of_nat i < n) then b !! (Z.to_nat off + i)%nat else None.
Proof.
  intros. unfold slice. rewrite lookup_take. do 2 case_decide; try lia; [|done].
  by rewrite lookup_drop.
Qed.

Lemma lookup_blit off s d i :
  0 <= off -> off + zlen s <= zlen d ->
  blit off s d !! i =
    if decide (off <= Z.of_nat i < off + zlen s) then s !! (i - Z.to_nat off)%nat else d !! i.
Proof.
  unfold zlen. intros. unfold blit. case_decide.
  - rewrite lookup_app_r by (rewrite length_take; lia).
    rewrite lookup_app_l by (rewrite length_take; lia).
    f_equal. rewrite length_take. lia.
  - destruct (decide (Z.of_nat i < off)).
    + rewrite lookup_app_l by (rewrite length_take; lia).
      rewrite lookup_take. case_decide; [done|lia].
    + rewrite lookup_app_r by (rewrite length_take; lia).
      rewrite lookup_app_r by (rewrite length_take; lia).
      rewrite lookup_drop. f_equal. rewrite length_take. lia.
Qed.

(** ** Reading back what was written *)

Lemma slice_blit_same off n s d :
  0 <= off -> n = zlen s -> off + n <= zlen d -> slice off n (blit off s d) = s.
Proof.
  intros Ho -> Hd. pose proof (zlen_nonneg s). apply list_eq. intros i.
  rewrite lookup_slice, lookup_blit by lia. unfold zlen in *. repeat case_decide; try lia.
  - f_equal. lia.
  - symmetry. apply lookup_ge_None. lia.
Qed.

Lemma slice_blit_other off n o s d :
  0 <= off -> 0 <= n -> 0 <= o -> o + zlen s <= zlen d ->
  off + n <= o \/ o + zlen s <= off ->
  slice off n (blit o s d) = slice off n d.
Proof.
  intros. apply list_eq. intros i. rewrite !lookup_slice by lia.
  case_decide; [|done]. rewrite lookup_blit by lia. case_decide; [lia|done].
Qed.

(** A slice that lies inside the bytes just written. *)
Lemma slice_blit_inside off n o s d :
  0 <= o -> 0 <= n -> o <= off -> off + n <= o + zlen s -> o + zlen s <= zlen d ->
  slice off n (blit o s d) = slice (off - o) n s.
Proof.
  intros. apply list_eq. intros i. rewrite !lookup_slice by lia.
  case_decide; [|done]. rewrite lookup_blit by lia. case_decide; [|lia].
  f_equal. lia.
Qed.

Lemma slice_blit_within off n o s d :
  0 <= off -> off <= o -> o + zlen s <= off + n -> off + n <= zlen d ->
  slice off n (blit o s d) = blit (o - off) s (slice off n d).
Proof.
  intros H1 H2 H3 H4. pose proof (zlen_nonneg s). apply list_eq. intros i.
  rewrite lookup_slice, !lookup_blit by (rewrite ?zlen_slice by lia; lia).
  rewrite lookup_slice by lia. repeat case_decide; try lia; try done.
  - f_equal. lia.
Qed.

Lemma blit_app off s1 s2 d :
  0 <= off -> off + zlen s1 + zlen s2 <= zlen d ->
  blit off (s1 ++ s2) d = blit (off + zlen s1) s2 (blit off s1 d).
Proof.
  intros Ho Hd. pose proof (zlen_nonneg s1). pose proof (zlen_nonneg s2).
  assert (Hl : zlen (blit off s1 d) = zlen d) by (apply zlen_blit; lia).
  apply list_eq. intros i.
  rewrite (lookup_blit off (s1 ++ s2)), (lookup_blit (off + zlen s1)), lookup_blit
    by (rewrite ?zlen_app, ?Hl; lia).
  rewrite zlen_app. unfold zlen in *. repeat case_decide; try lia; try done.
  - rewrite lookup_app_r by lia. f_equal. lia.
  - rewrite lookup_app_l by lia. done.
Qed.

Lemma slice_slice o1 n1 o2 n2 b :
  0 <= o1 -> 0 <= o2 -> 0 <= n2 -> o2 + n2 <= n1 ->
  slice o2 n2 (slice o1 n1 b) = slice (o1 + o2) n2 b.
Proof.
  intros. apply list_eq. intros i. rewrite !lookup_slice by lia.
  repeat case_decide; try lia; [|done]. f_equal. lia.
Qed.

Lemma slice_all b n : n = zlen b -> slice 0 n b = b.
Proof.
  intros ->. unfold slice, zlen. rewrite Nat2Z.id. simpl. by rewrite firstn_all.
Qed.

Lemma slice_beyond b n : zlen b <= n -> slice 0 n b = b.
Proof. unfold slice, zlen. intros. apply take_ge. change (drop (Z.to_nat 0) b) with b. lia. Qed.

Lemma slice_app_l off n a b :
  0 <= off -> 0 <= n -> off + n <= zlen a -> slice off n (a ++ b) = slice off n a.
Proof.
  unfold zlen. intros. apply list_eq. intros i. rewrite !lookup_slice by lia.
  case_decide; [|done]. apply lookup_app_l. lia.
Qed.

Lemma slice_app_r off n a b :
  0 <= n -> zlen a <= off -> slice off n (a ++ b) = slice (off - zlen a) n b.
Proof.
  unfold zlen. intros. apply list_eq. intros i. rewrite !lookup_slice by lia.
  case_decide; [|done]. rewrite lookup_app_r by lia. f_equal. lia.
Qed.

Lemma slice_fill off n v m :
  0 <= off -> 0 <= n -> off + n <= m -> slice off n (fill v m) = fill v n.
Proof.
  intros. apply list_eq. intros i. rewrite lookup_slice by lia. unfold fill.
  case_decide.
  - rewrite !lookup_replicate_2 by lia. done.
  - symmetry. apply lookup_ge_None. rewrite length_replicate. lia.
Qed.

Lemma slice_split off n m b :
  0 <= off -> 0 <= n -> 0 <= m -> slice off (n + m) b = slice off n b ++ slice (off + n) m b.
Proof.
  intros. unfold slice. rewrite !Z2Nat.inj_add by lia.
  rewrite <-drop_drop, take_take_drop. done.
Qed.

Lemma at_blit_other off s d i :
  0 <= off -> 0 <= i -> off + zlen s <= zlen d -> i < off \/ off + zlen s <= i ->
  at_ (blit off s d) i = at_ d i.
Proof. intros. unfold at_. rewrite lookup_blit by lia. case_decide; [lia|done]. Qed.

Lemma at_blit_in off s d i :
  0 <= off -> off + zlen s <= zlen d -> off <= i < off + zlen s ->
  at_ (blit off s d) i = at_ s (i - off).
Proof.
  intros. unfold at_. rewrite lookup_blit by lia. case_decide; [|lia].
  do 2 f_equal. lia.
Qed.

Lemma at_slice off n b i :
  0 <= off -> 0 <= n -> 0 <= i < n -> at_ (slice off n b) i = at_ b (off + i).
Proof.
  intros. unfold at_. rewrite lookup_slice by lia. case_decide; [|lia].
  do 2 f_equal. lia.
Qed.

(** Two buffers of the same length that agree on every byte are equal. *)
Lemma buf_ext a b :
  zlen a = zlen b -> (forall i, 0 <= i < zlen a -> at_ a i = at_ b i) -> a = b.
Proof.
  unfold zlen, at_. intros Hl H. apply list_eq. intros i.
  destruct (decide (i < length a)%nat) as [Hi|Hi].
  - specialize (H (Z.of_nat i) ltac:(lia)). rewrite Nat2Z.id in H.
    destruct (lookup_lt_is_Some_2 a i) as [x Hx]; [done|].
    destruct (lookup_lt_is_Some_2 b i) as [y Hy]; [lia|].
    rewrite Hx, Hy in *. simpl in H. congruence.
  - rewrite !lookup_ge_None_2 by lia. done.
Qed.

(** ** The memory routines agree with the list operations *)

Lemma memcpy_blit dst src n :
  (n <= length src)%nat -> (n <= length dst)%nat ->
  memcpy dst src n = blit 0 (take n src) dst.
Proof.
  unfold blit. simpl. revert dst src.
  induction n as [|n IH]; intros [|d dst] [|s src] Hs Hd; simpl in *; try lia; try done.
  f_equal. by rewrite IH by lia.
Qed.

Lemma memset_blit dst c n :
  (n <= length dst)%nat -> memset dst c n = blit 0 (fill c (Z.of_nat n)) dst.
Proof.
  unfold blit, fill. simpl. rewrite Nat2Z.id, length_replicate. revert dst.
  induction n as [|n IH]; intros [|d dst] Hd; simpl in *; try lia; try done.
  f_equal. by rewrite IH by lia.
Qed.

Lemma memcmp_zero a b n :
  (n <= length a)%nat -> (n <= length b)%nat ->
  memcmp a b n = 0 <-> take n a = take n b.
Proof.
  revert a b. induction n as [|n IH]; intros [|x a] [|y b] Ha Hb; simpl in *; try lia;
    [done..|].
  destruct (Z.eqb_spec x y) as [->|Hne].
  - rewrite IH by lia. split; [congruence|]. by intros [= ->].
  - split; [lia|]. by intros [= -> _].
Qed.

Lemma memeq_spec a b n :
  0 <= n -> n <= zlen a -> n <= zlen b ->
  memeq a b n = true <-> slice 0 n a = slice 0 n b.
Proof.
  unfold memeq, slice, zlen. intros. rewrite Z.eqb_eq, memcmp_zero by lia. done.
Qed.

Lemma memcmp_refl a n : memcmp a a n = 0.
Proof. revert a. induction n; intros; simpl; [done|]. by rewrite Z.eqb_refl. Qed.

Lemma memeq_refl a n : memeq a a n = true.
Proof. unfold memeq. by rewrite memcmp_refl. Qed.

Lemma strlen_nonneg s : 0 <= strlen s.
Proof. induction s as [|c s IH]; simpl; [lia|]. destruct (c =? 0); lia. Qed.

Lemma strlen_le s : strlen s <= zlen s.
Proof.
  induction s as [|c s IH]; simpl; [unfold zlen; simpl; lia|].
  rewrite zlen_cons. pose proof (zlen_nonneg s). destruct (c =? 0); lia.
Qed.

Lemma cstr_cons c s : cstr (c :: s) = if c =? 0 then [] else c :: cstr s.
Proof.
  unfold cstr. simpl. destruct (c =? 0); [done|]. pose proof (strlen_nonneg s).
  replace (Z.to_nat (1 + strlen s)) with (S (Z.to_nat (strlen s))) by lia. done.
Qed.

Lemma strcmp_zero a : forall b, strcmp a b = 0 <-> cstr a = cstr b.
Proof.
  induction a as [|x a IH]; intros b; simpl.
  - destruct b as [|y b]; simpl; [done|]. rewrite cstr_cons. unfold cstr at 1; simpl.
    destruct (Z.eqb_spec y 0); split; intros; try done; lia.
  - rewrite cstr_cons. destruct b as [|y b]; simpl.
    + unfold cstr at 1; simpl. destruct (Z.eqb_spec x 0) as [->|]; simpl; [done|].
      unfold truthy. rewrite (proj2 (Z.eqb_neq x 0)) by done. simpl.
      split; [lia|done].
    + rewrite cstr_cons. unfold truthy.
      destruct (Z.eqb_spec x 0) as [->|Hx]; simpl.
      * destruct (Z.eqb_spec y 0) as [->|]; split; intros; try done; lia.
      * destruct (Z.eqb_spec x y) as [->|]; simpl.
        -- rewrite IH. rewrite (proj2 (Z.eqb_neq y 0)) by done.
           split; [congruence|]. by intros [= ->].
        -- split; [lia|]. destruct (y =? 0); [done|]. by intros [= -> _].
Qed.

Lemma streq_spec a b : streq a b = true <-> cstr a = cstr b.
Proof. unfold streq. rewrite Z.eqb_eq. apply strcmp_zero. Qed.

Lemma streq_refl a : streq a a = true.
Proof. by apply streq_spec. Qed.

Lemma streq_sym a b : streq a b = streq b a.
Proof.
  apply Bool.eq_iff_eq_true. rewrite !streq_spec. split; congruence.
Qed.

Lemma zero_from_spec p n :
  zero_from p n = true <-> (forall i, (i < n)%nat -> default 0 (p !! i) = 0).
Proof.
  revert p. induction n as [|n IH]; intros p; simpl; [split; [lia|done]|].
  destruct p as [|x p]; simpl.
  - rewrite IH. split; intros; done.
  - unfold truthy. destruct (Z.eqb_spec x 0) as [->|Hx]; simpl.
    + rewrite IH. split; intros H i Hi.
      * destruct i; [done|]. simpl. apply H. lia.
      * apply (H (S i)). lia.
    + split; [done|]. intros H. exfalso. apply Hx, (H O). lia.
Qed.

Lemma zero_spec p n :
  zero p n = true <-> (forall i, 0 <= i < n -> at_ p i = 0).
Proof.
  unfold zero, at_. rewrite zero_from_spec. split; intros H i Hi.
  - apply H. lia.
  - specialize (H (Z.of_nat i) ltac:(lia)). by rewrite Nat2Z.id in H.
Qed.

(** [zero] of a whole buffer means the buffer is the zero fill. *)
Lemma zero_fill p n : zlen p = n -> zero p n = true <-> p = fill 0 n.
Proof.
  intros Hl. pose proof (zlen_nonneg p). rewrite zero_spec. split.
  - intros H'. apply buf_ext; [rewrite zlen_fill; lia|]. intros i Hi.
    rewrite H' by lia. unfold at_, fill. rewrite lookup_replicate_2; [done|lia].
  - intros -> i Hi. unfold at_, fill. rewrite lookup_replicate_2; [done|].
    rewrite zlen_fill in *; lia.
Qed.

(** ** Little-endian round trips *)

Lemma le_bytes_ok n v : bytes_ok (le_bytes n v).
Proof.
  revert v. induction n; intros; simpl; constructor; [|apply IHn].
  unfold byte_ok. apply Z.mod_pos_bound. lia.
Qed.

Lemma le_val_bytes n v : 0 <= v < 256 ^ Z.of_nat n -> le_val (le_bytes n v) = v.
Proof.
  revert v. induction n as [|n IH]; intros v Hv; simpl in *; [lia|].
  rewrite Nat2Z.inj_succ, Z.pow_succ_r in Hv by lia.
  rewrite IH; [pose proof (Z.div_mod v 256); lia|].
  split; [apply Z.div_pos; lia|]. apply Z.div_lt_upper_bound; lia.
Qed.

Lemma le_bytes_val bs : bytes_ok bs -> le_bytes (length bs) (le_val bs) = bs.
Proof.
  induction 1 as [|b bs Hb _ IH]; simpl; [done|]. unfold byte_ok in Hb. f_equal.
  - rewrite (Z.mul_comm 256), Z_mod_plus_full. apply Z.mod_small. lia.
  - rewrite (Z.mul_comm 256), Z_div_plus_full, Z.div_small by lia. done.
Qed.

Lemma le_val_bound bs : bytes_ok bs -> 0 <= le_val bs < 256 ^ zlen bs.
Proof.
  unfold zlen. induction 1 as [|b bs Hb _ IH]; simpl length; simpl le_val; [done|].
  rewrite Nat2Z.inj_succ, Z.pow_succ_r by lia. unfold byte_ok in Hb. lia.
Qed.

Lemma le_bytes_mod n v : le_bytes n (v mod 256 ^ Z.of_nat n) = le_bytes n v.
Proof.
  revert v. induction n as [|n IH]; intros v; [done|].
  simpl le_bytes. rewrite Nat2Z.inj_succ, Z.pow_succ_r by lia.
  assert (0 < 256 ^ Z.of_nat n) by lia.
  f_equal.
  - rewrite Z.rem_mul_r by lia. rewrite Z.mul_comm, Z_mod_plus_full.
    apply Z.mod_mod. lia.
  - rewrite Z.rem_mul_r by lia. rewrite Z.mul_comm, Z_div_plus_full by lia.
    rewrite Z.div_small by (apply Z.mod_pos_bound; lia). simpl. apply IH.
Qed.

Lemma get32_put32 b off v :
  0 <= off -> off + 4 <= zlen b -> 0 <= v <= UINT32_MAX -> get32 (put32 b off v) off = v.
Proof.
  intros. unfold get32, put32. rewrite slice_blit_same by (rewrite ?zlen_le_bytes; lia).
  apply le_val_bytes. sflia.
Qed.

Lemma get64_put64 b off v :
  0 <= off -> off + 8 <= zlen b -> 0 <= v <= UINT64_MAX -> get64 (put64 b off v) off = v.
Proof.
  intros. unfold get64, put64. rewrite slice_blit_same by (rewrite ?zlen_le_bytes; lia).
  apply le_val_bytes. sflia.
Qed.

Lemma zlen_put32 b off v : 0 <= off -> off + 4 <= zlen b -> zlen (put32 b off v) = zlen b.
Proof. intros. unfold put32. apply zlen_blit; rewrite ?zlen_le_bytes; lia. Qed.

Lemma zlen_put64 b off v : 0 <= off -> off + 8 <= zlen b -> zlen (put64 b off v) = zlen b.
Proof. intros. unfold put64. apply zlen_blit; rewrite ?zlen_le_bytes; lia. Qed.

#[global] Arguments le_val : simpl never.
#[global] Arguments le_bytes : simpl never.
#[global] Arguments slice : simpl never.
#[global] Arguments blit : simpl never.
#[global] Arguments fill : simpl never.

(** ** Rewriting with buffers

    [buf] computes lengths and reads of buffers built by [blit], [fill] and
    [++]; the side conditions are arithmetic. *)

Create Rewrite HintDb buflen.
#[export] Hint Rewrite @zlen_app @zlen_cons @zlen_nil zlen_le_bytes : buflen.

Ltac blen :=
  repeat (autorewrite with buflen in * ||
    match goal with
    | |- context [zlen (fill ?v ?n)] => rewrite (zlen_fill v n) by sflia
    | |- context [zlen (blit ?o ?s ?d)] => rewrite (zlen_blit o s d) by blen
    | |- context [zlen (slice ?o ?n ?b)] => rewrite (zlen_slice o n b) by blen
    | |- context [zlen (put32 ?b ?o ?v)] => rewrite (zlen_put32 b o v) by blen
    | |- context [zlen (put64 ?b ?o ?v)] => rewrite (zlen_put64 b o v) by blen
    end); try sflia.

(** ** Buffers as concatenations

    Formats are written by a chain of [blit]s into a zeroed buffer and read by
    [slice]s; both become list equations once the buffer is a concatenation of
    its fields. *)

Lemma blit_skip off s x d : zlen x <= off -> blit off s (x ++ d) = x ++ blit (off - zlen x) s d.
Proof.
  unfold zlen, blit. intros H.
  rewrite take_app_ge, drop_app_ge by lia. rewrite <-app_assoc. repeat f_equal; lia.
Qed.

Lemma blit_head off s m c : off = 0 -> zlen m = zlen s -> blit off s (m ++ c) = s ++ c.
Proof.
  unfold zlen, blit. intros -> H. simpl. by rewrite drop_app_length' by lia.
Qed.

Lemma blit_over off s m : off = 0 -> zlen m = zlen s -> blit off s m = s.
Proof. intros H0 H. rewrite <-(app_nil_r m), blit_head by done. by rewrite app_nil_r. Qed.

Lemma slice_head off n x d : off = 0 -> n = zlen x -> slice off n (x ++ d) = x.
Proof. intros -> ->. unfold slice, zlen. rewrite Nat2Z.id. apply take_app_length. Qed.

Lemma slice_over off n x : off = 0 -> n = zlen x -> slice off n x = x.
Proof. intros -> ->. by apply slice_all. Qed.

Lemma fill_split v n m : 0 <= n -> 0 <= m -> fill v (n + m) = fill v n ++ fill v m.
Proof. intros. unfold fill. by rewrite <-replicate_add, Z2Nat.inj_add by lia. Qed.

Lemma at_skip i x d : zlen x <= i -> at_ (x ++ d) i = at_ d (i - zlen x).
Proof. unfold at_, zlen. intros. rewrite lookup_app_r by lia. do 2 f_equal. lia. Qed.

Lemma at_head i x d : i = 0 -> at_ ([x] ++ d) i = x.
Proof. by intros ->. Qed.

Lemma at_slice1 i b : 0 <= i < zlen b -> [at_ b i] = slice i 1 b.
Proof.
  unfold zlen, slice, at_. intros H.
  destruct (lookup_lt_is_Some_2 b (Z.to_nat i)) as [x Hx]; [lia|].
  rewrite Hx. erewrite drop_S by done. done.
Qed.

Lemma zero_of_fill n : 0 <= n -> zero (fill 0 n) n = true.
Proof. intros. apply zero_fill; [by apply zlen_fill|done]. Qed.

(** [fields] pushes reads and writes through a concatenation of fields. *)
Ltac fields :=
  repeat first
    [ rewrite blit_skip by (blen; lia) | rewrite blit_head by (blen; lia)
    | rewrite blit_over by (blen; lia)
    | rewrite slice_app_r by (blen; lia) | rewrite slice_head by (blen; lia)
    | rewrite slice_over by (blen; lia)
    | rewrite at_skip by (blen; lia) | rewrite at_head by (blen; lia) ].

(** A buffer that ends in zeros: the C string it holds is the part before. *)
Lemma cstr_padded s n : Forall (fun c => c <> 0) s -> cstr (s ++ fill 0 n) = s.
Proof.
  induction 1 as [|c s Hc _ IH]; simpl.
  - unfold fill. destruct (Z.to_nat n); reflexivity.
  - rewrite cstr_cons. by rewrite (proj2 (Z.eqb_neq c 0) Hc), IH.
Qed.

Lemma cstr_nonzero s : Forall (fun c => c <> 0) (cstr s).
Proof.
  induction s as [|c s IH]; [constructor|]. rewrite cstr_cons.
  destruct (Z.eqb_spec c 0); constructor; done.
Qed.

Lemma zlen_cstr s : zlen (cstr s) = strlen s.
Proof.
  pose proof (strlen_nonneg s). pose proof (strlen_le s).
  unfold cstr, zlen in *. rewrite length_take. lia.
Qed.

(** Checking a concrete buffer by evaluation. *)
Definition bytes_okb (b : list Z) : bool := forallb (fun x => (0 <=? x) && (x <? 256)) b.

Lemma bytes_okb_sound b : bytes_okb b = true -> bytes_ok b.
Proof.
  unfold bytes_okb, bytes_ok. rewrite forallb_forall, Forall_forall.
  intros H x Hx. specialize (H x Hx). unfold byte_ok. lia.
Qed.
