(* ===== verification/Abi.v ===== *)
(** * The kernel/service ABI

    Constants and structures of [include/sf.h] that every component shares:
    status codes, system call numbers, rights, limits, the IPC message and
    its byte layout, and the image-base predicate. *)

From S2P Require Import Prelude Bytes.

(** ** Address-space layout and limits *)

Definition SF_ABI : Z := 1.
Definition SF_PAGE : Z := 4096.
Definition SF_BASE : Z := 0x40000000.
Definition SF_IMAGE_MAX : Z := 0x200000.
Definition SF_PIE_MIN : Z := 0x44000000.
Definition SF_NATIVE_STATIC : Z := 0.
Definition SF_NATIVE_RELATIVE : Z := 1.
Definition SF_RELOCATION_MAX : Z := 256.
Definition SF_STACK : Z := 0x41010000.
Definition SF_ARGS : Z := 0x42000000.
Definition SF_BUNDLE : Z := 0x60000000.
Definition SF_DMA : Z := 0x50000000.
Definition SF_DMA_BYTES : Z := 65536.
Definition SF_MAX_TASKS : nat := 12.
Definition SF_MSG_BYTES : Z := 256.
Definition SF_ARGUMENT_MAX : Z := 8.
Definition SF_ENVIRONMENT_MAX : Z := 8.
Definition SF_ARGUMENT_BYTES : Z := 512.
Definition SF_TASK_RUNNING : Z := 0x100000000.

(** [sf_image_base_valid]: unset, the static base, or a 2 MiB aligned base
    in the relocatable arena below the DMA window. *)
Definition sf_image_base_valid (base : Z) : bool :=
  (base =? 0) || (base =? SF_BASE) ||
  ((SF_PIE_MIN <=? base) && (base <=? SF_DMA - SF_IMAGE_MAX)
   && (Z.land base (SF_IMAGE_MAX - 1) =? 0)).

(** ** Status codes *)

Definition SF_OK : Z := 0.
Definition SF_INVALID : Z := -1.
Definition SF_DENIED : Z := -2.
Definition SF_BAD_FORMAT : Z := -3.
Definition SF_BAD_SIGNATURE : Z := -4.
Definition SF_ABI_MISMATCH : Z := -5.
Definition SF_DEPENDENCY : Z := -6.
Definition SF_BUSY : Z := -7.
Definition SF_DRAINING : Z := -8.
Definition SF_TIMEOUT : Z := -9.
Definition SF_DEVICE_GONE : Z := -10.
Definition SF_NOT_SEEKABLE : Z := -11.
Definition SF_STALE_HANDLE : Z := -12.
Definition SF_REVOKED : Z := -13.
Definition SF_RESTART_REQUIRED : Z := -14.
Definition SF_WOULD_BLOCK : Z := -15.
Definition SF_NOT_FOUND : Z := -16.
Definition SF_READ_ONLY : Z := -17.
Definition SF_NO_SPACE : Z := -18.
Definition SF_EVENT_OVERFLOW : Z := -19.
Definition SF_COMMIT_UNCERTAIN : Z := -20.
Definition SF_VERSION_REJECTED : Z := -21.

#[export] Hint Unfold SF_ABI SF_PAGE SF_BASE SF_IMAGE_MAX SF_PIE_MIN
  SF_NATIVE_STATIC SF_NATIVE_RELATIVE SF_RELOCATION_MAX SF_STACK SF_ARGS
  SF_BUNDLE SF_DMA SF_DMA_BYTES SF_MAX_TASKS SF_MSG_BYTES SF_ARGUMENT_MAX
  SF_ENVIRONMENT_MAX SF_ARGUMENT_BYTES SF_TASK_RUNNING SF_OK SF_INVALID
  SF_DENIED SF_BAD_FORMAT SF_BAD_SIGNATURE SF_ABI_MISMATCH SF_DEPENDENCY
  SF_BUSY SF_DRAINING SF_TIMEOUT SF_DEVICE_GONE SF_NOT_SEEKABLE
  SF_STALE_HANDLE SF_REVOKED SF_RESTART_REQUIRED SF_WOULD_BLOCK SF_NOT_FOUND
  SF_READ_ONLY SF_NO_SPACE SF_EVENT_OVERFLOW SF_COMMIT_UNCERTAIN
  SF_VERSION_REJECTED : sf.

(** ** Devices, system calls, rights and operations *)

Definition SF_DEVICE_WRITE : Z := 1.
Definition SF_DEVICE_ISOLATED : Z := 2.
Definition SF_DEVICE_MODERN : Z := 4.
Definition SF_DEVICE_MMIO : Z := 0x51000000.

Definition SYS_EXIT : Z := 0.
Definition SYS_YIELD : Z := 1.
Definition SYS_LOG : Z := 2.
Definition SYS_TICKS : Z := 3.
Definition SYS_EP_CREATE : Z := 4.
Definition SYS_SEND : Z := 5.
Definition SYS_RECV : Z := 6.
Definition SYS_SPAWN : Z := 7.
Definition SYS_KILL : Z := 8.
Definition SYS_TASK_STATUS : Z := 9.
Definition SYS_CONSOLE_READ : Z := 10.
Definition SYS_SHUTDOWN : Z := 11.
Definition SYS_CAP_DERIVE : Z := 12.
Definition SYS_CAP_CLOSE : Z := 13.
Definition SYS_MAP_TEST : Z := 14.
Definition SYS_CAP_REVOKE : Z := 15.
Definition SYS_PCI_READ : Z := 16.
Definition SYS_PORT_IO : Z := 17.
Definition SYS_DEVICE_RELEASE : Z := 18.
Definition SYS_DMA_STATUS : Z := 19.
Definition SYS_TASK_PRIORITY : Z := 20.
Definition SYS_TASK_CAP_LIMIT : Z := 21.
Definition SYS_SEND_CANCEL : Z := 22.
Definition SYS_SPAWN_LIMITED : Z := 23.
Definition SYS_TASK_PAGE_LIMIT : Z := 24.
Definition SYS_IPC_STATS : Z := 25.

Definition SF_PRIORITY_MIN : Z := 0.
Definition SF_PRIORITY_DEFAULT : Z := 1.
Definition SF_PRIORITY_MAX : Z := 3.
Definition SF_PRIORITY_AGING_TICKS : Z := 4.
Definition SF_PRIORITY_QUERY : Z := 0.
Definition SF_PRIORITY_SET : Z := 1.
Definition SF_CAP_LIMIT_MAX : Z := 32.
Definition SF_LIMIT_QUERY : Z := 0.
Definition SF_LIMIT_SET : Z := 1.
Definition SF_LIMIT_USED : Z := 2.
Definition SF_PAGE_LIMIT_MAX : Z := 4096.
Definition SF_IPC_STATS_VERSION : Z := 1.

Definition RIGHT_SEND : Z := 1.
Definition RIGHT_RECV : Z := 2.
Definition RIGHT_DELEGATE : Z := 4.

Definition OP_ECHO : Z := 1.
Definition OP_ECHO_DIAGNOSTIC : Z := 2.
Definition OP_OPEN : Z := 10.
Definition OP_READ : Z := 11.
Definition OP_WRITE : Z := 12.
Definition OP_CLOSE : Z := 13.
Definition OP_SEEK : Z := 14.
Definition OP_POLL : Z := 15.
Definition OP_CREATE : Z := 16.
Definition OP_DESCRIBE : Z := 17.
Definition OP_ENUMERATE : Z := 18.
Definition OP_OPENAT : Z := 19.
Definition OP_ROOT : Z := 20.
Definition OP_TRUNCATE : Z := 21.
Definition OP_UNLINK : Z := 22.
Definition OP_STAT : Z := 23.
Definition OP_RMDIR : Z := 24.
Definition OP_DUP : Z := 25.
Definition OP_PREAD : Z := 26.
Definition OP_HELLO : Z := 30.
Definition OP_NATIVE_PREPARE : Z := 40.
Definition OP_NATIVE_STAGE : Z := 41.
Definition OP_NATIVE_HEALTH : Z := 42.
Definition OP_NATIVE_DIAGNOSTIC : Z := 43.
Definition OP_BLOCK_INFO : Z := 50.
Definition OP_BLOCK_READ : Z := 51.
Definition OP_BLOCK_WRITE : Z := 52.
Definition OP_BLOCK_STOP : Z := 53.
Definition OP_BLOCK_FLUSH : Z := 54.
Definition OP_BLOCK_WRITE_RANGE : Z := 55.
Definition OP_BLOCK_DMA_PROBE : Z := 56.
Definition OP_NET_INFO : Z := 60.
Definition OP_NET_PING : Z := 61.
Definition OP_NET_UDP : Z := 62.
Definition OP_NET_TCP : Z := 63.

Definition SF_FILE_READ_ONLY : Z := 1.
Definition SF_FILE_MOUNTED : Z := 2.
Definition SF_FILE_SEEKABLE : Z := 4.

#[export] Hint Unfold SF_DEVICE_WRITE SF_DEVICE_ISOLATED SF_DEVICE_MODERN
  SF_DEVICE_MMIO SF_PRIORITY_MIN SF_PRIORITY_DEFAULT SF_PRIORITY_MAX
  SF_PRIORITY_AGING_TICKS SF_PRIORITY_QUERY SF_PRIORITY_SET SF_CAP_LIMIT_MAX
  SF_LIMIT_QUERY SF_LIMIT_SET SF_LIMIT_USED SF_PAGE_LIMIT_MAX
  SF_IPC_STATS_VERSION RIGHT_SEND RIGHT_RECV RIGHT_DELEGATE : sf.

(** ** The IPC message

    [SfIpcHeader] (40 bytes) followed by status, handle, offset, length,
    mode and a 256-byte data area: [sizeof(SfMessage)] is 328. *)

Record SfIpcHeader := MkHeader {
  h_size : Z; protocol_major : Z; protocol_minor : Z; opcode : Z; h_flags : Z;
  request_id : Z; payload_bytes : Z; cap_count : Z; deadline_ns : Z }.

#[export] Instance SfIpcHeader_eta : Settable SfIpcHeader := fun h =>
  MkHeader (h_size h) (protocol_major h) (protocol_minor h) (opcode h) (h_flags h)
    (request_id h) (payload_bytes h) (cap_count h) (deadline_ns h).

Record SfMessage := MkMessage {
  m_h : SfIpcHeader; m_status : Z; m_handle : Z; m_offset : Z;
  m_length : Z; m_mode : Z; m_data : list Z }.

#[export] Instance SfMessage_eta : Settable SfMessage := fun m =>
  MkMessage (m_h m) (m_status m) (m_handle m) (m_offset m) (m_length m) (m_mode m)
    (m_data m).

Definition sizeof_SfMessage : Z := 328.

Definition zero_header : SfIpcHeader := MkHeader 0 0 0 0 0 0 0 0 0.
Definition zero_message : SfMessage := MkMessage zero_header 0 0 0 0 0 (fill 0 256).

#[export] Instance SfMessage_inhabited : Inhabited SfMessage := populate zero_message.

(** The memory image of a message (x86-64 layout, no padding). *)
Definition message_bytes (m : SfMessage) : list Z :=
  let h := m_h m in
  le_bytes 4 (h_size h) ++ le_bytes 2 (protocol_major h) ++ le_bytes 2 (protocol_minor h)
  ++ le_bytes 4 (opcode h) ++ le_bytes 4 (h_flags h) ++ le_bytes 8 (request_id h)
  ++ le_bytes 4 (payload_bytes h) ++ le_bytes 4 (cap_count h) ++ le_bytes 8 (deadline_ns h)
  ++ le_bytes 8 (m_status m) ++ le_bytes 8 (m_handle m) ++ le_bytes 8 (m_offset m)
  ++ le_bytes 4 (m_length m) ++ le_bytes 4 (m_mode m) ++ m_data m.

Definition message_of_bytes (b : list Z) : SfMessage :=
  MkMessage
    (MkHeader (get32 b 0) (get16 b 4) (get16 b 6) (get32 b 8) (get32 b 12) (get64 b 16)
       (get32 b 24) (get32 b 28) (get64 b 32))
    (s64 (get64 b 40)) (get64 b 48) (get64 b 56) (get32 b 64) (get32 b 68) (slice 72 256 b).

(** Every field within its C width. *)
Definition message_ok (m : SfMessage) : Prop :=
  let h := m_h m in
  u32_ok (h_size h) /\ 0 <= protocol_major h <= UINT16_MAX /\ 0 <= protocol_minor h <= UINT16_MAX
  /\ u32_ok (opcode h) /\ u32_ok (h_flags h) /\ u64_ok (request_id h) /\ u32_ok (payload_bytes h)
  /\ u32_ok (cap_count h) /\ u64_ok (deadline_ns h)
  /\ - 2 ^ 63 <= m_status m < 2 ^ 63 /\ u64_ok (m_handle m) /\ u64_ok (m_offset m)
  /\ u32_ok (m_length m) /\ u32_ok (m_mode m) /\ zlen (m_data m) = 256 /\ bytes_ok (m_data m).

Lemma zlen_message_bytes m : zlen (m_data m) = 256 -> zlen (message_bytes m) = sizeof_SfMessage.
Proof. intros H. unfold message_bytes, sizeof_SfMessage. blen. Qed.

Lemma s64_roundtrip v : - 2 ^ 63 <= v < 2 ^ 63 -> s64 (le_val (le_bytes 8 v)) = v.
Proof.
  intros Hv. rewrite <-le_bytes_mod. rewrite le_val_bytes by (apply Z.mod_pos_bound; lia).
  unfold s64. change (256 ^ Z.of_nat 8) with (2 ^ 64).
  rewrite Z.add_mod_idemp_l by lia. rewrite Z.mod_small by lia. lia.
Qed.

(** A message survives the copy through user memory unchanged. *)
Lemma message_roundtrip m : message_ok m -> message_of_bytes (message_bytes m) = m.
Proof.
  unfold message_ok. intros (?&?&?&?&?&?&?&?&?&?&?&?&?&?&Hl&?).
  destruct m as [[]]; cbn [m_h h_size protocol_major protocol_minor opcode h_flags request_id
    payload_bytes cap_count deadline_ns m_status m_handle m_offset m_length m_mode m_data] in *.
  unfold message_of_bytes, message_bytes, get16, get32, get64.
  cbn [m_h h_size protocol_major protocol_minor opcode h_flags request_id
    payload_bytes cap_count deadline_ns m_status m_handle m_offset m_length m_mode m_data].
  repeat match goal with
  | |- context [slice ?o ?n (le_bytes ?k ?v ++ ?r)] =>
      first
        [ rewrite (slice_app_l o n (le_bytes k v) r) by (rewrite ?zlen_le_bytes; simpl; lia);
          rewrite (slice_all (le_bytes k v) n) by (rewrite ?zlen_le_bytes; simpl; lia)
        | rewrite (slice_app_r o n (le_bytes k v) r) by (rewrite ?zlen_le_bytes; simpl; lia);
          rewrite (zlen_le_bytes k v);
          match goal with |- context [slice (?a - Z.of_nat ?c) n r] =>
            let z := eval compute in (a - Z.of_nat c) in change (a - Z.of_nat c) with z end ]
  end.
  rewrite slice_all by lia. rewrite s64_roundtrip by lia.
  repeat (rewrite le_val_bytes by (simpl; sflia)). done.
Qed.
