(* ===== verification/Sched.v ===== *)
(** * Scheduling policy and process identifiers

    [kernel/sched_policy.c] ([sf_sched_pick], priorities with waiting-time
    aging and round robin among equals) and [kernel/pid.c] ([sf_pid_take]). *)

From S2P Require Import Prelude Bytes Abi.

(** ** Process identifiers *)

Definition SF_PID_MAX : Z := 0x7fffffff.

(** [sf_pid_take]: the argument is the counter the pointer designates, [None]
    for a null pointer; the result pairs the return value with the counter. *)
Definition sf_pid_take (next : option Z) : Z * option Z :=
  match next with
  | None => (SF_INVALID, None)
  | Some n =>
      let pid := n in
      if (pid =? 0) || (SF_PID_MAX <? pid) then (SF_NO_SPACE, Some n)
      else (pid, Some (u32 (pid + 1)))
  end.

(** [n] successive calls on one counter: the values returned. *)
Fixpoint pid_takes (n : nat) (next : option Z) : list Z :=
  match n with
  | O => []
  | S n' => let '(r, next') := sf_pid_take next in r :: pid_takes n' next'
  end.

(** ** The pick *)

Record SfSchedEntry := MkEntry { e_ready_since : Z; e_priority : Z; e_ready : bool }.

#[export] Instance SfSchedEntry_inhabited : Inhabited SfSchedEntry :=
  populate (MkEntry 0 0 false).

(** The effective level of an entry: base priority plus one level for every
    four ticks spent ready, saturating at the maximum. *)
Definition sched_score (now : Z) (e : SfSchedEntry) : Z :=
  let age := if e_ready_since e <=? now then now - e_ready_since e else 0 in
  let boost := age / SF_PRIORITY_AGING_TICKS in
  if SF_PRIORITY_MAX - e_priority e <=? boost then SF_PRIORITY_MAX
  else u32 (e_priority e + u32 boost).

(** The test [!e->ready||e->priority>SF_PRIORITY_MAX] that skips an entry. *)
Definition sched_eligible (e : SfSchedEntry) : bool :=
  e_ready e && (e_priority e <=? SF_PRIORITY_MAX).

(** Loop state: [selected] and [best]. *)
Definition pick_step (entries : list SfSchedEntry) (count current now : Z)
    (k : nat) (s : Z * Z) : Z * Z :=
  let step := Z.of_nat k + 1 in
  let i := (current + step) mod count in
  let e := entries !!! Z.to_nat i in
  if negb (sched_eligible e) then s
  else
    let score := sched_score now e in
    if (fst s <? 0) || (snd s <? score) then (i, score) else s.

Definition sf_sched_pick (entries : option (list SfSchedEntry)) (count current now : Z) : Z :=
  match entries with
  | None => -1
  | Some es =>
      if (count =? 0) || (Z.of_nat SF_MAX_TASKS <? count) || (current <? -1) || (count <=? current)
      then -1
      else fst (loop (Z.to_nat count) (pick_step es count current now) (-1, 0))
  end.

(** ** Correctness of the pick *)

(** Number of slots the traversal visits before slot [i]. *)
Definition rr_distance (count current i : Z) : Z := (i - current - 1) mod count.

Section Pick.
Context (es : list SfSchedEntry) (count current now : Z).
Hypothesis Hcount : 0 < count <= Z.of_nat SF_MAX_TASKS.
Hypothesis Hcur : -1 <= current < count.

Definition slot (k : nat) : Z := (current + (Z.of_nat k + 1)) mod count.
Definition entry (i : Z) : SfSchedEntry := es !!! Z.to_nat i.

(** What the loop knows after visiting the first [k] slots. *)
Definition pick_inv (k : nat) (s : Z * Z) : Prop :=
  match decide (fst s < 0) with
  | left _ => s = (-1, 0) /\ forall j, (j < k)%nat -> sched_eligible (entry (slot j)) = false
  | right _ =>
      exists w, (w < k)%nat /\ fst s = slot w /\ sched_eligible (entry (slot w)) = true
      /\ snd s = sched_score now (entry (slot w))
      /\ (forall j, (j < k)%nat -> sched_eligible (entry (slot j)) = true ->
            sched_score now (entry (slot j)) <= snd s)
      /\ (forall j, (j < w)%nat -> sched_eligible (entry (slot j)) = true ->
            sched_score now (entry (slot j)) < snd s)
  end.

Lemma slot_range k : 0 <= slot k < count.
Proof using Hcount. apply Z.mod_pos_bound. lia. Qed.

Lemma pick_step_inv k s :
  pick_inv k s -> pick_inv (S k) (pick_step es count current now k s).
Proof using Hcount.
  unfold pick_step. fold (slot k) (entry (slot k)).
  destruct s as [sel best]. unfold pick_inv; cbn [fst snd].
  destruct (sched_eligible (entry (slot k))) eqn:He; cbn [negb fst snd].
  - case_decide as Hs.
    + intros [[= -> ->] Hnone]. pose proof (slot_range k). cbn.
      case_decide; [cbn in *; lia|].
      exists k. repeat split; auto with lia.
      * intros j Hj Hej. destruct (decide (j = k)) as [->|]; [lia|].
        rewrite Hnone in Hej; [done|lia].
      * intros j Hj Hej. rewrite Hnone in Hej; done.
    + intros (w & Hw & -> & Hew & -> & Hmax & Hfirst).
      pose proof (slot_range k). pose proof (slot_range w).
      destruct (Z.ltb_spec (slot w) 0); [lia|]. cbn [orb].
      destruct (Z.ltb_spec (sched_score now (entry (slot w)))
                  (sched_score now (entry (slot k)))) as [Hlt|Hge]; cbn [fst snd].
      * case_decide; [lia|]. exists k. repeat split; auto with lia.
        -- intros j Hj Hej. destruct (decide (j = k)) as [->|]; [lia|].
           etransitivity; [apply Hmax; [lia|done]|lia].
        -- intros j Hj Hej. eapply Z.le_lt_trans; [apply Hmax; [lia|done]|lia].
      * case_decide; [lia|]. exists w. repeat split; auto with lia.
        intros j Hj Hej. destruct (decide (j = k)) as [->|]; [lia|apply Hmax; [lia|done]].
  - case_decide as Hs.
    + intros [-> Hnone]. split; [done|]. intros j Hj.
      destruct (decide (j = k)) as [->|]; [done|apply Hnone; lia].
    + intros (w & Hw & Hsel & Hew & Hb & Hmax & Hfirst).
      exists w. repeat split; auto with lia.
      intros j Hj Hej. destruct (decide (j = k)) as [->|]; [congruence|apply Hmax; [lia|done]].
Qed.

Lemma pick_loop_inv :
  pick_inv (Z.to_nat count) (loop (Z.to_nat count) (pick_step es count current now) (-1, 0)).
Proof using Hcount.
  apply (loop_inv pick_inv).
  - unfold pick_inv. simpl. split; [done|lia].
  - intros j s _. apply pick_step_inv.
Qed.

Lemma sf_sched_pick_unfold :
  sf_sched_pick (Some es) count current now =
  fst (loop (Z.to_nat count) (pick_step es count current now) (-1, 0)).
Proof using Hcount Hcur.
  unfold sf_sched_pick. destruct (Z.eqb_spec count 0); [lia|].
  destruct (Z.ltb_spec (Z.of_nat SF_MAX_TASKS) count); [lia|].
  destruct (Z.ltb_spec current (-1)); [lia|].
  destruct (Z.leb_spec count current); [lia|]. done.
Qed.

(** Every slot is visited once, at its round-robin distance. *)
Lemma slot_of_distance i :
  0 <= i < count -> slot (Z.to_nat (rr_distance count current i)) = i.
Proof using Hcount.
  intros Hi. unfold slot, rr_distance.
  pose proof (Z.mod_pos_bound (i - current - 1) count).
  rewrite Z2Nat.id by lia.
  replace (current + ((i - current - 1) mod count + 1))
    with ((i - current - 1) mod count + (current + 1)) by lia.
  rewrite Z.add_mod_idemp_l by lia.
  replace (i - current - 1 + (current + 1)) with i by lia.
  apply Z.mod_small. lia.
Qed.

Lemma distance_of_slot w :
  (w < Z.to_nat count)%nat -> rr_distance count current (slot w) = Z.of_nat w.
Proof using Hcount.
  intros Hw. unfold rr_distance, slot.
  replace ((current + (Z.of_nat w + 1)) mod count - current - 1)
    with ((current + (Z.of_nat w + 1)) mod count + (- current - 1)) by lia.
  rewrite Z.add_mod_idemp_l by lia.
  replace (current + (Z.of_nat w + 1) + (- current - 1)) with (Z.of_nat w) by lia.
  apply Z.mod_small. lia.
Qed.

Lemma distance_range i : 0 <= rr_distance count current i < count.
Proof using Hcount. apply Z.mod_pos_bound. lia. Qed.
End Pick.

(** The result of the pick, in terms of scores and traversal order. *)
Lemma sched_pick_cases es count current now :
  0 < count <= Z.of_nat SF_MAX_TASKS -> -1 <= current < count ->
  let r := sf_sched_pick (Some es) count current now in
  (r = -1 /\ forall i, 0 <= i < count -> sched_eligible (entry es i) = false) \/
  (0 <= r < count /\ sched_eligible (entry es r) = true /\
   forall i, 0 <= i < count -> sched_eligible (entry es i) = true ->
     sched_score now (entry es i) < sched_score now (entry es r) \/
     (sched_score now (entry es i) = sched_score now (entry es r) /\
      rr_distance count current r <= rr_distance count current i)).
Proof.
  intros Hc Hcur. cbv zeta. rewrite (sf_sched_pick_unfold es count current now Hc Hcur).
  pose proof (pick_loop_inv es count current now Hc) as Hinv.
  destruct (loop _ _ _) as [sel best]. unfold pick_inv in Hinv. cbn [fst snd] in *.
  case_decide as Hs.
  - left. destruct Hinv as [[= -> ->] Hnone]. split; [done|]. intros i Hi.
    rewrite <-(slot_of_distance count current Hc i Hi).
    apply Hnone. pose proof (distance_range count current Hc i). lia.
  - right. destruct Hinv as (w & Hw & -> & Hew & -> & Hmax & Hfirst).
    split; [apply slot_range; lia|]. split; [done|]. intros i Hi Hei.
    pose proof (distance_range count current Hc i) as Hd.
    pose proof (slot_of_distance count current Hc i Hi) as Hsd.
    set (k := Z.to_nat (rr_distance count current i)) in *.
    rewrite (distance_of_slot count current Hc w Hw).
    rewrite <-Hsd in Hei |- *. destruct (decide (k < w)%nat) as [Hk|Hk].
    + left. by apply Hfirst.
    + assert (sched_score now (entry es (slot count current k))
              <= sched_score now (entry es (slot count current w))) as Hle
        by (apply Hmax; [unfold k; lia|done]).
      apply Z.le_lteq in Hle as [Hlt|Heq]; [by left|right].
      split; [done|]. rewrite distance_of_slot by (try done; unfold k; lia). lia.
Qed.

(** C23. The scheduler never idles while a task can run, and otherwise picks a
    ready task of the highest effective level, the first such task in
    round-robin order after the current one. *)
Theorem sched_pick_optimal es count current now :
  0 < count <= Z.of_nat SF_MAX_TASKS -> -1 <= current < count ->
  let r := sf_sched_pick (Some es) count current now in
  (r = -1 <-> forall i, 0 <= i < count -> sched_eligible (entry es i) = false) /\
  (r <> -1 ->
   0 <= r < count /\ sched_eligible (entry es r) = true /\
   forall i, 0 <= i < count -> sched_eligible (entry es i) = true ->
     sched_score now (entry es i) < sched_score now (entry es r) \/
     (sched_score now (entry es i) = sched_score now (entry es r) /\
      rr_distance count current r <= rr_distance count current i)).
Proof.
  intros Hc Hcur r. pose proof (sched_pick_cases es count current now Hc Hcur) as Hcase.
  fold r in Hcase. destruct Hcase as [[Hr Hn]|(Hr & He & Hb)].
  - split; [done|]. congruence.
  - split; [|done]. split; [lia|]. intros Hn. rewrite Hn in He by done. done.
Qed.

Lemma sched_pick_optimal_witness :
  sf_sched_pick (Some [MkEntry 5 1 true; MkEntry 0 0 true; MkEntry 9 3 false]) 3 0 9 = 1 /\
  (let es := [MkEntry 5 1 true; MkEntry 0 0 true; MkEntry 9 3 false] in
   sched_eligible (entry es 1) = true).
Proof.
  split; [reflexivity|]. cbv zeta.
  apply (sched_pick_optimal [MkEntry 5 1 true; MkEntry 0 0 true; MkEntry 9 3 false] 3 0 9);
    [sflia|lia|vm_compute; congruence].
Defined.

(** ** Freedom from starvation *)

(** An entry that has waited long enough to reach the top level. *)
Definition fully_aged (now : Z) (e : SfSchedEntry) : Prop :=
  e_ready e = true /\ 0 <= e_priority e <= SF_PRIORITY_MAX /\
  SF_PRIORITY_AGING_TICKS * (SF_PRIORITY_MAX - e_priority e) <= now - e_ready_since e.

Lemma sched_score_le now e : u32_ok (e_priority e) -> sched_eligible e = true ->
  sched_score now e <= SF_PRIORITY_MAX.
Proof.
  unfold sched_score, sched_eligible. intros Hp He. autounfold with sf in *.
  set (age := if (e_ready_since e <=? now) then now - e_ready_since e else 0).
  destruct (Z.leb_spec (3 - e_priority e) (age / 4)); [lia|].
  assert (0 <= age / 4) by (apply Z.div_pos; subst age; destruct (Z.leb_spec (e_ready_since e) now); lia).
  rewrite (u32_small (age / 4)) by lia. rewrite u32_small by lia. lia.
Qed.

Lemma sched_score_aged now e : fully_aged now e ->
  sched_eligible e = true /\ sched_score now e = SF_PRIORITY_MAX.
Proof.
  unfold fully_aged, sched_eligible, sched_score. intros (-> & Hp & Hage).
  autounfold with sf in *. split; [lia|].
  destruct (Z.leb_spec (e_ready_since e) now); [|lia].
  destruct (Z.leb_spec (3 - e_priority e) ((now - e_ready_since e) / 4)) as [|Hlt]; [done|].
  pose proof (Z.div_mod (now - e_ready_since e) 4).
  pose proof (Z.mod_pos_bound (now - e_ready_since e) 4). lia.
Qed.

(** A task at the top level is either picked or passed by a task strictly
    closer in traversal order. *)
Lemma sched_pick_closer es count current now j :
  0 < count <= Z.of_nat SF_MAX_TASKS -> -1 <= current < count -> 0 <= j < count ->
  Forall (fun e => u32_ok (e_priority e)) es -> fully_aged now (entry es j) ->
  let r := sf_sched_pick (Some es) count current now in
  0 <= r < count /\ (r = j \/ rr_distance count current r < rr_distance count current j).
Proof.
  intros Hc Hcur Hj Hp Haged. cbv zeta.
  destruct (sched_score_aged now _ Haged) as [Hej Hsj].
  destruct (sched_pick_cases es count current now Hc Hcur) as [[_ Hn]|(Hr & He & Hb)].
  { rewrite Hn in Hej; done. }
  split; [done|]. set (r := sf_sched_pick _ _ _ _) in *.
  destruct (decide (r = j)) as [|Hne]; [by left|right].
  assert (Hp' : u32_ok (e_priority (entry es r))).
  { unfold entry. destruct (es !! Z.to_nat r) as [e|] eqn:Hl.
    - rewrite (list_lookup_total_correct _ _ _ Hl). exact (Forall_lookup_1 _ _ _ _ Hp Hl).
    - rewrite list_lookup_total_alt, Hl. simpl. sflia. }
  destruct (Hb j Hj Hej) as [Hlt|[_ Hle]].
  - pose proof (sched_score_le now _ Hp' He). lia.
  - assert (rr_distance count current r <> rr_distance count current j); [|lia].
    intros Heq. apply Hne.
    rewrite <-(slot_of_distance count current Hc r Hr), Heq.
    by apply slot_of_distance.
Qed.

(** A sequence of scheduling decisions: each round has its own entry table
    and clock, and starts from the task the previous round selected. *)
Fixpoint sched_rounds (count current : Z) (rounds : list (list SfSchedEntry * Z)) : list Z :=
  match rounds with
  | [] => []
  | (es, now) :: rest =>
      let r := sf_sched_pick (Some es) count current now in
      r :: sched_rounds count r rest
  end.

Lemma rr_distance_advance count cur r j :
  0 < count -> -1 <= cur < count -> 0 <= r < count -> 0 <= j < count ->
  rr_distance count cur r < rr_distance count cur j ->
  rr_distance count r j < rr_distance count cur j.
Proof.
  unfold rr_distance. intros Hc Hcur Hr Hj Hlt.
  pose proof (Z.mod_pos_bound (r - cur - 1) count ltac:(lia)) as Hr'.
  replace (j - r - 1) with ((j - cur - 1) - (r - cur - 1) - 1) by lia.
  rewrite Zminus_mod, (Zminus_mod (j - cur - 1)). rewrite Zminus_mod_idemp_l, Zminus_mod_idemp_r.
  pose proof (Z.mod_pos_bound (j - cur - 1) count ltac:(lia)).
  rewrite Z.mod_small by lia. lia.
Qed.

Lemma sched_rounds_reach count j rounds : forall current,
  0 < count <= Z.of_nat SF_MAX_TASKS -> -1 <= current < count -> 0 <= j < count ->
  rr_distance count current j < zlen rounds ->
  Forall (fun '(es, now) => Forall (fun e => u32_ok (e_priority e)) es
                            /\ fully_aged now (entry es j)) rounds ->
  In j (sched_rounds count current rounds).
Proof.
  induction rounds as [|[es now] rest IH]; intros current Hc Hcur Hj Hd Hall.
  { pose proof (distance_range count current Hc j). unfold zlen in Hd. simpl in Hd. lia. }
  apply Forall_cons_1 in Hall as [[Hp Haged] Hrest]. cbn [sched_rounds In].
  destruct (sched_pick_closer es count current now j Hc Hcur Hj Hp Haged) as [Hr [->|Hlt]];
    [by left|right].
  rewrite zlen_cons in Hd. apply IH; try done; [lia|].
  pose proof (rr_distance_advance count current _ j ltac:(lia) Hcur Hr Hj Hlt). lia.
Qed.

(** C24. No starvation: a task that stays ready and has aged to the top level is
    selected within [count] consecutive scheduling decisions, whatever the
    other tasks do. *)
Theorem sched_no_starvation count current j rounds :
  0 < count <= Z.of_nat SF_MAX_TASKS -> -1 <= current < count -> 0 <= j < count ->
  zlen rounds = count ->
  Forall (fun '(es, now) => Forall (fun e => u32_ok (e_priority e)) es
                            /\ fully_aged now (entry es j)) rounds ->
  In j (sched_rounds count current rounds).
Proof.
  intros Hc Hcur Hj Hlen Hall. apply sched_rounds_reach; try done.
  pose proof (distance_range count current Hc j). lia.
Qed.

Lemma sched_no_starvation_witness :
  In 0 (sched_rounds 2 0 (replicate 2 ([MkEntry 0 0 true; MkEntry 100 3 true], 100))).
Proof.
  apply sched_no_starvation; [vm_compute; split; congruence..|reflexivity|].
  repeat constructor; vm_compute; congruence.
Defined.

(** ** Identifiers are never reused *)

Lemma pid_takes_bounds n : forall next r,
  u32_ok next -> In r (pid_takes n (Some next)) -> 0 < r -> next <= r <= SF_PID_MAX.
Proof.
  induction n as [|n IH]; intros next r Hn Hin Hr; simpl in Hin; [done|].
  unfold SF_PID_MAX in *.
  destruct ((next =? 0) || (2147483647 <? next)) eqn:E.
  - destruct Hin as [<-|Hin]; [sflia|]. eapply IH; eauto.
  - rewrite u32_small in Hin by sflia. destruct Hin as [<-|Hin]; [sflia|].
    specialize (IH (next + 1) r ltac:(sflia) Hin Hr). lia.
Qed.

(** Process identifiers are unique for the life of the system: successive
    successful takes are pairwise different and stay in [1 .. 2^31-1], even
    across counter exhaustion. *)
Theorem pid_take_unique n next :
  u32_ok next ->
  NoDup (filter (fun r => 0 < r) (pid_takes n (Some next))) /\
  Forall (fun r => r = SF_NO_SPACE \/ 1 <= r <= SF_PID_MAX) (pid_takes n (Some next)).
Proof.
  revert next. induction n as [|n IH]; intros next Hn; simpl; [split; constructor|].
  unfold SF_PID_MAX in *.
  destruct ((next =? 0) || (2147483647 <? next)) eqn:E.
  - destruct (IH next Hn) as [Hd Hf]. split; [|by constructor; [left|]].
    rewrite filter_cons_False by sflia. done.
  - destruct (IH (u32 (next + 1))) as [Hd Hf]; [rewrite u32_small; sflia|].
    split; [|constructor; [right; sflia|done]].
    rewrite filter_cons_True by sflia. constructor; [|done].
    intros Hin. apply list_elem_of_filter in Hin as [Hpos Hin].
    apply list_elem_of_In in Hin.
    rewrite u32_small in Hin by sflia.
    pose proof (pid_takes_bounds n (next + 1) next ltac:(sflia) Hin Hpos). lia.
Qed.

Lemma pid_take_unique_witness :
  pid_takes 3 (Some 2147483646) = [2147483646; 2147483647; SF_NO_SPACE] /\
  NoDup (filter (fun r => 0 < r) (pid_takes 3 (Some 2147483646))).
Proof. split; [reflexivity|]. apply pid_take_unique. vm_compute; split; congruence. Defined.
