(* ===== verification/Arguments.v ===== *)
(** * Program arguments

    [services/arguments.c] and [services/argparse.c]: packing argument and
    environment strings for a new task, the validation of the packed form on
    both sides of the kernel, and the accessors of the started program.

    A C string is the list of its characters, without the terminator; a
    buffer that holds strings is a byte list. *)

From S2P Require Import Prelude Bytes Abi.

(** [while(i<n&&p(i))i++]. *)
Definition scan_while (p : nat -> bool) (n : nat) : nat := default n (find_index (fun i => negb (p i)) n).

Definition sizeof_SfBootArgs : Z := 96.
#[export] Hint Unfold sizeof_SfBootArgs : sf.

Record SfArguments := MkArguments { a_count : Z; a_bytes : Z; a_env_count : Z; a_reserved : Z; a_data : list Z }.
#[export] Instance SfArguments_settable : Settable SfArguments := fun a =>
  MkArguments (a_count a) (a_bytes a) (a_env_count a) (a_reserved a) (a_data a).

(** ** Validation *)

(** One string of [payload]: its offset is the cursor; then over its
    characters and the terminator. *)
Definition payload_step (data : list Z) (e : Z) (i : nat) (cursor : Z) : flow Z Z :=
  if negb (get32 data (Z.of_nat i * 4) =? cursor) then Done SF_BAD_FORMAT
  else
    let n := scan_while (fun j => truthy (at_ data (cursor + Z.of_nat j - sizeof_SfBootArgs))) (Z.to_nat (e - cursor)) in
    let cursor := cursor + Z.of_nat n in
    if cursor =? e then Done SF_BAD_FORMAT else Go (cursor + 1).

Definition payload (data : list Z) (bytes count : Z) : Z :=
  if (SF_ARGUMENT_MAX + SF_ENVIRONMENT_MAX <? count) || (SF_ARGUMENT_BYTES <? bytes) then SF_BAD_FORMAT
  else if count =? 0 then (if truthy bytes then SF_BAD_FORMAT else 0)
  else if bytes <? count * 4 then SF_BAD_FORMAT
  else
    let e := sizeof_SfBootArgs + bytes in
    match loop_exit (Z.to_nat count) (payload_step data e) (sizeof_SfBootArgs + count * 4) with
    | Done r => r
    | Go cursor => if cursor =? e then 0 else SF_BAD_FORMAT
    end.

Definition sf_arguments_validate (a : SfArguments) : Z :=
  if truthy (a_reserved a) || (SF_ARGUMENT_MAX <? a_count a) || (SF_ENVIRONMENT_MAX <? a_env_count a) then SF_BAD_FORMAT
  else payload (a_data a) (a_bytes a) (a_count a + a_env_count a).

Definition name_char (first : bool) (c : Z) : bool :=
  (c =? 95) || ((65 <=? c) && (c <=? 90)) || ((97 <=? c) && (c <=? 122)) || (negb first && (48 <=? c) && (c <=? 57)).

Definition sf_environment_name_valid (s : list Z) (n : Z) : bool :=
  if (n =? 0) || (63 <? n) then false
  else all_below (fun i => name_char (i =? 0)%nat (u8 (at_ s (Z.of_nat i)))) (Z.to_nat n).

Definition key_length (s : list Z) : Z :=
  let n := Z.of_nat (scan_while (fun i => truthy (at_ s (Z.of_nat i)) && negb (at_ s (Z.of_nat i) =? 61)) 64) in
  if (n <? 64) && (at_ s n =? 61) then n else 0.

(** ** The block a program starts with: [SfBootArgs] and the strings behind it *)

Definition ba_size (a : list Z) : Z := get32 a 0.
Definition ba_abi_major (a : list Z) : Z := get16 a 4.
Definition ba_abi_minor (a : list Z) : Z := get16 a 6.
Definition ba_argc (a : list Z) : Z := get32 a 56.
Definition ba_argv_offset (a : list Z) : Z := get32 a 60.
Definition ba_envc (a : list Z) : Z := get32 a 64.
Definition ba_env_offset (a : list Z) : Z := get32 a 68.

(** [get32(a+table+i*4)]: the offset of string [i] of a table. *)
Definition string_offset (a : list Z) (table : Z) (i : nat) : Z := get32 a (table + Z.of_nat i * 4).
Definition string_at (a : list Z) (off : Z) : list Z := drop (Z.to_nat off) a.

(** Variable [i] has a valid name that no earlier variable has. *)
Definition variable_bad (a : list Z) (i : nat) : bool :=
  let s := string_at a (string_offset a (ba_env_offset a) i) in
  let n := key_length s in
  if negb (sf_environment_name_valid s n) then true
  else
    match find_index (fun j =>
      let other := string_at a (string_offset a (ba_env_offset a) j) in (key_length other =? n) && memeq s other n) i with
    | Some _ => true
    | None => false
    end.

Definition sf_boot_arguments_validate (a : list Z) (bytes : Z) : Z :=
  if (bytes <? sizeof_SfBootArgs) || (sizeof_SfBootArgs + SF_ARGUMENT_BYTES <? bytes) then SF_BAD_FORMAT
  else if negb (ba_size a =? bytes) || negb (ba_abi_major a =? 1) || truthy (ba_abi_minor a) then SF_ABI_MISMATCH
  else if (SF_ARGUMENT_MAX <? ba_argc a) || (SF_ENVIRONMENT_MAX <? ba_envc a) ||
          negb (ba_argv_offset a =? (if truthy (ba_argc a) then sizeof_SfBootArgs else 0)) ||
          negb (ba_env_offset a =? (if truthy (ba_envc a) then sizeof_SfBootArgs + ba_argc a * 4 else 0)) then SF_BAD_FORMAT
  else
    let r := payload (string_at a sizeof_SfBootArgs) (bytes - sizeof_SfBootArgs) (ba_argc a + ba_envc a) in
    if truthy r then r
    else match find_index (variable_bad a) (Z.to_nat (ba_envc a)) with Some _ => SF_BAD_FORMAT | None => 0 end.

(** The accessors return the offset of the string in the block. *)
Definition sf_environment (a : list Z) (bytes : Z) (index : nat) : option Z :=
  if truthy (sf_boot_arguments_validate a bytes) || (ba_envc a <=? Z.of_nat index) then None
  else Some (string_offset a (ba_env_offset a) index).

Definition sf_environment_value (a : list Z) (bytes : Z) (name : list Z) : option Z :=
  if truthy (sf_boot_arguments_validate a bytes) then None
  else
    let n := Z.of_nat (scan_while (fun i => truthy (at_ name (Z.of_nat i))) 64) in
    if negb (sf_environment_name_valid name n) then None
    else
      match find_index (fun i =>
        let s := string_at a (string_offset a (ba_env_offset a) i) in (key_length s =? n) && memeq s name n) (Z.to_nat (ba_envc a)) with
      | Some i => Some (string_offset a (ba_env_offset a) i + n + 1)
      | None => None
      end.

Definition sf_argument (a : list Z) (bytes : Z) (index : nat) : option Z :=
  if truthy (sf_boot_arguments_validate a bytes) || (ba_argc a <=? Z.of_nat index) then None
  else Some (string_offset a (ba_argv_offset a) index).

(** ** Packing *)

(** [i<count?values[i]:environment[i-count]]; an element may be a null pointer. *)
Definition pick (values environment : list (option (list Z))) (i : nat) : option (list Z) :=
  mjoin (if (i <? length values)%nat then values !! i else environment !! (i - length values)%nat).

Definition bounded_length (s : list Z) (room : Z) : Z := Z.of_nat (scan_while (fun n => truthy (at_ s (Z.of_nat n))) (Z.to_nat room)).

(** The checks of one environment string of length [n], after [earlier]. *)
Definition variable_ok (s : list Z) (n : Z) (earlier : list (option (list Z))) : bool :=
  let key := Z.of_nat (scan_while (fun i => negb (at_ s (Z.of_nat i) =? 61)) (Z.to_nat n)) in
  if (key =? n) || negb (sf_environment_name_valid s key) then false
  else
    match find_index (fun j =>
      match mjoin (earlier !! j) with
      | Some other =>
          let k := Z.of_nat (scan_while (fun i => truthy (at_ other (Z.of_nat i)) && negb (at_ other (Z.of_nat i) =? 61)) (length other)) in
          (k =? key) && memeq s other key
      | None => false
      end) (length earlier) with
    | Some _ => false
    | None => true
    end.

(** The first pass: the lengths, terminators included. *)
Definition measure_step (values environment : list (option (list Z))) (i : nat) (st : Z * list Z) : flow Z (Z * list Z) :=
  let '(used, lengths) := st in
  match pick values environment i with
  | None => Done SF_INVALID
  | Some s =>
      let room := SF_ARGUMENT_BYTES - used in
      let n := bounded_length s room in
      if n =? room then Done SF_NO_SPACE
      else if (length values <=? i)%nat && negb (variable_ok s n (take (i - length values) environment)) then Done SF_INVALID
      else Go (used + n + 1, lengths ++ [n + 1])
  end.

(** The second pass: offsets and characters. *)
Definition write_step (values environment : list (option (list Z))) (lengths : list Z) (i : nat) (st : Z * list Z) : Z * list Z :=
  let '(cursor, data) := st in
  let n := lengths !!! i in
  let s := default [] (pick values environment i) in
  let data := put32 data (Z.of_nat i * 4) (sizeof_SfBootArgs + cursor) in
  (cursor + n, blit cursor (take (Z.to_nat n) (s ++ [0])) data).

Definition sf_invocation_pack (values environment : list (option (list Z))) : Z * option SfArguments :=
  let count := zlen values in
  let env_count := zlen environment in
  if (SF_ARGUMENT_MAX <? count) || (SF_ENVIRONMENT_MAX <? env_count) then (SF_NO_SPACE, None)
  else
    let total := (length values + length environment)%nat in
    match loop_exit total (measure_step values environment) (Z.of_nat total * 4, []) with
    | Done r => (r, None)
    | Go (used, lengths) =>
        let '(_, data) := loop total (write_step values environment lengths) (Z.of_nat total * 4, fill 0 SF_ARGUMENT_BYTES) in
        (0, Some (MkArguments count used env_count 0 data))
    end.

Definition sf_arguments_pack (values : list (option (list Z))) : Z * option SfArguments := sf_invocation_pack values [].

(** ** The block the kernel writes *)

Record SfBootArgs := MkBootArgs {
  b_size : Z; b_abi_major : Z; b_abi_minor : Z; b_bundle : Z; b_bundle_bytes : Z;
  b_pid : Z; b_manager : Z; b_reply : Z; b_service : Z;
  b_stdin_cap : Z; b_stdout_cap : Z; b_stderr_cap : Z; b_root_cap : Z;
  b_argc : Z; b_argv_offset : Z; b_envc : Z; b_env_offset : Z;
  b_dma_virtual : Z; b_dma_physical : Z; b_device_io : Z; b_device_bdf : Z; b_device_rights : Z
}.
#[export] Instance SfBootArgs_settable : Settable SfBootArgs := fun b =>
  MkBootArgs (b_size b) (b_abi_major b) (b_abi_minor b) (b_bundle b) (b_bundle_bytes b)
    (b_pid b) (b_manager b) (b_reply b) (b_service b) (b_stdin_cap b) (b_stdout_cap b) (b_stderr_cap b) (b_root_cap b)
    (b_argc b) (b_argv_offset b) (b_envc b) (b_env_offset b)
    (b_dma_virtual b) (b_dma_physical b) (b_device_io b) (b_device_bdf b) (b_device_rights b).

Definition boot_args_bytes (b : SfBootArgs) : list Z :=
  le_bytes 4 (b_size b) ++ le_bytes 2 (b_abi_major b) ++ le_bytes 2 (b_abi_minor b) ++
  le_bytes 8 (b_bundle b) ++ le_bytes 8 (b_bundle_bytes b) ++
  le_bytes 4 (b_pid b) ++ le_bytes 4 (b_manager b) ++ le_bytes 4 (b_reply b) ++ le_bytes 4 (b_service b) ++
  le_bytes 4 (b_stdin_cap b) ++ le_bytes 4 (b_stdout_cap b) ++ le_bytes 4 (b_stderr_cap b) ++ le_bytes 4 (b_root_cap b) ++
  le_bytes 4 (b_argc b) ++ le_bytes 4 (b_argv_offset b) ++ le_bytes 4 (b_envc b) ++ le_bytes 4 (b_env_offset b) ++
  le_bytes 8 (b_dma_virtual b) ++ le_bytes 8 (b_dma_physical b) ++
  le_bytes 4 (b_device_io b) ++ le_bytes 2 (b_device_bdf b) ++ le_bytes 2 (b_device_rights b).

(** The fields [task_new_limited] sets before grants, in a zeroed page. *)
Definition boot_args (pid : Z) (a : SfArguments) : SfBootArgs :=
  MkBootArgs (sizeof_SfBootArgs + a_bytes a) 1 0 0 0 pid 0 0 0 0 1 1 0
    (a_count a) (if truthy (a_count a) then sizeof_SfBootArgs else 0)
    (a_env_count a) (if truthy (a_env_count a) then sizeof_SfBootArgs + a_count a * 4 else 0)
    0 0 0 0 0.

(** ** Scanning *)

Lemma scan_while_spec p n : let k := scan_while p n in
  (k <= n)%nat /\ (forall i, (i < k)%nat -> p i = true) /\ ((k < n)%nat -> p k = false).
Proof.
  unfold scan_while. destruct (find_index _ n) as [k|] eqn:E; simpl.
  - apply find_index_Some in E as (Hk & Hp & Hb). apply negb_true_iff in Hp. split; [lia|]. split; [|done].
    intros i Hi. by apply negb_false_iff, Hb.
  - rewrite find_index_None in E. split; [lia|]. split; [|lia]. intros i Hi. by apply negb_false_iff, E.
Qed.

Lemma scan_while_eq p n k : (k <= n)%nat -> (forall i, (i < k)%nat -> p i = true) -> ((k < n)%nat -> p k = false) ->
  scan_while p n = k.
Proof.
  intros Hk Hp Hs. destruct (scan_while_spec p n) as (Hk' & Hp' & Hs'). set (k' := scan_while p n) in *.
  destruct (lt_eq_lt_dec k k') as [[Hlt|]|Hlt]; [|done|].
  - rewrite (Hp' k Hlt) in Hs. specialize (Hs ltac:(lia)). done.
  - rewrite (Hp k' Hlt) in Hs'. specialize (Hs' ltac:(lia)). done.
Qed.

Lemma bounded_length_spec s room : Forall (fun c => c <> 0) s -> 0 <= room -> bounded_length s room = Z.min room (zlen s).
Proof.
  intros Hs Hr. unfold bounded_length. rewrite (scan_while_eq _ _ (Nat.min (Z.to_nat room) (length s))); [unfold zlen; lia|lia| |].
  - intros i Hi. apply truthy_true. unfold at_. rewrite Nat2Z.id. rewrite (list_lookup_lookup_total_lt s i) by lia. simpl.
    rewrite Forall_lookup in Hs. apply (Hs i). apply list_lookup_lookup_total_lt. lia.
  - intros Hi. apply truthy_false. unfold at_. rewrite Nat2Z.id, lookup_ge_None_2 by lia. done.
Qed.

(** ** The layout *)

(** The offset of string [i] in the data area. *)
Definition offset (strs : list (list Z)) (i : nat) : Z :=
  Z.of_nat (length strs) * 4 + zlen (concat (map (fun s => s ++ [0]) (take i strs))).

Lemma offset_S strs i s : strs !! i = Some s -> offset strs (S i) = offset strs i + zlen s + 1.
Proof.
  intros Hi. unfold offset. rewrite (take_S_r _ _ _ Hi), map_app, concat_app, zlen_app. simpl. rewrite app_nil_r, zlen_app.
  change (zlen [0]) with 1. lia.
Qed.

Lemma offset_0 strs : offset strs 0 = Z.of_nat (length strs) * 4.
Proof. unfold offset. simpl. change (zlen (@nil Z)) with 0. lia. Qed.

Lemma offset_mono strs i j : (i <= j)%nat -> (j <= length strs)%nat -> offset strs i <= offset strs j.
Proof.
  intros Hij. induction Hij as [|j Hij IH]; [lia|]. intros Hj.
  destruct (lookup_lt_is_Some_2 strs j ltac:(lia)) as [s Hs]. rewrite (offset_S strs j s Hs).
  specialize (IH ltac:(lia)). pose proof (zlen_nonneg s). lia.
Qed.

Lemma offset_table strs i : Z.of_nat (length strs) * 4 <= offset strs i.
Proof. unfold offset. pose proof (zlen_nonneg (concat (map (fun s => s ++ [0]) (take i strs)))). lia. Qed.

(** String [j] is in place. *)
Definition placed (strs : list (list Z)) (data : list Z) (j : nat) : Prop :=
  forall s, strs !! j = Some s ->
    get32 data (Z.of_nat j * 4) = sizeof_SfBootArgs + offset strs j /\ slice (offset strs j) (zlen s + 1) data = s ++ [0].

Definition laid_out (strs : list (list Z)) (data : list Z) : Prop := forall j, placed strs data j.

Definition string_ok (s : list Z) : Prop := Forall (fun c => 0 < c < 256) s.

Lemma string_nonzero s : string_ok s -> Forall (fun c => c <> 0) s.
Proof. apply Forall_impl. intros. lia. Qed.

(** Reading string [s] placed at [off]. *)
Lemma placed_at data off s j : slice off (zlen s + 1) data = s ++ [0] -> 0 <= off -> 0 <= j <= zlen s ->
  at_ data (off + j) = at_ (s ++ [0]) j.
Proof. intros <- Ho Hj. rewrite at_slice by lia. done. Qed.

Lemma at_string s j : string_ok s -> 0 <= j < zlen s -> 0 < at_ (s ++ [0]) j.
Proof.
  intros Hs Hj. unfold at_. unfold zlen in Hj. rewrite lookup_app_l by lia.
  destruct (lookup_lt_is_Some_2 s (Z.to_nat j) ltac:(lia)) as [c Hc]. rewrite Hc. simpl.
  unfold string_ok in Hs. rewrite Forall_lookup in Hs. by apply (Hs _ _ Hc).
Qed.

Lemma at_string_end s : at_ (s ++ [0]) (zlen s) = 0.
Proof. unfold at_, zlen. rewrite Nat2Z.id, list_lookup_middle by done. done. Qed.

Lemma payload_step_placed strs data e j s : strs !! j = Some s -> string_ok s -> placed strs data j ->
  sizeof_SfBootArgs + offset strs (S j) <= e ->
  payload_step data e j (sizeof_SfBootArgs + offset strs j) = Go (sizeof_SfBootArgs + offset strs (S j)).
Proof.
  intros Hj Hs Hp He. destruct (Hp s Hj) as [Hg Hsl]. rewrite (offset_S _ _ _ Hj) in *. pose proof (zlen_nonneg s).
  pose proof (offset_table strs j). unfold payload_step. rewrite Hg, Z.eqb_refl. cbn [negb].
  rewrite (scan_while_eq _ _ (length s)).
  - unfold zlen in *. destruct (Z.eqb_spec (sizeof_SfBootArgs + offset strs j + Z.of_nat (length s)) e); [lia|]. f_equal. lia.
  - unfold zlen in *. lia.
  - intros i Hi. replace (sizeof_SfBootArgs + offset strs j + Z.of_nat i - sizeof_SfBootArgs) with (offset strs j + Z.of_nat i) by lia.
    unfold zlen in *. rewrite (placed_at data _ s) by (unfold zlen; lia || done). apply truthy_true.
    pose proof (at_string s (Z.of_nat i) Hs ltac:(unfold zlen; lia)). lia.
  - intros _. replace (sizeof_SfBootArgs + offset strs j + Z.of_nat (length s) - sizeof_SfBootArgs) with (offset strs j + zlen s) by (unfold zlen; lia).
    rewrite (placed_at data _ s) by (lia || done). by rewrite at_string_end.
Qed.

Lemma exit_from_go {R S} (body : nat -> S -> flow R S) (f : nat -> S) n : forall i,
  (forall j, (i <= j < i + n)%nat -> body j (f j) = Go (f (Datatypes.S j))) -> exit_from i n body (f i) = Go (f (i + n)%nat).
Proof.
  induction n as [|n IH]; intros i Hb; simpl; [by rewrite Nat.add_0_r|]. rewrite Hb by lia.
  rewrite <-Nat.add_succ_comm. apply IH. intros j Hj. apply Hb. lia.
Qed.

Lemma loop_exit_go {R S} (body : nat -> S -> flow R S) (f : nat -> S) n s : f 0%nat = s ->
  (forall j, (j < n)%nat -> body j (f j) = Go (f (Datatypes.S j))) -> loop_exit n body s = Go (f n).
Proof. intros <- Hb. apply exit_from_go. intros j Hj. apply Hb. lia. Qed.

Definition total_bytes (strs : list (list Z)) : Z := offset strs (length strs).

Lemma payload_laid_out strs data : Forall string_ok strs -> laid_out strs data -> (length strs <= 16)%nat ->
  total_bytes strs <= SF_ARGUMENT_BYTES -> payload data (total_bytes strs) (Z.of_nat (length strs)) = 0.
Proof.
  intros Hs Hl Hn Hb. pose proof (offset_table strs (length strs)) as Ht. unfold payload.
  destruct (Z.ltb_spec (SF_ARGUMENT_MAX + SF_ENVIRONMENT_MAX) (Z.of_nat (length strs))) as [Hx|_]; [sflia|].
  destruct (Z.ltb_spec SF_ARGUMENT_BYTES (total_bytes strs)); [lia|]. cbn [orb].
  destruct (Z.eqb_spec (Z.of_nat (length strs)) 0) as [E|_].
  - destruct strs; [done|]. simpl in E. lia.
  - fold (total_bytes strs) in Ht. destruct (Z.ltb_spec (total_bytes strs) (Z.of_nat (length strs) * 4)); [lia|].
    rewrite Nat2Z.id, (loop_exit_go _ (fun j => sizeof_SfBootArgs + offset strs j)).
    + fold (total_bytes strs). by rewrite Z.eqb_refl.
    + by rewrite offset_0.
    + intros j Hj. destruct (lookup_lt_is_Some_2 strs j Hj) as [s Hsj].
      apply (payload_step_placed _ _ _ _ s); [done| |apply Hl|].
      * rewrite Forall_lookup in Hs. by apply (Hs j).
      * pose proof (offset_mono strs (S j) (length strs) ltac:(lia) ltac:(lia)). unfold total_bytes. lia.
Qed.

(** Only the first [total_bytes] bytes matter. *)
Lemma laid_out_prefix strs data rest : laid_out strs data -> zlen data = total_bytes strs -> laid_out strs (data ++ rest).
Proof.
  intros Hl Hz j s Hj. destruct (Hl j s Hj) as [Hg Hs]. pose proof (lookup_lt_Some _ _ _ Hj) as Hlt.
  pose proof (offset_mono strs (S j) (length strs) ltac:(lia) ltac:(lia)) as Hm. rewrite (offset_S _ _ _ Hj) in Hm.
  pose proof (offset_table strs j). fold (total_bytes strs) in Hm. pose proof (zlen_nonneg s).
  unfold get32 in *. rewrite !slice_app_l by lia. done.
Qed.

Lemma laid_out_take strs data : laid_out strs data -> total_bytes strs <= zlen data ->
  laid_out strs (take (Z.to_nat (total_bytes strs)) data).
Proof.
  intros Hl Hz j s Hj. destruct (Hl j s Hj) as [Hg Hs]. pose proof (lookup_lt_Some _ _ _ Hj) as Hlt.
  pose proof (offset_mono strs (S j) (length strs) ltac:(lia) ltac:(lia)) as Hm. rewrite (offset_S _ _ _ Hj) in Hm.
  pose proof (offset_table strs j). fold (total_bytes strs) in Hm. pose proof (zlen_nonneg s).
  change (take (Z.to_nat (total_bytes strs)) data) with (slice 0 (total_bytes strs) data).
  unfold get32 in *. rewrite !slice_slice by lia. done.
Qed.

(** ** The packer lays out *)

Section Pack.
Variables (values environment : list (list Z)).
Hypothesis strings : Forall string_ok (values ++ environment).
Let strs := values ++ environment.
Let vs := map Some values.
Let es := map Some environment.
Let lens := map (fun s => zlen s + 1) strs.

Lemma pick_string i : pick vs es i = strs !! i.
Proof.
  unfold pick, vs, es, strs. rewrite length_map. destruct (Nat.ltb_spec i (length values)) as [Hi|Hi].
  - rewrite lookup_app_l by done. rewrite list_lookup_fmap. by destruct (values !! i).
  - rewrite lookup_app_r by done. rewrite list_lookup_fmap. by destruct (environment !! _).
Qed.

Lemma measured j st : loop_exit j (measure_step vs es) (Z.of_nat (length strs) * 4, []) = Go st -> (j <= length strs)%nat ->
  Z.of_nat (length strs) * 4 <= SF_ARGUMENT_BYTES ->
  st = (offset strs j, take j lens) /\ offset strs j <= SF_ARGUMENT_BYTES /\
  forall i s, (i < j)%nat -> (length values <= i)%nat -> strs !! i = Some s ->
    variable_ok s (zlen s) (take (i - length values) es) = true.
Proof.
  intros Hl Hj H4. revert st Hl. pose (P := fun (j : nat) (st : Z * list Z) =>
    st = (offset strs j, take j lens) /\ offset strs j <= SF_ARGUMENT_BYTES /\
    forall i s, (i < j)%nat -> (length values <= i)%nat -> strs !! i = Some s -> variable_ok s (zlen s) (take (i - length values) es) = true).
  pose proof (loop_exit_inv P (fun _ => True) (measure_step vs es) j (Z.of_nat (length strs) * 4, [])) as Hinv.
  intros st Hl. rewrite Hl in Hinv. apply Hinv; clear Hinv Hl; unfold P.
  - rewrite offset_0. split; [done|]. split; [done|]. lia.
  - intros i st' Hi (-> & Ho & Hv). unfold measure_step. rewrite pick_string.
    destruct (lookup_lt_is_Some_2 strs i ltac:(lia)) as [s Hs]. rewrite Hs.
    pose proof (Forall_lookup_1 _ _ _ _ strings Hs) as Hok.
    rewrite bounded_length_spec by (by apply string_nonzero || lia).
    destruct (Z.eqb_spec (Z.min (SF_ARGUMENT_BYTES - offset strs i) (zlen s)) (SF_ARGUMENT_BYTES - offset strs i)); [done|].
    replace (Z.min (SF_ARGUMENT_BYTES - offset strs i) (zlen s)) with (zlen s) by lia.
    unfold vs at 1 2. rewrite length_map.
    destruct ((length values <=? i)%nat && negb (variable_ok s (zlen s) (take (i - length values) es))) eqn:Ev; [done|].
    rewrite (offset_S _ _ _ Hs). split; [|split].
    + f_equal. symmetry. apply take_S_r. unfold lens. by rewrite list_lookup_fmap, Hs.
    + lia.
    + intros i' s' Hi' Hge Hs'. destruct (decide (i' = i)) as [->|]; [|apply Hv; [lia|done|done]].
      rewrite Hs in Hs'. injection Hs' as <-. rewrite (proj2 (Nat.leb_le _ _) Hge) in Ev. by apply negb_false_iff in Ev.
Qed.

Lemma lens_lookup i s : strs !! i = Some s -> lens !!! i = zlen s + 1.
Proof. intros Hs. apply list_lookup_total_correct. unfold lens. by rewrite list_lookup_fmap, Hs. Qed.

(** Writing string [i] leaves the earlier ones in place. *)
Lemma write_placed i s data : strs !! i = Some s -> zlen data = SF_ARGUMENT_BYTES -> total_bytes strs <= SF_ARGUMENT_BYTES ->
  let data' := blit (offset strs i) (s ++ [0]) (put32 data (Z.of_nat i * 4) (sizeof_SfBootArgs + offset strs i)) in
  zlen data' = SF_ARGUMENT_BYTES /\ placed strs data' i /\ forall j, (j < i)%nat -> placed strs data j -> placed strs data' j.
Proof.
  intros Hi Hz Ht. pose proof (lookup_lt_Some _ _ _ Hi) as Hlt. pose proof (zlen_nonneg s).
  assert (Hend : forall j, (j < length strs)%nat -> offset strs (S j) <= SF_ARGUMENT_BYTES).
  { intros j Hj. pose proof (offset_mono strs (S j) (length strs) ltac:(lia) ltac:(lia)). unfold total_bytes in Ht. lia. }
  pose proof (Hend i Hlt) as Hei. rewrite (offset_S _ _ _ Hi) in Hei. pose proof (offset_table strs i) as Hoi.
  assert (Hzs : zlen (s ++ [0]) = zlen s + 1) by (by rewrite zlen_app).
  set (d1 := put32 data _ _). assert (Hz1 : zlen d1 = SF_ARGUMENT_BYTES).
  { unfold d1, put32. rewrite zlen_blit; rewrite ?zlen_le_bytes; lia. }
  intros data'. unfold data'. split; [rewrite zlen_blit; lia|]. split.
  - intros s' Hs'. rewrite Hi in Hs'. injection Hs' as <-. split.
    + unfold get32. rewrite slice_blit_other by lia. unfold d1, put32.
      rewrite slice_blit_same by (rewrite ?zlen_le_bytes; lia). apply le_val_bytes. change (256 ^ Z.of_nat 4) with 4294967296. sflia.
    + rewrite slice_blit_same by lia. done.
  - intros j Hj Hp s' Hs'. destruct (Hp s' Hs') as [Hg Hsl]. pose proof (zlen_nonneg s').
    pose proof (offset_mono strs (S j) i ltac:(lia) ltac:(lia)) as Hm. rewrite (offset_S _ _ _ Hs') in Hm.
    pose proof (offset_table strs j). split.
    + unfold get32 in *. rewrite slice_blit_other by lia. unfold d1, put32.
      rewrite slice_blit_other by (rewrite ?zlen_le_bytes; lia). done.
    + rewrite slice_blit_other by lia. unfold d1, put32. rewrite slice_blit_other by (rewrite ?zlen_le_bytes; lia). done.
Qed.

Lemma written : total_bytes strs <= SF_ARGUMENT_BYTES ->
  let data := (loop (length strs) (write_step vs es lens) (Z.of_nat (length strs) * 4, fill 0 SF_ARGUMENT_BYTES)).2 in
  zlen data = SF_ARGUMENT_BYTES /\ laid_out strs data.
Proof.
  intros Ht. pose (P := fun (i : nat) (st : Z * list Z) =>
    st.1 = offset strs i /\ zlen st.2 = SF_ARGUMENT_BYTES /\ forall j, (j < i)%nat -> placed strs st.2 j).
  assert (HP : P (length strs) (loop (length strs) (write_step vs es lens) (Z.of_nat (length strs) * 4, fill 0 SF_ARGUMENT_BYTES))).
  { apply (loop_inv P); unfold P.
    - rewrite offset_0. split; [done|]. split; [|lia]. apply zlen_fill. sflia.
    - intros i [cursor data] Hi (Ec & Hz & Hp). simpl in Ec, Hz, Hp. subst cursor.
      destruct (lookup_lt_is_Some_2 strs i Hi) as [s Hs]. unfold write_step. rewrite pick_string, Hs, (lens_lookup i s Hs).
      simpl default. rewrite take_ge by (rewrite length_app; unfold zlen; simpl; lia).
      destruct (write_placed i s data Hs Hz Ht) as (Hz' & Hpi & Hpj). split; [|split].
      + simpl. rewrite (offset_S _ _ _ Hs). lia.
      + exact Hz'.
      + intros j Hj. destruct (decide (j = i)) as [->|]; [exact Hpi|]. apply Hpj; [lia|]. apply Hp. lia. }
  destruct HP as (_ & Hz & Hp). split; [done|]. intros j s Hs. apply Hp; [|done]. by apply lookup_lt_Some in Hs.
Qed.

(** What a successful pack produced. *)
Lemma packed a : sf_invocation_pack vs es = (0, Some a) ->
  a_count a = zlen values /\ a_env_count a = zlen environment /\ a_reserved a = 0 /\ a_bytes a = total_bytes strs /\
  total_bytes strs <= SF_ARGUMENT_BYTES /\ zlen values <= SF_ARGUMENT_MAX /\ zlen environment <= SF_ENVIRONMENT_MAX /\
  zlen (a_data a) = SF_ARGUMENT_BYTES /\ laid_out strs (a_data a) /\
  forall i s, environment !! i = Some s -> variable_ok s (zlen s) (take i es) = true.
Proof.
  assert (Hn : (length vs + length es)%nat = length strs) by (unfold vs, es, strs; by rewrite length_app, !length_map).
  assert (Hv : zlen vs = zlen values) by (unfold vs, zlen; by rewrite length_map).
  assert (He : zlen es = zlen environment) by (unfold es, zlen; by rewrite length_map).
  unfold sf_invocation_pack. rewrite Hn, Hv, He.
  destruct (Z.ltb_spec SF_ARGUMENT_MAX (zlen values)); [done|]. destruct (Z.ltb_spec SF_ENVIRONMENT_MAX (zlen environment)); [done|].
  cbn [orb]. clear Hv He. destruct (loop_exit _ _ _) as [r|st] eqn:El; [done|].
  destruct (measured (length strs) st El ltac:(lia)) as (-> & Hle & Hv); [unfold zlen in *; unfold strs; rewrite length_app; sflia|].
  rewrite take_ge by (unfold lens; rewrite length_map; lia). fold (total_bytes strs) in Hle |- *.
  destruct (written Hle) as [Hz Hl]. destruct (loop _ _ _) as [c data]. simpl in Hz, Hl.
  intros [= <-]. simpl. do 9 (split; [done|]). intros i s Hs.
  specialize (Hv (length values + i)%nat s). replace (length values + i - length values)%nat with i in Hv by lia. apply Hv; [|lia|].
  - apply lookup_lt_Some in Hs. unfold strs in Hn |- *. rewrite length_app. lia.
  - unfold strs. rewrite lookup_app_r by lia. by replace (length values + i - length values)%nat with i by lia.
Qed.

End Pack.

(** ** Names *)

Definition name_ok (name : list Z) : Prop := sf_environment_name_valid name (zlen name) = true.

Lemma at_app_left (s t : list Z) i : (i < length s)%nat -> at_ (s ++ t) (Z.of_nat i) = at_ s (Z.of_nat i).
Proof. intros Hi. unfold at_. by rewrite Nat2Z.id, lookup_app_l. Qed.

Lemma at_middle (s t : list Z) c : at_ (s ++ c :: t) (zlen s) = c.
Proof. unfold at_, zlen. by rewrite Nat2Z.id, list_lookup_middle. Qed.

Lemma name_valid_ext s t n : (forall i, Z.of_nat i < n -> at_ s (Z.of_nat i) = at_ t (Z.of_nat i)) ->
  sf_environment_name_valid s n = sf_environment_name_valid t n.
Proof.
  intros He. unfold sf_environment_name_valid. destruct (_ || _) eqn:E; [done|]. apply orb_false_elim in E as [E1 E2].
  apply eq_true_iff_eq. rewrite !all_below_true. apply Z.eqb_neq in E1. split; intros Ha j Hj; [rewrite <-He by lia|rewrite He by lia]; auto.
Qed.

Lemma name_valid_app name t : sf_environment_name_valid (name ++ t) (zlen name) = sf_environment_name_valid name (zlen name).
Proof. apply name_valid_ext. intros i Hi. apply at_app_left. unfold zlen in Hi. lia. Qed.

Lemma name_ok_chars name : name_ok name ->
  0 < zlen name <= 63 /\ forall i, (i < length name)%nat -> at_ name (Z.of_nat i) <> 61 /\ u8 (at_ name (Z.of_nat i)) <> 0.
Proof.
  unfold name_ok, sf_environment_name_valid. destruct (Z.eqb_spec (zlen name) 0); [done|]. destruct (Z.ltb_spec 63 (zlen name)); [done|].
  cbn [orb]. rewrite all_below_true. intros Ha. pose proof (zlen_nonneg name). split; [lia|]. intros i Hi.
  specialize (Ha i ltac:(unfold zlen; lia)). simpl in Ha. set (c := at_ name (Z.of_nat i)) in *. unfold name_char in Ha. split.
  - intros Hc. rewrite Hc in Ha. change (u8 61) with 61 in Ha. rewrite !orb_true_iff, !andb_true_iff in Ha. lia.
  - intros Hc. rewrite Hc in Ha. rewrite !orb_true_iff, !andb_true_iff in Ha. lia.
Qed.

Lemma name_ok_nonzero name i : name_ok name -> (i < length name)%nat ->
  truthy (at_ name (Z.of_nat i)) = true /\ (at_ name (Z.of_nat i) =? 61) = false.
Proof.
  intros Hn Hi. destruct (name_ok_chars name Hn) as [_ Hc]. destruct (Hc i Hi) as [H1 H2]. split.
  - apply truthy_true. intros E. by rewrite E in H2.
  - by apply Z.eqb_neq.
Qed.

(** The key of [name=value] is [name], wherever it is looked up. *)
Lemma key_scan name t bound : name_ok name -> (length name <= bound)%nat ->
  scan_while (fun i => truthy (at_ (name ++ 61 :: t) (Z.of_nat i)) && negb (at_ (name ++ 61 :: t) (Z.of_nat i) =? 61)) bound = length name.
Proof.
  intros Hn Hb. apply scan_while_eq; [done| |].
  - intros i Hi. rewrite at_app_left by done. by destruct (name_ok_nonzero name i Hn Hi) as [-> ->].
  - intros _. change (Z.of_nat (length name)) with (zlen name). by rewrite at_middle.
Qed.

Lemma key_length_named name t : name_ok name -> key_length (name ++ 61 :: t) = zlen name.
Proof.
  intros Hn. destruct (name_ok_chars name Hn) as [Hl _]. unfold key_length. rewrite key_scan by (done || unfold zlen in Hl; lia).
  change (Z.of_nat (length name)) with (zlen name). rewrite at_middle. destruct (Z.ltb_spec (zlen name) 64); [done|lia].
Qed.

Lemma memeq_names name t other u : zlen other = zlen name ->
  memeq (name ++ t) (other ++ u) (zlen name) = true <-> name = other.
Proof.
  intros Hl. pose proof (zlen_nonneg name). pose proof (zlen_nonneg t). pose proof (zlen_nonneg u).
  rewrite memeq_spec by (rewrite ?zlen_app; lia). rewrite !slice_app_l by lia. rewrite slice_all by done.
  rewrite slice_all by done. done.
Qed.

(** What the packer accepts as a variable. *)
Lemma variable_ok_named s earlier : variable_ok s (zlen s) earlier = true ->
  exists name v, s = name ++ 61 :: v /\ name_ok name /\ forall j w, earlier !! j <> Some (Some (name ++ 61 :: w)).
Proof.
  unfold variable_ok. replace (Z.to_nat (zlen s)) with (length s) by (unfold zlen; lia).
  destruct (scan_while_spec (fun i => negb (at_ s (Z.of_nat i) =? 61)) (length s)) as (Hk & Hlt & Hend).
  set (k := scan_while _ _) in *. destruct (Z.eqb_spec (Z.of_nat k) (zlen s)) as [|Hne]; [done|]. cbn [orb].
  assert (Hkl : (k < length s)%nat) by (unfold zlen in Hne; lia). specialize (Hend Hkl). apply negb_false_iff, Z.eqb_eq in Hend.
  destruct (lookup_lt_is_Some_2 s k Hkl) as [c Hc]. assert (c = 61) as ->.
  { unfold at_ in Hend. by rewrite Nat2Z.id, Hc in Hend. }
  pose proof (take_drop_middle s k 61 Hc) as Hs. set (name := take k s) in *. set (v := drop (S k) s) in *.
  assert (Hln : zlen name = Z.of_nat k) by (unfold zlen, name; rewrite length_take; lia).
  rewrite <-Hs at 1. rewrite <-Hln, name_valid_app.
  destruct (sf_environment_name_valid name (zlen name)) eqn:Hn; [|done]. cbn [negb].
  destruct (find_index _ (length earlier)) eqn:Ef; [done|]. intros _. exists name, v. split; [done|]. split; [done|].
  intros j w Hj. rewrite find_index_None in Ef. specialize (Ef j (lookup_lt_Some _ _ _ Hj)). simpl in Ef. rewrite Hj in Ef. simpl in Ef.
  rewrite key_scan in Ef by (done || rewrite length_app; lia). change (Z.of_nat (length name)) with (zlen name) in Ef.
  rewrite Z.eqb_refl in Ef. rewrite <-Hs in Ef. rewrite (proj2 (memeq_names name (61 :: v) name (61 :: w) eq_refl) eq_refl) in Ef. done.
Qed.

(** ** The program's side *)

Lemma zlen_boot_args b : zlen (boot_args_bytes b) = sizeof_SfBootArgs.
Proof. unfold boot_args_bytes. rewrite !zlen_app, !zlen_le_bytes. done. Qed.

(** The fields read back. *)
Lemma boot_fields b rest : u32_ok (b_size b) -> 0 <= b_abi_major b <= UINT16_MAX -> 0 <= b_abi_minor b <= UINT16_MAX ->
  u32_ok (b_argc b) -> u32_ok (b_argv_offset b) -> u32_ok (b_envc b) -> u32_ok (b_env_offset b) ->
  let a := boot_args_bytes b ++ rest in
  ba_size a = b_size b /\ ba_abi_major a = b_abi_major b /\ ba_abi_minor a = b_abi_minor b /\ ba_argc a = b_argc b /\
  ba_argv_offset a = b_argv_offset b /\ ba_envc a = b_envc b /\ ba_env_offset a = b_env_offset b.
Proof.
  intros. unfold a, ba_size, ba_abi_major, ba_abi_minor, ba_argc, ba_argv_offset, ba_envc, ba_env_offset, get32, get16, boot_args_bytes.
  rewrite <-!app_assoc. repeat split; fields; apply le_val_bytes; simpl; sflia.
Qed.

Lemma string_at_placed a off s : slice off (zlen s + 1) a = s ++ [0] -> exists rest, string_at a off = s ++ 0 :: rest.
Proof.
  intros Hs. unfold string_at, slice in *. exists (drop (Z.to_nat (zlen s + 1)) (drop (Z.to_nat off) a)).
  rewrite <-(take_drop (Z.to_nat (zlen s + 1)) (drop (Z.to_nat off) a)) at 1. rewrite Hs, <-app_assoc. done.
Qed.

Lemma cstr_string s rest : string_ok s -> cstr (s ++ 0 :: rest) = s.
Proof.
  induction 1 as [|c s Hc _ IH]; simpl; [done|]. rewrite cstr_cons, IH. by destruct (Z.eqb_spec c 0); [lia|].
Qed.

(** [b] keeps the argument fields of [boot_args]: the grants that follow set
    other ones. *)
Definition started_with (a : SfArguments) (b : SfBootArgs) : Prop :=
  b_size b = sizeof_SfBootArgs + a_bytes a /\ b_abi_major b = 1 /\ b_abi_minor b = 0 /\
  b_argc b = a_count a /\ b_argv_offset b = (if truthy (a_count a) then sizeof_SfBootArgs else 0) /\
  b_envc b = a_env_count a /\ b_env_offset b = (if truthy (a_env_count a) then sizeof_SfBootArgs + a_count a * 4 else 0).

Section Block.
Variables (values environment : list (list Z)) (a : SfArguments) (b : SfBootArgs).
Hypothesis strings : Forall string_ok (values ++ environment).
Hypothesis Hpack : sf_invocation_pack (map Some values) (map Some environment) = (0, Some a).
Hypothesis Hb : started_with a b.
Let strs := values ++ environment.
Let block := boot_args_bytes b ++ take (Z.to_nat (a_bytes a)) (a_data a).

Lemma block_fields : ba_size block = sizeof_SfBootArgs + total_bytes strs /\ ba_abi_major block = 1 /\ ba_abi_minor block = 0 /\
  ba_argc block = zlen values /\ ba_argv_offset block = (if truthy (zlen values) then sizeof_SfBootArgs else 0) /\
  ba_envc block = zlen environment /\
  ba_env_offset block = (if truthy (zlen environment) then sizeof_SfBootArgs + zlen values * 4 else 0).
Proof.
  destruct (packed values environment strings a Hpack) as (Ec & Ee & _ & Eb & Ht & Hv & He & _).
  destruct Hb as (B1 & B2 & B3 & B4 & B5 & B6 & B7). pose proof (offset_table strs (length strs)) as Hot.
  fold strs (total_bytes strs) in Hot, Eb, Ht. pose proof (zlen_nonneg values). pose proof (zlen_nonneg environment).
  rewrite Eb in B1. rewrite Ec in B4, B5, B7. rewrite Ee in B6, B7.
  destruct (boot_fields b (take (Z.to_nat (a_bytes a)) (a_data a))) as (F1 & F2 & F3 & F4 & F5 & F6 & F7);
    rewrite ?B1, ?B2, ?B3, ?B4, ?B5, ?B6, ?B7; try (repeat case_match; sflia).
  unfold block. rewrite F1, F2, F3, F4, F5, F6, F7. done.
Qed.

Lemma block_data : string_at block sizeof_SfBootArgs = take (Z.to_nat (total_bytes strs)) (a_data a).
Proof.
  destruct (packed values environment strings a Hpack) as (_ & _ & _ & Eb & _).
  unfold string_at, block. rewrite Eb. pose proof (zlen_boot_args b) as Hz. unfold zlen in Hz.
  rewrite drop_app_length' by lia. done.
Qed.

Lemma block_laid_out : laid_out strs (string_at block sizeof_SfBootArgs).
Proof.
  destruct (packed values environment strings a Hpack) as (_ & _ & _ & _ & Ht & _ & _ & Hz & Hl & _).
  rewrite block_data. apply laid_out_take; [done|]. fold strs in Ht. lia.
Qed.

(** String [i] of the whole list, through the offset table. *)
Lemma block_string i s : strs !! i = Some s -> exists rest,
  string_at block (get32 block (sizeof_SfBootArgs + Z.of_nat i * 4)) = s ++ 0 :: rest.
Proof.
  intros Hi. destruct (block_laid_out i s Hi) as [Hg Hs]. pose proof (offset_table strs i).
  assert (Hd : forall off n, 0 <= off -> slice off n (string_at block sizeof_SfBootArgs) = slice (sizeof_SfBootArgs + off) n block).
  { intros off n Ho. unfold slice, string_at. rewrite drop_drop. do 2 f_equal. sflia. }
  unfold get32 in *. rewrite Hd in Hg, Hs by lia. rewrite Hg. by apply string_at_placed.
Qed.

Lemma block_offset i s : environment !! i = Some s -> 0 <= string_offset block (ba_env_offset block) i.
Proof.
  intros Hi. destruct block_fields as (_ & _ & _ & _ & _ & _ & ->). pose proof (lookup_lt_Some _ _ _ Hi).
  rewrite (proj2 (truthy_true (zlen environment))) by (unfold zlen; lia).
  destruct (block_laid_out (length values + i)%nat s) as [Hg _].
  { unfold strs. rewrite lookup_app_r by lia. by replace (length values + i - length values)%nat with i by lia. }
  pose proof (offset_table strs (length values + i)%nat). unfold string_offset, get32, slice, string_at in *. rewrite drop_drop in Hg.
  replace (sizeof_SfBootArgs + zlen values * 4 + Z.of_nat i * 4) with (sizeof_SfBootArgs + Z.of_nat (length values + i)%nat * 4) by (unfold zlen; lia).
  replace (Z.to_nat (sizeof_SfBootArgs + Z.of_nat (length values + i)%nat * 4)) with (Z.to_nat sizeof_SfBootArgs + Z.to_nat (Z.of_nat (length values + i)%nat * 4))%nat by sflia.
  rewrite Hg. sflia.
Qed.

Lemma block_value i s : values !! i = Some s -> exists rest,
  string_at block (string_offset block (ba_argv_offset block) i) = s ++ 0 :: rest.
Proof.
  intros Hi. destruct block_fields as (_ & _ & _ & _ & -> & _). pose proof (lookup_lt_Some _ _ _ Hi).
  rewrite (proj2 (truthy_true (zlen values))) by (unfold zlen; lia). apply block_string.
  unfold strs. by rewrite lookup_app_l by done.
Qed.

Lemma block_variable i s : environment !! i = Some s -> exists rest,
  string_at block (string_offset block (ba_env_offset block) i) = s ++ 0 :: rest.
Proof.
  intros Hi. destruct block_fields as (_ & _ & _ & _ & _ & _ & ->). pose proof (lookup_lt_Some _ _ _ Hi).
  rewrite (proj2 (truthy_true (zlen environment))) by (unfold zlen; lia).
  destruct (block_string (length values + i) s) as [rest Hr].
  { unfold strs. rewrite lookup_app_r by lia. by replace (length values + i - length values)%nat with i by lia. }
  exists rest. rewrite <-Hr. unfold string_offset. do 2 f_equal. unfold zlen. lia.
Qed.

(** Every variable is [name=value] with a good name, different from all others. *)
Lemma variable_named i s : environment !! i = Some s -> exists name v, s = name ++ 61 :: v /\ name_ok name /\
  forall j t, (j < i)%nat -> environment !! j <> Some (name ++ 61 :: t).
Proof.
  intros Hi. destruct (packed values environment strings a Hpack) as (_ & _ & _ & _ & _ & _ & _ & _ & _ & Hv).
  destruct (variable_ok_named _ _ (Hv i s Hi)) as (name & v & Hs & Hn & He). exists name, v. split; [done|]. split; [done|].
  intros j t Hj Hjs. apply (He j t). rewrite lookup_take_lt by done. rewrite list_lookup_fmap, Hjs. done.
Qed.

Lemma named_unique name t name' t' : name_ok name -> name_ok name' -> name ++ 61 :: t = name' ++ 61 :: t' -> name = name' /\ t = t'.
Proof.
  intros Hn Hn' E. pose proof (key_length_named name t Hn) as K. pose proof (key_length_named name' t' Hn') as K'.
  rewrite E, K' in K. unfold zlen in K. apply app_inj_1 in E as [-> [= ->]]; [done|lia].
Qed.

Lemma block_variable_ok i : (i < length environment)%nat -> variable_bad block i = false.
Proof.
  intros Hi. destruct (lookup_lt_is_Some_2 environment i Hi) as [s Hs]. destruct (variable_named i s Hs) as (name & v & -> & Hn & Hu).
  destruct (block_variable i _ Hs) as [rest Hr]. unfold variable_bad. rewrite Hr. rewrite <-app_assoc. cbn [app].
  rewrite key_length_named by done. rewrite name_valid_app. rewrite Hn. cbn [negb].
  destruct (find_index _ i) as [j|] eqn:Ef; [|done]. apply find_index_Some in Ef as (Hj & Hp & _). cbv beta zeta in Hp. exfalso.
  destruct (lookup_lt_is_Some_2 environment j ltac:(lia)) as [s' Hs']. destruct (variable_named j s' Hs') as (name' & v' & -> & Hn' & _).
  destruct (block_variable j _ Hs') as [rest' Hr']. rewrite Hr' in Hp. rewrite <-app_assoc in Hp. cbn [app] in Hp.
  rewrite key_length_named in Hp by done. apply andb_prop in Hp as [Hz Hm]. apply Z.eqb_eq in Hz.
  apply memeq_names in Hm; [|done]. subst name'. by apply (Hu j v' Hj).
Qed.

Lemma block_valid : sf_boot_arguments_validate block (sizeof_SfBootArgs + total_bytes strs) = 0.
Proof.
  destruct (packed values environment strings a Hpack) as (_ & _ & _ & _ & Ht & Hv & He & _). fold strs in Ht.
  pose proof (offset_table strs (length strs)) as Hot. fold (total_bytes strs) in Hot.
  destruct block_fields as (F1 & F2 & F3 & F4 & F5 & F6 & F7). unfold sf_boot_arguments_validate.
  rewrite F1, F2, F3, F4, F5, F6, F7, !Z.eqb_refl.
  destruct (Z.ltb_spec (sizeof_SfBootArgs + total_bytes strs) sizeof_SfBootArgs); [lia|].
  destruct (Z.ltb_spec (sizeof_SfBootArgs + SF_ARGUMENT_BYTES) (sizeof_SfBootArgs + total_bytes strs)); [lia|].
  destruct (Z.ltb_spec SF_ARGUMENT_MAX (zlen values)); [lia|]. destruct (Z.ltb_spec SF_ENVIRONMENT_MAX (zlen environment)); [lia|].
  cbn [orb negb truthy Z.eqb]. rewrite Z.add_simpl_l.
  assert (Hn : zlen values + zlen environment = Z.of_nat (length strs)) by (unfold strs, zlen; rewrite length_app; lia).
  rewrite Hn, (payload_laid_out strs); [|done|apply block_laid_out|unfold zlen in *; sflia|done]. cbn [truthy Z.eqb negb].
  destruct (find_index _ _) as [i|] eqn:Ef; [|done]. apply find_index_Some in Ef as (Hi & Hp & _).
  rewrite block_variable_ok in Hp; [done|]. unfold zlen in Hi. lia.
Qed.

Lemma block_lookup name v rest i : environment !! i = Some (name ++ 61 :: v) -> name_ok name ->
  string_at block (string_offset block (ba_env_offset block) i) = (name ++ 61 :: v) ++ 0 :: rest ->
  sf_environment_value block (sizeof_SfBootArgs + total_bytes strs) name = Some (string_offset block (ba_env_offset block) i + zlen name + 1).
Proof.
  intros Hi Hn Hr. unfold sf_environment_value. rewrite block_valid. cbn [truthy Z.eqb negb].
  destruct (name_ok_chars name Hn) as [Hl _]. rewrite (scan_while_eq _ 64 (length name)).
  2: { unfold zlen in Hl. lia. }
  2: { intros j Hj. by apply name_ok_nonzero. }
  2: { intros _. unfold at_. rewrite Nat2Z.id, lookup_ge_None_2 by lia. done. }
  change (Z.of_nat (length name)) with (zlen name). rewrite Hn. cbn [negb].
  assert (Hhit : forall j s', environment !! j = Some s' -> forall rest', string_at block (string_offset block (ba_env_offset block) j) = s' ++ 0 :: rest' ->
    ((key_length (s' ++ 0 :: rest') =? zlen name) && memeq (s' ++ 0 :: rest') name (zlen name)) = true <-> exists w, s' = name ++ 61 :: w).
  { intros j s' Hj rest' _. destruct (variable_named j s' Hj) as (name' & v' & -> & Hn' & _). rewrite <-app_assoc. cbn [app].
    rewrite key_length_named by done. rewrite andb_true_iff, Z.eqb_eq. split.
    - intros [Hz Hm]. rewrite <-Hz, <-(app_nil_r name) in Hm. apply memeq_names in Hm; [|lia]. subst name'. by exists v'.
    - intros [w Hw]. destruct (named_unique _ _ _ _ Hn' Hn Hw) as [-> ->]. split; [done|].
      pose proof (proj2 (memeq_names name (61 :: w ++ 0 :: rest') name [] eq_refl) eq_refl) as Hm. by rewrite app_nil_r in Hm. }
  destruct (find_index _ _) as [j|] eqn:Ef.
  - apply find_index_Some in Ef as (Hj & Hp & Hb'). cbv beta zeta in Hp. f_equal. do 2 f_equal.
    destruct (block_fields) as (_ & _ & _ & _ & _ & F6 & _). rewrite F6 in Hj. unfold zlen in Hj. rewrite Nat2Z.id in Hj.
    destruct (lookup_lt_is_Some_2 environment j Hj) as [s' Hs']. destruct (block_variable j s' Hs') as [rest' Hr'].
    rewrite Hr' in Hp. apply (Hhit j s' Hs' rest' Hr') in Hp as [w ->].
    destruct (lt_eq_lt_dec i j) as [[Hij| ->]|Hij]; [|done|].
    + specialize (Hb' i Hij). cbv beta zeta in Hb'. rewrite Hr in Hb'. exfalso.
      rewrite (proj2 (Hhit i _ Hi rest Hr)) in Hb' by eauto. done.
    + exfalso. destruct (variable_named i _ Hi) as (name' & v' & E & Hn' & Hu). destruct (named_unique _ _ _ _ Hn Hn' E) as [<- _].
      by apply (Hu j w Hij).
  - exfalso. rewrite find_index_None in Ef. destruct (block_fields) as (_ & _ & _ & _ & _ & F6 & _).
    specialize (Ef i). rewrite F6 in Ef. specialize (Ef ltac:(apply lookup_lt_Some in Hi; unfold zlen; lia)). cbv beta zeta in Ef.
    rewrite Hr, (proj2 (Hhit i _ Hi rest Hr)) in Ef by eauto. done.
Qed.

End Block.

(** C25. Arguments arrive.  Strings that [sf_invocation_pack] accepts pass the
    kernel's [sf_arguments_validate]; the block the kernel builds from them
    passes the program's [sf_boot_arguments_validate]; and there
    [sf_argument], [sf_environment] and [sf_environment_value] give back every
    argument, every environment string, and the value of every variable. *)
Theorem arguments_roundtrip values environment a b : Forall string_ok (values ++ environment) ->
  sf_invocation_pack (map Some values) (map Some environment) = (0, Some a) -> started_with a b ->
  let block := boot_args_bytes b ++ take (Z.to_nat (a_bytes a)) (a_data a) in
  let bytes := sizeof_SfBootArgs + a_bytes a in
  sf_arguments_validate a = 0 /\ sf_boot_arguments_validate block bytes = 0 /\
  (forall i s, values !! i = Some s -> exists off, sf_argument block bytes i = Some off /\ cstr (string_at block off) = s) /\
  (forall i s, environment !! i = Some s -> exists off, sf_environment block bytes i = Some off /\ cstr (string_at block off) = s) /\
  (forall i name v, environment !! i = Some (name ++ 61 :: v) -> name_ok name ->
     exists off, sf_environment_value block bytes name = Some off /\ cstr (string_at block off) = v).
Proof.
  intros Hs Hp Hb block bytes. destruct (packed values environment Hs a Hp) as (Ec & Ee & Er & Eb & Ht & Hv & He & Hz & Hl & _).
  pose proof (block_valid values environment a b Hs Hp Hb) as Hvalid. rewrite <-Eb in Hvalid. fold block bytes in Hvalid.
  destruct (block_fields values environment a b Hs Hp Hb) as (_ & _ & _ & F4 & _ & F6 & _). fold block in F4, F6.
  rewrite Forall_app in Hs. destruct Hs as [Hsv Hse]. assert (Hs := proj2 (Forall_app string_ok values environment) (conj Hsv Hse)).
  rewrite Forall_lookup in Hsv, Hse. split; [|split; [done|split; [|split]]].
  - unfold sf_arguments_validate. rewrite Ec, Ee, Er, Eb. cbn [truthy Z.eqb negb orb].
    destruct (Z.ltb_spec SF_ARGUMENT_MAX (zlen values)); [lia|]. destruct (Z.ltb_spec SF_ENVIRONMENT_MAX (zlen environment)); [lia|].
    cbn [orb]. replace (zlen values + zlen environment) with (Z.of_nat (length (values ++ environment))) by (unfold zlen; rewrite length_app; lia).
    apply payload_laid_out; [done|done|unfold zlen in *; rewrite length_app; sflia|done].
  - intros i s Hi. unfold sf_argument. rewrite Hvalid, F4. pose proof (lookup_lt_Some _ _ _ Hi).
    destruct (Z.leb_spec (zlen values) (Z.of_nat i)); [unfold zlen in *; lia|]. cbn [truthy Z.eqb negb orb].
    destruct (block_value values environment a b Hs Hp Hb i s Hi) as [rest Hr]. eexists. split; [done|].
    fold block in Hr. rewrite Hr. apply cstr_string. by apply (Hsv i).
  - intros i s Hi. unfold sf_environment. rewrite Hvalid, F6. pose proof (lookup_lt_Some _ _ _ Hi).
    destruct (Z.leb_spec (zlen environment) (Z.of_nat i)); [unfold zlen in *; lia|]. cbn [truthy Z.eqb negb orb].
    destruct (block_variable values environment a b Hs Hp Hb i s Hi) as [rest Hr]. eexists. split; [done|].
    fold block in Hr. rewrite Hr. apply cstr_string. by apply (Hse i).
  - intros i name v Hi Hn. destruct (block_variable values environment a b Hs Hp Hb i _ Hi) as [rest Hr].
    pose proof (block_lookup values environment a b Hs Hp Hb name v rest i Hi Hn Hr) as Hval. rewrite <-Eb in Hval. fold block bytes in Hval, Hr.
    eexists. split; [exact Hval|]. unfold string_at in *. pose proof (block_offset values environment a b Hs Hp Hb i _ Hi) as Ho. fold block in Ho.
    replace (Z.to_nat (string_offset block (ba_env_offset block) i + zlen name + 1))
      with (Z.to_nat (string_offset block (ba_env_offset block) i) + S (length name))%nat by (unfold zlen; lia).
    rewrite <-drop_drop, Hr, <-app_assoc, drop_app_ge by lia. replace (S (length name) - length name)%nat with 1%nat by lia. simpl.
    apply cstr_string. specialize (Hse i _ Hi). unfold string_ok in *. apply Forall_app in Hse as [_ Hse]. by apply Forall_cons_1 in Hse as [_ ?].
Qed.

Lemma arguments_roundtrip_witness : exists a,
  sf_invocation_pack [Some [97; 98]; Some []] [Some [75; 61; 118]] = (0, Some a) /\ sf_arguments_validate a = 0 /\
  exists off, sf_environment_value (boot_args_bytes (boot_args 7 a) ++ take (Z.to_nat (a_bytes a)) (a_data a))
    (sizeof_SfBootArgs + a_bytes a) [75] = Some off /\
    cstr (string_at (boot_args_bytes (boot_args 7 a) ++ take (Z.to_nat (a_bytes a)) (a_data a)) off) = [118].
Proof.
  eexists. split; [by vm_compute|].
  match goal with |- sf_arguments_validate ?x = 0 /\ _ => set (a := x) end.
  assert (Hs : Forall string_ok ([[97; 98]; []] ++ [[75; 61; 118]])) by (repeat constructor).
  destruct (arguments_roundtrip [[97; 98]; []] [[75; 61; 118]] a (boot_args 7 a) Hs) as (H1 & _ & _ & _ & H5);
    [by vm_compute|by repeat split|]. split; [exact H1|]. by apply (H5 0%nat).
Defined.
