(* ===== verification/ArgSplit.v ===== *)
(** * Splitting a command line

    [sf_arguments_split] of [services/argparse.c]: words with single quotes,
    double quotes and backslashes, unquoted in place.  The buffer is a byte
    list; [read] and [write] are positions in it. *)

From S2P Require Import Prelude Bytes Abi Arguments.

Definition space (c : Z) : bool := (c =? 32) || (c =? 9).

Definition put (b : list Z) (w : nat) (c : Z) : list Z := <[w:=c]> b.
Definition peek (b : list Z) (r : nat) : Z := at_ b (Z.of_nat r).

(** One word; each turn reads at least one character of the buffer.  The
    first component is false for an error. *)
Fixpoint split_word (fuel : nat) (b : list Z) (r w : nat) (quote : Z) : bool * (list Z * nat * nat) :=
  let finish r := if truthy quote then (false, (b, r, w)) else (true, (put b w 0, r, S w)) in
  match fuel with
  | O => finish r
  | S fuel =>
      let c := peek b r in
      if c =? 0 then finish r
      else
        let r := S r in
        if negb (truthy quote) && space c then finish r
        else if (c =? 92) && negb (quote =? 39) then
          if peek b r =? 0 then (false, (b, r, w)) else split_word fuel (put b w (peek b r)) (S r) (S w) quote
        else if ((c =? 39) || (c =? 34)) && negb (truthy quote) then split_word fuel b r w c
        else if ((c =? 39) || (c =? 34)) && (quote =? c) then split_word fuel b r w 0
        else split_word fuel (put b w c) r (S w) quote
  end.

Definition skip_spaces (b : list Z) (r : nat) : nat := (r + scan_while (fun i => space (peek b (r + i))) (length b))%nat.

(** The result, the words' positions and the rewritten buffer. *)
Fixpoint split_words (fuel : nat) (b : list Z) (r w : nat) (values : list nat) (capacity : Z) : Z * list nat * list Z :=
  match fuel with
  | O => (zlen values, values, b)
  | S fuel =>
      if peek b r =? 0 then (zlen values, values, b)
      else
        let r := skip_spaces b r in
        if peek b r =? 0 then (zlen values, values, b)
        else if zlen values =? capacity then (SF_NO_SPACE, values, b)
        else
          match split_word (length b) b r w 0 with
          | (false, (b, _, _)) => (SF_INVALID, values ++ [w], b)
          | (true, (b, r, w')) => split_words fuel b r w' (values ++ [w]) capacity
          end
  end.

Definition sf_arguments_split (line : list Z) (capacity : Z) : Z * list nat * list Z :=
  if (capacity =? 0) || (SF_ARGUMENT_MAX + SF_ENVIRONMENT_MAX + 2 <? capacity) then (SF_INVALID, [], line)
  else split_words (length line) line 0 0 [] capacity.

(** ** The grammar *)

Definition is_quote (c : Z) : Prop := c = 39 \/ c = 34.

(** [word_text q t m]: inside quote [q] (0 outside), the text [t] completes a
    word and contributes the characters [m]. *)
Inductive word_text : Z -> list Z -> list Z -> Prop :=
| WordEnd : word_text 0 [] []
| WordEscape q c t m : q <> 39 -> c <> 0 -> word_text q t m -> word_text q (92 :: c :: t) (c :: m)
| WordOpen q t m : is_quote q -> word_text q t m -> word_text 0 (q :: t) m
| WordClose q t m : is_quote q -> word_text 0 t m -> word_text q (q :: t) m
| WordChar q c t m : c <> 0 -> q <> 0 \/ space c = false -> (c = 92 -> q = 39) -> (is_quote c -> q <> 0 /\ c <> q) ->
    word_text q t m -> word_text q (c :: t) (c :: m).

Definition blanks (t : list Z) : Prop := Forall (fun c => space c = true) t.

(** A line: words separated by blanks. *)
Inductive line_text : list Z -> list (list Z) -> Prop :=
| LineEnd bl : blanks bl -> line_text bl []
| LineWord bl t m rest ms : blanks bl -> t <> [] -> word_text 0 t m -> rest = [] \/ (exists s r, rest = s :: r /\ space s = true) ->
    line_text rest ms -> line_text (bl ++ t ++ rest) (m :: ms).

(** ** Positions *)

Lemma put_middle d y z c : put (d ++ y :: z) (length d) c = d ++ c :: z.
Proof. unfold put. rewrite insert_app_r_alt, Nat.sub_diag by lia. done. Qed.

Lemma peek_middle d y z : peek (d ++ y :: z) (length d) = y.
Proof. unfold peek, at_. by rewrite Nat2Z.id, list_lookup_middle. Qed.

(** The buffer while a word is read: written, free, still to read. *)
Definition layout (done gap todo b : list Z) (r w : nat) : Prop :=
  b = done ++ gap ++ todo /\ w = length done /\ r = (length done + length gap)%nat.

Lemma layout_peek done gap c todo b r w : layout done gap (c :: todo) b r w -> peek b r = c.
Proof.
  intros (-> & _ & ->). rewrite app_assoc. rewrite <-length_app. apply peek_middle.
Qed.

(** Reading [c] without writing. *)
Lemma layout_skip done gap c todo b r w : layout done gap (c :: todo) b r w -> layout done (gap ++ [c]) todo b (S r) w.
Proof.
  intros (-> & -> & ->). split; [by rewrite <-!app_assoc|]. split; [done|]. rewrite length_app. simpl. lia.
Qed.

(** Writing into the free part, which is not empty. *)
Lemma layout_write done gap todo b r w c : layout done gap todo b r w -> gap <> [] ->
  layout (done ++ [c]) (tl gap) todo (put b w c) r (S w).
Proof.
  intros (-> & -> & ->) Hg. destruct gap as [|y gap]; [done|]. simpl. unfold layout.
  rewrite put_middle, length_app. simpl. split; [by rewrite <-app_assoc|]. lia.
Qed.

Lemma split_word_text q t m : word_text q t m -> forall fuel done gap tail b r w,
  layout done gap (t ++ tail) b r w -> (length t <= fuel)%nat ->
  exists fuel' gap' b' r' w', (fuel - length t <= fuel')%nat /\ split_word fuel b r w q = split_word fuel' b' r' w' 0 /\
    layout (done ++ m) gap' tail b' r' w'.
Proof.
  induction 1 as [|q c t m Hq Hc Ht IH|q t m Hq Ht IH|q t m Hq Ht IH|q c t m Hc Hs Hb Hquo Ht IH];
    intros fuel done gap tail b r w Hl Hf; simpl in Hl, Hf.
  - exists fuel, gap, b, r, w. rewrite app_nil_r. split; [simpl; lia|done].
  - destruct fuel as [|fuel]; [lia|]. pose proof (layout_peek _ _ _ _ _ _ _ Hl) as P1. apply layout_skip in Hl.
    pose proof (layout_peek _ _ _ _ _ _ _ Hl) as P2. apply layout_skip in Hl.
    apply (layout_write _ _ _ _ _ _ c) in Hl; [|by destruct gap].
    destruct (IH fuel _ _ _ _ _ _ Hl ltac:(lia)) as (fuel' & gap' & b' & r' & w' & Hfu & E & Hl').
    exists fuel', gap', b', r', w'. split; [simpl; lia|]. rewrite <-app_assoc in Hl'. split; [|done]. rewrite <-E. simpl. rewrite P1.
    change (92 =? 0) with false. change (space 92) with false. rewrite andb_false_r. change (92 =? 92) with true.
    rewrite (proj2 (Z.eqb_neq q 39) Hq), P2, (proj2 (Z.eqb_neq c 0) Hc). done.
  - destruct fuel as [|fuel]; [lia|]. pose proof (layout_peek _ _ _ _ _ _ _ Hl) as P1. apply layout_skip in Hl.
    destruct (IH fuel _ _ _ _ _ _ Hl ltac:(lia)) as (fuel' & gap' & b' & r' & w' & Hfu & E & Hl').
    exists fuel', gap', b', r', w'. split; [simpl; lia|]. split; [|done]. rewrite <-E. simpl. rewrite P1.
    destruct Hq as [-> | ->]; done.
  - destruct fuel as [|fuel]; [lia|]. pose proof (layout_peek _ _ _ _ _ _ _ Hl) as P1. apply layout_skip in Hl.
    destruct (IH fuel _ _ _ _ _ _ Hl ltac:(lia)) as (fuel' & gap' & b' & r' & w' & Hfu & E & Hl').
    exists fuel', gap', b', r', w'. split; [simpl; lia|]. split; [|done]. rewrite <-E. simpl. rewrite P1.
    destruct Hq as [-> | ->]; done.
  - destruct fuel as [|fuel]; [lia|]. pose proof (layout_peek _ _ _ _ _ _ _ Hl) as P1. apply layout_skip in Hl.
    apply (layout_write _ _ _ _ _ _ c) in Hl; [|by destruct gap].
    destruct (IH fuel _ _ _ _ _ _ Hl ltac:(lia)) as (fuel' & gap' & b' & r' & w' & Hfu & E & Hl').
    exists fuel', gap', b', r', w'. split; [simpl; lia|]. rewrite <-app_assoc in Hl'. split; [|done]. rewrite <-E. simpl. rewrite P1.
    rewrite (proj2 (Z.eqb_neq c 0) Hc).
    assert (N1 : negb (truthy q) && space c = false).
    { destruct Hs as [Hs|Hs]; [|by rewrite Hs, andb_false_r]. by rewrite (proj2 (truthy_true q) Hs). }
    assert (N2 : (c =? 92) && negb (q =? 39) = false).
    { destruct (Z.eqb_spec c 92) as [->|]; [|done]. by rewrite (Hb eq_refl). }
    assert (N3 : ((c =? 39) || (c =? 34)) && negb (truthy q) = false /\ ((c =? 39) || (c =? 34)) && (q =? c) = false).
    { destruct ((c =? 39) || (c =? 34)) eqn:Eq; [|done]. apply orb_prop in Eq. rewrite !Z.eqb_eq in Eq.
      destruct (Hquo Eq) as [Hq0 Hqc]. rewrite (proj2 (truthy_true q) Hq0). split; [done|]. by apply Z.eqb_neq. }
    destruct N3 as [N3 N4]. by rewrite N1, N2, N3, N4.
Qed.

(** A word at the end of the line. *)
Lemma split_word_last t m fuel done gap tail b r w : word_text 0 t m -> layout done gap (t ++ 0 :: tail) b r w -> (length t < fuel)%nat ->
  exists b' r' z, split_word fuel b r w 0 = (true, (b', r', S (length (done ++ m)))) /\ b' = (done ++ m) ++ 0 :: z /\ peek b' r' = 0.
Proof.
  intros Ht Hl Hf. destruct (split_word_text 0 t m Ht fuel _ _ _ _ _ _ Hl ltac:(lia)) as (fuel' & gap' & b' & r' & w' & Hfu & -> & Hl').
  destruct fuel' as [|fuel']; [lia|]. pose proof (layout_peek _ _ _ _ _ _ _ Hl') as P. simpl. rewrite P. cbn [Z.eqb].
  destruct Hl' as (-> & -> & ->). destruct gap' as [|y gap'].
  - exists ((done ++ m) ++ 0 :: tail), (length (done ++ m) + 0)%nat, tail. simpl app. rewrite put_middle. simpl length.
    rewrite Nat.add_0_r, peek_middle. done.
  - exists ((done ++ m) ++ 0 :: gap' ++ 0 :: tail), (length (done ++ m) + length (y :: gap'))%nat, (gap' ++ 0 :: tail). simpl app.
    rewrite put_middle. split; [done|]. split; [done|].
    replace (length (done ++ m) + length (y :: gap'))%nat with (length ((done ++ m) ++ 0 :: gap')) by (rewrite (length_app (done ++ m)); done).
    replace ((done ++ m) ++ 0 :: gap' ++ 0 :: tail) with (((done ++ m) ++ 0 :: gap') ++ 0 :: tail) by (by rewrite <-app_assoc).
    apply peek_middle.
Qed.

(** A word before a blank. *)
Lemma split_word_next t m fuel done gap s tail b r w : word_text 0 t m -> space s = true -> layout done gap (t ++ s :: tail) b r w ->
  (length t < fuel)%nat ->
  exists b' r' gap', split_word fuel b r w 0 = (true, (b', r', S (length (done ++ m)))) /\
    layout ((done ++ m) ++ [0]) gap' tail b' r' (S (length (done ++ m))).
Proof.
  intros Ht Hs Hl Hf. destruct (split_word_text 0 t m Ht fuel _ _ _ _ _ _ Hl ltac:(lia)) as (fuel' & gap' & b' & r' & w' & Hfu & -> & Hl').
  destruct fuel' as [|fuel']; [lia|]. pose proof (layout_peek _ _ _ _ _ _ _ Hl') as P. simpl. rewrite P.
  destruct (Z.eqb_spec s 0) as [->|_]; [done|]. rewrite Hs. cbn [truthy Z.eqb negb andb].
  apply layout_skip in Hl'. pose proof Hl' as (_ & Hw & _). apply (layout_write _ _ _ _ _ _ 0) in Hl'; [|by destruct gap'].
  rewrite Hw in *. eexists _, _, _. split; [done|exact Hl'].
Qed.

(** ** Lines *)

Lemma space_nonzero c : space c = true -> c <> 0.
Proof. by intros Hs ->. Qed.

(** A word starts with a character that is no blank. *)
Lemma word_head t m : word_text 0 t m -> t <> [] -> exists c t', t = c :: t' /\ c <> 0 /\ space c = false.
Proof.
  intros Ht Hne. inversion Ht as [|q c t' m' _ _ _|q t' m' Hq _|q t' m' Hq _|q c t' m' Hc Hs _ _ _]; subst.
  - done.
  - by exists 92, (c :: t').
  - exists q, t'. destruct Hq as [-> | ->]; done.
  - destruct Hq; lia.
  - exists c, t'. split; [done|]. split; [done|]. by destruct Hs.
Qed.

Lemma line_tail s r ms : line_text (s :: r) ms -> space s = true -> line_text r ms.
Proof.
  intros Hl Hs. inversion Hl as [bl Hb|bl t m rest ms' Hb Hne Ht Hr Hrest E]; subst.
  - apply Forall_cons_1 in Hb as [_ Hb]. by constructor.
  - destruct bl as [|s' bl]; simpl in E.
    + destruct (word_head t m Ht Hne) as (c & t' & -> & _ & Hc). simpl in E. injection E as E1 E2. congruence.
    + injection E as -> <-. apply Forall_cons_1 in Hb as [_ Hb]. by constructor.
Qed.

Lemma line_nil ms : line_text [] ms -> ms = [].
Proof.
  intros Hl. inversion Hl as [|bl t m rest ms' Hb Hne Ht Hr Hrest E]; [done|]. by destruct bl, t.
Qed.

Lemma skip_spaces_layout done gap bl c todo b r w : layout done gap (bl ++ c :: todo) b r w -> blanks bl -> space c = false ->
  layout done (gap ++ bl) (c :: todo) b (skip_spaces b r) w.
Proof.
  intros (-> & -> & ->) Hb Hc. unfold skip_spaces. rewrite (scan_while_eq _ _ (length bl)).
  - split; [by rewrite <-app_assoc|]. split; [done|]. rewrite length_app. lia.
  - rewrite !length_app. lia.
  - intros i Hi. unfold peek, at_. rewrite Nat2Z.id. rewrite lookup_app_r, lookup_app_r, lookup_app_l by lia.
    replace (length done + length gap + i - length done - length gap)%nat with i by lia.
    destruct (lookup_lt_is_Some_2 bl i Hi) as [y Hy]. rewrite Hy. simpl. unfold blanks in Hb. rewrite Forall_lookup in Hb. by apply (Hb i).
  - intros _. replace (length done + length gap + length bl)%nat with (length (done ++ gap ++ bl)) by (rewrite !length_app; lia).
    replace (done ++ gap ++ bl ++ c :: todo) with ((done ++ gap ++ bl) ++ c :: todo) by (by rewrite <-!app_assoc). by rewrite peek_middle.
Qed.

(** What the caller finds: at position [i] of [vs] the text [ms!!i]. *)
Definition finds (b : list Z) (vs : list nat) (ms : list (list Z)) : Prop :=
  length vs = length ms /\ forall i m, ms !! i = Some m -> exists p rest, vs !! i = Some p /\ drop p b = m ++ 0 :: rest.

Lemma finds_cons done m z vs ms : finds ((done ++ m) ++ 0 :: z) vs ms -> finds ((done ++ m) ++ 0 :: z) (length done :: vs) (m :: ms).
Proof.
  intros [Hl Hf]. split; [simpl; by rewrite Hl|]. intros [|i] m' Hi; simpl in Hi; [|by apply Hf].
  injection Hi as <-. exists (length done), z. split; [done|]. rewrite <-app_assoc. by rewrite drop_app_length.
Qed.

Lemma peek_line bl (c : Z) todo done gap b r w : layout done gap (bl ++ c :: todo) b r w -> blanks bl -> c <> 0 -> (peek b r =? 0) = false.
Proof.
  intros Hl Hb Hc. apply Z.eqb_neq. destruct bl as [|s bl]; rewrite (layout_peek _ _ _ _ _ _ _ Hl); [done|].
  apply Forall_cons_1 in Hb as [Hs _]. by apply space_nonzero.
Qed.

Lemma split_words_stop fuel b r w values capacity : peek b r = 0 -> split_words fuel b r w values capacity = (zlen values, values, b).
Proof. intros P. destruct fuel; simpl; [done|]. by rewrite P. Qed.

Lemma split_words_line n : forall text ms, (length text <= n)%nat -> line_text text ms -> forall fuel done gap x b r w values capacity,
  layout done gap (text ++ 0 :: x) b r w -> (length text <= fuel)%nat -> zlen values + zlen ms <= capacity ->
  exists vs z b', split_words fuel b r w values capacity = (zlen values + zlen ms, values ++ vs, b') /\ b' = done ++ z /\ finds b' vs ms.
Proof.
  induction n as [|n IH]; intros text ms Hn Hline fuel done gap x b r w values capacity Hl Hf Hcap.
  { destruct text; [|simpl in Hn; lia]. apply line_nil in Hline as ->. pose proof (layout_peek _ _ _ _ _ _ _ Hl) as P.
    exists [], (gap ++ 0 :: x), b. rewrite split_words_stop by done. rewrite app_nil_r, Z.add_0_r. destruct Hl as (-> & _). done. }
  destruct Hline as [bl Hb|bl t m rest ms Hb Hne Ht Hr Hrest].
  - exists [], (gap ++ bl ++ 0 :: x), b. rewrite app_nil_r, Z.add_0_r. pose proof Hl as (Eb & _). split; [|done].
    destruct fuel as [|fuel]; [done|]. simpl. destruct (peek b r =? 0); [done|].
    rewrite (layout_peek _ _ _ _ _ _ _ (skip_spaces_layout _ _ _ _ _ _ _ _ Hl Hb eq_refl)). done.
  - destruct (word_head t m Ht Hne) as (c & t' & Et & Hc & Hsp). rewrite <-!app_assoc in Hl. rewrite !length_app in Hn, Hf.
    assert (Htl : (0 < length t)%nat) by (rewrite Et; simpl; lia). destruct fuel as [|fuel]; [lia|]. simpl.
    assert (Hl0 := Hl). rewrite Et in Hl0. cbn [app] in Hl0. rewrite (peek_line _ _ _ _ _ _ _ _ Hl0 Hb Hc).
    apply skip_spaces_layout in Hl0; [|done|done]. rewrite (layout_peek _ _ _ _ _ _ _ Hl0), (proj2 (Z.eqb_neq c 0) Hc).
    rewrite zlen_cons in Hcap. pose proof (zlen_nonneg ms). destruct (Z.eqb_spec (zlen values) capacity); [lia|].
    assert (Hl1 : layout done (gap ++ bl) (t ++ rest ++ 0 :: x) b (skip_spaces b r) w) by (rewrite Et; exact Hl0). clear Hl0.
    assert (Hw : w = length done) by (by destruct Hl1 as (_ & -> & _)).
    assert (Hlen : (length t < length b)%nat) by (destruct Hl1 as (-> & _); rewrite !length_app; simpl; lia).
    assert (Hz : forall q : Z, zlen (values ++ [w]) + q = zlen values + (1 + q)) by (intros; rewrite zlen_app, zlen_cons, zlen_nil; lia).
    rewrite zlen_cons. destruct Hr as [->|(s & rest' & -> & Hs)].
    + apply line_nil in Hrest as ->.
      destruct (split_word_last t m _ _ _ _ _ _ _ Ht Hl1 Hlen) as (b' & r' & z & -> & Eb & P).
      rewrite split_words_stop by done. exists [w], (m ++ 0 :: z), b'. rewrite <-Hz, Z.add_0_r. split; [done|].
      rewrite Eb, Hw. split; [by rewrite <-app_assoc|]. by apply finds_cons.
    + destruct (split_word_next t m _ _ _ s (rest' ++ 0 :: x) _ _ _ Ht Hs Hl1 Hlen) as (b' & r' & gap' & -> & Hl2).
      apply line_tail in Hrest; [|done]. simpl in Hn, Hf.
      destruct (IH rest' ms ltac:(lia) Hrest fuel _ _ _ _ _ _ (values ++ [w]) capacity Hl2) as (vs & z & b2 & -> & Eb & Hfi);
        [lia|rewrite Hz; lia|].
      exists (w :: vs), (m ++ 0 :: z), b2. rewrite Hz, <-app_assoc. rewrite <-app_assoc in Eb. cbn [app] in Eb.
      split; [done|]. split; [by rewrite Eb, <-app_assoc|]. rewrite Hw, Eb. apply finds_cons. by rewrite Eb in Hfi.
Qed.

(** C26. Command lines.  A line of words separated by blanks, each written with
    any mix of plain characters, backslash escapes and single- or
    double-quoted parts, is split into exactly the words it means: the call
    returns their number and leaves each, terminated, at its position in the
    rewritten buffer, whenever the caller's table is large enough. *)
Theorem split_words_meaning text ms rest capacity : line_text text ms -> 0 < capacity <= 18 -> zlen ms <= capacity ->
  Forall (fun m => Forall (fun c => 0 < c < 256) m) ms ->
  exists vs b, sf_arguments_split (text ++ 0 :: rest) capacity = (zlen ms, vs, b) /\ length vs = length ms /\
    forall i m, ms !! i = Some m -> exists p, vs !! i = Some p /\ cstr (drop p b) = m.
Proof.
  intros Hl Hc Hn Hm. unfold sf_arguments_split. destruct (Z.eqb_spec capacity 0); [lia|].
  destruct (Z.ltb_spec (SF_ARGUMENT_MAX + SF_ENVIRONMENT_MAX + 2) capacity); [sflia|]. cbn [orb].
  destruct (split_words_line (length text) text ms ltac:(lia) Hl (length (text ++ 0 :: rest)) [] [] rest (text ++ 0 :: rest) 0%nat 0%nat [] capacity)
    as (vs & z & b & -> & _ & Hlen & Hf); [done|rewrite length_app; lia|done|].
  exists vs, b. split; [done|]. split; [done|]. intros i m Hi. destruct (Hf i m Hi) as (p & r & Hp & Hd). exists p. split; [done|].
  rewrite Hd. apply cstr_string. rewrite Forall_lookup in Hm. by apply (Hm i).
Qed.

(** [ab 'c d'] *)
Lemma split_words_meaning_witness : exists vs b,
  sf_arguments_split ([97; 98; 32; 39; 99; 32; 100; 39] ++ [0]) 4 = (2, vs, b) /\ length vs = 2%nat /\
  forall i m, [[97; 98]; [99; 32; 100]] !! i = Some m -> exists p, vs !! i = Some p /\ cstr (drop p b) = m.
Proof.
  apply (split_words_meaning [97; 98; 32; 39; 99; 32; 100; 39] [[97; 98]; [99; 32; 100]] [] 4); [|lia|done|repeat constructor; lia].
  apply (LineWord [] [97; 98]); [constructor|done| |right; by exists 32, [39; 99; 32; 100; 39]|].
  { repeat (apply WordChar; [done|by right|done|by intros [?|?]|]). apply WordEnd. }
  apply (LineWord [32] [39; 99; 32; 100; 39] _ []); [by repeat constructor|done| |by left|by repeat constructor].
  apply WordOpen; [by left|]. repeat (apply WordChar; [done|by left|done|by intros [?|?]|]). apply WordClose; [by left|apply WordEnd].
Defined.
