(* ===== verification/Supervisor.v ===== *)
(** * Service supervision

    The restart policy of [services/supervisor.c]: a bounded number of
    restart attempts, a retry delay, and a stability window after which the
    attempt budget is restored. *)

From S2P Require Import Prelude Bytes Abi.

Inductive sup_state :=
| SF_SUP_STOPPED | SF_SUP_WAITING | SF_SUP_STARTING | SF_SUP_RUNNING | SF_SUP_BLOCKED.

#[export] Instance sup_state_eq_dec : EqDecision sup_state.
Proof. solve_decision. Defined.

Record SfSupervisor := MkSup {
  retry_ticks : Z; stable_ticks : Z; next_tick : Z; running_since : Z;
  max_attempts : Z; attempts : Z; sup_st : sup_state }.

#[export] Instance SfSupervisor_eta : Settable SfSupervisor := fun p =>
  MkSup (retry_ticks p) (stable_ticks p) (next_tick p) (running_since p)
    (max_attempts p) (attempts p) (sup_st p).

Definition is_state (p : SfSupervisor) (s : sup_state) : bool := bool_decide (sup_st p = s).

(** [sf_supervisor_init]; [None] is the null pointer. *)
Definition sf_supervisor_init (p : option SfSupervisor) (attempts_ retry stable : Z)
  : Z * option SfSupervisor :=
  match p with
  | None => (SF_INVALID, None)
  | Some _ =>
      if (attempts_ =? 0) || (16 <? attempts_) || (retry =? 0) || (stable =? 0)
      then (SF_INVALID, p)
      else (0, Some (MkSup retry stable 0 0 attempts_ 0 SF_SUP_STOPPED))
  end.

Definition sf_supervisor_enable (p : SfSupervisor) (now : Z) (running : bool) : SfSupervisor :=
  p <| attempts := 0 |>
    <| sup_st := if running then SF_SUP_RUNNING else SF_SUP_WAITING |>
    <| running_since := now |> <| next_tick := now |>.

Definition sf_supervisor_disable (p : SfSupervisor) : SfSupervisor :=
  p <| sup_st := SF_SUP_STOPPED |> <| attempts := 0 |>
    <| running_since := 0 |> <| next_tick := 0 |>.

(** The task ran long enough for its failure to restore the budget. *)
Definition sup_stable (p : SfSupervisor) (now : Z) : bool :=
  is_state p SF_SUP_RUNNING && (running_since p <=? now)
  && (stable_ticks p <=? now - running_since p).

Definition sf_supervisor_failure (p : SfSupervisor) (now : Z) : Z * SfSupervisor :=
  if negb (is_state p SF_SUP_RUNNING) && negb (is_state p SF_SUP_STARTING) then (SF_INVALID, p)
  else
    let p := if sup_stable p now then p <| attempts := 0 |> else p in
    if max_attempts p <=? attempts p
    then (0, p <| sup_st := SF_SUP_BLOCKED |> <| next_tick := 0 |>)
    else (0, p <| sup_st := SF_SUP_WAITING |>
               <| next_tick := if UINT64_MAX - now <? retry_ticks p then UINT64_MAX
                               else now + retry_ticks p |>).

Definition sf_supervisor_begin (p : SfSupervisor) (now : Z) : Z * SfSupervisor :=
  if negb (is_state p SF_SUP_WAITING) || (max_attempts p <=? attempts p) then (SF_INVALID, p)
  else if now <? next_tick p then (SF_WOULD_BLOCK, p)
  else (0, p <| attempts := u32 (attempts p + 1) |> <| sup_st := SF_SUP_STARTING |>).

Definition sf_supervisor_started (p : SfSupervisor) (now : Z) : Z * SfSupervisor :=
  if negb (is_state p SF_SUP_STARTING) then (SF_INVALID, p)
  else (0, p <| sup_st := SF_SUP_RUNNING |> <| running_since := now |>).

(** ** The state machine *)

Inductive sup_event :=
| EvFailure (now : Z) | EvBegin (now : Z) | EvStarted (now : Z)
| EvEnable (now : Z) (running : bool) | EvDisable.

Definition sup_apply (e : sup_event) (p : SfSupervisor) : Z * SfSupervisor :=
  match e with
  | EvFailure now => sf_supervisor_failure p now
  | EvBegin now => sf_supervisor_begin p now
  | EvStarted now => sf_supervisor_started p now
  | EvEnable now r => (0, sf_supervisor_enable p now r)
  | EvDisable => (0, sf_supervisor_disable p)
  end.

(** Well-formed supervisors: the configuration [sf_supervisor_init] accepts,
    and an attempt count within the budget. *)
Definition sup_wf (p : SfSupervisor) : Prop :=
  0 < max_attempts p <= 16 /\ 0 < retry_ticks p /\ 0 < stable_ticks p /\
  0 <= attempts p <= max_attempts p /\
  (sup_st p = SF_SUP_STARTING -> 0 < attempts p) /\
  (sup_st p = SF_SUP_BLOCKED -> attempts p = max_attempts p).

(** Successful restarts over a sequence of events, and the final state. *)
Fixpoint sup_run (es : list sup_event) (p : SfSupervisor) : Z * SfSupervisor :=
  match es with
  | [] => (0, p)
  | e :: rest =>
      let '(r, p') := sup_apply e p in
      let '(n, q) := sup_run rest p' in
      ((match e with EvBegin _ => if r =? 0 then 1 else 0 | _ => 0 end) + n, q)
  end.

(** A trace without operator intervention in which no failure comes after a
    stable run: the crash loop the budget is meant to bound. *)
Fixpoint crash_loop (es : list sup_event) (p : SfSupervisor) : Prop :=
  match es with
  | [] => True
  | e :: rest =>
      match e with
      | EvFailure now => sup_stable p now = false
      | EvBegin _ | EvStarted _ => True
      | EvEnable _ _ | EvDisable => False
      end /\ crash_loop rest (snd (sup_apply e p))
  end.

Lemma u32_attempt a m : 0 <= a <= m -> m <= 16 -> u32 (a + 1) = a + 1.
Proof. intros. apply u32_small. lia. Qed.

Lemma sup_apply_wf e p : sup_wf p -> sup_wf (snd (sup_apply e p)).
Proof.
  unfold sup_wf. intros (? & ? & ? & ? & Hs & Hb). destruct p; simpl in *.
  destruct e; unfold sup_apply, sf_supervisor_failure, sf_supervisor_begin,
    sf_supervisor_started, sf_supervisor_enable, sf_supervisor_disable, is_state; simpl.
  - repeat case_bool_decide; simpl in *; try (repeat split; auto; lia);
      destruct (sup_stable _ _); simpl;
      match goal with |- context [if ?b then _ else _] => destruct b eqn:E end; simpl;
      repeat split; try done; try lia.
  - case_bool_decide; simpl; [|repeat split; auto; lia].
    destruct (Z.leb_spec max_attempts0 attempts0); simpl; [repeat split; auto; lia|].
    destruct (Z.ltb_spec now next_tick0); simpl; [repeat split; auto; lia|].
    rewrite (u32_attempt attempts0 max_attempts0) by lia. repeat split; try done; lia.
  - case_bool_decide; simpl; repeat split; auto; try done; lia.
  - destruct running; repeat split; try done; lia.
  - repeat split; try done; lia.
Qed.

(** One event of a crash loop spends budget exactly when it restarts. *)
Lemma crash_loop_step e p :
  sup_wf p -> crash_loop [e] p ->
  attempts (snd (sup_apply e p)) =
    attempts p + (match e with EvBegin _ => if fst (sup_apply e p) =? 0 then 1 else 0 | _ => 0 end)
  /\ max_attempts (snd (sup_apply e p)) = max_attempts p.
Proof.
  unfold sup_wf. intros (? & ? & ? & ? & _) [He _]. destruct p; simpl in *.
  destruct e; try done; unfold sup_apply, sf_supervisor_failure, sf_supervisor_begin,
    sf_supervisor_started, is_state; simpl.
  - rewrite He. repeat case_bool_decide; simpl; try lia;
      destruct (max_attempts0 <=? attempts0); simpl; lia.
  - case_bool_decide; simpl; [|lia].
    destruct (max_attempts0 <=? attempts0); simpl; [lia|].
    destruct (now <? next_tick0); simpl; [lia|].
    rewrite (u32_attempt attempts0 max_attempts0) by lia. lia.
  - case_bool_decide; simpl; lia.
Qed.

(** C28. The restart budget holds on every execution: starting from any
    well-formed supervisor, a crash loop of any length restarts the service at
    most [max_attempts - attempts] times, and all states stay well-formed. *)
Theorem supervisor_restart_budget es : forall p,
  sup_wf p -> crash_loop es p ->
  0 <= fst (sup_run es p) <= max_attempts p - attempts p /\ sup_wf (snd (sup_run es p)).
Proof.
  induction es as [|e es IH]; intros p Hwf Hl.
  - simpl. unfold sup_wf in *. intuition lia.
  - destruct Hl as [He Hl]. pose proof (crash_loop_step e p Hwf (conj He I)) as [Ha Hm].
    pose proof (sup_apply_wf e p Hwf) as Hwf'.
    cbn [sup_run]. destruct (sup_apply e p) as [r p'] eqn:Hap. cbn [fst snd] in *.
    destruct (IH p' Hwf' Hl) as [Hn Hwf'']. destruct (sup_run es p') as [n q].
    cbn [fst snd] in *. split; [|done].
    unfold sup_wf in *. destruct e; try destruct (r =? 0); lia.
Qed.

Definition example_sup : SfSupervisor := MkSup 5 100 0 0 2 0 SF_SUP_RUNNING.

Lemma supervisor_restart_budget_witness :
  0 <= fst (sup_run [EvFailure 1; EvBegin 6; EvStarted 7; EvFailure 8; EvBegin 13; EvFailure 14; EvBegin 20]
              example_sup) <= 2 - 0.
Proof.
  apply (supervisor_restart_budget
    [EvFailure 1; EvBegin 6; EvStarted 7; EvFailure 8; EvBegin 13; EvFailure 14; EvBegin 20] example_sup).
  - vm_compute. repeat split; congruence.
  - vm_compute. tauto.
Defined.

(** Recovery: after a failure with budget left, the supervisor refuses to
    restart before the (saturating) retry delay and restarts at any later
    time; with the budget spent it blocks until an operator re-enables it. *)
Theorem supervisor_failure_outcome p now later :
  sup_wf p -> 0 <= now <= UINT64_MAX -> (sup_st p = SF_SUP_RUNNING \/ sup_st p = SF_SUP_STARTING) ->
  let spent := if sup_stable p now then 0 else attempts p in
  let '(r, q) := sf_supervisor_failure p now in
  r = 0 /\
  if decide (spent < max_attempts p) then
    let due := Z.min UINT64_MAX (now + retry_ticks p) in
    (later < due -> sf_supervisor_begin q later = (SF_WOULD_BLOCK, q)) /\
    (due <= later -> fst (sf_supervisor_begin q later) = 0 /\
       sup_st (snd (sf_supervisor_begin q later)) = SF_SUP_STARTING /\
       attempts (snd (sf_supervisor_begin q later)) = spent + 1)
  else sup_st q = SF_SUP_BLOCKED /\ forall t, sf_supervisor_begin q t = (SF_INVALID, q).
Proof.
  intros (Hm & Hr & Hst & Ha & _) Hnow Hs. cbv zeta. unfold sf_supervisor_failure.
  replace (negb (is_state p SF_SUP_RUNNING) && negb (is_state p SF_SUP_STARTING)) with false
    by (unfold is_state; destruct Hs as [-> | ->]; reflexivity).
  set (spent := if sup_stable p now then 0 else attempts p).
  set (p1 := if sup_stable p now then p <| attempts := 0 |> else p).
  assert (Hp1 : attempts p1 = spent /\ max_attempts p1 = max_attempts p
                /\ retry_ticks p1 = retry_ticks p).
  { unfold p1, spent. destruct (sup_stable p now); done. }
  destruct Hp1 as (Ha1 & Hm1 & Hr1). rewrite Ha1, Hm1, Hr1.
  assert (0 <= spent <= max_attempts p) by (unfold spent; destruct (sup_stable p now); lia).
  destruct (Z.leb_spec (max_attempts p) spent); case_decide; try lia; (split; [done|]).
  - split; [done|]. intros t. unfold sf_supervisor_begin, is_state. done.
  - unfold sf_supervisor_begin, is_state. simpl.
    rewrite Ha1, Hm1, (proj2 (Z.leb_gt _ _)) by lia. simpl.
    set (due := if UINT64_MAX - now <? retry_ticks p then _ else _).
    replace (Z.min UINT64_MAX (now + retry_ticks p)) with due
      by (unfold due; destruct (Z.ltb_spec (UINT64_MAX - now) (retry_ticks p)); lia).
    destruct (Z.ltb_spec later due); simpl; split; intros; try lia; try done.
    rewrite (u32_attempt spent (max_attempts p)) by lia. done.
Qed.

Lemma supervisor_failure_outcome_witness :
  sf_supervisor_begin (snd (sf_supervisor_failure example_sup 1)) 5
  = (SF_WOULD_BLOCK, snd (sf_supervisor_failure example_sup 1)).
Proof.
  pose proof (supervisor_failure_outcome example_sup 1 5) as H.
  apply H; [vm_compute; repeat split; congruence|vm_compute; split; congruence|by left|].
  vm_compute. reflexivity.
Defined.
