(* ===== verification/Decimal.v ===== *)
(** * Decimal text

    The digit loop shared by [sf_version_parse], [sf_net_format_ipv4],
    [sf_number] and the SDK formatter: printing by repeated division and the
    characterisation of canonical (no leading zero) numerals. *)

From S2P Require Import Prelude Bytes.

Definition is_digit (c : Z) : bool := (48 <=? c) && (c <=? 57).

(** [do { *p++ = '0' + v % 10; v /= 10; } while (v);], least significant
    digit first; the fuel bounds the number of digits. *)
Fixpoint rev_digits (fuel : nat) (v : Z) : list Z :=
  match fuel with
  | O => []
  | S f => (48 + v mod 10) :: (if v / 10 =? 0 then [] else rev_digits f (v / 10))
  end.

(** Twenty digits are enough for any 64-bit value. *)
Definition dec_digits (v : Z) : list Z := rev (rev_digits 20 v).

(** Value of a digit string, most significant digit first. *)
Definition dec_step (acc c : Z) : Z := acc * 10 + (c - 48).
Definition dec_value (ds : list Z) : Z := fold_left dec_step ds 0.

Definition digits_ok (ds : list Z) : Prop := Forall (fun c => is_digit c = true) ds.

(** No leading zero unless the numeral is a single digit. *)
Definition canonical (ds : list Z) : Prop :=
  ds <> [] /\ digits_ok ds /\ (1 < zlen ds -> hd 0 ds <> 48).

(** Value of a reversed digit string. *)
Fixpoint rev_value (ds : list Z) : Z :=
  match ds with [] => 0 | c :: r => (c - 48) + 10 * rev_value r end.

Lemma dec_value_snoc ds c : dec_value (ds ++ [c]) = dec_value ds * 10 + (c - 48).
Proof. unfold dec_value. rewrite fold_left_app. done. Qed.

Lemma dec_value_rev ds : dec_value (rev ds) = rev_value ds.
Proof.
  induction ds as [|c ds IH]; simpl; [done|]. rewrite dec_value_snoc, IH. lia.
Qed.

Lemma rev_value_bound ds : digits_ok ds -> 0 <= rev_value ds < 10 ^ zlen ds.
Proof.
  unfold zlen. induction 1 as [|c ds Hc _ IH]; simpl length; simpl rev_value; [done|].
  rewrite Nat2Z.inj_succ, Z.pow_succ_r by lia. unfold is_digit in Hc. lia.
Qed.

Lemma rev_digits_ok fuel v : 0 <= v -> digits_ok (rev_digits fuel v).
Proof.
  revert v. induction fuel as [|f IH]; intros v Hv; simpl; [constructor|].
  pose proof (Z.mod_pos_bound v 10). constructor; [unfold is_digit; lia|].
  destruct (Z.eqb_spec (v / 10) 0); [constructor|apply IH, Z.div_pos; lia].
Qed.

Lemma rev_digits_value fuel v :
  0 <= v < 10 ^ Z.of_nat fuel -> rev_value (rev_digits fuel v) = v.
Proof.
  revert v. induction fuel as [|f IH]; intros v Hv; simpl in *; [lia|].
  rewrite Nat2Z.inj_succ, Z.pow_succ_r in Hv by lia.
  pose proof (Z.div_mod v 10).
  destruct (Z.eqb_spec (v / 10) 0); simpl; [lia|].
  rewrite IH; [lia|]. split; [apply Z.div_pos; lia|apply Z.div_lt_upper_bound; lia].
Qed.

(** Reversed canonical numerals: the last digit is nonzero unless alone. *)
Definition rev_canonical (ds : list Z) : Prop :=
  ds <> [] /\ digits_ok ds /\ (1 < zlen ds -> List.last ds 48 <> 48).

Lemma rev_value_zero ds : digits_ok ds -> rev_value ds = 0 -> ds <> [] -> List.last ds 48 = 48.
Proof.
  induction 1 as [|c ds Hc Hds IH]; [done|]. intros Hv _. simpl in Hv.
  pose proof (rev_value_bound ds Hds). unfold is_digit in Hc.
  destruct ds as [|d ds]; simpl; [simpl in Hv; lia|]. apply IH; [lia|done].
Qed.

Lemma rev_digits_canonical fuel v :
  0 <= v < 10 ^ Z.of_nat fuel -> (0 < fuel)%nat -> rev_canonical (rev_digits fuel v).
Proof.
  intros Hv Hf. split; [destruct fuel; [lia|done]|]. split; [apply rev_digits_ok; lia|].
  revert v Hv. induction fuel as [|f IH]; intros v Hv; [lia|]. simpl.
  rewrite Nat2Z.inj_succ, Z.pow_succ_r in Hv by lia.
  destruct (Z.eqb_spec (v / 10) 0) as [|Hne]; [unfold zlen; simpl; lia|]. intros _.
  assert (0 <= v / 10 < 10 ^ Z.of_nat f).
  { split; [apply Z.div_pos; lia|apply Z.div_lt_upper_bound; lia]. }
  destruct f as [|f]; [change (10 ^ Z.of_nat 0) with 1 in *; lia|].
  destruct (rev_digits (S f) (v / 10)) as [|d ds] eqn:E; [done|].
  destruct ds as [|d' ds].
  - simpl. intros Hd. pose proof (rev_digits_value (S f) (v / 10) ltac:(lia)) as Hval.
    rewrite E in Hval. simpl in Hval. subst d. lia.
  - specialize (IH ltac:(lia) (v / 10) ltac:(lia)). rewrite E in IH.
    apply IH. unfold zlen. simpl. lia.
Qed.

(** Canonical numerals are determined by their value. *)
Lemma rev_canonical_inj ds : forall fuel,
  rev_canonical ds -> (length ds <= fuel)%nat -> rev_digits fuel (rev_value ds) = ds.
Proof.
  induction ds as [|c ds IH]; intros fuel (Hne & Hok & Hlast) Hf; [done|].
  apply Forall_cons_1 in Hok as [Hc Hok]. unfold is_digit in Hc.
  destruct fuel as [|f]; [simpl in Hf; lia|]. simpl.
  pose proof (rev_value_bound ds Hok) as Hb.
  replace (c - 48 + 10 * rev_value ds) with (c - 48 + rev_value ds * 10) by lia.
  rewrite Z_mod_plus_full, Z_div_plus_full by lia.
  rewrite Z.mod_small, Z.div_small, Z.add_0_l by lia.
  destruct ds as [|d ds]; simpl in Hf.
  - simpl. f_equal. lia.
  - assert (Hl : List.last (d :: ds) 48 <> 48).
    { apply Hlast. unfold zlen. simpl. lia. }
    destruct (Z.eqb_spec (rev_value (d :: ds)) 0) as [H0|H0].
    { exfalso. apply Hl. by apply rev_value_zero. }
    rewrite IH; [f_equal; lia| |simpl; lia]. split; [done|]. split; [done|]. by intros _.
Qed.

Lemma last_rev_hd (ds : list Z) : List.last (rev ds) 48 = hd 48 ds.
Proof. destruct ds as [|c ds]; [done|]. simpl. apply List.last_last. Qed.

Lemma canonical_rev ds : canonical ds <-> rev_canonical (rev ds).
Proof.
  unfold canonical, rev_canonical, digits_ok, zlen.
  assert (Hr : Forall (fun c => is_digit c = true) (rev ds) <-> Forall (fun c => is_digit c = true) ds).
  { split; [|apply Forall_rev]. intros H. apply Forall_rev in H. by rewrite rev_involutive in H. }
  rewrite last_rev_hd, Hr, length_rev. clear Hr. destruct ds as [|c ds]; simpl; [tauto|].
  split; intros (? & ? & ?); (repeat split; [|done|done]).
  - intros Hr. apply (f_equal (@length Z)) in Hr. rewrite length_app in Hr. simpl in Hr. lia.
  - done.
Qed.

(** Printing a value and reading it back. *)
Lemma dec_value_digits v : 0 <= v < 10 ^ 20 -> dec_value (dec_digits v) = v.
Proof. intros. unfold dec_digits. rewrite dec_value_rev. apply rev_digits_value. simpl; lia. Qed.

Lemma dec_digits_canonical v : 0 <= v < 10 ^ 20 -> canonical (dec_digits v).
Proof.
  intros. unfold dec_digits. apply canonical_rev. rewrite rev_involutive.
  apply rev_digits_canonical; [simpl; lia|lia].
Qed.

(** A canonical numeral is the printed form of its value. *)
Lemma canonical_dec_digits ds :
  canonical ds -> zlen ds <= 20 -> dec_digits (dec_value ds) = ds.
Proof.
  intros Hc Hl. unfold dec_digits. apply canonical_rev in Hc.
  rewrite <-(rev_involutive ds) at 1. rewrite dec_value_rev.
  rewrite rev_canonical_inj; [apply rev_involutive|done|].
  rewrite length_rev. unfold zlen in Hl. lia.
Qed.

Lemma dec_digits_bound v : 0 <= v < 10 ^ 20 -> digits_ok (dec_digits v) /\ dec_digits v <> [].
Proof. intros H. destruct (dec_digits_canonical v H) as (? & ? & _). done. Qed.
