(* ===== verification/Version.v ===== *)
(** * Version policy

    [services/version.c]: the strict three-part version parser, comparison
    and the monotonic upgrade rule that rejects downgrades and replacements. *)

From S2P Require Import Prelude Bytes Abi Decimal.

Record SfVersion := MkVersion { part : list Z }.

(** The [do ... while] digit loop of one part: [None] is the overflow exit.
    The terminator (end of the list) is not a digit. *)
Fixpoint digit_loop (acc : Z) (text : list Z) : option (Z * list Z) :=
  match text with
  | c :: text' =>
      if is_digit c then
        let digit := c - 48 in
        if (UINT32_MAX - digit) / 10 <? acc then None
        else digit_loop (acc * 10 + digit) text'
      else Some (acc, text)
  | [] => Some (acc, [])
  end.

(** One iteration of the outer loop, up to the leading-zero check. *)
Definition version_part (text : list Z) : option (Z * list Z) :=
  if negb (is_digit (hd 0 text)) then None
  else
    match digit_loop 0 text with
    | None => None
    | Some (v, rest) =>
        if (1 <? zlen text - zlen rest) && (hd 0 text =? 48) then None else Some (v, rest)
    end.

(** [sf_version_parse]: the text is the characters before the terminator. *)
Definition sf_version_parse (out : SfVersion) (text : list Z) : Z * SfVersion :=
  match version_part text with
  | None => (SF_BAD_FORMAT, out)
  | Some (a, t1) =>
      if negb (hd 0 t1 =? 46) then (SF_BAD_FORMAT, out)
      else match version_part (tl t1) with
      | None => (SF_BAD_FORMAT, out)
      | Some (b, t2) =>
          if negb (hd 0 t2 =? 46) then (SF_BAD_FORMAT, out)
          else match version_part (tl t2) with
          | None => (SF_BAD_FORMAT, out)
          | Some (c, t3) =>
              if truthy (hd 0 t3) then (SF_BAD_FORMAT, out) else (0, MkVersion [a; b; c])
          end
      end
  end.

(** [sf_version_compare]: the loop over the three parts. *)
Fixpoint compare_parts (a b : list Z) (n : nat) : Z :=
  match n with
  | O => 0
  | S n' =>
      if hd 0 a =? hd 0 b then compare_parts (tl a) (tl b) n'
      else if hd 0 b <? hd 0 a then 1 else -1
  end.

Definition sf_version_compare (a b : SfVersion) : Z := compare_parts (part a) (part b) 3.

Definition sf_version_upgrade (current : SfVersion) (old : list Z)
    (candidate : SfVersion) (next : list Z) : Z :=
  let r := sf_version_compare candidate current in
  if 0 <? r then 0
  else if (r <? 0) || negb (memeq old next 32) then SF_VERSION_REJECTED
  else 1.

(** ** The parser accepts exactly the canonical texts *)

Definition version_ok (v : SfVersion) : Prop := length (part v) = 3%nat /\ Forall u32_ok (part v).

(** The canonical text of a version. *)
Definition version_print (v : SfVersion) : list Z :=
  dec_digits (nth 0 (part v) 0) ++ 46 :: dec_digits (nth 1 (part v) 0)
  ++ 46 :: dec_digits (nth 2 (part v) 0).

Lemma dec_fold_mono ds acc : digits_ok ds -> 0 <= acc -> acc <= fold_left dec_step ds acc.
Proof.
  intros H. revert acc. induction H as [|c ds Hc _ IH]; intros acc Ha; simpl; [lia|].
  unfold is_digit in Hc. specialize (IH (dec_step acc c)). unfold dec_step in *. lia.
Qed.

Lemma overflow_test acc d : 0 <= d <= 9 -> 0 <= acc ->
  ((UINT32_MAX - d) / 10 <? acc) = false <-> acc * 10 + d <= UINT32_MAX.
Proof.
  intros. unfold UINT32_MAX. pose proof (Z.div_mod (4294967295 - d) 10).
  pose proof (Z.mod_pos_bound (4294967295 - d) 10). lia.
Qed.

Lemma digit_loop_sound text : forall acc v rest,
  0 <= acc <= UINT32_MAX -> digit_loop acc text = Some (v, rest) ->
  exists ds, text = ds ++ rest /\ digits_ok ds /\ is_digit (hd 0 rest) = false
    /\ v = fold_left dec_step ds acc /\ v <= UINT32_MAX.
Proof.
  induction text as [|c text IH]; intros acc v rest Ha H; simpl in H.
  - simplify_eq. exists []. repeat split; [constructor|simpl; lia].
  - destruct (is_digit c) eqn:Hc.
    + destruct (_ <? acc) eqn:Ho; [done|].
      assert (Hd : 0 <= c - 48 <= 9) by (unfold is_digit in Hc; lia).
      apply overflow_test in Ho; [|lia..].
      apply IH in H as (ds & -> & Hds & Hr & -> & Hv); [|lia].
      exists (c :: ds). repeat split; try done. by constructor.
    + simplify_eq. exists []. repeat split; [constructor|done|simpl; lia].
Qed.

Lemma digit_loop_complete ds rest : forall acc,
  digits_ok ds -> is_digit (hd 0 rest) = false -> 0 <= acc ->
  fold_left dec_step ds acc <= UINT32_MAX ->
  digit_loop acc (ds ++ rest) = Some (fold_left dec_step ds acc, rest).
Proof.
  induction ds as [|c ds IH]; intros acc Hds Hr Ha Hv; simpl.
  - destruct rest as [|c rest]; simpl in *; [done|]. by rewrite Hr.
  - apply Forall_cons_1 in Hds as [Hc Hds]. rewrite Hc.
    assert (Hd : 0 <= c - 48 <= 9) by (unfold is_digit in Hc; lia).
    pose proof (dec_fold_mono ds (dec_step acc c) Hds) as Hm. simpl in Hv. unfold dec_step in Hm.
    rewrite (proj2 (overflow_test acc (c - 48) Hd Ha)) by (unfold dec_step in *; lia).
    apply IH; auto. unfold dec_step in *; lia.
Qed.

Lemma version_part_spec text v rest :
  version_part text = Some (v, rest) <->
  exists ds, text = ds ++ rest /\ canonical ds /\ is_digit (hd 0 rest) = false
    /\ v = dec_value ds /\ v <= UINT32_MAX.
Proof.
  unfold version_part, dec_value. split.
  - destruct (is_digit (hd 0 text)) eqn:Hd; [|done]. simpl.
    destruct (digit_loop 0 text) as [[v' rest']|] eqn:Hl; [|done].
    apply digit_loop_sound in Hl as (ds & -> & Hds & Hr & -> & Hv); [|sflia].
    destruct (_ && _) eqn:Hz; [done|]. intros [= <- <-].
    exists ds. split; [done|]. split; [|done].
    destruct ds as [|c ds]; [simpl in Hd; congruence|].
    split; [done|]. split; [done|]. simpl. intros Hl.
    rewrite zlen_app in Hz. simpl in Hz. rewrite zlen_cons in *. lia.
  - intros (ds & -> & (Hne & Hds & Hz) & Hr & -> & Hv).
    destruct ds as [|c ds]; [done|].
    assert (Hc : is_digit c = true) by (by apply Forall_cons_1 in Hds as [? _]).
    simpl hd. rewrite Hc. simpl negb. cbv iota.
    rewrite digit_loop_complete by (try done; lia).
    rewrite zlen_app. replace (zlen (c :: ds) + zlen rest - zlen rest) with (zlen (c :: ds)) by lia.
    destruct (Z.ltb_spec 1 (zlen (c :: ds))) as [Hl|]; [|done]. simpl.
    specialize (Hz Hl). simpl in Hz. by rewrite (proj2 (Z.eqb_neq c 48)).
Qed.

Lemma dec_fold_lower l acc :
  digits_ok l -> 0 <= acc -> acc * 10 ^ zlen l <= fold_left dec_step l acc.
Proof.
  intros Hl. revert acc. induction Hl as [|x l Hx _ IH]; intros acc Ha; simpl.
  - rewrite zlen_nil. lia.
  - rewrite zlen_cons, Z.add_1_l, Z.pow_succ_r by apply zlen_nonneg.
    unfold is_digit in Hx. specialize (IH (dec_step acc x)). unfold dec_step in *.
    pose proof (Z.pow_pos_nonneg 10 (zlen l) ltac:(lia) (zlen_nonneg l)). nia.
Qed.

Lemma canonical_u32_len ds : canonical ds -> dec_value ds <= UINT32_MAX -> zlen ds <= 20.
Proof.
  intros (Hne & Hds & Hz) Hv. destruct (Z.le_gt_cases (zlen ds) 20) as [|Hl]; [done|exfalso].
  destruct ds as [|c ds]; [done|]. specialize (Hz ltac:(lia)). simpl in Hz.
  apply Forall_cons_1 in Hds as [Hc Hds]. unfold is_digit in Hc.
  rewrite zlen_cons in Hl.
  assert (10 ^ 20 <= 10 ^ zlen ds) by (apply Z.pow_le_mono_r; lia).
  pose proof (dec_fold_lower ds (c - 48) Hds ltac:(lia)) as Hge.
  change (dec_value (c :: ds)) with (fold_left dec_step ds (c - 48)) in Hv.
  assert (1 * 10 ^ zlen ds <= (c - 48) * 10 ^ zlen ds) by (apply Z.mul_le_mono_nonneg_r; lia).
  unfold UINT32_MAX in *. lia.
Qed.

(** One part followed by a separator parses to its value. *)
Lemma version_part_digits v rest :
  u32_ok v -> is_digit (hd 0 rest) = false ->
  version_part (dec_digits v ++ rest) = Some (v, rest).
Proof.
  intros Hv Hr. apply version_part_spec. exists (dec_digits v).
  assert (0 <= v < 10 ^ 20) by sflia.
  repeat split; try done; [by apply dec_digits_canonical..|by rewrite dec_value_digits|sflia].
Qed.

(** The parser accepts exactly the canonical texts: [text] parses to [v]
    with status 0 if and only if the three parts are 32-bit values and [text] is
    their decimal print joined by dots, so equal versions have equal texts. *)
Theorem version_parse_canonical out text v :
  Forall (fun c => c <> 0) text ->
  sf_version_parse out text = (0, v) <-> version_ok v /\ text = version_print v.
Proof.
  intros Hnz. unfold sf_version_parse. split.
  - destruct (version_part text) as [[a t1]|] eqn:H1; [|done].
    destruct (Z.eqb_spec (hd 0 t1) 46) as [Hd1|]; [|done]. simpl.
    destruct (version_part (tl t1)) as [[b t2]|] eqn:H2; [|done].
    destruct (Z.eqb_spec (hd 0 t2) 46) as [Hd2|]; [|done]. simpl.
    destruct (version_part (tl t2)) as [[c t3]|] eqn:H3; [|done].
    destruct (truthy (hd 0 t3)) eqn:Ht; [done|]. intros [= <-].
    apply version_part_spec in H1 as (d1 & -> & C1 & _ & -> & B1).
    apply version_part_spec in H2 as (d2 & E2 & C2 & _ & -> & B2).
    apply version_part_spec in H3 as (d3 & E3 & C3 & _ & -> & B3).
    destruct t1 as [|x1 t1]; simpl in *; [lia|]. subst x1 t1.
    destruct t2 as [|x2 t2]; simpl in *; [lia|]. subst x2 t2.
    assert (t3 = []) as ->.
    { destruct t3 as [|y t3]; [done|]. exfalso. simpl in Ht.
      apply truthy_false in Ht as ->. rewrite !Forall_app in Hnz.
      destruct Hnz as (_ & Hnz). inversion Hnz as [|?? _ Hn2]; subst.
      apply Forall_app in Hn2 as [_ Hn2]. inversion Hn2 as [|?? _ Hn3]; subst.
      apply Forall_app in Hn3 as [_ Hn3]. by inversion Hn3. }
    rewrite app_nil_r.
    assert (Hpos : forall ds, canonical ds -> 0 <= dec_value ds).
    { intros ds (_ & Hok & _). by apply dec_fold_mono. }
    split.
    + split; [done|]. repeat constructor; sflia || by apply Hpos.
    + unfold version_print; simpl.
      rewrite !canonical_dec_digits by auto using canonical_u32_len. done.
  - intros [[Hl Hok] ->]. destruct v as [[|a [|b [|c [|]]]]]; simpl in *; try done.
    inversion Hok as [|?? Ha Hok1]; inversion Hok1 as [|?? Hb Hok2]; inversion Hok2 as [|?? Hc _]; subst.
    unfold version_print; simpl.
    rewrite version_part_digits by done. simpl.
    rewrite version_part_digits by done. simpl.
    pose proof (version_part_digits c [] Hc eq_refl) as H3. rewrite app_nil_r in H3.
    rewrite H3. done.
Qed.

Lemma version_parse_canonical_witness :
  sf_version_parse (MkVersion []) [49; 46; 50; 48; 46; 51] = (0, MkVersion [1; 20; 3]) /\
  [49; 46; 50; 48; 46; 51] = version_print (MkVersion [1; 20; 3]).
Proof.
  split; [reflexivity|].
  apply (version_parse_canonical (MkVersion []) [49; 46; 50; 48; 46; 51] (MkVersion [1; 20; 3]));
    [repeat constructor; congruence|reflexivity].
Defined.

(** ** The upgrade rule *)

(** Lexicographic order on the parts. *)
Fixpoint lex_lt (a b : list Z) (n : nat) : Prop :=
  match n with
  | O => False
  | S n' => hd 0 a < hd 0 b \/ (hd 0 a = hd 0 b /\ lex_lt (tl a) (tl b) n')
  end.

Lemma compare_parts_spec n : forall a b,
  (compare_parts a b n = 1 <-> lex_lt b a n) /\
  (compare_parts a b n = -1 <-> lex_lt a b n) /\
  (compare_parts a b n = 0 \/ compare_parts a b n = 1 \/ compare_parts a b n = -1).
Proof.
  induction n as [|n IH]; intros a b; simpl; [lia|].
  destruct (IH (tl a) (tl b)) as (H1 & H2 & H3).
  destruct (Z.eqb_spec (hd 0 a) (hd 0 b)) as [E|E].
  - split; [rewrite H1|split; [rewrite H2|done]]; (split; [intros; right|intros [?|[_ ?]]; [lia|done]]); done.
  - destruct (Z.ltb_spec (hd 0 b) (hd 0 a)); lia.
Qed.

Lemma lex_lt_trans n : forall a b c, lex_lt a b n -> lex_lt b c n -> lex_lt a c n.
Proof.
  induction n as [|n IH]; intros a b c; simpl; [done|].
  intros [?|[? ?]] [?|[? ?]]; [left; lia..|right; split; [lia|eauto]].
Qed.

Lemma lex_lt_irrefl n : forall a, ~ lex_lt a a n.
Proof. induction n as [|n IH]; intros a; simpl; [tauto|]. intros [?|[_ ?]]; [lia|by eapply IH]. Qed.

Lemma compare_parts_zero a b :
  length a = 3%nat -> length b = 3%nat -> compare_parts a b 3 = 0 <-> a = b.
Proof.
  destruct a as [|? [|? [|? [|]]]], b as [|? [|? [|? [|]]]]; try done. intros _ _. simpl.
  repeat (match goal with |- context [?x =? ?y] => destruct (Z.eqb_spec x y) as [->|] end; simpl);
    repeat match goal with |- context [?x <? ?y] => destruct (x <? y) end;
    split; try done; try lia; congruence.
Qed.

(** A chain of accepted upgrades. *)
Inductive upgrades : SfVersion * list Z -> SfVersion * list Z -> Prop :=
| upgrades_refl x : upgrades x x
| upgrades_step v h v' h' z :
    0 <= sf_version_upgrade v h v' h' -> upgrades (v', h') z -> upgrades (v, h) z.

Lemma upgrade_accepts v h v' h' :
  version_ok v -> version_ok v' -> zlen h = 32 -> zlen h' = 32 ->
  (sf_version_upgrade v h v' h' = 0 <-> lex_lt (part v) (part v') 3) /\
  (sf_version_upgrade v h v' h' = 1 <-> v' = v /\ h' = h) /\
  (sf_version_upgrade v h v' h' = SF_VERSION_REJECTED <->
     lex_lt (part v') (part v) 3 \/ (v' = v /\ h' <> h)).
Proof.
  intros [Hl _] [Hl' _] Hh Hh'. unfold sf_version_upgrade, sf_version_compare.
  destruct (compare_parts_spec 3 (part v') (part v)) as (H1 & H2 & H3).
  pose proof (compare_parts_zero (part v') (part v) Hl' Hl) as H0.
  assert (Hv : part v' = part v <-> v' = v).
  { destruct v, v'; simpl. split; congruence. }
  assert (Hm : memeq h h' 32 = true <-> h' = h).
  { rewrite memeq_spec by lia. rewrite !slice_all by lia. split; congruence. }
  set (c := compare_parts _ _ _) in *.
  assert (E0 : c = 0 <-> v' = v) by (rewrite <- Hv; exact H0).
  rewrite <- H1, <- H2, <- E0, <- Hm. unfold SF_VERSION_REJECTED.
  destruct H3 as [-> | [-> | ->]]; simpl; destruct (memeq h h' 32); simpl; lia || intuition (lia || congruence).
Qed.

(** [b] is not older than [a]. *)
Definition lex_ge (a b : list Z) (n : nat) : Prop := ~ lex_lt b a n.

Lemma lex_ge_trans n : forall a b c, lex_ge a b n -> lex_ge b c n -> lex_ge a c n.
Proof.
  unfold lex_ge. induction n as [|n IH]; intros a b c; simpl; [done|].
  intros H1 H2 [H3|[H3 H4]].
  - apply H1. left. destruct (Z.lt_trichotomy (hd 0 c) (hd 0 b)) as [|[|]]; [tauto|lia|lia].
  - destruct (Z.lt_trichotomy (hd 0 c) (hd 0 b)) as [|[E|]]; [tauto| |apply H1; left; lia].
    apply (IH (tl a) (tl b) (tl c)); [| |done]; intros ?; [apply H1|apply H2]; right; split; auto; lia.
Qed.

Lemma upgrades_ge x y : upgrades x y -> lex_ge (part x.1) (part y.1) 3.
Proof.
  induction 1 as [x|v h v' h' z Hup _ IH]; [apply lex_lt_irrefl|].
  eapply lex_ge_trans; [|exact IH]. intros Hlt. revert Hup.
  unfold sf_version_upgrade, sf_version_compare.
  destruct (compare_parts_spec 3 (part v') (part v)) as (_ & H2 & _).
  rewrite (proj2 H2 Hlt). unfold SF_VERSION_REJECTED. simpl. lia.
Qed.

(** C27. Versions are monotonic: an accepted candidate is strictly newer (status
    0) or the identical package (status 1), everything else is rejected, and a
    chain of accepted upgrades of any length never returns to an older version. *)
Theorem version_upgrade_monotonic v h v' h' :
  version_ok v -> version_ok v' -> zlen h = 32 -> zlen h' = 32 ->
  ((sf_version_upgrade v h v' h' = 0 <-> lex_lt (part v) (part v') 3) /\
   (sf_version_upgrade v h v' h' = 1 <-> v' = v /\ h' = h) /\
   (sf_version_upgrade v h v' h' = SF_VERSION_REJECTED <->
      lex_lt (part v') (part v) 3 \/ (v' = v /\ h' <> h))) /\
  (upgrades (v, h) (v', h') -> ~ lex_lt (part v') (part v) 3).
Proof. intros. split; [by apply upgrade_accepts|]. apply (upgrades_ge (v, h) (v', h')). Qed.

Lemma version_upgrade_monotonic_witness :
  sf_version_upgrade (MkVersion [1; 2; 3]) (fill 7 32) (MkVersion [1; 3; 0]) (fill 9 32) = 0 /\
  sf_version_upgrade (MkVersion [1; 2; 3]) (fill 7 32) (MkVersion [1; 2; 3]) (fill 9 32)
    = SF_VERSION_REJECTED.
Proof.
  assert (Hok : forall b c, u32_ok b -> u32_ok c -> version_ok (MkVersion [1; b; c])).
  { intros b c Hb Hc. split; [done|]. repeat constructor; try done; sflia. }
  split.
  - apply (version_upgrade_monotonic (MkVersion [1; 2; 3]) (fill 7 32) (MkVersion [1; 3; 0]) (fill 9 32));
      [apply Hok; sflia..|reflexivity|reflexivity|]. simpl. lia.
  - apply (version_upgrade_monotonic (MkVersion [1; 2; 3]) (fill 7 32) (MkVersion [1; 2; 3]) (fill 9 32));
      [apply Hok; sflia..|reflexivity|reflexivity|]. right. split; [done|]. vm_compute. congruence.
Defined.
