(* ===== verification/Update.v ===== *)
(** * A/B package update record

    [services/update.c]: the persisted record of the last known good slot and
    of the candidate being tried, its validity predicate, its 160-byte encoding
    and the stage / begin / finish transitions. *)

From S2P Require Import Prelude Bytes Abi.

Definition SF_UPDATE_BYTES : Z := 160.
Definition SF_UPDATE_STABLE : Z := 0.
Definition SF_UPDATE_PENDING : Z := 1.
Definition SF_UPDATE_TRYING : Z := 2.
#[export] Hint Unfold SF_UPDATE_BYTES SF_UPDATE_STABLE SF_UPDATE_PENDING SF_UPDATE_TRYING : sf.

Record SfUpdate := MkUpdate {
  phase : Z; good : Z; candidate : Z;
  good_hash : list Z; candidate_hash : list Z; app_id : list Z
}.
#[export] Instance SfUpdate_settable : Settable SfUpdate :=
  fun s => MkUpdate (phase s) (good s) (candidate s) (good_hash s) (candidate_hash s) (app_id s).

Module Update.

(** [slot]: one of the two package slots. *)
Definition slot (s : Z) : bool := (s =? 97) || (s =? 98).

Definition ident_char (c : Z) : bool :=
  ((97 <=? c) && (c <=? 122)) || ((65 <=? c) && (c <=? 90)) || ((48 <=? c) && (c <=? 57))
  || (c =? 46) || (c =? 45) || (c =? 95).

(** The scan of [identity]: [None] is the early return on a bad character,
    [Some (n, rest)] the loop exit with [rest] at [s+n]. *)
Fixpoint ident_scan (fuel : nat) (n : Z) (s : list Z) : option (Z * list Z) :=
  match fuel with
  | O => Some (n, s)
  | S fuel' =>
      if truthy (hd 0 s) then
        if ident_char (hd 0 s) then ident_scan fuel' (n + 1) (tl s) else None
      else Some (n, s)
  end.

Definition identity (s : list Z) : bool :=
  match ident_scan 64 0 s with
  | None => false
  | Some (n, rest) => truthy n && (n <? 64) && zero rest (64 - n)
  end.

Definition valid (s : SfUpdate) : bool :=
  if (SF_UPDATE_TRYING <? phase s) || (negb (slot (good s)) && truthy (good s))
     || (negb (slot (candidate s)) && truthy (candidate s)) then false
  else if xorb (good s =? 0) (zero (good_hash s) 32)
       || xorb (candidate s =? 0) (zero (candidate_hash s) 32) then false
  else if (if phase s =? SF_UPDATE_STABLE then truthy (candidate s)
           else (candidate s =? 0) || (candidate s =? good s)) then false
  else if truthy (good s) || truthy (candidate s) then identity (app_id s)
  else zero (app_id s) 64.

(** ["SFUPD1\0\0"]. *)
Definition magic : list Z := [83; 70; 85; 80; 68; 49; 0; 0].

Definition sf_update_decode (out : SfUpdate) (b : list Z) : Z * SfUpdate :=
  if negb (zlen b =? SF_UPDATE_BYTES) then (SF_BAD_FORMAT, out)
  else if negb (memeq b magic 8) || negb (zero (drop 11 b) 21) then (SF_BAD_FORMAT, out)
  else
    let s := MkUpdate (at_ b 8) (at_ b 9) (at_ b 10) (slice 32 32 b) (slice 64 32 b) (slice 96 64 b) in
    if negb (valid s) then (SF_BAD_FORMAT, out) else (0, s).

Definition sf_update_encode (s : SfUpdate) (out : list Z) : Z * list Z :=
  if negb (valid s) then (SF_BAD_FORMAT, out)
  else
    let out := fill 0 SF_UPDATE_BYTES in
    let out := blit 0 magic out in
    let out := blit 8 [phase s] out in
    let out := blit 9 [good s] out in
    let out := blit 10 [candidate s] out in
    let out := blit 32 (good_hash s) out in
    let out := blit 64 (candidate_hash s) out in
    (0, blit 96 (app_id s) out).

Definition sf_update_stage (s : SfUpdate) (id hash : list Z) : Z * SfUpdate :=
  if negb (valid s) then (SF_BAD_FORMAT, s)
  else if negb (phase s =? SF_UPDATE_STABLE) then (SF_BUSY, s)
  else
    let n := strlen id in
    if 64 <=? n then (SF_BAD_FORMAT, s)
    else
      let name := blit 0 (slice 0 n id) (fill 0 64) in
      if negb (identity name) || zero hash 32 then (SF_BAD_FORMAT, s)
      else if truthy (good s) && negb (streq (app_id s) name) then (SF_DEPENDENCY, s)
      else
        (0, s <| app_id := name |>
              <| candidate := if good s =? 97 then 98 else 97 |>
              <| candidate_hash := slice 0 32 hash |>
              <| phase := SF_UPDATE_PENDING |>).

Definition sf_update_begin (s : SfUpdate) : Z * SfUpdate :=
  if negb (valid s) then (SF_BAD_FORMAT, s)
  else if negb (phase s =? SF_UPDATE_PENDING) then (SF_INVALID, s)
  else (0, s <| phase := SF_UPDATE_TRYING |>).

Definition sf_update_finish (s : SfUpdate) (success : bool) : Z * SfUpdate :=
  if negb (valid s) then (SF_BAD_FORMAT, s)
  else if negb (phase s =? SF_UPDATE_TRYING) then (SF_INVALID, s)
  else
    let s := if success then s <| good := candidate s |> <| good_hash := candidate_hash s |> else s in
    let s := s <| phase := SF_UPDATE_STABLE |> <| candidate := 0 |> <| candidate_hash := fill 0 32 |> in
    (0, if good s =? 0 then s <| app_id := fill 0 64 |> else s).

(** ** Identities *)

(** The C object: byte-valued fields and fixed-size arrays. *)
Definition typed (s : SfUpdate) : Prop :=
  byte_ok (phase s) /\ byte_ok (good s) /\ byte_ok (candidate s) /\
  zlen (good_hash s) = 32 /\ zlen (candidate_hash s) = 32 /\ zlen (app_id s) = 64 /\
  bytes_ok (good_hash s) /\ bytes_ok (candidate_hash s) /\ bytes_ok (app_id s).

Lemma ident_char_nz c : ident_char c = true -> c <> 0.
Proof. unfold ident_char. lia. Qed.

Lemma ident_scan_sound fuel : forall n s m rest,
  ident_scan fuel n s = Some (m, rest) ->
  exists name, s = name ++ rest /\ Forall (fun c => ident_char c = true) name
    /\ m = n + zlen name /\ (m = n + Z.of_nat fuel \/ hd 0 rest = 0).
Proof.
  induction fuel as [|f IH]; intros n s m rest H; simpl in H.
  - simplify_eq. exists []. rewrite zlen_nil. repeat split; [constructor|lia|left; lia].
  - destruct (truthy (hd 0 s)) eqn:Ht.
    + destruct (ident_char (hd 0 s)) eqn:Hc; [|done].
      destruct s as [|c s]; [done|]. simpl in *.
      apply IH in H as (name & -> & Hn & -> & Hr). exists (c :: name).
      rewrite zlen_cons. repeat split; [by constructor|lia|]. destruct Hr; [left; lia|by right].
    + simplify_eq. exists []. rewrite zlen_nil. apply truthy_false in Ht.
      repeat split; [constructor|lia|by right].
Qed.

Lemma ident_scan_complete name : forall fuel n rest,
  Forall (fun c => ident_char c = true) name -> hd 0 rest = 0 -> (length name <= fuel)%nat ->
  ident_scan fuel n (name ++ rest) = Some (n + zlen name, rest).
Proof.
  induction name as [|c name IH]; intros fuel n rest Hn Hr Hf; simpl.
  - rewrite zlen_nil, Z.add_0_r. destruct fuel; simpl; [done|]. by rewrite Hr.
  - apply Forall_cons_1 in Hn as [Hc Hn]. destruct fuel as [|f]; simpl in Hf; [lia|]. simpl.
    rewrite Hc, (proj2 (truthy_true c)) by by apply ident_char_nz.
    rewrite IH by (done || lia). rewrite zlen_cons. do 2 f_equal. lia.
Qed.

(** [identity] accepts the zero-padded nonempty names of at most 63 characters. *)
Lemma identity_spec s : zlen s = 64 ->
  identity s = true <->
  exists name, s = name ++ fill 0 (64 - zlen name) /\ name <> [] /\ zlen name < 64
    /\ Forall (fun c => ident_char c = true) name.
Proof.
  intros Hl. unfold identity. split.
  - destruct (ident_scan 64 0 s) as [[n rest]|] eqn:H; [|done].
    apply ident_scan_sound in H as (name & -> & Hn & -> & _). rewrite Z.add_0_l.
    rewrite zlen_app in Hl. intros H. apply andb_prop in H as [H Hz].
    apply zero_fill in Hz; [|lia]. exists name. rewrite Hz. repeat split; try done.
    + intros ->. done.
    + lia.
  - intros (name & -> & Hne & Hlt & Hn). pose proof (zlen_nonneg name).
    rewrite ident_scan_complete; try done.
    + rewrite Z.add_0_l, zero_of_fill by lia.
      destruct name; [done|]. rewrite zlen_cons in *. pose proof (zlen_nonneg name). sflia.
    + unfold fill. destruct (Z.to_nat (64 - zlen name)); done.
    + unfold zlen in *. lia.
Qed.

Lemma identity_padded s : zlen s = 64 -> identity s = true -> s = cstr s ++ fill 0 (64 - strlen s).
Proof.
  intros Hl H. apply identity_spec in H as (name & E & _ & _ & Hn); [|done].
  assert (Hc : cstr s = name).
  { rewrite E. apply cstr_padded. eapply Forall_impl; [apply ident_char_nz|exact Hn]. }
  rewrite <-zlen_cstr, Hc. done.
Qed.

(** Equal C strings in two identity buffers are equal buffers. *)
Lemma identity_streq a b :
  zlen a = 64 -> zlen b = 64 -> identity a = true -> identity b = true ->
  streq a b = true -> a = b.
Proof.
  intros Ha Hb Ia Ib E. apply streq_spec in E.
  rewrite (identity_padded a), (identity_padded b) by done.
  rewrite <-!zlen_cstr. by rewrite E.
Qed.

(** ** Validity *)

#[local] Opaque zero identity.

(** [valid] as a predicate on the record. *)
Lemma valid_spec s : valid s = true <->
  phase s <= SF_UPDATE_TRYING /\
  (good s = 0 \/ slot (good s) = true) /\ (candidate s = 0 \/ slot (candidate s) = true) /\
  (good s = 0 <-> zero (good_hash s) 32 = true) /\
  (candidate s = 0 <-> zero (candidate_hash s) 32 = true) /\
  (phase s = SF_UPDATE_STABLE -> candidate s = 0) /\
  (phase s <> SF_UPDATE_STABLE -> candidate s <> 0 /\ candidate s <> good s) /\
  (good s = 0 /\ candidate s = 0 -> zero (app_id s) 64 = true) /\
  (good s <> 0 \/ candidate s <> 0 -> identity (app_id s) = true).
Proof.
  set (A := (SF_UPDATE_TRYING <? phase s) || (negb (slot (good s)) && truthy (good s))
             || (negb (slot (candidate s)) && truthy (candidate s))).
  set (B := xorb (good s =? 0) (zero (good_hash s) 32)
            || xorb (candidate s =? 0) (zero (candidate_hash s) 32)).
  set (C := if phase s =? SF_UPDATE_STABLE then truthy (candidate s)
            else (candidate s =? 0) || (candidate s =? good s)).
  set (D := if truthy (good s) || truthy (candidate s) then identity (app_id s)
            else zero (app_id s) 64).
  assert (HA : A = false <-> phase s <= SF_UPDATE_TRYING /\ (good s = 0 \/ slot (good s) = true)
                /\ (candidate s = 0 \/ slot (candidate s) = true)).
  { unfold A, truthy. destruct (slot (good s)), (slot (candidate s)); sflia. }
  assert (HB : B = false <-> (good s = 0 <-> zero (good_hash s) 32 = true)
                /\ (candidate s = 0 <-> zero (candidate_hash s) 32 = true)).
  { unfold B. destruct (zero (good_hash s) 32), (zero (candidate_hash s) 32),
      (Z.eqb_spec (good s) 0), (Z.eqb_spec (candidate s) 0); simpl; intuition congruence. }
  assert (HC : C = false <-> (phase s = SF_UPDATE_STABLE -> candidate s = 0)
                /\ (phase s <> SF_UPDATE_STABLE -> candidate s <> 0 /\ candidate s <> good s)).
  { unfold C, truthy. destruct (Z.eqb_spec (phase s) SF_UPDATE_STABLE); lia. }
  assert (HD : D = true <-> (good s = 0 /\ candidate s = 0 -> zero (app_id s) 64 = true)
                /\ (good s <> 0 \/ candidate s <> 0 -> identity (app_id s) = true)).
  { unfold D, truthy. destruct (Z.eqb_spec (good s) 0), (Z.eqb_spec (candidate s) 0); simpl; tauto. }
  change (valid s) with (if A then false else if B then false else if C then false else D).
  transitivity (A = false /\ B = false /\ C = false /\ D = true).
  - clear. destruct A, B, C; intuition congruence.
  - rewrite HA, HB, HC, HD, !Logic.and_assoc. reflexivity.
Qed.

(** ** The encoding *)

Definition layout (s : SfUpdate) : list Z :=
  magic ++ [phase s] ++ [good s] ++ [candidate s] ++ fill 0 21
  ++ good_hash s ++ candidate_hash s ++ app_id s.

Lemma zlen_magic : zlen magic = 8.
Proof. done. Qed.
#[local] Hint Rewrite zlen_magic : buflen.

Lemma encode_layout s o : typed s -> valid s = true -> sf_update_encode s o = (0, layout s).
Proof.
  intros (_ & _ & _ & Hg & Hc & Hi & _) Hv. unfold sf_update_encode. rewrite Hv. simpl. f_equal.
  change (fill 0 SF_UPDATE_BYTES) with
    (fill 0 8 ++ [0] ++ [0] ++ [0] ++ fill 0 21 ++ fill 0 32 ++ fill 0 32 ++ fill 0 64).
  unfold layout. by fields.
Qed.

Lemma zlen_layout s : typed s -> zlen (layout s) = 160.
Proof. intros (_ & _ & _ & Hg & Hc & Hi & _). unfold layout. blen; lia. Qed.

Lemma decode_layout s out : typed s -> valid s = true -> sf_update_decode out (layout s) = (0, s).
Proof.
  intros Ht Hv. unfold sf_update_decode. rewrite zlen_layout by done. simpl.
  destruct Ht as (_ & _ & _ & Hg & Hc & Hi & _).
  replace (memeq (layout s) magic 8) with true by done.
  replace (zero (drop 11 (layout s)) 21) with true by (vm_compute; done).
  cbn [negb orb]. unfold layout. fields.
  destruct s; simpl in *. by rewrite Hv.
Qed.

Lemma layout_of_slices b : bytes_ok b -> zlen b = 160 ->
  slice 0 8 b = magic -> slice 11 21 b = fill 0 21 ->
  layout (MkUpdate (at_ b 8) (at_ b 9) (at_ b 10) (slice 32 32 b) (slice 64 32 b) (slice 96 64 b)) = b.
Proof.
  intros Hb Hl Hm Hz. unfold layout; simpl phase; simpl good; simpl candidate; simpl good_hash;
    simpl candidate_hash; simpl app_id.
  rewrite <-Hm, <-Hz, !at_slice1 by lia.
  rewrite <-(slice_split 64 32 64), <-(slice_split 32 32 96), <-(slice_split 11 21 128) by lia.
  rewrite <-(slice_split 10 1 149), <-(slice_split 9 1 150), <-(slice_split 8 1 151) by lia.
  rewrite <-(slice_split 0 8 152) by lia. by apply slice_all.
Qed.

Lemma slice_bytes_ok off n b : bytes_ok b -> bytes_ok (slice off n b).
Proof. intros. unfold slice. by apply Forall_take, Forall_drop. Qed.

Lemma at_byte_ok b i : bytes_ok b -> byte_ok (at_ b i).
Proof.
  intros H. unfold at_. destruct (b !! Z.to_nat i) as [x|] eqn:E; simpl; [|sflia].
  exact (Forall_lookup_1 _ _ _ _ H E).
Qed.

Lemma update_decode_sound b s out : bytes_ok b -> sf_update_decode out b = (0, s) ->
  typed s /\ valid s = true /\ layout s = b.
Proof.
  intros Hb. unfold sf_update_decode. destruct (Z.eqb_spec (zlen b) SF_UPDATE_BYTES) as [Hl|]; [|done].
  unfold SF_UPDATE_BYTES in Hl. cbn [negb].
  destruct (memeq b magic 8) eqn:Hm; [|done]. destruct (zero (drop 11 b) 21) eqn:Hz; [|done].
  cbn [negb orb]. destruct (valid _) eqn:Hv; [|done]. cbn [negb]. intros [= <-].
  apply memeq_spec in Hm; [|rewrite ?zlen_magic; lia..].
  assert (Hz' : slice 11 21 b = fill 0 21).
  { apply zero_fill; [apply zlen_slice; lia|]. apply zero_spec. intros i Hi.
    rewrite at_slice by lia. rewrite zero_spec in Hz. specialize (Hz i Hi).
    unfold at_ in *. rewrite lookup_drop in Hz.
    by replace (Z.to_nat (11 + i)) with (11 + Z.to_nat i)%nat by lia. }
  split; [|split; [done|by apply layout_of_slices]].
  repeat split; cbn; try apply slice_bytes_ok; try apply at_byte_ok; try done; apply zlen_slice; lia.
Qed.

(** C21. The update record's encoding is a bijection between valid records and
    the accepted 160-byte images: every valid record encodes and decodes back to
    itself, and re-encoding a decoded image gives the image byte for byte. *)
Theorem update_codec_bijection s b o out :
  (typed s -> valid s = true ->
     exists b', sf_update_encode s o = (0, b') /\ zlen b' = SF_UPDATE_BYTES /\
                sf_update_decode out b' = (0, s)) /\
  (bytes_ok b -> sf_update_decode out b = (0, s) ->
     valid s = true /\ sf_update_encode s o = (0, b)).
Proof.
  split.
  - intros Ht Hv. exists (layout s).
    split; [by apply encode_layout|]. split; [by apply zlen_layout|by apply decode_layout].
  - intros Hb H. apply update_decode_sound in H as (Ht & Hv & <-); [|done].
    split; [done|]. by apply encode_layout.
Qed.

(** ** Transitions *)

Inductive op := Stage (id hash : list Z) | Begin | Finish (success : bool).

Definition apply (o : op) (s : SfUpdate) : SfUpdate :=
  match o with
  | Stage id hash => (sf_update_stage s id hash).2
  | Begin => (sf_update_begin s).2
  | Finish ok => (sf_update_finish s ok).2
  end.

(** The arguments are C strings and 32-byte digests. *)
Definition op_ok (o : op) : Prop :=
  match o with Stage id hash => bytes_ok id /\ bytes_ok hash /\ zlen hash = 32 | _ => True end.

Definition run (ops : list op) (s : SfUpdate) : SfUpdate := fold_left (fun s o => apply o s) ops s.

Definition staged_name (id : list Z) : list Z := blit 0 (slice 0 (strlen id) id) (fill 0 64).

Lemma staged_name_eq id : strlen id < 64 -> staged_name id = cstr id ++ fill 0 (64 - strlen id).
Proof.
  intros H. pose proof (strlen_nonneg id). pose proof (strlen_le id). unfold staged_name.
  change (slice 0 (strlen id) id) with (cstr id).
  replace 64 with (strlen id + (64 - strlen id)) at 1 by lia.
  rewrite fill_split, blit_head; rewrite ?zlen_cstr, ?zlen_fill; try done; lia.
Qed.

Lemma fill_bytes_ok v n : bytes_ok (fill v n).
Proof. apply Forall_replicate. pose proof (u8_bounds v). sflia. Qed.

Lemma staged_name_typed id : strlen id < 64 -> bytes_ok id ->
  zlen (staged_name id) = 64 /\ bytes_ok (staged_name id).
Proof.
  intros H Hb. rewrite staged_name_eq by done. pose proof (strlen_nonneg id). split.
  - rewrite zlen_app, zlen_cstr, zlen_fill; lia.
  - apply Forall_app. split; [by apply Forall_take|apply fill_bytes_ok].
Qed.

(** Every branch of a successful stage. *)
Lemma stage_inv s id hash s' : sf_update_stage s id hash = (0, s') ->
  valid s = true /\ phase s = SF_UPDATE_STABLE /\ strlen id < 64 /\
  identity (staged_name id) = true /\ zero hash 32 = false /\
  (good s <> 0 -> streq (app_id s) (staged_name id) = true) /\
  s' = MkUpdate SF_UPDATE_PENDING (good s) (if good s =? 97 then 98 else 97)
         (good_hash s) (slice 0 32 hash) (staged_name id).
Proof.
  unfold sf_update_stage. fold (staged_name id).
  destruct (valid s); [|done]. simpl.
  destruct (Z.eqb_spec (phase s) SF_UPDATE_STABLE); [|done]. simpl.
  destruct (Z.leb_spec 64 (strlen id)); [done|]. 
  destruct (identity _) eqn:Hi; [|done]. destruct (zero hash 32) eqn:Hz; [done|]. simpl.
  unfold truthy. destruct (Z.eqb_spec (good s) 0), (streq _ _) eqn:Hs; simpl; try done;
    intros [= <-]; repeat split; try done; lia.
Qed.

Lemma begin_inv s s' : sf_update_begin s = (0, s') ->
  valid s = true /\ phase s = SF_UPDATE_PENDING /\ s' = s <| phase := SF_UPDATE_TRYING |>.
Proof.
  unfold sf_update_begin. destruct (valid s); [|done].
  destruct (Z.eqb_spec (phase s) SF_UPDATE_PENDING); [|done]. by intros [= <-].
Qed.

Definition wf (s : SfUpdate) : Prop := typed s /\ valid s = true.

Lemma stage_wf s id hash s' : wf s -> op_ok (Stage id hash) ->
  sf_update_stage s id hash = (0, s') -> wf s'.
Proof.
  intros [(Hp & Hg & Hc & Lg & Lc & La & Bg & Bc & Ba) _] (Oi & Oh & Lh) H.
  apply stage_inv in H as (Hv & Hst & Hlen & Hid & Hz & Hdep & ->).
  destruct (staged_name_typed id Hlen Oi) as [Ln Bn]. rewrite slice_all by lia.
  apply valid_spec in Hv as (H1 & H2 & H3 & H4 & H5 & H6 & H7 & H8 & H9).
  split.
  - repeat split; simpl; try done; try (destruct (good s =? 97); sflia).
  - apply valid_spec; simpl. rewrite Hz.
    set (c := if good s =? 97 then 98 else 97).
    assert (Hc' : slot c = true /\ c <> 0 /\ c <> good s)
      by (clear; unfold c; destruct (Z.eqb_spec (good s) 97); repeat split; try lia).
    clear - H2 H4 Hid Hc'. split; [done|]. split; [done|]. split; [tauto|]. split; [done|].
    split; [split; [tauto|done]|]. split; [done|]. split; [tauto|]. split; [tauto|done].
Qed.

Lemma begin_wf s s' : wf s -> sf_update_begin s = (0, s') -> wf s'.
Proof.
  intros [(Hp & Hrest) _] H. apply begin_inv in H as (Hv & Hph & ->).
  apply valid_spec in Hv as (H1 & H2 & H3 & H4 & H5 & H6 & H7 & H8 & H9).
  split; [split; [simpl; sflia|done]|]. apply valid_spec; simpl.
  specialize (H7 ltac:(rewrite Hph; done)).
  refine (conj (Z.le_refl _) (conj H2 (conj H3 (conj H4 (conj H5 (conj _
    (conj (fun _ => H7) (conj H8 H9)))))))). discriminate.
Qed.

(** The two outcomes of a trial. *)
Lemma finish_inv s ok s' : sf_update_finish s ok = (0, s') ->
  valid s = true /\ phase s = SF_UPDATE_TRYING /\
  let g := if ok then candidate s else good s in
  s' = MkUpdate SF_UPDATE_STABLE g 0 (if ok then candidate_hash s else good_hash s)
         (fill 0 32) (if g =? 0 then fill 0 64 else app_id s).
Proof.
  unfold sf_update_finish. destruct (valid s); [|done].
  destruct (Z.eqb_spec (phase s) SF_UPDATE_TRYING); [|done]. simpl.
  destruct ok; simpl; intros [= <-]; repeat split; try done; by destruct (_ =? 0).
Qed.

Lemma finish_wf s ok s' : wf s -> sf_update_finish s ok = (0, s') -> wf s'.
Proof.
  intros [(Hp & Hg & Hc & Lg & Lc & La & Bg & Bc & Ba) _] H.
  apply finish_inv in H as (Hv & Hph & ->).
  apply valid_spec in Hv as (H1 & H2 & H3 & H4 & H5 & H6 & H7 & H8 & H9).
  specialize (H7 ltac:(rewrite Hph; done)).
  split.
  - repeat split; simpl; try (by apply fill_bytes_ok); try (destruct ok; apply Hg || apply Hc);
      try (destruct ok; done); try done; destruct (_ =? 0); try done; apply fill_bytes_ok.
  - apply valid_spec; simpl. rewrite (zero_of_fill 32) by lia.
    set (g := if ok then _ else _).
    assert (Hg0 : g = 0 <-> zero (if ok then candidate_hash s else good_hash s) 32 = true)
      by (unfold g; destruct ok; [exact H5|exact H4]).
    assert (Hgs : g = 0 \/ slot g = true) by (unfold g; destruct ok; [exact H3|exact H2]).
    split; [sflia|]. split; [done|]. split; [by left|]. split; [done|]. split; [done|].
    split; [done|]. split; [done|]. split.
    + intros [-> _]. simpl. by apply zero_of_fill.
    + intros [Hne|]; [|done]. rewrite (proj2 (Z.eqb_neq g 0) Hne). apply H9. right. exact (proj1 H7).
Qed.

Lemma apply_wf o s : wf s -> op_ok o -> wf (apply o s).
Proof.
  assert (Hcase : forall (r : Z * SfUpdate), (r.1 = 0 \/ r.2 = s) ->
            (forall s', r = (0, s') -> wf s') -> wf s -> wf r.2).
  { intros [c s'] [E|E] H Hs; simpl in *; subst; auto. }
  intros Hs Ho. destruct o as [id hash| |ok]; simpl; apply Hcase; try done.
  - unfold sf_update_stage. repeat case_match; simpl; auto.
  - intros. by eapply stage_wf.
  - unfold sf_update_begin. repeat case_match; simpl; auto.
  - intros. by eapply begin_wf.
  - unfold sf_update_finish. repeat case_match; simpl; auto.
  - intros. by eapply finish_wf.
Qed.

(** An operation other than a successful finish keeps the good slot. *)
Lemma apply_good o s : o <> Finish true ->
  good (apply o s) = good s /\ good_hash (apply o s) = good_hash s.
Proof.
  intros Ho. destruct o as [id hash| |[]]; simpl; [| |done|].
  - unfold sf_update_stage. repeat case_match; done.
  - unfold sf_update_begin. repeat case_match; done.
  - unfold sf_update_finish. repeat case_match; done.
Qed.

(** C22. Whatever sequence of stage, begin and finish requests is made, the
    record stays valid, and as long as no trial finishes successfully the last
    known good slot and its digest are exactly the initial ones. *)
Theorem update_good_preserved ops s :
  typed s -> valid s = true -> Forall op_ok ops ->
  valid (run ops s) = true /\
  (~ In (Finish true) ops -> good (run ops s) = good s /\ good_hash (run ops s) = good_hash s).
Proof.
  intros Ht Hv Hops. assert (Hs : wf s) by done. clear Ht Hv. revert s Hs.
  unfold run. induction Hops as [|o ops Ho _ IH]; intros s Hs; simpl; [split; [apply Hs|done]|].
  destruct (IH (apply o s)) as [IH1 IH2]; [by apply apply_wf|]. split; [done|].
  intros Hnin. destruct (apply_good o s) as [E1 E2]; [intros ->; apply Hnin; by left|].
  rewrite <-E1, <-E2. apply IH2. intros Hin. apply Hnin. by right.
Qed.

(** A failed trial restores the record it started from. *)
Lemma rollback_eq s id hash s1 s' : typed s -> bytes_ok id ->
  sf_update_stage s id hash = (0, s1) ->
  sf_update_finish (s1 <| phase := SF_UPDATE_TRYING |>) false = (0, s') -> s' = s.
Proof.
  intros Ht Oi H Hf. apply stage_inv in H as (Hv & Hst & Hlen & Hid & Hz & Hdep & ->).
  apply finish_inv in Hf as (_ & _ & ->). simpl. destruct (staged_name_typed id Hlen Oi) as [Ln _].
  apply valid_spec in Hv as (H1 & H2 & H3 & H4 & H5 & H6 & H7 & H8 & H9).
  destruct Ht as (_ & _ & _ & Lg & Lc & La & _).
  specialize (H6 Hst). pose proof (proj1 H5 H6) as Hzc. apply zero_fill in Hzc; [|done].
  destruct s as [ph gd cd gh ch ai]; simpl in *. subst ph cd. rewrite <-Hzc. f_equal.
  destruct (Z.eqb_spec gd 0) as [->|Hn].
  - symmetry. apply zero_fill; [done|]. by apply H8.
  - apply identity_streq; auto. rewrite streq_sym. auto.
Qed.

(** C20. A staged update is a transaction: from a valid stable record a
    successful stage can always begin; a failed trial restores the record
    bit for bit, and a successful one promotes exactly the staged digest into the
    other slot under the same application name. *)
Theorem update_transaction s id hash s1 :
  typed s -> op_ok (Stage id hash) -> sf_update_stage s id hash = (0, s1) ->
  exists s2 s3,
    sf_update_begin s1 = (0, s2) /\ sf_update_finish s2 false = (0, s) /\
    sf_update_finish s2 true = (0, s3) /\ valid s3 = true /\
    good s3 <> good s /\ slot (good s3) = true /\ good_hash s3 = hash /\
    cstr (app_id s3) = cstr id.
Proof.
  intros Ht Ho H. destruct Ho as (Oi & Oh & Lh).
  pose proof (stage_inv _ _ _ _ H) as (Hv & Hst & Hlen & Hid & Hz & Hdep & E1).
  destruct (stage_wf s id hash s1 (conj Ht Hv) (conj Oi (conj Oh Lh)) H) as [Ht1 Hv1].
  assert (Hb : sf_update_begin s1 = (0, s1 <| phase := SF_UPDATE_TRYING |>)).
  { unfold sf_update_begin. rewrite Hv1. by subst s1. }
  destruct (begin_wf _ _ (conj Ht1 Hv1) Hb) as [Ht2 Hv2].
  set (s2 := s1 <| phase := SF_UPDATE_TRYING |>) in *.
  assert (Hf : forall ok, exists s3, sf_update_finish s2 ok = (0, s3)).
  { intros ok. unfold sf_update_finish. rewrite Hv2. eexists. subst s1. done. }
  destruct (Hf false) as [sf Hff]. destruct (Hf true) as [s3 Hft].
  exists s2, s3. split; [done|].
  split; [rewrite Hff; f_equal; exact (rollback_eq s id hash s1 sf Ht Oi H Hff)|]. split; [done|].
  destruct (finish_wf _ _ _ (conj Ht2 Hv2) Hft) as [_ Hv3]. split; [done|].
  apply finish_inv in Hft as (_ & _ & ->). unfold s2. subst s1. simpl.
  rewrite slice_all by lia.
  destruct (Z.eqb_spec (good s) 97) as [->|Hn]; simpl; repeat split; try done; try congruence;
    rewrite staged_name_eq by done; apply cstr_padded, cstr_nonzero.
Qed.

(** ** Concrete records *)

Definition empty_record : SfUpdate := MkUpdate 0 0 0 (fill 0 32) (fill 0 32) (fill 0 64).
Definition good_record : SfUpdate :=
  MkUpdate 0 97 0 (fill 7 32) (fill 0 32) (blit 0 [101; 99; 104; 111] (fill 0 64)).

Lemma good_record_typed : typed good_record.
Proof.
  repeat split; try (cbn; lia); apply bytes_okb_sound; vm_compute; reflexivity.
Qed.

Lemma update_codec_bijection_witness :
  exists b, sf_update_encode good_record [] = (0, b) /\ zlen b = SF_UPDATE_BYTES /\
            sf_update_decode empty_record b = (0, good_record).
Proof.
  apply (update_codec_bijection good_record [] [] empty_record);
    [apply good_record_typed|vm_compute; reflexivity].
Defined.

Lemma update_good_preserved_witness :
  valid (run [Stage [101; 99; 104; 111] (fill 9 32); Begin; Finish true] good_record) = true /\
  good (run [Stage [101; 99; 104; 111] (fill 9 32); Begin; Finish true] good_record) = 98.
Proof.
  split; [|vm_compute; reflexivity].
  apply (update_good_preserved [Stage [101; 99; 104; 111] (fill 9 32); Begin; Finish true] good_record);
    [apply good_record_typed|vm_compute; reflexivity|].
  constructor; [|repeat constructor].
  repeat split; apply bytes_okb_sound; vm_compute; reflexivity.
Defined.

Lemma update_transaction_witness :
  exists s1 s2 s3,
    sf_update_stage good_record [101; 99; 104; 111] (fill 9 32) = (0, s1) /\
    sf_update_begin s1 = (0, s2) /\ sf_update_finish s2 false = (0, good_record) /\
    sf_update_finish s2 true = (0, s3) /\ good_hash s3 = fill 9 32.
Proof.
  eexists. edestruct (update_transaction good_record [101; 99; 104; 111] (fill 9 32))
    as (s2 & s3 & H1 & H2 & H3 & _ & _ & _ & H4 & _);
    [apply good_record_typed
    |repeat split; apply bytes_okb_sound; vm_compute; reflexivity|vm_compute; reflexivity|].
  exists s2, s3. repeat split; eassumption.
Defined.

End Update.
