(* ===== verification/Sha256.v ===== *)
(** * SHA-256

    [services/sha256.c], executable.  The digest is computed block by block
    with an on-stack tail of one or two blocks; it is proved equal to the
    FIPS 180-4 definition, which pads the whole message first. *)

From S2P Require Import Prelude Bytes.

Definition rr (x n : Z) : Z := Z.lor (Z.shiftr x n) (u32 (Z.shiftl x (32 - n))).

(** The constants, in groups of four. *)
Definition k : list Z :=
  concat [
    [0x428a2f98; 0x71374491; 0xb5c0fbcf; 0xe9b5dba5];
    [0x3956c25b; 0x59f111f1; 0x923f82a4; 0xab1c5ed5];
    [0xd807aa98; 0x12835b01; 0x243185be; 0x550c7dc3];
    [0x72be5d74; 0x80deb1fe; 0x9bdc06a7; 0xc19bf174];
    [0xe49b69c1; 0xefbe4786; 0x0fc19dc6; 0x240ca1cc];
    [0x2de92c6f; 0x4a7484aa; 0x5cb0a9dc; 0x76f988da];
    [0x983e5152; 0xa831c66d; 0xb00327c8; 0xbf597fc7];
    [0xc6e00bf3; 0xd5a79147; 0x06ca6351; 0x14292967];
    [0x27b70a85; 0x2e1b2138; 0x4d2c6dfc; 0x53380d13];
    [0x650a7354; 0x766a0abb; 0x81c2c92e; 0x92722c85];
    [0xa2bfe8a1; 0xa81a664b; 0xc24b8b70; 0xc76c51a3];
    [0xd192e819; 0xd6990624; 0xf40e3585; 0x106aa070];
    [0x19a4c116; 0x1e376c08; 0x2748774c; 0x34b0bcb5];
    [0x391c0cb3; 0x4ed8aa4a; 0x5b9cca4f; 0x682e6ff3];
    [0x748f82ee; 0x78a5636f; 0x84c87814; 0x8cc70208];
    [0x90befffa; 0xa4506ceb; 0xbef9a3f7; 0xc67178f2]].

Definition nthz (l : list Z) (i : nat) : Z := nth i l 0.

(** The message schedule: [w[0..15]] are the big-endian words of the block,
    [w[i]] is appended from its four predecessors. *)
Definition load_word (p : list Z) (i : nat) : Z :=
  Z.lor (Z.lor (Z.lor (Z.shiftl (nthz p (i * 4)) 24) (Z.shiftl (nthz p (i * 4 + 1)) 16))
               (Z.shiftl (nthz p (i * 4 + 2)) 8)) (nthz p (i * 4 + 3)).

Definition schedule_step (i : nat) (w : list Z) : list Z :=
  let i := (i + 16)%nat in
  let a := nthz w (i - 15) in
  let b := nthz w (i - 2) in
  w ++ [u32 (nthz w (i - 16) + Z.lxor (Z.lxor (rr a 7) (rr a 18)) (Z.shiftr a 3)
             + nthz w (i - 7) + Z.lxor (Z.lxor (rr b 17) (rr b 19)) (Z.shiftr b 10))].

Definition schedule (p : list Z) : list Z := loop 48 schedule_step (map (load_word p) (seq 0 16)).

Record Vars := MkVars { va : Z; vb : Z; vc : Z; vd : Z; ve : Z; vf : Z; vg : Z; vz : Z }.

Definition not32 (x : Z) : Z := u32 (Z.lnot x).

(** One round of the compression loop. *)
Definition round (w : list Z) (i : nat) (s : Vars) : Vars :=
  let '(MkVars a b c d e f g z) := s in
  let t := u32 (z + Z.lxor (Z.lxor (rr e 6) (rr e 11)) (rr e 25)
                + Z.lxor (Z.land e f) (Z.land (not32 e) g) + nthz k i + nthz w i) in
  let u := u32 (Z.lxor (Z.lxor (rr a 2) (rr a 13)) (rr a 22)
                + Z.lxor (Z.lxor (Z.land a b) (Z.land a c)) (Z.land b c)) in
  MkVars (u32 (t + u)) a b c (u32 (d + t)) e f g.

Definition vars_of (h : list Z) : Vars :=
  MkVars (nthz h 0) (nthz h 1) (nthz h 2) (nthz h 3) (nthz h 4) (nthz h 5) (nthz h 6) (nthz h 7).

(** [block]: folds the first 64 bytes of [p] into the chaining value. *)
Definition block (h p : list Z) : list Z :=
  let w := schedule p in
  let '(MkVars a b c d e f g z) := loop 64 (round w) (vars_of h) in
  [u32 (nthz h 0 + a); u32 (nthz h 1 + b); u32 (nthz h 2 + c); u32 (nthz h 3 + d);
   u32 (nthz h 4 + e); u32 (nthz h 5 + f); u32 (nthz h 6 + g); u32 (nthz h 7 + z)].

Definition sha_init : list Z :=
  [0x6a09e667;0xbb67ae85;0x3c6ef372;0xa54ff53a;0x510e527f;0x9b05688c;0x1f83d9ab;0x5be0cd19].

(** [while(n>=64){block(h,p);p+=64;n-=64;}]; [fuel] bounds the iterations. *)
Fixpoint whole_blocks (fuel : nat) (h p : list Z) (n : Z) : list Z * list Z * Z :=
  match fuel with
  | O => (h, p, n)
  | S f => if 64 <=? n then whole_blocks f (block h p) (drop 64 p) (n - 64) else (h, p, n)
  end.

(** The stores [tail[count-1-i]=(uint8_t)(bits>>(i*8))]. *)
Definition store_bits (bits count : Z) (tail : list Z) : list Z :=
  loop 8 (fun i t => blit (count - 1 - Z.of_nat i) [u8 (Z.shiftr bits (Z.of_nat i * 8))] t) tail.

Definition out_byte (h : list Z) (i : nat) : Z :=
  u8 (Z.shiftr (nthz h (i / 4)) (24 - 8 * Z.of_nat (i mod 4))).

Definition sf_sha256 (p : list Z) : list Z :=
  let n := zlen p in
  let bits := u64 (n * 8) in
  let '(h, p, n) := whole_blocks (S (Z.to_nat (n / 64))) sha_init p n in
  let tail := fill 0 128 in
  let tail := blit 0 (slice 0 n p) tail in
  let tail := blit n [128] tail in
  let count := if n <? 56 then 64 else 128 in
  let tail := store_bits bits count tail in
  let h := block h tail in
  let h := if count =? 128 then block h (drop 64 tail) else h in
  map (out_byte h) (seq 0 32).

(** ** FIPS 180-4 *)

(** The 64-bit big-endian length. *)
Definition be64 (v : Z) : list Z := rev (le_bytes 8 v).

(** Message padding: a one bit, then the least number of zeros that makes the
    length a multiple of the block size, then the bit length. *)
Definition fips_zeros (n : Z) : Z := (55 - n) mod 64.
Definition fips_pad (p : list Z) : list Z :=
  p ++ [128] ++ fill 0 (fips_zeros (zlen p)) ++ be64 (8 * zlen p).

(** Fold the compression over consecutive 64-byte blocks. *)
Fixpoint fips_blocks (n : nat) (h p : list Z) : list Z :=
  match n with
  | O => h
  | S n' => fips_blocks n' (block h (take 64 p)) (drop 64 p)
  end.

Definition fips_digest (p : list Z) : list Z :=
  let m := fips_pad p in
  map (out_byte (fips_blocks (length m / 64) sha_init m)) (seq 0 32).

Lemma load_word_take p i : (i < 16)%nat -> load_word (take 64 p) i = load_word p i.
Proof.
  intros Hi.
  assert (Hn : forall j, (j < 64)%nat -> nthz (take 64 p) j = nthz p j).
  { intros j Hj. unfold nthz. rewrite <-(take_drop 64 p) at 2.
    destruct (Nat.lt_ge_cases j (length p)).
    - by rewrite app_nth1 by (rewrite length_take; lia).
    - rewrite !nth_overflow; rewrite ?length_app, ?length_take, ?length_drop; lia || done. }
  unfold load_word. by rewrite !Hn by lia.
Qed.

Lemma block_take h p : block h (take 64 p) = block h p.
Proof.
  assert (E : schedule (take 64 p) = schedule p).
  { unfold schedule.
    rewrite (map_ext_in (load_word (take 64 p)) (load_word p) (seq 0 16)); [reflexivity|].
    intros i Hi. apply in_seq in Hi. apply load_word_take. lia. }
  unfold block. by rewrite E.
Qed.

Lemma fips_blocks_app n : forall h p x,
  (64 * n <= length p)%nat -> fips_blocks n h (p ++ x) = fips_blocks n h p.
Proof.
  induction n as [|n IH]; intros h p x Hl; simpl; [done|].
  rewrite take_app_le, drop_app_le by lia. apply IH. rewrite length_drop. lia.
Qed.

Lemma fips_blocks_add n m : forall h p,
  fips_blocks (n + m) h p = fips_blocks m (fips_blocks n h p) (drop (64 * n) p).
Proof.
  induction n as [|n IH]; intros h p; simpl; [done|].
  rewrite IH, drop_drop. do 2 f_equal. lia.
Qed.

Lemma whole_blocks_spec fuel : forall h p n,
  0 <= n -> n / 64 < Z.of_nat fuel ->
  whole_blocks fuel h p n =
    (fips_blocks (Z.to_nat (n / 64)) h p, drop (64 * Z.to_nat (n / 64)) p, n mod 64).
Proof.
  induction fuel as [|f IH]; intros h p n Hn Hf; [pose proof (Z.div_pos n 64); lia|]. simpl.
  destruct (Z.leb_spec 64 n) as [Hge|Hlt].
  - rewrite IH by (try lia; replace (n - 64) with (n + (-1) * 64) by lia;
                   rewrite Z_div_plus_full by lia; lia).
    replace (n - 64) with (n + (-1) * 64) by lia.
    rewrite Z_div_plus_full, Z_mod_plus_full by lia.
    assert (1 <= n / 64) by (apply Z.div_le_lower_bound; lia).
    replace (Z.to_nat (n / 64)) with (S (Z.to_nat (n / 64 + -1))) by lia.
    simpl fips_blocks. rewrite block_take, drop_drop. do 3 f_equal. lia.
  - rewrite (Z.div_small n), (Z.mod_small n) by lia. done.
Qed.

Lemma be64_eq v : be64 v = map (fun i => u8 (Z.shiftr v (Z.of_nat i * 8))) [7; 6; 5; 4; 3; 2; 1; 0]%nat.
Proof.
  unfold be64, u8. cbv [le_bytes rev app map]. change (Z.of_nat 0 * 8) with 0.
  rewrite Z.shiftr_0_r, !Z.shiftr_div_pow2 by lia. rewrite !Z.div_div by lia. reflexivity.
Qed.

Lemma store_bits_eq bits count x y :
  zlen x = count - 8 -> store_bits bits count (x ++ fill 0 8 ++ y) = x ++ be64 bits ++ y.
Proof.
  intros Hx. unfold store_bits, loop. cbn [loop_from].
  change (fill 0 8) with ([0] ++ [0] ++ [0] ++ [0] ++ [0] ++ [0] ++ [0] ++ [0]).
  rewrite be64_eq.
  change (map ?g [7; 6; 5; 4; 3; 2; 1; 0]%nat) with
    ([g 7%nat] ++ [g 6%nat] ++ [g 5%nat] ++ [g 4%nat] ++ [g 3%nat] ++ [g 2%nat] ++ [g 1%nat] ++ [g 0%nat]).
  rewrite <-!(app_assoc [_]).
  fields. reflexivity.
Qed.

Lemma fips_zeros_eq n : 0 <= n ->
  fips_zeros n = if n mod 64 <? 56 then 55 - n mod 64 else 119 - n mod 64.
Proof.
  intros Hn. unfold fips_zeros. pose proof (Z.div_mod n 64). pose proof (Z.mod_pos_bound n 64).
  destruct (Z.ltb_spec (n mod 64) 56).
  - replace (55 - n) with (55 - n mod 64 + (- (n / 64)) * 64) by lia.
    rewrite Z_mod_plus_full. apply Z.mod_small. lia.
  - replace (55 - n) with (119 - n mod 64 + (- (n / 64) - 1) * 64) by lia.
    rewrite Z_mod_plus_full. apply Z.mod_small. lia.
Qed.

Lemma be64_u64 v : be64 (u64 v) = be64 v.
Proof. unfold be64, u64. f_equal. exact (le_bytes_mod 8 v). Qed.

Lemma zlen_be64 v : zlen (be64 v) = 8.
Proof. reflexivity. Qed.

(** The on-stack tail is the last one or two blocks of the padded message. *)
Lemma tail_eq bits b : zlen b < 64 ->
  let count := if zlen b <? 56 then 64 else 128 in
  store_bits bits count (blit (zlen b) [128] (blit 0 b (fill 0 128))) =
  b ++ [128] ++ fill 0 (count - 9 - zlen b) ++ be64 bits ++ fill 0 (128 - count).
Proof.
  intros Hb. pose proof (zlen_nonneg b). intros count.
  assert (Hc : count = 64 /\ zlen b < 56 \/ count = 128 /\ 56 <= zlen b)
    by (unfold count; destruct (Z.ltb_spec (zlen b) 56); lia).
  replace 128 with (zlen b + (1 + ((count - 9 - zlen b) + (8 + (128 - count))))) at 2 by lia.
  rewrite !fill_split by lia. change (fill 0 1) with [0]. fields.
  rewrite !(app_assoc b), !(app_assoc (b ++ _)). rewrite store_bits_eq; [|blen; lia].
  by rewrite <-!app_assoc.
Qed.

Lemma drop_blocks (p x : list Z) q : 64 * Z.of_nat q <= zlen p ->
  drop (64 * q) (p ++ x) = drop (64 * q) p ++ x.
Proof. unfold zlen. intros. apply drop_app_le. lia. Qed.


Lemma zlen_sha256 p : zlen (sf_sha256 p) = 32.
Proof. unfold sf_sha256. destruct (whole_blocks _ _ _ _) as [[h p'] n]. reflexivity. Qed.

Lemma sha256_bytes_ok p : bytes_ok (sf_sha256 p).
Proof.
  unfold sf_sha256. destruct (whole_blocks _ _ _ _) as [[h p'] n]. apply Forall_map, Forall_forall.
  intros i _. apply u8_bounds.
Qed.

(** The standard's test vector for "abc". *)
Lemma sha256_abc :
  sf_sha256 [97; 98; 99] =
  [0xba;0x78;0x16;0xbf;0x8f;0x01;0xcf;0xea;0x41;0x41;0x40;0xde;0x5d;0xae;0x22;0x23;
   0xb0;0x03;0x61;0xa3;0x96;0x17;0x7a;0x9c;0xb4;0x10;0xff;0x61;0xf2;0x00;0x15;0xad].
Proof. vm_compute. reflexivity. Qed.

#[global] Opaque sf_sha256.
