(* ===== verification/TxnPath.v ===== *)
(** * Path validation

    [path_ok] of [services/txn.c]: the three scans of the C code are proved
    to accept exactly the normal absolute paths, so the verdict depends only on
    the string before the terminator. *)

From S2P Require Import Prelude Bytes Abi.

(** [while(n<64&&p[n])n++]. *)
Fixpoint strnlen (fuel : nat) (p : list Z) : Z :=
  match fuel, p with
  | S f, c :: p' => if c =? 0 then 0 else 1 + strnlen f p'
  | _, _ => 0
  end.

(** The character loop of [path_ok] at index [i]. *)
Definition path_char_ok (p : list Z) (i : Z) : bool :=
  let c := at_ p i in
  if (c <? 33) || (126 <? c) || (c =? 92) then false
  else negb ((c =? 47) && (at_ p (i - 1) =? 47)).

(** [while(j<n&&p[j]!='/')j++]. *)
Fixpoint next_slash (fuel : nat) (p : list Z) (n j : Z) : Z :=
  match fuel with
  | O => j
  | S f => if (j <? n) && negb (at_ p j =? 47) then next_slash f p n (j + 1) else j
  end.

(** The component loop: no component is ["."] or [".."]. *)
Fixpoint components_ok (fuel : nat) (p : list Z) (n i : Z) : bool :=
  match fuel with
  | O => true
  | S f =>
      if i <? n then
        let j := next_slash 64 p n i in
        if ((j - i =? 1) && (at_ p i =? 46))
           || ((j - i =? 2) && (at_ p i =? 46) && (at_ p (i + 1) =? 46)) then false
        else components_ok f p n (j + 1)
      else true
  end.

Definition path_ok (p : list Z) : bool :=
  let n := strnlen 64 p in
  if (n <? 2) || (n =? 64) || negb (at_ p 0 =? 47) || (at_ p (n - 1) =? 47) then false
  else if negb (all_below (fun k => path_char_ok p (Z.of_nat k + 1)) (Z.to_nat (n - 1))) then false
  else components_ok 64 p n 1.

(** ** Normal absolute paths *)

Definition path_chr (c : Z) : Prop := 33 <= c <= 126 /\ c <> 92 /\ c <> 47.

Definition component (c : list Z) : Prop :=
  c <> [] /\ Forall path_chr c /\ c <> [46] /\ c <> [46; 46].

(** ["/c1/c2/..."]. *)
Definition path_of (comps : list (list Z)) : list Z := concat (map (cons 47) comps).

Definition normal_path (s : list Z) : Prop :=
  exists comps, comps <> [] /\ Forall component comps /\ s = path_of comps /\ zlen s < 64.

Lemma strnlen_min fuel : forall p, strnlen fuel p = Z.min (Z.of_nat fuel) (strlen p).
Proof.
  induction fuel as [|f IH]; intros p; simpl strnlen.
  - pose proof (strlen_nonneg p). lia.
  - rewrite Nat2Z.inj_succ. destruct p as [|c p]; cbn [strlen]; [lia|].
    rewrite IH. pose proof (strlen_nonneg p). destruct (c =? 0); lia.
Qed.

Lemma at_cstr p i : i < strlen p -> at_ p i = at_ (cstr p) i.
Proof.
  intros Hi. unfold at_, cstr. rewrite lookup_take. case_decide as H; [done|].
  pose proof (strlen_nonneg p).
  destruct (decide (0 <= i)); [lia|]. replace (Z.to_nat i) with 0%nat in * by lia.
  assert (strlen p = 0) by lia. destruct p as [|c p]; [done|]. simpl in *.
  destruct (Z.eqb_spec c 0) as [->|]; [done|]. pose proof (strlen_nonneg p). lia.
Qed.

Lemma next_slash_ext fuel p q n : forall j,
  (forall i, 0 <= i < n -> at_ p i = at_ q i) -> 0 <= j ->
  next_slash fuel p n j = next_slash fuel q n j.
Proof.
  induction fuel as [|f IH]; intros j H Hj; simpl; [done|].
  destruct (Z.ltb_spec j n); simpl; [|done]. rewrite H by lia.
  destruct (at_ q j =? 47); simpl; [done|]. apply IH; [done|lia].
Qed.

Lemma next_slash_spec fuel p n : forall j,
  n - j <= Z.of_nat fuel -> j <= n ->
  let r := next_slash fuel p n j in
  j <= r <= n /\ (forall i, j <= i < r -> at_ p i <> 47) /\ (r < n -> at_ p r = 47).
Proof.
  induction fuel as [|f IH]; intros j Hf Hj; cbn zeta; cbn [next_slash];
    [repeat split; intros; lia|].
  destruct (Z.ltb_spec j n) as [Hlt|]; cbn [andb]; [|repeat split; intros; lia].
  destruct (Z.eqb_spec (at_ p j) 47); cbn [negb]; [repeat split; intros; lia|].
  destruct (IH (j + 1)) as (H1 & H2 & H3); [lia..|]. repeat split; try lia; auto.
  intros i Hi. destruct (decide (i = j)) as [->|]; [done|]. apply H2. lia.
Qed.

(** The suffix of [s] from [i] reads component by component. *)
Lemma path_of_cons c cs : path_of (c :: cs) = 47 :: c ++ path_of cs.
Proof. done. Qed.

Lemma drop_slice_app (s : list Z) i j : 0 <= i <= j -> j <= zlen s ->
  drop (Z.to_nat i) s = slice i (j - i) s ++ drop (Z.to_nat j) s.
Proof.
  intros. unfold slice. rewrite <-(take_drop (Z.to_nat (j - i)) (drop (Z.to_nat i) s)) at 1.
  f_equal. rewrite drop_drop. f_equal. lia.
Qed.

Lemma drop_at (s : list Z) i : 0 <= i < zlen s ->
  drop (Z.to_nat i) s = at_ s i :: drop (Z.to_nat (i + 1)) s.
Proof.
  unfold zlen, at_. intros H. destruct (lookup_lt_is_Some_2 s (Z.to_nat i)) as [x Hx]; [lia|].
  rewrite Hx. erewrite drop_S by done. simpl. f_equal. f_equal. lia.
Qed.

Section Scan.
Variable s : list Z.
Hypothesis chars : forall i, 1 <= i < zlen s -> path_char_ok s i = true.
Hypothesis last_ok : at_ s (zlen s - 1) <> 47.

Lemma scan_char i : 1 <= i < zlen s ->
  33 <= at_ s i <= 126 /\ at_ s i <> 92 /\ (at_ s i = 47 -> at_ s (i - 1) <> 47).
Proof.
  intros Hi. specialize (chars i Hi). unfold path_char_ok in chars.
  destruct (_ || _) eqn:H1; [done|]. lia.
Qed.

Lemma components_sound fuel : forall i,
  zlen s - i < Z.of_nat fuel -> 1 <= i < zlen s -> zlen s <= 64 -> at_ s (i - 1) = 47 ->
  components_ok fuel s (zlen s) i = true ->
  exists comps, comps <> [] /\ Forall component comps /\ drop (Z.to_nat (i - 1)) s = path_of comps.
Proof.
  induction fuel as [|f IH]; intros i Hf Hi H64 Hs; [lia|]. cbn [components_ok].
  destruct (Z.ltb_spec i (zlen s)); [|lia].
  destruct (next_slash_spec 64 s (zlen s) i) as (Hj & Hns & Hat); [lia..|].
  set (j := next_slash 64 s (zlen s) i) in *. destruct (_ || _) eqn:Hdot; [done|]. intros Hrec.
  assert (Hij : i < j).
  { destruct (decide (j = i)) as [E|]; [|lia]. destruct (scan_char i Hi) as (_ & _ & H2).
    rewrite E in Hat. specialize (Hat ltac:(lia)). by destruct (H2 Hat). }
  set (c := slice i (j - i) s).
  assert (Hlc : zlen c = j - i) by (apply zlen_slice; lia).
  assert (Hac : forall m, 0 <= m < j - i -> at_ c m = at_ s (i + m)) by (intros; apply at_slice; lia).
  assert (Hc : component c).
  { repeat split.
    - intros E. rewrite E in Hlc. change (zlen (@nil Z)) with 0 in Hlc. lia.
    - apply Forall_lookup_2. intros m x Hx. assert (Hm := lookup_lt_Some _ _ _ Hx).
      assert (E : x = at_ s (i + Z.of_nat m)).
      { rewrite <-Hac by (unfold zlen in Hlc; lia). unfold at_. by rewrite Nat2Z.id, Hx. }
      unfold zlen in Hlc. destruct (scan_char (i + Z.of_nat m)) as (B1 & B2 & _); [lia|].
      specialize (Hns (i + Z.of_nat m) ltac:(lia)). rewrite <-E in *. done.
    - intros E. rewrite E in Hlc, Hac. change (zlen [46]) with 1 in Hlc.
      specialize (Hac 0 ltac:(lia)). change (at_ [46] 0) with 46 in Hac. rewrite Z.add_0_r in Hac. lia.
    - intros E. rewrite E in Hlc, Hac. change (zlen [46; 46]) with 2 in Hlc.
      pose proof (Hac 0 ltac:(lia)) as H0. pose proof (Hac 1 ltac:(lia)) as H1.
      change (at_ [46; 46] 0) with 46 in H0. change (at_ [46; 46] 1) with 46 in H1.
      rewrite Z.add_0_r in H0. lia. }
  assert (Hd : drop (Z.to_nat (i - 1)) s = 47 :: c ++ drop (Z.to_nat j) s).
  { rewrite drop_at by lia. rewrite Hs. f_equal. replace (i - 1 + 1) with i by lia.
    apply drop_slice_app; lia. }
  destruct (decide (j = zlen s)) as [E|E].
  - exists [c]. split; [done|]. split; [by constructor|]. rewrite Hd, E.
    rewrite drop_ge by (unfold zlen; lia). done.
  - assert (Hj1 : j + 1 < zlen s).
    { destruct (decide (j + 1 = zlen s)) as [E2|]; [|lia]. exfalso. apply last_ok.
      replace (zlen s - 1) with j by lia. apply Hat. lia. }
    destruct (IH (j + 1)) as (cs & _ & Hcs & Ed); [lia|lia|lia|replace (j + 1 - 1) with j by lia; apply Hat; lia|done|].
    exists (c :: cs). split; [done|]. split; [by constructor|].
    replace (j + 1 - 1) with j in Ed by lia. rewrite Hd, Ed. done.
Qed.
End Scan.

Lemma components_ok_ext fuel p q n : forall i,
  n <= 64 -> (forall i, 0 <= i < n -> at_ p i = at_ q i) -> 0 <= i ->
  components_ok fuel p n i = components_ok fuel q n i.
Proof.
  induction fuel as [|f IH]; intros i Hn H Hi; cbn [components_ok]; [done|].
  destruct (Z.ltb_spec i n) as [Hlt|]; [|done].
  rewrite (next_slash_ext 64 p q) by (done || lia).
  destruct (next_slash_spec 64 q n i) as (Hj & _); [lia..|].
  set (j := next_slash 64 q n i) in *. rewrite (H i) by lia.
  destruct (Z.eqb_spec (j - i) 2); cbn [andb]; [rewrite (H (i + 1)) by lia|];
    rewrite ?orb_false_r; destruct (_ || _) || destruct (_ && _); try done; apply IH; auto; lia.
Qed.

(** The verdict depends only on the C string. *)
Lemma path_ok_cstr p : path_ok p = path_ok (cstr p).
Proof.
  assert (Hc : strlen (cstr p) = strlen p).
  { rewrite <-!zlen_cstr. f_equal. pose proof (cstr_padded (cstr p) 0 (cstr_nonzero p)) as E.
    change (fill 0 0) with (@nil Z) in E. by rewrite app_nil_r in E. }
  unfold path_ok. rewrite !strnlen_min, Hc. set (n := Z.min _ _).
  assert (He : forall i, 0 <= i < n -> at_ p i = at_ (cstr p) i) by (intros; apply at_cstr; lia).
  destruct (Z.ltb_spec n 2); cbn [orb]; [done|]. rewrite (He 0), (He (n - 1)) by lia.
  destruct (_ || _); [done|].
  assert (Ha : all_below (fun k => path_char_ok p (Z.of_nat k + 1)) (Z.to_nat (n - 1)) =
               all_below (fun k => path_char_ok (cstr p) (Z.of_nat k + 1)) (Z.to_nat (n - 1))).
  { apply Bool.eq_iff_eq_true. rewrite !all_below_true.
    split; intros Hb k Hk; specialize (Hb k Hk); unfold path_char_ok in *;
      rewrite ?He in * by lia; done. }
  rewrite Ha. destruct (negb _); [done|]. apply components_ok_ext; [lia|done|lia].
Qed.

Lemma zlen_path_of comps : Forall component comps -> 2 * zlen comps <= zlen (path_of comps).
Proof.
  induction 1 as [|c cs (Hne & _) _ IH]; [done|].
  rewrite path_of_cons, !zlen_cons, zlen_app. destruct c; [done|]. rewrite zlen_cons.
  pose proof (zlen_nonneg c). lia.
Qed.

Lemma at_cons x l i : 1 <= i -> at_ (x :: l) i = at_ l (i - 1).
Proof. intros. exact (at_skip i [x] l H). Qed.

Lemma at_app_l x l i : 0 <= i < zlen x -> at_ (x ++ l) i = at_ x i.
Proof. unfold zlen, at_. intros. by rewrite lookup_app_l by lia. Qed.

Lemma at_component c i : Forall path_chr c -> 0 <= i < zlen c -> path_chr (at_ c i).
Proof.
  unfold zlen, at_. intros H Hi. destruct (lookup_lt_is_Some_2 c (Z.to_nat i)) as [x Hx]; [lia|].
  rewrite Hx. exact (Forall_lookup_1 _ _ _ _ H Hx).
Qed.

(** In a normal path every character is allowed, slashes are isolated and the
    last character is not one. *)
Lemma path_of_chars comps : Forall component comps ->
  (forall i, 1 <= i < zlen (path_of comps) -> path_char_ok (path_of comps) i = true) /\
  (comps <> [] -> at_ (path_of comps) 0 = 47 /\ at_ (path_of comps) (zlen (path_of comps) - 1) <> 47).
Proof.
  induction 1 as [|c cs (Hne & Hc & _) Hcs [IH1 IH2]]; [split; [change (zlen _) with 0; lia|done]|].
  rewrite path_of_cons, zlen_cons, zlen_app.
  assert (0 < zlen c) by (destruct c; [done|]; rewrite zlen_cons; pose proof (zlen_nonneg c); lia).
  pose proof (zlen_nonneg (path_of cs)).
  assert (Hin : forall i, 0 <= i < zlen c -> path_chr (at_ (c ++ path_of cs) i))
    by (intros; rewrite at_app_l by lia; by apply at_component).
  split; [|intros _; split; [done|]].
  - intros i Hi. unfold path_char_ok. rewrite at_cons by lia.
    destruct (Z.lt_trichotomy (i - 1) (zlen c)) as [Hl|[E|Hg]].
    + destruct (Hin (i - 1) ltac:(lia)) as (? & ? & ?). destruct (_ || _) eqn:E; lia.
    + destruct (IH2 ltac:(intros ->; change (zlen (path_of [])) with 0 in *; lia)) as [H47 _].
      rewrite at_skip, E, Z.sub_diag, H47 by lia. rewrite at_cons by lia.
      destruct (Hin (zlen c - 1) ltac:(lia)) as (_ & _ & N). by rewrite (proj2 (Z.eqb_neq _ _) N).
    + rewrite at_skip by lia. rewrite at_cons, at_skip by lia.
      specialize (IH1 (i - 1 - zlen c) ltac:(lia)). unfold path_char_ok in IH1.
      replace (i - 1 - 1 - zlen c) with (i - 1 - zlen c - 1) by lia. exact IH1.
  - rewrite at_cons by lia. destruct (decide (cs = [])) as [->|Hn].
    + change (zlen (path_of [])) with 0. destruct (Hin (zlen c - 1) ltac:(lia)) as (? & ? & ?).
      replace (_ - 1) with (zlen c - 1) by lia. done.
    + destruct (IH2 Hn) as [_ Hlast]. assert (0 < zlen (path_of cs)).
      { destruct cs as [|c' cs]; [done|]. rewrite path_of_cons, zlen_cons.
        pose proof (zlen_nonneg (c' ++ path_of cs)). lia. }
      rewrite at_skip by lia.
      replace (_ - zlen c) with (zlen (path_of cs) - 1) by lia. done.
Qed.

Lemma components_complete s comps : forall fuel i,
  Forall component comps -> zlen s <= 64 -> 1 <= i <= zlen s + 1 ->
  drop (Z.to_nat (i - 1)) s = path_of comps -> zlen comps < Z.of_nat fuel ->
  components_ok fuel s (zlen s) i = true.
Proof.
  induction comps as [|c cs IH]; intros fuel i Hcs H64 Hi Hd Hf;
    (destruct fuel as [|f]; [pose proof (zlen_nonneg (@nil (list Z))); unfold zlen in Hf; lia|]);
    cbn [components_ok].
  - destruct (Z.ltb_spec i (zlen s)); [|done]. rewrite drop_at in Hd by lia. done.
  - apply Forall_cons_1 in Hcs as [(Hne & Hc & Hd1 & Hd2) Hcs]. rewrite path_of_cons in Hd.
    rewrite zlen_cons in Hf.
    assert (Hlen : zlen s = i + zlen c + zlen (path_of cs)).
    { apply (f_equal zlen) in Hd. rewrite zlen_cons, zlen_app in Hd.
      unfold zlen in *. rewrite length_drop in Hd. lia. }
    assert (Hd' : drop (Z.to_nat i) s = c ++ path_of cs).
    { pose proof (zlen_nonneg (path_of cs)). rewrite drop_at in Hd; [|pose proof (zlen_nonneg c); lia].
      injection Hd as _ Hd. replace (i - 1 + 1) with i in Hd by lia. done. }
    assert (Hat : forall m, 0 <= m -> at_ s (i + m) = at_ (c ++ path_of cs) m).
    { intros m Hm. rewrite <-Hd'. unfold at_. rewrite lookup_drop. do 2 f_equal. lia. }
    pose proof (zlen_nonneg (path_of cs)). pose proof (zlen_nonneg c).
    assert (0 < zlen c) by (destruct c; [done|]; rewrite zlen_cons; pose proof (zlen_nonneg c); lia).
    destruct (Z.ltb_spec i (zlen s)); [|lia].
    destruct (next_slash_spec 64 s (zlen s) i) as (Hj & Hns & Hsl); [lia..|].
    set (j := next_slash 64 s (zlen s) i) in *.
    assert (Ej : j = i + zlen c).
    { destruct (Z.lt_trichotomy j (i + zlen c)) as [Hl|[E|Hg]]; [exfalso|done|exfalso].
      - specialize (Hsl ltac:(lia)). replace j with (i + (j - i)) in Hsl by lia.
        rewrite Hat, at_app_l in Hsl by lia.
        destruct (at_component c (j - i) Hc ltac:(lia)) as (_ & _ & ?). done.
      - apply (Hns (i + zlen c)); [lia|]. rewrite Hat, at_skip, Z.sub_diag by lia.
        destruct cs as [|c' cs]; [change (zlen (path_of [])) with 0 in *; lia|done]. }
    rewrite Ej. replace (i + zlen c - i) with (zlen c) by lia.
    assert (Hb : (zlen c =? 1) && (at_ s i =? 46)
                 || (zlen c =? 2) && (at_ s i =? 46) && (at_ s (i + 1) =? 46) = false).
    { pose proof (Hat 0 ltac:(lia)) as A0. pose proof (Hat 1 ltac:(lia)) as A1. rewrite Z.add_0_r in A0.
      rewrite A0, A1. destruct c as [|x [|y [|z c]]]; [done| | |].
      - change (at_ ([x] ++ path_of cs) 0) with x.
        rewrite (proj2 (Z.eqb_neq x 46)) by (intros ->; done). reflexivity.
      - change (at_ ([x; y] ++ path_of cs) 0) with x. change (at_ ([x; y] ++ path_of cs) 1) with y.
        destruct (Z.eqb_spec x 46) as [->|], (Z.eqb_spec y 46) as [->|]; done.
      - rewrite !zlen_cons. pose proof (zlen_nonneg c). lia. }
    rewrite Hb. apply IH; [done|done|lia| |lia].
    replace (i + zlen c + 1 - 1) with (i + zlen c) by lia.
    rewrite Z2Nat.inj_add, <-drop_drop, Hd' by lia. unfold zlen. rewrite Nat2Z.id.
    apply drop_app_length.
Qed.

(** C9. The path validator accepts exactly the normal absolute paths of at
    most 63 characters: one or more nonempty components of printable characters
    other than slash and backslash, none of them ["."] or [".."]; the bytes
    after the terminator do not matter. *)
Theorem path_ok_normal p : path_ok p = true <-> normal_path (cstr p).
Proof.
  rewrite path_ok_cstr. assert (Hs : strlen (cstr p) = zlen (cstr p)).
  { rewrite <-zlen_cstr. f_equal. pose proof (cstr_padded (cstr p) 0 (cstr_nonzero p)) as E.
    change (fill 0 0) with (@nil Z) in E. by rewrite app_nil_r in E. }
  set (s := cstr p) in *. unfold path_ok. rewrite strnlen_min, Hs. pose proof (zlen_nonneg s).
  change (Z.of_nat 64) with 64. split.
  - destruct (_ || _) eqn:Hg; [done|]. assert (zlen s < 64) by lia.
    rewrite Z.min_r in * by lia. destruct (all_below _ _) eqn:Ha; [|done]. cbn [negb].
    rewrite all_below_true in Ha. intros Hc.
    destruct (components_sound s) with (fuel := 64%nat) (i := 1) as (comps & Hne & Hcs & Hd); try done; try lia.
    + intros i Hi. specialize (Ha (Z.to_nat (i - 1)) ltac:(lia)).
      by replace (Z.of_nat (Z.to_nat (i - 1)) + 1) with i in Ha by lia.
    + change (1 - 1) with 0. lia.
    + exists comps. done.
  - intros (comps & Hne & Hcs & Es & H64). rewrite Z.min_r by lia.
    destruct (path_of_chars comps Hcs) as [Hch Hends]. destruct (Hends Hne) as [H0 Hl].
    pose proof (zlen_path_of comps Hcs) as Hlen. rewrite <-Es in *.
    assert (1 <= zlen comps) by (destruct comps; [done|]; rewrite zlen_cons; pose proof (zlen_nonneg comps); lia).
    destruct (_ || _) eqn:Hg; [lia|].
    rewrite (proj2 (all_below_true _ _)); [cbn [negb]|intros k Hk; apply Hch; lia].
    apply (components_complete s comps); try done; lia.
Qed.
