(* ===== verification/TxnFormat.v ===== *)
(** * The transaction bank format

    The pure part of [services/txn.c]: the layout of a bank
    (header, file records, file data, each file under its own digest), the
    decoder that authenticates a bank and the encoder used by a commit. *)

From S2P Require Import Prelude Bytes Abi Sha256 TxnPath.

Definition SF_TXN_SECTORS : Z := 4096.
Definition SF_TXN_HEADER : Z := 2048.
Definition SF_TXN_BANK : Z := 2051.
Definition SF_TXN_BANK_SECTORS : Z := 256.
Definition SF_TXN_FILES : nat := 5.
Definition SF_TXN_DATA : Z := 512 + 5 * 128.
Definition SF_TXN_FILE_BYTES : Z := 16384.
Definition SF_TXN_BUFFER : Z := 512 * SF_TXN_BANK_SECTORS.
#[export] Hint Unfold SF_TXN_SECTORS SF_TXN_HEADER SF_TXN_BANK SF_TXN_BANK_SECTORS
  SF_TXN_FILES SF_TXN_DATA SF_TXN_FILE_BYTES SF_TXN_BUFFER : sf.

(** ** Files and banks *)

Record SfTxnFile := MkFile { f_path : list Z; f_bytes : Z; f_data : list Z }.
#[export] Instance SfTxnFile_settable : Settable SfTxnFile :=
  fun f => MkFile (f_path f) (f_bytes f) (f_data f).

Definition zero_file : SfTxnFile := MkFile (fill 0 64) 0 (fill 0 SF_TXN_FILE_BYTES).
#[export] Instance SfTxnFile_inhabited : Inhabited SfTxnFile := populate zero_file.

Definition no_files : list SfTxnFile := replicate SF_TXN_FILES zero_file.

(** ["SFBANK1"] with its terminator. *)
Definition bank_magic : list Z := [83; 70; 66; 65; 78; 75; 49; 0].

(** One iteration of the decoder's loop; [Done] is [return SF_BAD_FORMAT]. *)
Definition decode_entry (b : list Z) (count data_start : Z) (i : nat) (next : list SfTxnFile)
    : flow (list SfTxnFile) (list SfTxnFile) :=
  let e := drop (Z.to_nat (512 + Z.of_nat i * 128)) b in
  let d := drop (Z.to_nat (data_start + Z.of_nat i * SF_TXN_FILE_BYTES)) b in
  if count <=? Z.of_nat i then
    if negb (zero e 128) || negb (zero d SF_TXN_FILE_BYTES) then Done next else Go next
  else
    let n := get32 e 64 in
    if negb (path_ok e) || (SF_TXN_FILE_BYTES <? n)
       || negb (zero (drop (Z.to_nat (strlen e + 1)) e) (63 - strlen e))
       || negb (zero (drop (Z.to_nat 68) e) 28)
       || negb (zero (drop (Z.to_nat n) d) (SF_TXN_FILE_BYTES - n)) then Done next
    else if negb (memeq (sf_sha256 (slice 0 n d)) (drop (Z.to_nat 96) e) 32) then Done next
    else match find_index (fun j => streq (f_path (next !!! j)) e) i with
    | Some _ => Done next
    | None =>
        Go (alter (fun f => f <| f_path := slice 0 64 e |> <| f_bytes := n |>
                              <| f_data ::= blit 0 (slice 0 n d) |>) i next)
    end.

(** [decode]: status and the contents of [t->next]. *)
Definition decode (b : list Z) (next : list SfTxnFile) (generation : Z) (slots : nat) (data_start : Z)
    : Z * list SfTxnFile :=
  if negb (memeq b bank_magic 8) || negb (get64 b 8 =? generation)
     || (Z.of_nat slots <? get32 b 16) || negb (zero (drop (Z.to_nat 20) b) 492) then (SF_BAD_FORMAT, next)
  else
    let count := get32 b 16 in
    match loop_exit slots (decode_entry b count data_start) no_files with
    | Done next => (SF_BAD_FORMAT, next)
    | Go next =>
        let used := data_start + Z.of_nat slots * SF_TXN_FILE_BYTES in
        (if zero (drop (Z.to_nat used) b) (SF_TXN_BUFFER - used) then 0 else SF_BAD_FORMAT, next)
    end.

(** [while(files<SF_TXN_FILES&&t->next[files].path[0])files++]. *)
Definition used_files (next : list SfTxnFile) : nat :=
  default SF_TXN_FILES (find_index (fun i => negb (truthy (at_ (f_path (next !!! i)) 0))) SF_TXN_FILES).

(** The body of the encoder's file loop. *)
Definition encode_entry (next : list SfTxnFile) (i : nat) (b : list Z) : list Z :=
  let f := next !!! i in
  let e := 512 + Z.of_nat i * 128 in
  let d := SF_TXN_DATA + Z.of_nat i * SF_TXN_FILE_BYTES in
  let b := blit e (slice 0 64 (f_path f)) b in
  let b := put32 b (e + 64) (f_bytes f) in
  let b := blit d (slice 0 (f_bytes f) (f_data f)) b in
  blit (e + 96) (sf_sha256 (slice d (f_bytes f) b)) b.

(** The bank image a commit writes. *)
Definition encode_bank (next : list SfTxnFile) (generation : Z) : list Z :=
  let b := fill 0 SF_TXN_BUFFER in
  let b := blit 0 bank_magic b in
  let b := put64 b 8 generation in
  let files := used_files next in
  let b := put32 b 16 (Z.of_nat files) in
  loop files (encode_entry next) b.

(** [sealed] and [seal]: a sector carries the digest of its first 480 bytes. *)
Definition sealed (p : list Z) : bool := memeq (sf_sha256 (slice 0 480 p)) (drop (Z.to_nat 480) p) 32.
Definition seal (p : list Z) : list Z := blit 480 (sf_sha256 (slice 0 480 p)) p.

(** ** Reading through a pointer into the buffer *)

Lemma zero_slice k n b : 0 <= k -> 0 <= n -> k + n <= zlen b ->
  zero (drop (Z.to_nat k) b) n = true <-> slice k n b = fill 0 n.
Proof.
  intros Hk Hn Hl. rewrite <-(zero_fill (slice k n b) n) by (apply zlen_slice; lia).
  rewrite !zero_spec. split; intros H i Hi; specialize (H i Hi).
  - rewrite at_slice by lia. unfold at_ in *. rewrite lookup_drop in H.
    by replace (Z.to_nat (k + i)) with (Z.to_nat k + Z.to_nat i)%nat by lia.
  - rewrite at_slice in H by lia. unfold at_ in *. rewrite lookup_drop.
    by replace (Z.to_nat k + Z.to_nat i)%nat with (Z.to_nat (k + i)) by lia.
Qed.

Lemma slice_drop k off n b : 0 <= k -> 0 <= off -> slice off n (drop (Z.to_nat k) b) = slice (k + off) n b.
Proof. intros. unfold slice. rewrite drop_drop. do 2 f_equal. lia. Qed.

Lemma get32_drop k off b : 0 <= k -> 0 <= off -> get32 (drop (Z.to_nat k) b) off = get32 b (k + off).
Proof. intros. unfold get32. by rewrite slice_drop. Qed.

Lemma drop_drop_z j k (b : list Z) : 0 <= j -> 0 <= k ->
  drop (Z.to_nat j) (drop (Z.to_nat k) b) = drop (Z.to_nat (k + j)) b.
Proof. intros. rewrite drop_drop. f_equal. lia. Qed.

Lemma zlen_drop k (b : list Z) : 0 <= k <= zlen b -> zlen (drop (Z.to_nat k) b) = zlen b - k.
Proof. unfold zlen. intros. rewrite length_drop. lia. Qed.

Lemma memeq_slice h k b : zlen h = 32 -> 0 <= k -> k + 32 <= zlen b ->
  memeq h (drop (Z.to_nat k) b) 32 = true <-> slice k 32 b = h.
Proof.
  intros Hh Hk Hl. rewrite memeq_spec by (rewrite ?zlen_drop by lia; lia).
  rewrite slice_all by lia. rewrite slice_drop, Z.add_0_r by lia. split; congruence.
Qed.

Lemma at_strlen s : at_ s (strlen s) = 0.
Proof.
  induction s as [|c s IH]; [done|]. cbn [strlen]. destruct (Z.eqb_spec c 0) as [->|]; [done|].
  pose proof (strlen_nonneg s). rewrite at_cons by lia.
  by replace (1 + strlen s - 1) with (strlen s) by lia.
Qed.

Lemma cstr_unique name : forall s, Forall (fun c => c <> 0) name ->
  slice 0 (zlen name) s = name -> at_ s (zlen name) = 0 -> cstr s = name.
Proof.
  induction name as [|c name IH]; intros s Hnz Hs Ha.
  - destruct s as [|x s]; [done|]. rewrite cstr_cons. change (x = 0) in Ha. by rewrite Ha.
  - apply Forall_cons_1 in Hnz as [Hc Hnz]. pose proof (zlen_nonneg name).
    destruct s as [|x s]; [unfold slice in Hs; rewrite drop_nil, take_nil in Hs; done|].
    rewrite zlen_cons in *. rewrite at_cons in Ha by lia.
    unfold slice in Hs. rewrite drop_0 in Hs.
    replace (Z.to_nat (1 + zlen name)) with (S (Z.to_nat (zlen name))) in Hs by lia.
    injection Hs as -> Hs. rewrite cstr_cons, (proj2 (Z.eqb_neq c 0) Hc). f_equal.
    apply IH; [done|done|]. by replace (1 + zlen name - 1) with (zlen name) in Ha by lia.
Qed.

Lemma at_fill n i : at_ (fill 0 n) i = 0.
Proof.
  unfold at_, fill. destruct (replicate _ _ !! _) as [x|] eqn:E; [|done].
  apply lookup_replicate in E as [-> _]. done.
Qed.

(** A zero-padded string field, read back as a C string. *)
Lemma cstr_field s n name : Forall (fun c => c <> 0) name -> zlen name < n ->
  slice 0 n s = name ++ fill 0 (n - zlen name) -> cstr s = name.
Proof.
  intros Hnz Hn Hs. pose proof (zlen_nonneg name). apply cstr_unique; [done|..].
  - transitivity (slice 0 (zlen name) (slice 0 n s)); [by rewrite slice_slice by lia|].
    rewrite Hs. by apply slice_head.
  - replace (zlen name) with (0 + zlen name) at 1 by lia.
    rewrite <-(at_slice 0 n s (zlen name)), Hs, at_skip by lia. apply at_fill.
Qed.

(** ** Well-formed file tables *)

(** The used part of a file. *)
Definition content (f : SfTxnFile) : list Z := slice 0 (f_bytes f) (f_data f).

(** A stored file: a padded valid path, and data that is zero past its size. *)
Definition file_wf (f : SfTxnFile) : Prop :=
  path_ok (f_path f) = true /\
  f_path f = cstr (f_path f) ++ fill 0 (64 - strlen (f_path f)) /\
  0 <= f_bytes f <= SF_TXN_FILE_BYTES /\
  f_data f = content f ++ fill 0 (SF_TXN_FILE_BYTES - f_bytes f) /\
  zlen (content f) = f_bytes f.

Definition files_wf (k : nat) (fs : list SfTxnFile) : Prop :=
  length fs = SF_TXN_FILES /\ (k <= SF_TXN_FILES)%nat /\
  (forall i, (i < k)%nat -> file_wf (fs !!! i)) /\
  (forall i, (k <= i < SF_TXN_FILES)%nat -> fs !!! i = zero_file) /\
  (forall i j, (i < j < k)%nat -> cstr (f_path (fs !!! i)) <> cstr (f_path (fs !!! j))).

(** The 128-byte record of a file. *)
Definition record_bytes (f : SfTxnFile) : list Z :=
  f_path f ++ le_bytes 4 (f_bytes f) ++ fill 0 28 ++ sf_sha256 (content f).

Lemma path_ok_strlen p : path_ok p = true -> 0 < strlen p < 64.
Proof.
  intros H. unfold path_ok in H. rewrite strnlen_min in H. change (Z.of_nat 64) with 64 in H.
  destruct (_ || _) eqn:E; [done|]. lia.
Qed.

Lemma file_wf_lens f : file_wf f -> zlen (f_path f) = 64 /\ zlen (f_data f) = SF_TXN_FILE_BYTES.
Proof.
  intros (Hp & Ep & Hb & Ed & Hc). apply path_ok_strlen in Hp. rewrite Ep, Ed.
  rewrite !zlen_app, zlen_cstr, !zlen_fill by lia. lia.
Qed.

Lemma zlen_record f : file_wf f -> zlen (record_bytes f) = 128.
Proof.
  intros Hf. destruct (file_wf_lens f Hf) as [Hp _]. unfold record_bytes.
  rewrite !zlen_app, Hp, zlen_le_bytes, zlen_fill, zlen_sha256 by lia. done.
Qed.

(** ** The two geometries *)

(** [decode] is called with five slots and data at [SF_TXN_DATA], or with the
    original four slots and data at 1024. *)
Inductive geometry : nat -> Z -> Prop :=
| geometry_5 : geometry 5 SF_TXN_DATA
| geometry_4 : geometry 4 1024.

Section Decode.
Variables (b : list Z) (slots : nat) (data_start : Z).
Hypothesis b_len : zlen b = SF_TXN_BUFFER.
Hypothesis b_bytes : bytes_ok b.
Hypothesis geo : geometry slots data_start.

Definition rec_off (i : nat) : Z := 512 + Z.of_nat i * 128.
Definition data_off (i : nat) : Z := data_start + Z.of_nat i * SF_TXN_FILE_BYTES.

(** File [i] of the bank is [f]. *)
Definition holds (i : nat) (f : SfTxnFile) : Prop :=
  file_wf f /\ slice (rec_off i) 128 b = record_bytes f /\
  slice (data_off i) SF_TXN_FILE_BYTES b = f_data f.

Lemma geo_bounds i : (i < slots)%nat ->
  512 <= rec_off i /\ rec_off i + 128 <= data_start /\ data_start <= data_off i /\
  data_off i + SF_TXN_FILE_BYTES <= data_start + Z.of_nat slots * SF_TXN_FILE_BYTES
  <= zlen b /\ (slots <= SF_TXN_FILES)%nat.
Proof. intros Hi. rewrite b_len. unfold rec_off, data_off. destruct geo; sflia. Qed.

(** A padded path field read through a pointer. *)
Lemma padded_field e : 64 <= zlen e -> path_ok e = true ->
  zero (drop (Z.to_nat (strlen e + 1)) e) (63 - strlen e) = true ->
  slice 0 64 e = cstr e ++ fill 0 (64 - strlen e) /\ cstr (slice 0 64 e) = cstr e.
Proof.
  intros Hl Hp Hz. pose proof (path_ok_strlen e Hp). apply zero_slice in Hz; [|lia..].
  assert (E : slice 0 64 e = cstr e ++ fill 0 (64 - strlen e)).
  { replace 64 with (strlen e + (1 + (63 - strlen e))) by lia.
    rewrite (slice_split 0), (slice_split (0 + strlen e)) by lia. rewrite Z.add_0_l.
    change (slice 0 (strlen e) e) with (cstr e). f_equal.
    rewrite <-at_slice1, at_strlen, Hz by lia.
    replace (strlen e + (1 + (63 - strlen e)) - strlen e) with (1 + (63 - strlen e)) by lia.
    rewrite fill_split by lia. done. }
  split; [done|]. rewrite E. apply cstr_padded, cstr_nonzero.
Qed.

Lemma strlen_of_cstr p q : cstr p = cstr q -> strlen p = strlen q.
Proof. intros E. by rewrite <-!zlen_cstr, E. Qed.

(** The data area of a file: the prefix, then zeros. *)
Lemma padded_data d n : 0 <= n <= SF_TXN_FILE_BYTES -> SF_TXN_FILE_BYTES <= zlen d ->
  zero (drop (Z.to_nat n) d) (SF_TXN_FILE_BYTES - n) = true ->
  slice 0 SF_TXN_FILE_BYTES d = slice 0 n d ++ fill 0 (SF_TXN_FILE_BYTES - n).
Proof.
  intros Hn Hl Hz. apply zero_slice in Hz; [|lia..].
  replace SF_TXN_FILE_BYTES with (n + (SF_TXN_FILE_BYTES - n)) at 1 by lia.
  rewrite slice_split by lia. by rewrite Z.add_0_l, Hz.
Qed.

Lemma blit_zero_prefix x m : zlen x <= m -> blit 0 x (fill 0 m) = x ++ fill 0 (m - zlen x).
Proof.
  intros. pose proof (zlen_nonneg x). replace m with (zlen x + (m - zlen x)) at 1 by lia.
  rewrite fill_split, blit_head; rewrite ?zlen_fill; done || lia.
Qed.

Lemma record_split e : 128 <= zlen e -> bytes_ok e ->
  zero (drop (Z.to_nat 68) e) 28 = true ->
  slice 0 128 e = slice 0 64 e ++ le_bytes 4 (get32 e 64) ++ fill 0 28 ++ slice 96 32 e.
Proof.
  intros Hl Hb Hz. apply zero_slice in Hz; [|lia..].
  rewrite (slice_split 0 64 64), (slice_split 64 4 60), (slice_split 68 28 32) by lia.
  change (64 + 4 + 28) with 96. change (68 + 28) with 96.
  rewrite Hz. do 2 f_equal. unfold get32.
  assert (Hlen : zlen (slice 64 4 e) = 4) by (apply zlen_slice; lia).
  rewrite <-(le_bytes_val (slice 64 4 e)) at 1 by (by apply Forall_take, Forall_drop).
  f_equal. unfold zlen in Hlen. lia.
Qed.

Lemma decode_entry_sound count i next next' :
  (i < slots)%nat -> Z.of_nat i < count -> length next = SF_TXN_FILES -> next !!! i = zero_file ->
  decode_entry b count data_start i next = Go next' ->
  exists f, holds i f /\ (forall j, (j < i)%nat -> cstr (f_path (next !!! j)) <> cstr (f_path f)) /\
            next' = <[i := f]> next.
Proof.
  intros Hi Hc Hlen Hz. destruct (geo_bounds i Hi) as (B1 & B2 & B3 & B4 & B5).
  unfold decode_entry. fold (rec_off i) (data_off i).
  set (e := drop (Z.to_nat (rec_off i)) b). set (d := drop (Z.to_nat (data_off i)) b).
  assert (Le : 128 <= zlen e) by (unfold e; rewrite zlen_drop; sflia).
  assert (Ld : SF_TXN_FILE_BYTES <= zlen d) by (unfold d; rewrite zlen_drop; sflia).
  assert (Be : bytes_ok e) by (by apply Forall_drop).
  destruct (Z.leb_spec count (Z.of_nat i)); [lia|].
  set (n := get32 e 64). destruct (_ || _) eqn:Hg; [done|].
  repeat rewrite orb_false_iff in Hg. destruct Hg as ((((Gp & Gn) & Gz) & G68) & Gd).
  apply negb_false_iff in Gp, Gz, G68, Gd. apply Z.ltb_ge in Gn.
  assert (Hn : 0 <= n) by (apply le_val_bound; by apply Forall_take, Forall_drop).
  destruct (memeq _ _ _) eqn:Gh; [|done]. cbn [negb].
  apply memeq_slice in Gh; [|apply zlen_sha256|lia..].
  destruct (find_index _ _) eqn:Hf; [done|]. intros [= <-].
  destruct (padded_field e) as [Ep Ec]; [lia|done|done|].
  pose proof (padded_data d n (conj Hn Gn) Ld Gd) as Ed.
  assert (Hsd : zlen (slice 0 n d) = n) by (apply zlen_slice; lia).
  set (f := MkFile (slice 0 64 e) n (blit 0 (slice 0 n d) (fill 0 SF_TXN_FILE_BYTES))).
  assert (Efd : f_data f = slice 0 n d ++ fill 0 (SF_TXN_FILE_BYTES - n)).
  { unfold f; cbn. rewrite blit_zero_prefix, Hsd by lia. done. }
  assert (Hcont : content f = slice 0 n d).
  { unfold content. rewrite Efd. by apply slice_head. }
  exists f. split; [|split].
  - split; [|split].
    + split; [by rewrite path_ok_cstr; cbn; rewrite Ec, <-path_ok_cstr|].
      split; [cbn; rewrite (strlen_of_cstr _ _ Ec), Ec; exact Ep|].
      rewrite Hcont. done.
    + transitivity (slice 0 128 e); [unfold e; rewrite slice_drop, Z.add_0_r by lia; done|].
      rewrite record_split by done. unfold record_bytes. rewrite Hcont, <-Gh. done.
    + transitivity (slice 0 SF_TXN_FILE_BYTES d); [unfold d; rewrite slice_drop, Z.add_0_r by sflia; done|].
      by rewrite Efd, Ed.
  - intros j Hj E. pose proof (proj1 (find_index_None _ _) Hf j Hj) as Hj'. cbn in Hj'.
    assert (streq (f_path (next !!! j)) e = true) by (apply streq_spec; cbn in E; congruence).
    congruence.
  - rewrite alter_insert_total by lia. by rewrite Hz.
Qed.

Lemma decode_entry_complete count i next f :
  (i < slots)%nat -> Z.of_nat i < count -> length next = SF_TXN_FILES -> next !!! i = zero_file ->
  holds i f -> (forall j, (j < i)%nat -> cstr (f_path (next !!! j)) <> cstr (f_path f)) ->
  decode_entry b count data_start i next = Go (<[i := f]> next).
Proof.
  intros Hi Hc Hlen Hz (Hwf & Hr & Hd) Hdis. destruct (geo_bounds i Hi) as (B1 & B2 & B3 & B4 & B5).
  destruct (file_wf_lens f Hwf) as [Lp Ld']. destruct Hwf as (Fp & Ep & Fb & Ed & Fc).
  unfold decode_entry. fold (rec_off i) (data_off i).
  set (e := drop (Z.to_nat (rec_off i)) b). set (d := drop (Z.to_nat (data_off i)) b).
  assert (Le : 128 <= zlen e) by (unfold e; rewrite zlen_drop; sflia).
  assert (Ld : SF_TXN_FILE_BYTES <= zlen d) by (unfold d; rewrite zlen_drop; sflia).
  assert (Re : slice 0 128 e = record_bytes f)
    by (unfold e; rewrite slice_drop, Z.add_0_r by lia; done).
  assert (Rd : slice 0 SF_TXN_FILE_BYTES d = f_data f)
    by (unfold d; rewrite slice_drop, Z.add_0_r by sflia; done).
  assert (Hsub : forall off n, 0 <= off -> 0 <= n -> off + n <= 128 ->
            slice off n e = slice off n (record_bytes f)).
  { intros. rewrite <-Re, slice_slice, Z.add_0_l by lia. done. }
  pose proof (zlen_sha256 (content f)) as Lh.
  assert (E64 : slice 0 64 e = f_path f) by (rewrite Hsub by lia; unfold record_bytes; by fields).
  assert (En : get32 e 64 = f_bytes f).
  { unfold get32. rewrite Hsub by lia. unfold record_bytes. fields. apply le_val_bytes. sflia. }
  assert (Ez : slice 68 28 e = fill 0 28) by (rewrite Hsub by lia; unfold record_bytes; by fields).
  assert (Eh : slice 96 32 e = sf_sha256 (content f)) by (rewrite Hsub by lia; unfold record_bytes; by fields).
  pose proof (path_ok_strlen _ Fp) as Hpl.
  assert (Ec : cstr e = cstr (f_path f)).
  { apply (cstr_field _ 64); rewrite ?zlen_cstr; [apply cstr_nonzero|lia|by rewrite E64]. }
  assert (Es : strlen e = strlen (f_path f)) by (by apply strlen_of_cstr).
  assert (Hct : slice 0 (f_bytes f) d = content f).
  { unfold content. rewrite <-Rd, slice_slice by lia. done. }
  destruct (Z.leb_spec count (Z.of_nat i)); [lia|].
  rewrite En, Es, path_ok_cstr, Ec, <-path_ok_cstr, Fp. cbn [negb orb].
  destruct (Z.ltb_spec SF_TXN_FILE_BYTES (f_bytes f)); [lia|]. cbn [orb].
  set (L := strlen (f_path f)) in *.
  rewrite (proj2 (zero_slice (L + 1) (63 - L) e ltac:(lia) ltac:(lia) ltac:(lia))).
  2: { transitivity (slice (L + 1) (63 - L) (slice 0 64 e));
         [by rewrite slice_slice, Z.add_0_l by lia|].
       rewrite E64, Ep. rewrite slice_app_r by (rewrite ?zlen_cstr; fold L; lia).
       apply slice_fill; rewrite ?zlen_cstr; fold L; lia. }
  rewrite (proj2 (zero_slice 68 28 e ltac:(lia) ltac:(lia) ltac:(lia))) by done.
  rewrite (proj2 (zero_slice (f_bytes f) (SF_TXN_FILE_BYTES - f_bytes f) d ltac:(lia) ltac:(lia) ltac:(lia))).
  2: { transitivity (slice (f_bytes f) (SF_TXN_FILE_BYTES - f_bytes f) (slice 0 SF_TXN_FILE_BYTES d));
         [by rewrite slice_slice, Z.add_0_l by lia|].
       rewrite Rd, Ed. rewrite slice_app_r by lia. rewrite Fc, Z.sub_diag.
       apply slice_fill; lia. }
  cbn [negb orb]. rewrite Hct.
  rewrite (proj2 (memeq_slice (sf_sha256 (content f)) 96 e Lh ltac:(lia) ltac:(lia))) by done.
  cbn [negb]. rewrite (proj2 (find_index_None _ i)).
  - f_equal. rewrite alter_insert_total by lia. f_equal. rewrite Hz, E64.
    transitivity (MkFile (f_path f) (f_bytes f) (blit 0 (content f) (fill 0 SF_TXN_FILE_BYTES))); [done|].
    rewrite blit_zero_prefix, Fc, <-Ed by lia. by destruct f.
  - intros j Hj. specialize (Hdis j Hj). destruct (streq _ _) eqn:E; [|done].
    apply streq_spec in E. congruence.
Qed.

(** The bank is exactly the encoding of [fs] at [generation]. *)
Definition bank_holds (generation : Z) (fs : list SfTxnFile) : Prop :=
  exists count : nat,
    slice 0 8 b = bank_magic /\ get64 b 8 = generation /\ get32 b 16 = Z.of_nat count /\
    (count <= slots)%nat /\ slice 20 492 b = fill 0 492 /\ files_wf count fs /\
    (forall i, (i < count)%nat -> holds i (fs !!! i)) /\
    (forall i, (count <= i < slots)%nat ->
       slice (rec_off i) 128 b = fill 0 128 /\
       slice (data_off i) SF_TXN_FILE_BYTES b = fill 0 SF_TXN_FILE_BYTES) /\
    let used := data_start + Z.of_nat slots * SF_TXN_FILE_BYTES in
    slice used (SF_TXN_BUFFER - used) b = fill 0 (SF_TXN_BUFFER - used).

Lemma decode_entry_unused count i next next' : (i < slots)%nat -> count <= Z.of_nat i ->
  decode_entry b count data_start i next = Go next' <->
  next' = next /\ slice (rec_off i) 128 b = fill 0 128 /\
  slice (data_off i) SF_TXN_FILE_BYTES b = fill 0 SF_TXN_FILE_BYTES.
Proof.
  intros Hi Hc. destruct (geo_bounds i Hi) as (B1 & B2 & B3 & B4 & B5).
  unfold decode_entry. fold (rec_off i) (data_off i). destruct (Z.leb_spec count (Z.of_nat i)); [|lia].
  rewrite <-(zero_slice (rec_off i)), <-(zero_slice (data_off i)) by sflia.
  destruct (zero _ 128), (zero _ SF_TXN_FILE_BYTES); cbn; naive_solver.
Qed.

(** Invariant of the decoding loop: the first [i] files are read. *)
Definition decoded (count i : nat) (next : list SfTxnFile) : Prop :=
  files_wf (Nat.min i count) next /\
  (forall j, (j < Nat.min i count)%nat -> holds j (next !!! j)) /\
  (forall j, (count <= j < i)%nat ->
     slice (rec_off j) 128 b = fill 0 128 /\
     slice (data_off j) SF_TXN_FILE_BYTES b = fill 0 SF_TXN_FILE_BYTES).

Lemma no_files_lookup i : (i < SF_TXN_FILES)%nat -> no_files !!! i = zero_file.
Proof. intros Hi. apply lookup_total_replicate_2. done. Qed.

Lemma files_wf_nil : files_wf 0 no_files.
Proof.
  split; [done|]. split; [lia|]. split; [lia|]. split; [|lia].
  intros i Hi. apply no_files_lookup. lia.
Qed.

Lemma files_wf_snoc k fs f : files_wf k fs -> (k < SF_TXN_FILES)%nat -> file_wf f ->
  (forall j, (j < k)%nat -> cstr (f_path (fs !!! j)) <> cstr (f_path f)) ->
  files_wf (S k) (<[k := f]> fs).
Proof.
  intros (Hl & Hk & Hwf & Hz & Hd) Hk' Hf Hdf. split; [by rewrite length_insert|]. split; [lia|].
  split; [|split].
  - intros i Hi. destruct (decide (i = k)) as [->|].
    + by rewrite insert_lookup_total_eq by lia.
    + rewrite insert_lookup_total_ne by lia. apply Hwf. lia.
  - intros i Hi. rewrite insert_lookup_total_ne by lia. apply Hz. lia.
  - intros i j Hij. rewrite (insert_lookup_total_ne _ i) by lia.
    destruct (decide (j = k)) as [->|].
    + rewrite insert_lookup_total_eq by lia. apply Hdf. lia.
    + rewrite insert_lookup_total_ne by lia. apply Hd. lia.
Qed.

Lemma decoded_step count i next next' : (i < slots)%nat -> (count <= slots)%nat ->
  decoded count i next -> decode_entry b (Z.of_nat count) data_start i next = Go next' ->
  decoded count (S i) next'.
Proof.
  intros Hi Hcs (Hwf & Hh & Hz) H. destruct (geo_bounds i Hi) as (_ & _ & _ & _ & Hs).
  destruct (decide (i < count)%nat) as [Hlt|Hge].
  - unfold decoded. rewrite !Nat.min_l in * by lia. pose proof Hwf as (Hl & _ & _ & Hzf & _).
    apply decode_entry_sound in H as (f & Hf & Hdis & ->); [|lia|lia|done|apply Hzf; lia].
    split; [apply files_wf_snoc; try done; [lia|apply Hf]|]. split; [|lia].
    intros j Hj. destruct (decide (j = i)) as [->|].
    + by rewrite insert_lookup_total_eq by lia.
    + rewrite insert_lookup_total_ne by lia. apply Hh. lia.
  - apply decode_entry_unused in H as (-> & H1 & H2); [|lia..].
    unfold decoded. rewrite !Nat.min_r in * by lia. split; [done|]. split; [done|].
    intros j Hj. destruct (decide (j = i)) as [->|]; [done|]. apply Hz. lia.
Qed.

Lemma decode_loop_sound count next : (count <= slots)%nat ->
  loop_exit slots (decode_entry b (Z.of_nat count) data_start) no_files = Go next ->
  decoded count slots next.
Proof.
  intros Hc H.
  pose proof (loop_exit_inv (decoded count) (fun _ => True)
    (decode_entry b (Z.of_nat count) data_start) slots no_files) as L.
  rewrite H in L. apply L.
  - split; [apply files_wf_nil|]. split; [lia|]. lia.
  - intros j s' Hj Hs. destruct (decode_entry _ _ _ j s') eqn:E; [done|].
    by eapply decoded_step.
Qed.

Lemma decode_loop_complete count fs : (count <= slots)%nat -> files_wf count fs ->
  (forall i, (i < count)%nat -> holds i (fs !!! i)) ->
  (forall i, (count <= i < slots)%nat ->
       slice (rec_off i) 128 b = fill 0 128 /\
       slice (data_off i) SF_TXN_FILE_BYTES b = fill 0 SF_TXN_FILE_BYTES) ->
  loop_exit slots (decode_entry b (Z.of_nat count) data_start) no_files = Go fs.
Proof.
  intros Hc (Hl & _ & Hwf & Hz & Hd) Hh Hu.
  assert (Hs5 : (slots <= SF_TXN_FILES)%nat) by (destruct geo; sflia).
  set (P := fun (i : nat) (next : list SfTxnFile) => length next = SF_TXN_FILES /\
       forall j, (j < SF_TXN_FILES)%nat -> next !!! j = if decide (j < i)%nat then fs !!! j else zero_file).
  assert (L : match loop_exit slots (decode_entry b (Z.of_nat count) data_start) no_files with
              | Go next => P slots next | Done _ => False end).
  { apply (loop_exit_inv P).
    - split; [done|]. intros j Hj. apply no_files_lookup. done.
    - intros i next Hi [Hln Hnx].
      assert (Hni : next !!! i = zero_file) by (rewrite Hnx by lia; case_decide; [lia|done]).
      destruct (decide (i < count)%nat) as [Hlt|Hge].
      + rewrite (decode_entry_complete _ _ _ (fs !!! i)); [| lia | lia | done | done | auto |].
        * split; [by rewrite length_insert|]. intros j Hj. destruct (decide (j = i)) as [->|].
          -- rewrite insert_lookup_total_eq by lia. case_decide; [done|lia].
          -- rewrite insert_lookup_total_ne, Hnx by lia. do 2 case_decide; done || lia.
        * intros j Hj. rewrite Hnx by lia. case_decide; [|lia]. apply Hd. lia.
      + rewrite (proj2 (decode_entry_unused (Z.of_nat count) i next next Hi ltac:(lia)))
          by (split; [done|]; apply Hu; lia).
        split; [done|]. intros j Hj. rewrite Hnx by lia. do 2 case_decide; try done; try lia.
        symmetry. apply Hz. lia. }
  destruct (loop_exit _ _ _) as [r|next]; [done|]. destruct L as [Hln Hnx]. f_equal.
  apply list_eq_total; [congruence|]. intros i Hi. rewrite Hnx by lia.
  case_decide; [done|]. symmetry. apply Hz. lia.
Qed.

Lemma decode_used : 0 <= data_start + Z.of_nat slots * SF_TXN_FILE_BYTES <= SF_TXN_BUFFER.
Proof. destruct geo; sflia. Qed.

Lemma magic_slice : memeq b bank_magic 8 = true <-> slice 0 8 b = bank_magic.
Proof. rewrite memeq_spec by (rewrite ?b_len; change (zlen bank_magic) with 8; sflia). done. Qed.

Lemma header_zero : zero (drop (Z.to_nat 20) b) 492 = true <-> slice 20 492 b = fill 0 492.
Proof. apply zero_slice; rewrite ?b_len; sflia. Qed.

(** What the decoder accepts is the encoding of the table it returns. *)
Lemma decode_sound next generation fs :
  decode b next generation slots data_start = (0, fs) -> bank_holds generation fs.
Proof.
  assert (Hcnt : 0 <= get32 b 16) by (apply le_val_bound; by apply Forall_take, Forall_drop).
  unfold decode. pose proof decode_used as Hu.
  destruct (memeq b bank_magic 8) eqn:Hm; [|done]. destruct (Z.eqb_spec (get64 b 8) generation); [|done].
  destruct (Z.ltb_spec (Z.of_nat slots) (get32 b 16)) as [|Hle]; [done|].
  destruct (zero (drop (Z.to_nat 20) b) 492) eqn:Hz; [|done]. cbn [negb orb].
  assert (Ec : exists count : nat, get32 b 16 = Z.of_nat count) by (exists (Z.to_nat (get32 b 16)); lia).
  destruct Ec as [count Ec]. rewrite Ec in Hle |- *.
  destruct (loop_exit _ _ _) as [r|nx] eqn:HL; [done|].
  destruct (zero (drop (Z.to_nat (data_start + _)) b) _) eqn:Ht; [|done]. intros [= <-].
  apply decode_loop_sound in HL as (Hwf & Hh & Hun); [|lia].
  rewrite Nat.min_r in * by lia. exists count. cbv zeta. apply zero_slice in Ht; [|rewrite ?b_len in *; lia..].
  split; [by apply magic_slice|]. split; [done|]. split; [lia|]. split; [lia|].
  split; [by apply header_zero|]. done.
Qed.

(** Every encoded table is accepted and read back. *)
Lemma decode_complete next generation fs :
  bank_holds generation fs -> decode b next generation slots data_start = (0, fs).
Proof.
  intros (count & H1 & H2 & H3 & H4 & H5 & H6 & H7 & H8 & H9).
  unfold decode. pose proof decode_used as Hu. rewrite H3, H2, Z.eqb_refl.
  rewrite (proj2 magic_slice H1), (proj2 header_zero H5).
  destruct (Z.ltb_spec (Z.of_nat slots) (Z.of_nat count)); [lia|].
  cbn [negb orb]. rewrite (decode_loop_complete count fs) by done.
  set (used := data_start + Z.of_nat slots * SF_TXN_FILE_BYTES) in *.
  by rewrite (proj2 (zero_slice used (SF_TXN_BUFFER - used) b ltac:(lia) ltac:(lia) ltac:(lia)) H9).
Qed.

End Decode.

(** ** The encoder *)

Lemma used_files_wf k fs : files_wf k fs -> used_files fs = k.
Proof.
  intros (Hl & Hk & Hwf & Hz & _). unfold used_files.
  assert (Hlt : forall i, (i < k)%nat -> truthy (at_ (f_path (fs !!! i)) 0) = true).
  { intros i Hi. destruct (Hwf i Hi) as (Hp & _). apply path_ok_strlen in Hp.
    destruct (f_path (fs !!! i)) as [|c p]; [simpl in Hp; lia|].
    cbn [strlen] in Hp. change (truthy c = true). unfold truthy. destruct (c =? 0); [lia|done]. }
  destruct (find_index _ _) as [j|] eqn:E; simpl.
  - apply find_index_Some in E as (Hj & Hf & Hmin). apply negb_true_iff in Hf.
    destruct (Nat.lt_trichotomy j k) as [H|[H|H]]; [|done|].
    + rewrite Hlt in Hf by lia. done.
    + specialize (Hmin k H). rewrite Hz in Hmin by lia. done.
  - rewrite find_index_None in E. destruct (decide (k = SF_TXN_FILES)) as [|]; [done|].
    specialize (E k ltac:(lia)). rewrite Hz in E by lia. done.
Qed.

Section Encode.
Variable fs : list SfTxnFile.
Notation roff := rec_off.
Notation doff := (data_off SF_TXN_DATA).

Lemma offsets5 i : (i < 5)%nat ->
  512 <= roff i /\ roff i + 128 <= SF_TXN_DATA /\ SF_TXN_DATA <= doff i /\
  doff i + SF_TXN_FILE_BYTES <= SF_TXN_DATA + 5 * SF_TXN_FILE_BYTES <= SF_TXN_BUFFER.
Proof. unfold rec_off, data_off. sflia. Qed.

Lemma encode_entry_eq i b : file_wf (fs !!! i) -> (i < 5)%nat -> zlen b = SF_TXN_BUFFER ->
  encode_entry fs i b =
  blit (roff i + 96) (sf_sha256 (content (fs !!! i)))
    (blit (doff i) (content (fs !!! i))
       (blit (roff i + 64) (le_bytes 4 (f_bytes (fs !!! i))) (blit (roff i) (f_path (fs !!! i)) b))).
Proof.
  intros Hf Hi Hb. destruct (file_wf_lens _ Hf) as [Lp Ld]. destruct Hf as (_ & _ & Hn & _ & Lc).
  pose proof (offsets5 i Hi) as (B1 & B2 & B3 & B4). unfold encode_entry, put32.
  fold (roff i) (doff i) (content (fs !!! i)). rewrite slice_all by lia. f_equal. f_equal.
  apply slice_blit_same; [sflia|done|]. rewrite !zlen_blit; rewrite ?zlen_blit, ?zlen_le_bytes; sflia.
Qed.

Section Entry.
Variables (i : nat) (b : list Z).
Hypothesis f_ok : file_wf (fs !!! i).
Hypothesis i_lt : (i < 5)%nat.
Hypothesis b_len : zlen b = SF_TXN_BUFFER.

Lemma entry_fits :
  zlen (f_path (fs !!! i)) = 64 /\ 0 <= zlen (content (fs !!! i)) <= SF_TXN_FILE_BYTES /\
  zlen (content (fs !!! i)) = f_bytes (fs !!! i) /\ zlen (sf_sha256 (content (fs !!! i))) = 32.
Proof.
  destruct (file_wf_lens _ f_ok) as [Lp _]. destruct f_ok as (_ & _ & Hn & _ & Lc).
  rewrite Lc, zlen_sha256. done.
Qed.

Lemma zlen_encode_entry : zlen (encode_entry fs i b) = SF_TXN_BUFFER.
Proof.
  rewrite encode_entry_eq by done. pose proof entry_fits as (L1 & L2 & _ & L4).
  pose proof (offsets5 i i_lt). blen.
Qed.

(** Writing a file touches only its record and its data area. *)
Lemma encode_entry_other off n : 0 <= off -> 0 <= n ->
  (off + n <= roff i \/ roff i + 128 <= off) ->
  (off + n <= doff i \/ doff i + SF_TXN_FILE_BYTES <= off) ->
  slice off n (encode_entry fs i b) = slice off n b.
Proof.
  intros Ho Hn Hr Hd. rewrite encode_entry_eq by done. pose proof entry_fits as (L1 & L2 & _ & L4).
  pose proof (offsets5 i i_lt).
  rewrite !slice_blit_other by blen. done.
Qed.

Lemma encode_entry_record : slice (roff i) 128 b = fill 0 128 ->
  slice (roff i) 128 (encode_entry fs i b) = record_bytes (fs !!! i).
Proof.
  intros Hz. rewrite encode_entry_eq by done. pose proof entry_fits as (L1 & L2 & _ & L4).
  pose proof (offsets5 i i_lt) as (B1 & B2 & B3 & B4).
  set (b1 := blit (roff i) (f_path (fs !!! i)) b).
  assert (Lb1 : zlen b1 = SF_TXN_BUFFER) by (unfold b1; blen).
  set (b2 := blit (roff i + 64) _ b1).
  assert (Lb2 : zlen b2 = SF_TXN_BUFFER) by (unfold b2; blen).
  rewrite slice_blit_within by blen.
  rewrite slice_blit_other by sflia. unfold b2.
  rewrite slice_blit_within by blen. unfold b1.
  rewrite slice_blit_within by sflia. rewrite Hz.
  replace (roff i + 96 - roff i) with 96 by lia. replace (roff i + 64 - roff i) with 64 by lia.
  rewrite Z.sub_diag. change (fill 0 128) with (fill 0 64 ++ fill 0 4 ++ fill 0 28 ++ fill 0 32).
  unfold record_bytes. by fields.
Qed.

Lemma encode_entry_data : slice (doff i) SF_TXN_FILE_BYTES b = fill 0 SF_TXN_FILE_BYTES ->
  slice (doff i) SF_TXN_FILE_BYTES (encode_entry fs i b) = f_data (fs !!! i).
Proof.
  intros Hz. rewrite encode_entry_eq by done. pose proof entry_fits as (L1 & L2 & L3 & L4).
  pose proof (offsets5 i i_lt) as (B1 & B2 & B3 & B4).
  set (b1 := blit (roff i) (f_path (fs !!! i)) b).
  assert (Lb1 : zlen b1 = SF_TXN_BUFFER) by (unfold b1; blen).
  set (b2 := blit (roff i + 64) _ b1).
  assert (Lb2 : zlen b2 = SF_TXN_BUFFER) by (unfold b2; blen).
  rewrite slice_blit_other by blen.
  rewrite slice_blit_within by sflia. unfold b2, b1.
  rewrite !slice_blit_other by blen.
  rewrite Hz, Z.sub_diag, blit_zero_prefix, L3 by lia.
  symmetry. apply f_ok.
Qed.
End Entry.

(** Loop invariant of the encoder over the header [b0]. *)
Definition encoded (b0 : list Z) (i : nat) (b : list Z) : Prop :=
  zlen b = SF_TXN_BUFFER /\ slice 0 512 b = slice 0 512 b0 /\
  (forall j, (j < i)%nat -> holds b SF_TXN_DATA j (fs !!! j)) /\
  (forall j, (i <= j < 5)%nat -> slice (roff j) 128 b = fill 0 128 /\
     slice (doff j) SF_TXN_FILE_BYTES b = fill 0 SF_TXN_FILE_BYTES) /\
  let used := SF_TXN_DATA + 5 * SF_TXN_FILE_BYTES in
  slice used (SF_TXN_BUFFER - used) b = fill 0 (SF_TXN_BUFFER - used).

Lemma encoded_step b0 i b : (i < 5)%nat -> file_wf (fs !!! i) ->
  encoded b0 i b -> encoded b0 (S i) (encode_entry fs i b).
Proof.
  intros Hi Hf (Hl & Hh & Hd & Hz & Ht). pose proof (offsets5 i Hi) as (B1 & B2 & B3 & B4).
  assert (Hother : forall j, (j < 5)%nat -> j <> i ->
            slice (roff j) 128 (encode_entry fs i b) = slice (roff j) 128 b /\
            slice (doff j) SF_TXN_FILE_BYTES (encode_entry fs i b) = slice (doff j) SF_TXN_FILE_BYTES b).
  { intros j Hj Hne. pose proof (offsets5 j Hj). split; apply encode_entry_other; try done;
      unfold rec_off, data_off in *; sflia. }
  destruct (Hz i ltac:(lia)) as [Hzr Hzd].
  split; [by apply zlen_encode_entry|].
  split; [rewrite encode_entry_other; [done|..]; done || sflia|].
  split; [|split].
  - intros j Hj. destruct (decide (j = i)) as [->|Hne].
    + split; [done|]. split; [by apply encode_entry_record|by apply encode_entry_data].
    + destruct (Hother j ltac:(lia) Hne) as [E1 E2]. destruct (Hd j ltac:(lia)) as (? & ? & ?).
      unfold holds. by rewrite E1, E2.
  - intros j Hj. destruct (Hother j ltac:(lia) ltac:(lia)) as [-> ->]. apply Hz. lia.
  - cbv zeta in *. rewrite encode_entry_other; [done|..]; done || sflia.
Qed.

(** The 512-byte bank header. *)
Definition bank_header (generation : Z) (k : nat) : list Z :=
  bank_magic ++ le_bytes 8 generation ++ le_bytes 4 (Z.of_nat k) ++ fill 0 492.

Lemma zlen_bank_header generation k : zlen (bank_header generation k) = 512.
Proof. assert (Lm : zlen bank_magic = 8) by done. unfold bank_header. blen. Qed.

Lemma encode_header generation k :
  put32 (put64 (blit 0 bank_magic (fill 0 SF_TXN_BUFFER)) 8 generation) 16 (Z.of_nat k) =
  bank_header generation k ++ fill 0 (SF_TXN_BUFFER - 512).
Proof.
  unfold bank_header, put32, put64. rewrite <-!app_assoc.
  replace SF_TXN_BUFFER with (8 + (8 + (4 + (492 + (SF_TXN_BUFFER - 512))))) at 1 by sflia.
  rewrite !fill_split by sflia. assert (Lm : zlen bank_magic = 8) by done. by fields.
Qed.

Lemma encoded_init generation k :
  let b0 := bank_header generation k ++ fill 0 (SF_TXN_BUFFER - 512) in encoded b0 0 b0.
Proof.
  cbv zeta. set (b0 := _ ++ _). pose proof (zlen_bank_header generation k) as Lh.
  assert (Hz : forall off n, 512 <= off -> 0 <= n -> off + n <= SF_TXN_BUFFER -> slice off n b0 = fill 0 n).
  { intros. unfold b0. rewrite slice_app_r, slice_fill by sflia. done. }
  assert (Hl : zlen b0 = SF_TXN_BUFFER) by (unfold b0; blen). clearbody b0.
  split; [exact Hl|]. split; [reflexivity|]. split; [intros j Hj; lia|]. split.
  - intros j Hj. pose proof (offsets5 j ltac:(lia)). split; apply Hz; sflia.
  - apply Hz; sflia.
Qed.

Lemma encode_bank_encoded k generation : files_wf k fs ->
  encoded (bank_header generation k ++ fill 0 (SF_TXN_BUFFER - 512)) k (encode_bank fs generation).
Proof.
  intros Hwf. unfold encode_bank. rewrite (used_files_wf k fs Hwf), encode_header.
  destruct Hwf as (_ & Hk & Hfw & _ & _). unfold SF_TXN_FILES in Hk.
  apply (loop_inv (encoded _)); [apply encoded_init|].
  intros j b Hj. apply encoded_step; [lia|]. by apply Hfw.
Qed.

Lemma encode_bank_header k generation : files_wf k fs ->
  slice 0 512 (encode_bank fs generation) = bank_header generation k.
Proof.
  intros Hwf. destruct (encode_bank_encoded k generation Hwf) as (_ & -> & _).
  apply slice_head; [done|]. by rewrite zlen_bank_header.
Qed.

(** The encoder writes the bank the decoder reads. *)
Lemma encode_bank_holds k generation : files_wf k fs -> u64_ok generation ->
  zlen (encode_bank fs generation) = SF_TXN_BUFFER /\
  bank_holds (encode_bank fs generation) 5 SF_TXN_DATA generation fs.
Proof.
  intros Hwf Hg. pose proof (encode_bank_header k generation Hwf) as Hh.
  destruct (encode_bank_encoded k generation Hwf) as (Hl & _ & Hd & Hz & Ht).
  pose proof Hwf as (_ & Hk & _). unfold SF_TXN_FILES in Hk.
  set (b := encode_bank fs generation) in *. split; [done|]. exists k.
  assert (Hsub : forall off n, 0 <= off -> 0 <= n -> off + n <= 512 ->
            slice off n b = slice off n (bank_header generation k)).
  { intros off n Ho Hn Hon. transitivity (slice off n (slice 0 512 b)); [by rewrite slice_slice by lia|].
    by rewrite Hh. }
  assert (Lm : zlen bank_magic = 8) by done. unfold bank_header in Hsub.
  split; [rewrite Hsub by lia; by fields|].
  split; [unfold get64; rewrite Hsub by lia; fields; apply le_val_bytes; sflia|].
  split; [unfold get32; rewrite Hsub by lia; fields; apply le_val_bytes; sflia|].
  split; [done|]. split; [rewrite Hsub by lia; by fields|]. done.
Qed.

End Encode.

(** ** The codec *)

(** A bank is determined by its header, records, data areas and tail. *)
Lemma bank_ext b b' : zlen b = SF_TXN_BUFFER -> zlen b' = SF_TXN_BUFFER ->
  slice 0 512 b = slice 0 512 b' ->
  (forall i, (i < 5)%nat -> slice (rec_off i) 128 b = slice (rec_off i) 128 b' /\
     slice (data_off SF_TXN_DATA i) SF_TXN_FILE_BYTES b
     = slice (data_off SF_TXN_DATA i) SF_TXN_FILE_BYTES b') ->
  slice 83072 48000 b = slice 83072 48000 b' -> b = b'.
Proof.
  intros Hl Hl' Hh He Ht.
  assert (Hcut : forall x, zlen x = SF_TXN_BUFFER -> x =
    slice 0 512 x ++ slice 512 128 x ++ slice 640 128 x ++ slice 768 128 x ++ slice 896 128 x
    ++ slice 1024 128 x ++ slice 1152 16384 x ++ slice 17536 16384 x ++ slice 33920 16384 x
    ++ slice 50304 16384 x ++ slice 66688 16384 x ++ slice 83072 48000 x).
  { intros x Hx. 
    rewrite <-(slice_split 66688 16384), <-(slice_split 50304 16384), <-(slice_split 33920 16384),
      <-(slice_split 17536 16384), <-(slice_split 1152 16384), <-(slice_split 1024 128),
      <-(slice_split 896 128), <-(slice_split 768 128), <-(slice_split 640 128),
      <-(slice_split 512 128), <-(slice_split 0 512) by lia.
    symmetry. by apply slice_all. }
  rewrite (Hcut b Hl), (Hcut b' Hl').
  destruct (He 0%nat ltac:(lia)) as [R0 D0], (He 1%nat ltac:(lia)) as [R1 D1],
    (He 2%nat ltac:(lia)) as [R2 D2], (He 3%nat ltac:(lia)) as [R3 D3], (He 4%nat ltac:(lia)) as [R4 D4].
  repeat apply (f_equal2 app);
    [exact Hh|exact R0|exact R1|exact R2|exact R3|exact R4|exact D0|exact D1|exact D2|exact D3|exact D4|exact Ht].
Qed.

Lemma bank_holds_header b generation fs : zlen b = SF_TXN_BUFFER -> bytes_ok b ->
  bank_holds b 5 SF_TXN_DATA generation fs ->
  exists k, files_wf k fs /\ u64_ok generation /\ slice 0 512 b = bank_header generation k.
Proof.
  intros Hl Hb (k & H1 & H2 & H3 & H4 & H5 & H6 & _). exists k.
  assert (Hs : forall off n, bytes_ok (slice off n b)) by (intros; by apply Forall_take, Forall_drop).
  assert (Hv : forall off n, 0 <= off -> 0 <= n -> off + n <= zlen b ->
            slice off n b = le_bytes (Z.to_nat n) (le_val (slice off n b))).
  { intros off n Ho Hn Hon. rewrite <-(le_bytes_val (slice off n b)) at 1 by done. f_equal.
    pose proof (zlen_slice off n b Ho Hn Hon) as E. unfold zlen in E. lia. }
  assert (Hg : u64_ok generation).
  { subst generation. unfold get64. pose proof (le_val_bound _ (Hs 8 8)) as B.
    rewrite zlen_slice in B by sflia. sflia. }
  split; [done|]. split; [done|].
  rewrite (slice_split 0 8 504), (slice_split 8 8 496), (slice_split 16 4 492) by lia.
  unfold bank_header. rewrite <-H1, <-H2, <-H3, <-H5. unfold get64, get32.
  repeat apply (f_equal2 app); [reflexivity|apply (Hv 8 8); sflia|apply (Hv 16 4); sflia|reflexivity].
Qed.

(** Two banks with the same header and the same table are equal. *)
Lemma bank_holds_unique b b' generation fs : zlen b = SF_TXN_BUFFER -> zlen b' = SF_TXN_BUFFER ->
  slice 0 512 b = slice 0 512 b' ->
  bank_holds b 5 SF_TXN_DATA generation fs -> bank_holds b' 5 SF_TXN_DATA generation fs -> b = b'.
Proof.
  intros Hl Hl' Hh (k & _ & _ & _ & _ & _ & Hw & Hr & Hz & Ht) (k' & _ & _ & _ & _ & _ & Hw' & Hr' & Hz' & Ht').
  assert (k' = k) as -> by (by rewrite <-(used_files_wf k fs Hw), <-(used_files_wf k' fs Hw')).
  apply bank_ext; try done.
  - intros i Hi. destruct (decide (i < k)%nat) as [Hlt|Hge].
    + destruct (Hr i Hlt) as (_ & -> & ->). destruct (Hr' i Hlt) as (_ & -> & ->). done.
    + destruct (Hz i ltac:(lia)) as [-> ->]. destruct (Hz' i ltac:(lia)) as [-> ->]. done.
  - exact (eq_trans Ht (eq_sym Ht')).
Qed.


