(* ===== verification/Txn.v ===== *)
(** * Copy-on-write transactions

    The stateful part of [services/txn.c]: mount, lookup, resize and commit
    over a block device reached through the [read], [write] and [flush]
    callbacks.  The device is any type with those operations; its laws state
    that a sector write is atomic, that a flush makes earlier writes durable
    and that, until then, a power cut may keep any of them. *)

From S2P Require Import Prelude Bytes Abi Sha256 TxnPath TxnFormat.

(** ** The device interface *)

(** The callbacks [SfTxnRead], [SfTxnWrite] and [SfTxnFlush]; a non-zero status
    is an error.  [D] is the callback context. *)
Class BlockDevice (D : Type) := {
  dev_read : D -> Z -> Z * list Z * D;
  dev_write : D -> Z -> list Z -> Z * D;
  dev_flush : D -> Z * D
}.

(** Sector contents. *)
Definition image := Z -> list Z.
Definition upd (c : image) (s : Z) (blk : list Z) : image := fun x => if x =? s then blk else c x.

(** What a device promises.  [img] is what reads return; [crash d c] says that
    [c] may be found on the medium if power is lost in state [d].  A failed
    operation promises nothing about [img], but still tears no sector. *)
Class DeviceLaws (D : Type) `{BlockDevice D} := {
  img : D -> image;
  crash : D -> image -> Prop;
  read_law d s r blk d' : dev_read d s = (r, blk, d') ->
    img d' = img d /\ (forall c, crash d' c -> crash d c) /\ (r = 0 -> blk = img d s);
  write_law d s blk r d' : dev_write d s blk = (r, d') ->
    (forall c, crash d' c -> crash d c \/ exists c0, crash d c0 /\ c = upd c0 s blk) /\
    (r = 0 -> img d' = upd (img d) s blk);
  flush_law d r d' : dev_flush d = (r, d') ->
    (forall c, crash d' c -> if r =? 0 then c = img d else crash d c) /\
    (r = 0 -> img d' = img d)
}.

(** ** State *)

Record SfTxn := MkTxn {
  generation : Z; bank : Z; ready : bool; volume : list Z;
  files : list SfTxnFile; next : list SfTxnFile; buffer : list Z
}.
#[export] Instance SfTxn_settable : Settable SfTxn :=
  fun t => MkTxn (generation t) (bank t) (ready t) (volume t) (files t) (next t) (buffer t).

(** ["SFTXN1\0"] and ["SFCMT1\0"] with their terminators. *)
Definition header_magic : list Z := [83; 70; 84; 88; 78; 49; 0; 0].
Definition record_magic : list Z := [83; 70; 67; 77; 84; 49; 0; 0].

(** The conditions on the header sector and on a commit record. *)
Definition header_ok (s : list Z) : bool :=
  memeq s header_magic 8 && (get32 s 8 =? 1) && (get32 s 12 =? SF_TXN_SECTORS)
  && zero (drop (Z.to_nat 32) s) 448 && sealed s.

Definition record_ok (s vol : list Z) (slot : Z) : bool :=
  memeq s record_magic 8 && sealed s && truthy (get64 s 8) && (get32 s 16 =? slot)
  && negb (truthy (get32 s 20)) && memeq (drop (Z.to_nat 24) s) vol 16
  && zero (drop (Z.to_nat 72) s) 408.

Section Operations.
Context {D : Type} `{BlockDevice D}.

(** The loop that reads the 256 sectors of a bank into [t->buffer]. *)
Definition read_bank (slot : Z) (t : SfTxn) (d : D) : flow (Z * SfTxn * D) (SfTxn * D) :=
  loop_exit (Z.to_nat SF_TXN_BANK_SECTORS)
    (fun i '(t, d) =>
       let '(r, blk, d) := dev_read d (SF_TXN_BANK + slot * SF_TXN_BANK_SECTORS + Z.of_nat i) in
       if truthy r then Done (r, t, d)
       else Go (t <| buffer ::= blit (Z.of_nat i * 512) blk |>, d)) (t, d).

(** One iteration of the slot loop of [sf_txn_mount]; [Done] is a return. *)
Definition mount_slot (k : nat) (st : SfTxn * D) : flow (Z * SfTxn * D) (SfTxn * D) :=
  let '(t, d) := st in
  let slot := Z.of_nat k in
  let '(r, s, d) := dev_read d (SF_TXN_HEADER + 1 + slot) in
  if truthy r then Done (r, t, d)
  else if negb (record_ok s (volume t) slot) then Go (t, d)
  else
    let gen := get64 s 8 in
    let hash := slice 40 32 s in
    match read_bank slot t d with
    | Done out => Done out
    | Go (t, d) =>
        if negb (memeq (sf_sha256 (buffer t)) hash 32) then Go (t, d)
        else
          let '(r5, n5) := decode (buffer t) (next t) gen SF_TXN_FILES SF_TXN_DATA in
          let '(r, n) := if truthy r5 then decode (buffer t) n5 gen 4 1024 else (r5, n5) in
          let t := t <| next := n |> in
          if truthy r then Go (t, d)
          else if gen =? generation t then Done (SF_BAD_FORMAT, t, d)
          else if generation t <? gen then
            Go (t <| generation := gen |> <| bank := slot |> <| files := n |>, d)
          else Go (t, d)
    end.

Definition sf_txn_mount (t : SfTxn) (d : D) : Z * SfTxn * D :=
  let t := t <| ready := false |> <| generation := 0 |> in
  let '(r, s, d) := dev_read d SF_TXN_HEADER in
  if truthy r then (r, t, d)
  else if negb (header_ok s) then (SF_BAD_FORMAT, t, d)
  else
    let t := t <| volume := slice 16 16 s |> in
    match loop_exit 2 mount_slot (t, d) with
    | Done out => out
    | Go (t, d) =>
        if generation t =? 0 then (SF_BAD_FORMAT, t, d) else (0, t <| ready := true |>, d)
    end.

(** [sf_txn_get]: status or length, and the bytes stored through [out]. *)
Definition sf_txn_get (t : SfTxn) (path : list Z) (capacity : Z) : Z * list Z :=
  if negb (ready t) then (SF_DEVICE_GONE, [])
  else match find_index (fun i => streq (f_path (files t !!! i)) path) SF_TXN_FILES with
  | None => (SF_NOT_FOUND, [])
  | Some i =>
      let f := files t !!! i in
      if capacity <? f_bytes f then (SF_NO_SPACE, []) else (f_bytes f, slice 0 (f_bytes f) (f_data f))
  end.

(** One iteration of the staging loop of [sf_txn_commit] into [t->next]. *)
Definition stage_one (paths data : list (list Z)) (bytes : list Z) (n : nat) (next : list SfTxnFile)
    : flow (Z * list SfTxnFile) (list SfTxnFile) :=
  let path := nth n paths [] in
  let len := nth n bytes 0 in
  if negb (path_ok path) || (SF_TXN_FILE_BYTES <? len) then Done (SF_INVALID, next)
  else match find_index (fun j => streq (nth j paths []) path) n with
  | Some _ => Done (SF_INVALID, next)
  | None =>
      match find_index (fun i => negb (truthy (at_ (f_path (next !!! i)) 0))
                                 || streq (f_path (next !!! i)) path) SF_TXN_FILES with
      | None => Done (SF_NO_SPACE, next)
      | Some i =>
          Go (<[i := MkFile (blit 0 (cstr path ++ [0]) (fill 0 64)) len
                       (blit 0 (slice 0 len (nth n data [])) (fill 0 SF_TXN_FILE_BYTES))]> next)
      end
  end.

(** The sectors of the bank, in order; [Done] is [goto uncertain]. *)
Definition write_bank (bk : Z) (b : list Z) (d : D) : flow D D :=
  loop_exit (Z.to_nat SF_TXN_BANK_SECTORS)
    (fun i d =>
       let '(r, d) := dev_write d (SF_TXN_BANK + bk * SF_TXN_BANK_SECTORS + Z.of_nat i)
                        (slice (Z.of_nat i * 512) 512 b) in
       if truthy r then Done d else Go d) d.

(** [t->write(...) || t->flush(...)]. *)
Definition write_flush (d : D) (s : Z) (blk : list Z) : flow D D :=
  let '(r, d) := dev_write d s blk in
  if truthy r then Done d
  else let '(r, d) := dev_flush d in if truthy r then Done d else Go d.

(** The commit record sector. *)
Definition commit_record (gen bk : Z) (vol hash : list Z) : list Z :=
  let s := fill 0 512 in
  let s := blit 0 record_magic s in
  let s := put64 s 8 gen in
  let s := put32 s 16 bk in
  let s := blit 24 (slice 0 16 vol) s in
  let s := blit 40 hash s in
  seal s.

(** The device phase of a commit: invalidate the target record, write the bank,
    publish the record, with a flush after each. *)
Definition publish (gen bk : Z) (vol b : list Z) (d : D) : flow D D :=
  match write_flush d (SF_TXN_HEADER + 1 + bk) (fill 0 512) with
  | Done d => Done d
  | Go d =>
      match write_bank bk b d with
      | Done d => Done d
      | Go d =>
          let '(r, d) := dev_flush d in
          if truthy r then Done d
          else write_flush d (SF_TXN_HEADER + 1 + bk) (commit_record gen bk vol (sf_sha256 b))
      end
  end.

Definition sf_txn_commit (t : SfTxn) (paths data : list (list Z)) (bytes : list Z) (count : nat) (d : D)
    : Z * SfTxn * D :=
  if negb (ready t) then (SF_DEVICE_GONE, t, d)
  else if (count =? 0)%nat || (SF_TXN_FILES <? count)%nat || (generation t =? UINT64_MAX)
    then (SF_INVALID, t, d)
  else
    match loop_exit count (stage_one paths data bytes) (files t) with
    | Done (r, n) => (r, t <| next := n |>, d)
    | Go n =>
        let gen := generation t + 1 in
        let bk := Z.lxor (bank t) 1 in
        let b := encode_bank n gen in
        let t := t <| next := n |> <| buffer := b |> in
        match publish gen bk (volume t) b d with
        | Done d => (SF_COMMIT_UNCERTAIN, t <| ready := false |>, d)
        | Go d => (0, t <| files := n |> <| generation := gen |> <| bank := bk |>, d)
        end
    end.

(** [sf_txn_resize]: the new contents are built in [t->buffer], which
    [sf_txn_commit] copies into [t->next] before it rebuilds the buffer. *)
Definition sf_txn_resize (t : SfTxn) (path : list Z) (bytes : Z) (d : D) : Z * SfTxn * D :=
  if negb (ready t) then (SF_DEVICE_GONE, t, d)
  else if negb (path_ok path) then (SF_INVALID, t, d)
  else if SF_TXN_FILE_BYTES <? bytes then (SF_NO_SPACE, t, d)
  else
    let i := find_index (fun i => streq (f_path (files t !!! i)) path) SF_TXN_FILES in
    let old := match i with Some i => f_bytes (files t !!! i) | None => 0 end in
    if bytes =? old then (0, t, d)
    else
      let b := blit 0 (fill 0 bytes) (buffer t) in
      let b := match i with
               | Some i => blit 0 (slice 0 (Z.min old bytes) (f_data (files t !!! i))) b
               | None => b
               end in
      sf_txn_commit (t <| buffer := b |>) [path] [b] [bytes] 1 d.

End Operations.
