(* ===== verification/TxnStage.v ===== *)
(** * Staging a commit

    [sf_txn_commit] copies the file table and applies each requested write to
    the copy.  The table is seen as a finite map from paths to contents: a
    staged write is a map update, and [sf_txn_get] is a map lookup. *)

From S2P Require Import Prelude Bytes Abi Sha256 TxnPath TxnFormat Txn.

(** The contents stored under a path. *)
Definition lookup_file (fs : list SfTxnFile) (q : list Z) : option (list Z) :=
  match find_index (fun i => streq (f_path (fs !!! i)) q) SF_TXN_FILES with
  | Some i => Some (content (fs !!! i))
  | None => None
  end.

Lemma zero_file_path : cstr (f_path zero_file) = [].
Proof. done. Qed.

Section Table.
Variables (k : nat) (fs : list SfTxnFile).
Hypothesis wf : files_wf k fs.

(** A nonempty name is matched only by a used slot, and by at most one. *)
Lemma path_slot q i : cstr q <> [] -> (i < SF_TXN_FILES)%nat -> cstr (f_path (fs !!! i)) = cstr q -> (i < k)%nat.
Proof.
  intros Hq Hi E. destruct wf as (_ & _ & _ & Hz & _). destruct (decide (i < k)%nat); [done|].
  rewrite Hz in E by lia. rewrite zero_file_path in E. by rewrite <-E in Hq.
Qed.

Lemma path_unique i j : (i < k)%nat -> (j < k)%nat ->
  cstr (f_path (fs !!! i)) = cstr (f_path (fs !!! j)) -> i = j.
Proof.
  intros Hi Hj E. destruct wf as (_ & _ & _ & _ & Hd).
  destruct (Nat.lt_trichotomy i j) as [H|[H|H]]; [|done|].
  - by destruct (Hd i j ltac:(lia)).
  - by destruct (Hd j i ltac:(lia)).
Qed.

Lemma lookup_file_Some q i : cstr q <> [] -> (i < k)%nat -> cstr (f_path (fs !!! i)) = cstr q ->
  lookup_file fs q = Some (content (fs !!! i)).
Proof.
  intros Hq Hi E. unfold lookup_file.
  assert (Hk : (k <= SF_TXN_FILES)%nat) by (destruct wf as (_ & Hk & _); exact Hk).
  destruct (find_index _ _) as [j|] eqn:F.
  - apply find_index_Some in F as (Hj & Hs & _). apply streq_spec in Hs.
    pose proof (path_slot q j Hq Hj Hs). by rewrite (path_unique j i) by (done || congruence).
  - exfalso. apply find_index_None with (j := i) in F; [|lia]. apply streq_spec in E. congruence.
Qed.

Lemma lookup_file_None q : cstr q <> [] ->
  (forall i, (i < k)%nat -> cstr (f_path (fs !!! i)) <> cstr q) -> lookup_file fs q = None.
Proof.
  intros Hq Hn. unfold lookup_file. destruct (find_index _ _) as [j|] eqn:F; [|done].
  apply find_index_Some in F as (Hj & Hs & _). apply streq_spec in Hs.
  by destruct (Hn j (path_slot q j Hq Hj Hs)).
Qed.

(** Replacing the contents of a used slot. *)
Lemma files_wf_replace i f : (i < k)%nat -> file_wf f ->
  cstr (f_path f) = cstr (f_path (fs !!! i)) -> files_wf k (<[i := f]> fs).
Proof.
  intros Hi Hf Hp. destruct wf as (Hl & Hk & Hw & Hz & Hd).
  assert (Hpath : forall j, (j < k)%nat -> cstr (f_path (<[i := f]> fs !!! j)) = cstr (f_path (fs !!! j))).
  { intros j Hj. destruct (decide (j = i)) as [->|].
    - by rewrite insert_lookup_total_eq by lia.
    - by rewrite insert_lookup_total_ne by lia. }
  split; [by rewrite length_insert|]. split; [done|]. split; [|split].
  - intros j Hj. destruct (decide (j = i)) as [->|].
    + by rewrite insert_lookup_total_eq by lia.
    + rewrite insert_lookup_total_ne by lia. by apply Hw.
  - intros j Hj. rewrite insert_lookup_total_ne by lia. by apply Hz.
  - intros a b Hab. rewrite !Hpath by lia. by apply Hd.
Qed.
End Table.

(** The file a staged write stores. *)
Definition staged_file (path : list Z) (len : Z) (data : list Z) : SfTxnFile :=
  MkFile (blit 0 (cstr path ++ [0]) (fill 0 64)) len
         (blit 0 (slice 0 len data) (fill 0 SF_TXN_FILE_BYTES)).

Lemma staged_file_wf path len data : path_ok path = true -> 0 <= len <= SF_TXN_FILE_BYTES ->
  len <= zlen data ->
  file_wf (staged_file path len data) /\ cstr (f_path (staged_file path len data)) = cstr path /\
  content (staged_file path len data) = slice 0 len data.
Proof.
  intros Hp Hl Hd. pose proof (path_ok_strlen path Hp) as Hs.
  assert (Ls : zlen (slice 0 len data) = len) by (apply zlen_slice; lia).
  assert (Ep : f_path (staged_file path len data) = cstr path ++ fill 0 (64 - strlen path)).
  { cbn. rewrite blit_zero_prefix by (rewrite zlen_app, zlen_cstr; change (zlen [0]) with 1; lia).
    rewrite <-app_assoc, zlen_app, zlen_cstr. change (zlen [0]) with 1. f_equal.
    replace (64 - strlen path) with (1 + (64 - (strlen path + 1))) by lia.
    rewrite fill_split by lia. done. }
  assert (Ed : f_data (staged_file path len data)
               = slice 0 len data ++ fill 0 (SF_TXN_FILE_BYTES - len)).
  { cbn. rewrite blit_zero_prefix, Ls by lia. done. }
  assert (Ec : cstr (f_path (staged_file path len data)) = cstr path)
    by (rewrite Ep; apply cstr_padded, cstr_nonzero).
  assert (Eb : content (staged_file path len data) = slice 0 len data)
    by (unfold content; rewrite Ed; by apply slice_head).
  split; [|done]. split; [by rewrite path_ok_cstr, Ec, <-path_ok_cstr|].
  split; [rewrite (strlen_of_cstr _ _ Ec), Ec; exact Ep|].
  split; [done|]. split; [by rewrite Eb, Ed|by rewrite Eb].
Qed.

(** The C arguments: [bytes[n]] bytes are readable at [data[n]]. *)
Definition args_ok (data : list (list Z)) (bytes : list Z) : Prop :=
  forall n, 0 <= nth n bytes 0 <= zlen (nth n data []).

Lemma path_ok_cstr_nonempty p : path_ok p = true -> cstr p <> [].
Proof.
  intros Hp E. apply path_ok_strlen in Hp. rewrite <-zlen_cstr, E in Hp. change (zlen (@nil Z)) with 0 in Hp. lia.
Qed.

(** A staged write is a map update that keeps the table well formed. *)
Lemma stage_one_spec paths data bytes n fs fs' k : args_ok data bytes -> files_wf k fs ->
  stage_one paths data bytes n fs = Go fs' ->
  path_ok (nth n paths []) = true /\ nth n bytes 0 <= SF_TXN_FILE_BYTES /\
  (forall j, (j < n)%nat -> cstr (nth j paths []) <> cstr (nth n paths [])) /\
  (exists k', files_wf k' fs') /\
  lookup_file fs' (nth n paths []) = Some (slice 0 (nth n bytes 0) (nth n data [])) /\
  forall q, cstr q <> [] -> cstr q <> cstr (nth n paths []) -> lookup_file fs' q = lookup_file fs q.
Proof.
  intros Ha Hwf. unfold stage_one. specialize (Ha n). set (path := nth n paths []) in *.
  set (len := nth n bytes 0) in *. set (dat := nth n data []) in *.
  destruct (path_ok path) eqn:Hp; [|done]. destruct (Z.ltb_spec SF_TXN_FILE_BYTES len) as [|Hlen]; [done|].
  cbn [negb orb]. destruct (find_index _ n) eqn:Hdup; [done|].
  destruct (find_index _ SF_TXN_FILES) as [i|] eqn:Hf; [|done]. fold (staged_file path len dat).
  intros [= <-]. set (f := staged_file path len dat).
  destruct (staged_file_wf path len dat) as (Wf & Cf & Ef); [done|lia|lia|]. fold f in Wf, Cf, Ef.
  pose proof (path_ok_cstr_nonempty path Hp) as Hne.
  apply find_index_Some in Hf as (Hi & Hfi & Hmin).
  pose proof Hwf as (Hl & Hk & Hw & Hz & Hd).
  assert (Hnz : forall j, (j < k)%nat -> truthy (at_ (f_path (fs !!! j)) 0) = true).
  { intros j Hj. destruct (Hw j Hj) as (Hpj & _). apply path_ok_strlen in Hpj.
    destruct (f_path (fs !!! j)) as [|c p]; [simpl in Hpj; lia|].
    cbn [strlen] in Hpj. change (truthy c = true). unfold truthy. destruct (c =? 0); [lia|done]. }
  assert (Hdis : forall j, (j < k)%nat -> j <> i -> cstr (f_path (fs !!! j)) <> cstr path).
  { intros j Hj Hji E. destruct (Nat.lt_trichotomy j i) as [Hlt|[|Hgt]]; [|done|].
    - specialize (Hmin j Hlt). apply orb_false_iff in Hmin as [_ Hmin]. apply streq_spec in E. congruence.
    - rewrite Hnz in Hfi by lia. apply streq_spec in Hfi.
      apply Hji. apply (path_unique k fs Hwf); [done|lia|congruence]. }
  assert (Hk' : exists k', files_wf k' (<[i := f]> fs) /\ (i < k')%nat /\ (k <= k')%nat /\ (k' <= S (Nat.max k i))%nat
            /\ (forall j, (j < k')%nat -> j <> i -> (j < k)%nat)).
  { destruct (decide (i < k)%nat) as [Hik|Hik].
    - exists k. rewrite Hnz in Hfi by done. apply streq_spec in Hfi.
      split; [apply files_wf_replace; try done; congruence|]. repeat split; lia || done.
    - assert (i = k) as ->.
      { destruct (decide (i = k)); [done|]. specialize (Hmin k ltac:(lia)). rewrite Hz in Hmin by lia. done. }
      exists (S k). split; [apply files_wf_snoc; try done; intros j Hj; rewrite Cf; apply Hdis; lia|].
      repeat split; lia. }
  destruct Hk' as (k' & Hwf' & Hik & Hkk & _ & Hold).
  split; [done|]. split; [lia|]. split; [|split; [by exists k'|split]].
  - intros j Hj E. apply find_index_None with (j := j) in Hdup; [|done]. apply streq_spec in E. congruence.
  - rewrite (lookup_file_Some k' _ Hwf' path i); rewrite ?insert_lookup_total_eq by lia; try done. by rewrite Ef.
  - intros q Hq Hqp.
    assert (Hi' : (i < k)%nat -> cstr (f_path (fs !!! i)) = cstr path).
    { intros Hik'. rewrite Hnz in Hfi by done. by apply streq_spec in Hfi. }
    destruct (find_index (fun j => streq (f_path (fs !!! j)) q) k) as [j|] eqn:Hj.
    + apply find_index_Some in Hj as (Hj & Ej & _). apply streq_spec in Ej.
      assert (j <> i) by (intros ->; apply Hqp; rewrite <-Ej; auto).
      rewrite (lookup_file_Some k fs Hwf q j) by done.
      rewrite (lookup_file_Some k' _ Hwf' q j); rewrite ?insert_lookup_total_ne by lia; done || lia.
    + rewrite find_index_None in Hj.
      assert (Hno : forall j, (j < k)%nat -> cstr (f_path (fs !!! j)) <> cstr q).
      { intros j Hjk E. specialize (Hj j Hjk). apply streq_spec in E. congruence. }
      rewrite (lookup_file_None k fs Hwf) by done. apply (lookup_file_None k' _ Hwf'); [done|].
      intros j Hjk. destruct (decide (j = i)) as [->|Hji].
      * rewrite insert_lookup_total_eq by lia. congruence.
      * rewrite insert_lookup_total_ne by lia. apply Hno. by apply Hold.
Qed.

(** The table the whole staging loop produces. *)
Definition staged (fs : list SfTxnFile) (paths data : list (list Z)) (bytes : list Z) (count : nat)
    : option (list SfTxnFile) :=
  match loop_exit count (stage_one paths data bytes) fs with Go fs' => Some fs' | Done _ => None end.

Lemma staged_spec fs paths data bytes count fs' : args_ok data bytes -> (exists k, files_wf k fs) ->
  staged fs paths data bytes count = Some fs' ->
  (exists k, files_wf k fs') /\
  (forall n, (n < count)%nat -> path_ok (nth n paths []) = true /\
     lookup_file fs' (nth n paths []) = Some (slice 0 (nth n bytes 0) (nth n data []))) /\
  (forall q, cstr q <> [] -> (forall n, (n < count)%nat -> cstr q <> cstr (nth n paths [])) ->
     lookup_file fs' q = lookup_file fs q).
Proof.
  intros Ha Hk. unfold staged.
  set (P := fun (n : nat) (g : list SfTxnFile) => (exists k, files_wf k g) /\
    (forall m, (m < n)%nat -> path_ok (nth m paths []) = true /\
       lookup_file g (nth m paths []) = Some (slice 0 (nth m bytes 0) (nth m data []))) /\
    (forall q, cstr q <> [] -> (forall m, (m < n)%nat -> cstr q <> cstr (nth m paths [])) ->
       lookup_file g q = lookup_file fs q)).
  assert (L : match loop_exit count (stage_one paths data bytes) fs with Go g => P count g | Done _ => True end).
  { apply (loop_exit_inv P (fun _ => True)); [by repeat split; [|lia..]|].
    intros n g Hn ([k Hwf] & H1 & H2). destruct (stage_one paths data bytes n g) as [|g'] eqn:E; [done|].
    destruct (stage_one_spec _ _ _ _ _ _ k Ha Hwf E) as (Hp & Hlen & Hdis & Hk' & Hnew & Hold).
    split; [done|]. split.
    - intros m Hm. destruct (decide (m = n)) as [->|]; [done|]. destruct (H1 m ltac:(lia)) as [Hpm Hm'].
      split; [done|]. rewrite Hold; [done|by apply path_ok_cstr_nonempty|apply Hdis; lia].
    - intros q Hq Hqm. rewrite Hold; [|done|apply Hqm; lia]. apply H2; [done|]. intros m Hm. apply Hqm. lia. }
  destruct (loop_exit _ _ _); [done|]. intros [= <-]. exact L.
Qed.

(** [sf_txn_get] is the map lookup. *)
Lemma get_lookup t path capacity : ready t = true -> (exists k, files_wf k (files t)) -> cstr path <> [] ->
  sf_txn_get t path capacity =
  match lookup_file (files t) path with
  | None => (SF_NOT_FOUND, [])
  | Some x => if capacity <? zlen x then (SF_NO_SPACE, []) else (zlen x, x)
  end.
Proof.
  intros Hr [k Hwf] Hp. unfold sf_txn_get, lookup_file. rewrite Hr. cbn [negb].
  destruct (find_index _ _) as [i|] eqn:E; [|done]. apply find_index_Some in E as (Hi & Hs & _).
  apply streq_spec in Hs. pose proof (path_slot k _ Hwf path i Hp Hi Hs) as Hik.
  destruct Hwf as (_ & _ & Hw & _). destruct (Hw i Hik) as (_ & _ & _ & _ & Hc).
  fold (content (files t !!! i)). by rewrite Hc.
Qed.
