(* ===== verification/TxnCrash.v ===== *)
(** * Crash safety of the transaction store

    The snapshot a mount selects is a pure function of the sector image; a
    commit moves that function from the old snapshot to the new one in a
    single sector write, whatever prefix of its writes a power cut keeps. *)

From S2P Require Import Prelude Bytes Abi Sha256 TxnPath TxnFormat Txn TxnStage.

(** ** The snapshot of an image *)

Definition bank_bytes (c : image) (slot : Z) (n : nat) : list Z :=
  flat_map (fun i => c (SF_TXN_BANK + slot * SF_TXN_BANK_SECTORS + Z.of_nat i)) (seq 0 n).

(** What one slot contributes to a mount: its generation and file table. *)
Definition slot_view (c : image) (vol : list Z) (slot : Z) : option (Z * list SfTxnFile) :=
  let s := c (SF_TXN_HEADER + 1 + slot) in
  if negb (record_ok s vol slot) then None
  else
    let gen := get64 s 8 in
    let b := bank_bytes c slot 256 in
    if negb (memeq (sf_sha256 b) (slice 40 32 s) 32) then None
    else
      let '(r5, n5) := decode b [] gen SF_TXN_FILES SF_TXN_DATA in
      if r5 =? 0 then Some (gen, n5)
      else let '(r4, n4) := decode b [] gen 4 1024 in if r4 =? 0 then Some (gen, n4) else None.

(** Selected generation, bank and table so far. *)
Definition selection : Type := Z * Z * list SfTxnFile.

Definition merge (slot : Z) (v : option (Z * list SfTxnFile)) (s : selection) : option selection :=
  match v with
  | None => Some s
  | Some (g, fs) =>
      if g =? s.1.1 then None else if s.1.1 <? g then Some (g, slot, fs) else Some s
  end.

Definition header_volume (c : image) : list Z := slice 16 16 (c SF_TXN_HEADER).

Definition view (c : image) (bk0 : Z) (fs0 : list SfTxnFile) : option selection :=
  if negb (header_ok (c SF_TXN_HEADER)) then None
  else
    match merge 0 (slot_view c (header_volume c) 0) (0, bk0, fs0) with
    | None => None
    | Some s =>
        match merge 1 (slot_view c (header_volume c) 1) s with
        | None => None
        | Some s => if s.1.1 =? 0 then None else Some s
        end
    end.

Definition sectors (c : image) : Prop := forall s, zlen (c s) = 512.

(** The volatile state a mount determines. *)
Definition selected (t : SfTxn) : selection := (generation t, bank t, files t).

(** ** Mount computes the view *)

Lemma decode_next_irrelevant b n1 n2 gen slots ds :
  (decode b n1 gen slots ds).1 = (decode b n2 gen slots ds).1 /\
  ((decode b n1 gen slots ds).1 = 0 -> decode b n1 gen slots ds = decode b n2 gen slots ds).
Proof. unfold decode. destruct (_ || _); [done|]. destruct (loop_exit _ _ _); done. Qed.

Lemma zlen_bank_bytes c slot n : sectors c -> zlen (bank_bytes c slot n) = Z.of_nat n * 512.
Proof.
  intros Hc. unfold bank_bytes. induction n as [|n IH]; [done|].
  rewrite seq_S, flat_map_app, zlen_app, IH. cbn [flat_map]. rewrite app_nil_r, Hc. lia.
Qed.

Lemma bank_bytes_S c slot n :
  bank_bytes c slot (S n) = bank_bytes c slot n ++ c (SF_TXN_BANK + slot * SF_TXN_BANK_SECTORS + Z.of_nat n).
Proof. unfold bank_bytes. rewrite seq_S, flat_map_app. cbn [flat_map]. by rewrite app_nil_r. Qed.

Section Mount.
Context {D : Type} `{DeviceLaws D}.

(** [d'] is [d] after some reads. *)
Definition read_only (d d' : D) : Prop := img d' = img d /\ (forall c, crash d' c -> crash d c).

Lemma read_only_refl d : read_only d d.
Proof. by split. Qed.

Lemma read_only_trans d1 d2 d3 : read_only d1 d2 -> read_only d2 d3 -> read_only d1 d3.
Proof. intros [E1 C1] [E2 C2]. split; [congruence|auto]. Qed.

(** Every read succeeds. *)
Definition no_read_errors : Prop := forall (d : D) s, (dev_read d s).1.1 = 0.

Definition with_buffer (t : SfTxn) (b : list Z) : SfTxn := t <| buffer := b |>.

Lemma read_bank_spec slot t d : zlen (buffer t) = SF_TXN_BUFFER -> sectors (img d) ->
  match read_bank slot t d with
  | Done (r, _, _) => r <> 0 /\ ~ no_read_errors
  | Go (t', d') => t' = with_buffer t (bank_bytes (img d) slot 256) /\ read_only d d'
  end.
Proof.
  intros Hb Hs. unfold read_bank. change (Z.to_nat SF_TXN_BANK_SECTORS) with 256%nat.
  set (body := fun (i : nat) '(t, d) => _).
  set (P := fun (i : nat) (st : SfTxn * D) =>
    st.1 = with_buffer t (bank_bytes (img d) slot i ++ drop (i * 512) (buffer t)) /\ read_only d st.2).
  assert (L : match loop_exit 256 body (t, d) with
              | Done out => out.1.1 <> 0 /\ ~ no_read_errors | Go st => P 256%nat st end).
  { apply (loop_exit_inv P (fun out => out.1.1 <> 0 /\ ~ no_read_errors)).
    - split; [by destruct t|apply read_only_refl].
    - intros i [ti di] Hi [Ht Hd]. simpl in Ht, Hd. subst ti. unfold body.
      destruct (dev_read di _) as [[r blk] d'] eqn:E. pose proof (read_law _ _ _ _ _ E) as (Ei & Ec & Eb).
      destruct (truthy r) eqn:Hr.
      + apply truthy_true in Hr. simpl. split; [done|]. intros Hno.
        specialize (Hno di (SF_TXN_BANK + slot * SF_TXN_BANK_SECTORS + Z.of_nat i)). by rewrite E in Hno.
      + apply truthy_false in Hr. specialize (Eb Hr). split; [|by eapply read_only_trans].
        cbn [fst]. rewrite (proj1 Hd) in Eb.
        transitivity (with_buffer t (blit (Z.of_nat i * 512) blk
          (bank_bytes (img d) slot i ++ drop (i * 512) (buffer t)))); [done|]. f_equal.
        pose proof (zlen_bank_bytes (img d) slot i Hs) as Lb.
        rewrite blit_skip, Lb, Z.sub_diag by lia. rewrite bank_bytes_S, <-app_assoc. f_equal.
        rewrite <-Eb. unfold blit. simpl. f_equal.
        assert (Hl : zlen blk = 512) by (rewrite Eb; apply Hs). unfold zlen in Hl.
        rewrite drop_drop. f_equal. lia. }
  destruct (loop_exit 256 body (t, d)) as [[[r t'] d']|[t' d']]; [done|]. destruct L as [Et Hd].
  cbn [fst snd] in Et, Hd. split; [|exact Hd]. rewrite Et. f_equal. rewrite drop_ge, app_nil_r; [done|].
  unfold zlen in Hb. sflia.
Qed.

Lemma slot_view_decode c vol slot n : record_ok (c (SF_TXN_HEADER + 1 + slot)) vol slot = true ->
  memeq (sf_sha256 (bank_bytes c slot 256)) (slice 40 32 (c (SF_TXN_HEADER + 1 + slot))) 32 = true ->
  let b := bank_bytes c slot 256 in
  let gen := get64 (c (SF_TXN_HEADER + 1 + slot)) 8 in
  let '(r5, n5) := decode b n gen SF_TXN_FILES SF_TXN_DATA in
  let '(r, fs) := if truthy r5 then decode b n5 gen 4 1024 else (r5, n5) in
  slot_view c vol slot = if truthy r then None else Some (gen, fs).
Proof.
  intros Hr Hh. cbv zeta. unfold slot_view. rewrite Hr, Hh. cbn [negb].
  set (b := bank_bytes _ _ _). set (gen := get64 _ 8).
  destruct (decode_next_irrelevant b n [] gen SF_TXN_FILES SF_TXN_DATA) as [E1 E2].
  destruct (decode b n gen SF_TXN_FILES SF_TXN_DATA) as [r5 n5] eqn:H5.
  destruct (decode b [] gen SF_TXN_FILES SF_TXN_DATA) as [r5' n5'] eqn:H5'. simpl in E1, E2. subst r5'.
  unfold truthy. destruct (Z.eqb_spec r5 0) as [->|Hn]; cbn [negb].
  - specialize (E2 eq_refl). injection E2 as ->. done.
  - destruct (decode_next_irrelevant b n5 [] gen 4 1024) as [F1 F2].
    destruct (decode b n5 gen 4 1024) as [r4 n4] eqn:H4.
    destruct (decode b [] gen 4 1024) as [r4' n4'] eqn:H4'. simpl in F1, F2. subst r4'.
    destruct (Z.eqb_spec r4 0) as [->|]; cbn [negb]; [|done]. specialize (F2 eq_refl). congruence.
Qed.

(** One slot of the mount loop is one merge. *)
Lemma mount_slot_spec k t d : zlen (buffer t) = SF_TXN_BUFFER -> sectors (img d) ->
  match mount_slot k (t, d) with
  | Done (r, _, _) => r <> 0 /\ (no_read_errors ->
      merge (Z.of_nat k) (slot_view (img d) (volume t) (Z.of_nat k)) (selected t) = None)
  | Go (t', d') => read_only d d' /\ zlen (buffer t') = SF_TXN_BUFFER /\ volume t' = volume t /\
      merge (Z.of_nat k) (slot_view (img d) (volume t) (Z.of_nat k)) (selected t) = Some (selected t')
  end.
Proof.
  intros Hb Hs. unfold mount_slot. set (slot := Z.of_nat k).
  destruct (dev_read d (SF_TXN_HEADER + 1 + slot)) as [[r s] d1] eqn:E1.
  pose proof (read_law _ _ _ _ _ E1) as (Ei & Ec & Eb).
  destruct (truthy r) eqn:Hr.
  { apply truthy_true in Hr. split; [done|]. intros Hno. specialize (Hno d (SF_TXN_HEADER + 1 + slot)).
    by rewrite E1 in Hno. }
  apply truthy_false in Hr. specialize (Eb Hr). assert (Hro : read_only d d1) by done.
  destruct (record_ok s (volume t) slot) eqn:Hrec; cbn [negb].
  2: { refine (conj Hro (conj Hb (conj eq_refl _))). unfold slot_view. by rewrite <-Eb, Hrec. }
  pose proof (read_bank_spec slot t d1 Hb ltac:(rewrite Ei; done)) as HB. rewrite Ei in HB.
  destruct (read_bank slot t d1) as [[[r' t'] d']|[t1 d2]].
  { destruct HB as [HB1 HB2]. split; [done|]. intros ?. done. }
  destruct HB as [-> Hro2]. assert (Hro' : read_only d d2) by (by eapply read_only_trans).
  set (b := bank_bytes (img d) slot 256) in *. change (buffer (with_buffer t b)) with b.
  assert (Lb : zlen b = SF_TXN_BUFFER) by (unfold b; by rewrite zlen_bank_bytes).
  destruct (memeq (sf_sha256 b) (slice 40 32 s) 32) eqn:Hh; cbn [negb].
  2: { refine (conj Hro' (conj Lb (conj eq_refl _))). unfold slot_view. rewrite <-Eb, Hrec. fold b. by rewrite Hh. }
  pose proof (slot_view_decode (img d) (volume t) slot (next t)) as HV.
  rewrite <-Eb in HV. specialize (HV Hrec Hh). cbv zeta in HV. fold b in HV.
  change (next (with_buffer t b)) with (next t).
  destruct (decode b (next t) (get64 s 8) SF_TXN_FILES SF_TXN_DATA) as [r5 n5].
  destruct (if truthy r5 then _ else _) as [rr fs]. rewrite HV.
  destruct (truthy rr); [exact (conj Hro' (conj Lb (conj eq_refl eq_refl)))|]. cbn [merge selected fst snd].
  change (generation ((with_buffer t b) <| next := fs |>)) with (generation t).
  destruct (get64 s 8 =? generation t); [done|].
  destruct (generation t <? get64 s 8); exact (conj Hro' (conj Lb (conj eq_refl eq_refl))).
Qed.

(** A mount that returns 0 has selected the view of the image; without read
    errors it fails only when the image has no view. *)
Lemma mount_spec t d : zlen (buffer t) = SF_TXN_BUFFER -> sectors (img d) ->
  let '(r, t', d') := sf_txn_mount t d in
  (r = 0 -> ready t' = true /\ read_only d d' /\ zlen (buffer t') = SF_TXN_BUFFER /\
     volume t' = header_volume (img d) /\ view (img d) (bank t) (files t) = Some (selected t')) /\
  (r <> 0 -> no_read_errors -> view (img d) (bank t) (files t) = None).
Proof.
  intros Hb Hs. unfold sf_txn_mount. destruct (dev_read d SF_TXN_HEADER) as [[r s] d1] eqn:E1.
  pose proof (read_law _ _ _ _ _ E1) as (Ei & Ec & Eb).
  destruct (truthy r) eqn:Hr.
  { apply truthy_true in Hr. split; [done|]. intros _ Hno. specialize (Hno d SF_TXN_HEADER).
    by rewrite E1 in Hno. }
  apply truthy_false in Hr. specialize (Eb Hr). assert (Hro : read_only d d1) by done.
  unfold view. rewrite <-Eb. destruct (header_ok s); cbn [negb]; [|done].
  assert (Ev : slice 16 16 s = header_volume (img d)) by (unfold header_volume; by rewrite Eb).
  rewrite Ev. set (vol := header_volume (img d)).
  set (t0 := (t <| ready := false |> <| generation := 0 |>) <| volume := vol |>).
  unfold loop_exit. cbn [exit_from].
  pose proof (mount_slot_spec 0 t0 d1 Hb ltac:(by rewrite Ei)) as M0. rewrite Ei in M0.
  change (volume t0) with vol in M0. change (selected t0) with (0, bank t, files t) in M0.
  change (Z.of_nat 0) with 0 in M0.
  destruct (mount_slot 0 (t0, d1)) as [[[r0 ?] ?]|[t1 d2]].
  { destruct M0 as [Hr0 M0]. split; [done|]. intros _ Hno. by rewrite M0. }
  destruct M0 as (R1 & Hb1 & Hv1 & M0). rewrite M0.
  pose proof (mount_slot_spec 1 t1 d2 Hb1 ltac:(by rewrite (proj1 R1), Ei)) as M1.
  rewrite (proj1 R1), Ei, Hv1 in M1. change (volume t0) with vol in M1. change (Z.of_nat 1) with 1 in M1.
  destruct (mount_slot 1 (t1, d2)) as [[[r1 ?] ?]|[t2 d3]].
  { destruct M1 as [Hr1 M1]. split; [done|]. intros _ Hno. by rewrite M1. }
  destruct M1 as (R2 & Hb2 & Hv2 & M1). rewrite M1. cbn [selected fst].
  destruct (generation t2 =? 0); [done|]. split; [|done]. intros _.
  split; [done|]. split; [by repeat (eapply read_only_trans; [done|])|]. split; [exact Hb2|].
  split; [|done]. change (volume t2 = vol). exact Hv2.
Qed.

End Mount.

(** ** The commit record *)

(** The 480 bytes under the seal. *)
Definition record_body (gen bk : Z) (vol hash : list Z) : list Z :=
  record_magic ++ le_bytes 8 gen ++ le_bytes 4 bk ++ fill 0 4 ++ vol ++ hash ++ fill 0 408.

Lemma zlen_record_body gen bk vol hash : zlen vol = 16 -> zlen hash = 32 ->
  zlen (record_body gen bk vol hash) = 480.
Proof.
  intros. unfold record_body. assert (zlen record_magic = 8) by done. blen.
Qed.

Lemma commit_record_layout gen bk vol hash : zlen vol = 16 -> zlen hash = 32 ->
  commit_record gen bk vol hash =
  record_body gen bk vol hash ++ sf_sha256 (record_body gen bk vol hash).
Proof.
  intros Hv Hh. unfold commit_record, put32, put64. rewrite slice_all by done.
  assert (Hm : zlen record_magic = 8) by done.
  pose proof (zlen_record_body gen bk vol hash Hv Hh) as Lb.
  set (s := blit 40 hash _).
  assert (Es : s = record_body gen bk vol hash ++ fill 0 32).
  { unfold s, record_body. rewrite <-!app_assoc.
    change (fill 0 512) with (fill 0 8 ++ fill 0 8 ++ fill 0 4 ++ fill 0 4 ++ fill 0 16
                              ++ fill 0 32 ++ fill 0 408 ++ fill 0 32). by fields. }
  rewrite Es. clearbody s. unfold seal. pose proof (zlen_sha256 (record_body gen bk vol hash)).
  rewrite (slice_head 0 480) by done. by fields.
Qed.

Section Record.
Variables (gen bk : Z) (vol hash : list Z).
Hypothesis gen_ok : 0 < gen <= UINT64_MAX.
Hypothesis bk_ok : bk = 0 \/ bk = 1.
Hypothesis vol_len : zlen vol = 16.
Hypothesis hash_len : zlen hash = 32.

Lemma zlen_commit_record : zlen (commit_record gen bk vol hash) = 512.
Proof.
  rewrite commit_record_layout, zlen_app, zlen_record_body, zlen_sha256 by done. done.
Qed.

Lemma commit_record_slice off n : 0 <= off -> 0 <= n -> off + n <= 480 ->
  slice off n (commit_record gen bk vol hash) = slice off n (record_body gen bk vol hash).
Proof.
  intros. rewrite commit_record_layout by done. apply slice_app_l; rewrite ?zlen_record_body by done; lia.
Qed.

Lemma commit_record_gen : get64 (commit_record gen bk vol hash) 8 = gen.
Proof.
  unfold get64. rewrite commit_record_slice by lia. unfold record_body.
  assert (Hm : zlen record_magic = 8) by done. fields. apply le_val_bytes. sflia.
Qed.

Lemma commit_record_hash : slice 40 32 (commit_record gen bk vol hash) = hash.
Proof.
  rewrite commit_record_slice by lia. unfold record_body.
  assert (Hm : zlen record_magic = 8) by done. by fields.
Qed.

Lemma commit_record_ok : record_ok (commit_record gen bk vol hash) vol bk = true.
Proof.
  pose proof zlen_commit_record as L. assert (Hm : zlen record_magic = 8) by done.
  unfold record_ok. rewrite commit_record_gen.
  assert (E1 : memeq (commit_record gen bk vol hash) record_magic 8 = true).
  { apply memeq_spec; [lia..|]. rewrite commit_record_slice by lia. unfold record_body. by fields. }
  assert (E2 : sealed (commit_record gen bk vol hash) = true).
  { unfold sealed. apply memeq_slice; [apply zlen_sha256|lia|lia|].
    rewrite (commit_record_slice 0 480) by lia. rewrite (slice_all (record_body _ _ _ _)) by (by rewrite zlen_record_body).
    rewrite commit_record_layout by done. pose proof (zlen_record_body gen bk vol hash vol_len hash_len).
    pose proof (zlen_sha256 (record_body gen bk vol hash)). by fields. }
  assert (E3 : get32 (commit_record gen bk vol hash) 16 = bk).
  { unfold get32. rewrite commit_record_slice by lia. unfold record_body. fields.
    apply le_val_bytes. destruct bk_ok as [-> | ->]; sflia. }
  assert (E4 : get32 (commit_record gen bk vol hash) 20 = 0).
  { unfold get32. rewrite commit_record_slice by lia. unfold record_body. by fields. }
  assert (E5 : memeq (drop (Z.to_nat 24) (commit_record gen bk vol hash)) vol 16 = true).
  { apply memeq_spec; [lia|rewrite zlen_drop; lia|lia|]. rewrite slice_drop by lia.
    rewrite commit_record_slice by lia. unfold record_body. rewrite (slice_all vol) by done. by fields. }
  assert (E6 : zero (drop (Z.to_nat 72) (commit_record gen bk vol hash)) 408 = true).
  { apply zero_slice; [lia..|]. rewrite commit_record_slice by lia. unfold record_body. by fields. }
  rewrite E1, E2, E3, E4, E5, E6, Z.eqb_refl. unfold truthy.
  rewrite (proj2 (Z.eqb_neq gen 0)) by lia. done.
Qed.
End Record.

Lemma zero_record_rejected vol slot : record_ok (fill 0 512) vol slot = false.
Proof. unfold record_ok. by replace (memeq (fill 0 512) record_magic 8) with false by (vm_compute; done). Qed.

(** ** The device phase of a commit *)

Definition rec_sector (bk : Z) : Z := SF_TXN_HEADER + 1 + bk.
Definition in_bank (bk s : Z) : Prop :=
  SF_TXN_BANK + bk * SF_TXN_BANK_SECTORS <= s < SF_TXN_BANK + (bk + 1) * SF_TXN_BANK_SECTORS.

(** [c] differs from [c0] at most in the bank [bk]. *)
Definition outside (bk : Z) (c0 c : image) : Prop := forall s, ~ in_bank bk s -> c s = c0 s.

(** [c] differs from [c0] at most in the bank [bk] and its record, which is [r]. *)
Definition touched (bk : Z) (r : list Z) (c0 c : image) : Prop :=
  c (rec_sector bk) = r /\ sectors c /\
  forall s, s <> rec_sector bk -> ~ in_bank bk s -> c s = c0 s.

Lemma sector_same c s blk : upd c s blk s = blk.
Proof. unfold upd. by rewrite Z.eqb_refl. Qed.

Lemma sector_other c s blk x : x <> s -> upd c s blk x = c x.
Proof. intros. unfold upd. by rewrite (proj2 (Z.eqb_neq x s)). Qed.

Lemma sectors_upd c s blk : sectors c -> zlen blk = 512 -> sectors (upd c s blk).
Proof. intros Hc Hb x. unfold upd. by destruct (x =? s). Qed.

Lemma bank_bytes_ext c c' slot n :
  (forall i, (i < n)%nat -> c (SF_TXN_BANK + slot * SF_TXN_BANK_SECTORS + Z.of_nat i)
                          = c' (SF_TXN_BANK + slot * SF_TXN_BANK_SECTORS + Z.of_nat i)) ->
  bank_bytes c slot n = bank_bytes c' slot n.
Proof.
  intros Hx. unfold bank_bytes. rewrite !flat_map_concat_map. f_equal. apply map_ext_in.
  intros i Hi. apply in_seq in Hi. apply Hx. lia.
Qed.

Section Publish.
Context {D : Type} `{DeviceLaws D}.

(** Everything written is durable. *)
Definition clean (d : D) (c : image) : Prop := img d = c /\ forall c', crash d c' -> c' = c.

Lemma write_flush_spec d c s blk : clean d c ->
  match write_flush d s blk with
  | Done d' => forall c', crash d' c' -> c' = c \/ c' = upd c s blk
  | Go d' => clean d' (upd c s blk)
  end.
Proof.
  intros [Ei Ec]. unfold write_flush. destruct (dev_write d s blk) as [r d1] eqn:E1.
  destruct (write_law _ _ _ _ _ E1) as [W1 W2].
  assert (Hc1 : forall c', crash d1 c' -> c' = c \/ c' = upd c s blk).
  { intros c' Hc. destruct (W1 c' Hc) as [H1|(c0 & H1 & ->)]; [left; auto|right].
    by rewrite (Ec c0 H1). }
  destruct (truthy r) eqn:Hr; [done|]. apply truthy_false in Hr. specialize (W2 Hr).
  destruct (dev_flush d1) as [r2 d2] eqn:E2. destruct (flush_law _ _ _ E2) as [F1 F2].
  unfold truthy. destruct (Z.eqb_spec r2 0) as [->|Hn]; cbn [negb].
  - split; [rewrite F2 by done; by rewrite W2, Ei|]. intros c' Hc. specialize (F1 c' Hc).
    cbn in F1. by rewrite F1, W2, Ei.
  - intros c' Hc. specialize (F1 c' Hc). cbn in F1. auto.
Qed.

Lemma write_bank_spec bk b d c : clean d c -> sectors c -> zlen b = SF_TXN_BUFFER ->
  match write_bank bk b d with
  | Done d' => forall c', crash d' c' -> outside bk c c' /\ sectors c'
  | Go d' => outside bk c (img d') /\ sectors (img d') /\ bank_bytes (img d') bk 256 = b /\
             forall c', crash d' c' -> outside bk c c' /\ sectors c'
  end.
Proof.
  intros [Ei Ec] Hs Hb. unfold write_bank. change (Z.to_nat SF_TXN_BANK_SECTORS) with 256%nat.
  set (body := fun (i : nat) (d : D) => _).
  set (Q := fun d' : D => forall c', crash d' c' -> outside bk c c' /\ sectors c').
  set (P := fun (i : nat) (d' : D) => outside bk c (img d') /\ sectors (img d') /\
              bank_bytes (img d') bk i = slice 0 (Z.of_nat i * 512) b /\ Q d').
  assert (L : match loop_exit 256 body d with Done d' => Q d' | Go d' => P 256%nat d' end).
  { apply (loop_exit_inv P Q).
    - unfold P. rewrite Ei. split; [by intros ?|]. split; [done|]. split; [done|].
      intros c' Hc. by rewrite (Ec c' Hc).
    - intros i di Hi (Po & Ps & Pb & Pq). unfold body.
      set (sec := SF_TXN_BANK + bk * SF_TXN_BANK_SECTORS + Z.of_nat i).
      set (blk := slice (Z.of_nat i * 512) 512 b).
      assert (Hblk : zlen blk = 512) by (apply zlen_slice; sflia).
      assert (Hin : in_bank bk sec) by (unfold in_bank, sec; sflia).
      destruct (dev_write di sec blk) as [r d1] eqn:E1. destruct (write_law _ _ _ _ _ E1) as [W1 W2].
      assert (Hq : Q d1).
      { intros c' Hc. destruct (W1 c' Hc) as [H1|(c1 & H1 & ->)]; [by apply Pq|].
        destruct (Pq c1 H1) as [O1 S1]. split; [|by apply sectors_upd].
        intros s Hns. rewrite sector_other; [by apply O1|]. intros ->. done. }
      destruct (truthy r) eqn:Hr; [done|]. apply truthy_false in Hr. specialize (W2 Hr).
      unfold P. rewrite W2. split; [|split; [by apply sectors_upd|split; [|done]]].
      + intros s Hns. rewrite sector_other; [by apply Po|]. intros ->. done.
      + rewrite bank_bytes_S. fold sec. rewrite sector_same.
        rewrite (bank_bytes_ext _ (img di)) by (intros j Hj; apply sector_other; unfold sec; lia).
        rewrite Pb. unfold blk. replace (Z.of_nat (S i) * 512) with (Z.of_nat i * 512 + 512) by lia.
        rewrite slice_split by lia. done. }
  destruct (loop_exit 256 body d); [exact L|]. destruct L as (L1 & L2 & L3 & L4).
  split; [done|]. split; [done|]. split; [|done]. rewrite L3. by apply slice_all.
Qed.

(** Which images a power cut during a commit can leave, and which image a
    completed commit leaves. *)
Lemma publish_spec gen bk vol b d c : clean d c -> sectors c -> zlen b = SF_TXN_BUFFER ->
  0 <= bk <= 1 -> zlen vol = 16 ->
  let new := commit_record gen bk vol (sf_sha256 b) in
  match publish gen bk vol b d with
  | Done d' => forall c', crash d' c' ->
      c' = c \/ touched bk (fill 0 512) c c' \/ (touched bk new c c' /\ bank_bytes c' bk 256 = b)
  | Go d' => exists c', clean d' c' /\ touched bk new c c' /\ bank_bytes c' bk 256 = b
  end.
Proof.
  intros Hc Hs Hb Hbk Hv new.
  assert (Hnew : zlen new = 512) by (apply zlen_commit_record; [done|apply zlen_sha256]).
  assert (Hnr : forall bk', 0 <= bk' <= 1 -> ~ in_bank bk (rec_sector bk'))
    by (intros bk' Hb'; unfold in_bank, rec_sector; sflia).
  unfold publish. fold (rec_sector bk).
  pose proof (write_flush_spec d c (rec_sector bk) (fill 0 512) Hc) as W1.
  set (c1 := upd c (rec_sector bk) (fill 0 512)) in *.
  assert (Hs1 : sectors c1) by (by apply sectors_upd).
  assert (Ht1 : forall x, outside bk c1 x -> sectors x -> touched bk (fill 0 512) c x).
  { intros x Ho Hx. split; [|split; [done|]].
    - rewrite Ho by (apply Hnr; lia). apply sector_same.
    - intros s H1 H2. rewrite Ho by done. by apply sector_other. }
  destruct (write_flush d (rec_sector bk) (fill 0 512)) as [d1|d1].
  { intros x Hx. destruct (W1 x Hx) as [->| ->]; [by left|]. right; left. by apply Ht1. }
  pose proof (write_bank_spec bk b d1 c1 W1 Hs1 Hb) as W2.
  destruct (write_bank bk b d1) as [d2|d2].
  { intros x Hx. destruct (W2 x Hx) as [Ho Hx']. right; left. by apply Ht1. }
  destruct W2 as (O2 & S2 & B2 & C2).
  destruct (dev_flush d2) as [r d3] eqn:E3. destruct (flush_law _ _ _ E3) as [F1 F2].
  unfold truthy. destruct (Z.eqb_spec r 0) as [->|Hn]; cbn [negb].
  2: { intros x Hx. specialize (F1 x Hx). cbn in F1. destruct (C2 x F1). right; left. by apply Ht1. }
  set (c2 := img d2) in *.
  assert (Hc2 : clean d3 c2) by (split; [by apply F2|]; intros x Hx; exact (F1 x Hx)).
  assert (Ht2 : touched bk new c (upd c2 (rec_sector bk) new) /\
                bank_bytes (upd c2 (rec_sector bk) new) bk 256 = b).
  { split; [split; [apply sector_same|split; [by apply sectors_upd|]]|].
    - intros s H1 H2. rewrite sector_other by done. by apply (Ht1 c2).
    - rewrite <-B2. apply bank_bytes_ext. intros i Hi. apply sector_other.
      unfold rec_sector. sflia. }
  pose proof (write_flush_spec d3 c2 (rec_sector bk) new Hc2) as W3. fold new.
  destruct (write_flush d3 (rec_sector bk) new) as [d4|d4].
  - intros x Hx. destruct (W3 x Hx) as [->| ->]; [right; left; by apply Ht1|]. right; right. done.
  - exists (upd c2 (rec_sector bk) new). done.
Qed.
End Publish.

(** ** Views of touched images *)

Lemma slot_view_ext c c' vol slot :
  c (rec_sector slot) = c' (rec_sector slot) -> (forall s, in_bank slot s -> c s = c' s) ->
  slot_view c vol slot = slot_view c' vol slot.
Proof.
  intros Hr Hb. unfold slot_view. fold (rec_sector slot). rewrite Hr.
  rewrite (bank_bytes_ext c c'); [done|]. intros i Hi. apply Hb. unfold in_bank. sflia.
Qed.

Section Touched.
Variables (bk : Z) (r : list Z) (c c' : image).
Hypothesis bk_ok : 0 <= bk <= 1.
Hypothesis touch : touched bk r c c'.

Lemma touched_header : c' SF_TXN_HEADER = c SF_TXN_HEADER.
Proof. destruct touch as (_ & _ & Ht). apply Ht; unfold rec_sector, in_bank; sflia. Qed.

(** The other slot is as before. *)
Lemma touched_other vol : slot_view c' vol (1 - bk) = slot_view c vol (1 - bk).
Proof.
  destruct touch as (_ & _ & Ht). apply slot_view_ext.
  - apply Ht; unfold rec_sector, in_bank; sflia.
  - intros s Hs. apply Ht; unfold rec_sector, in_bank in *; sflia.
Qed.
End Touched.

Lemma slot_view_invalid c vol bk : c (rec_sector bk) = fill 0 512 -> slot_view c vol bk = None.
Proof. intros Hr. unfold slot_view. fold (rec_sector bk). by rewrite Hr, zero_record_rejected. Qed.

Lemma slot_view_new c vol bk gen fs k : 0 <= bk <= 1 -> 0 < gen <= UINT64_MAX -> zlen vol = 16 ->
  files_wf k fs ->
  c (rec_sector bk) = commit_record gen bk vol (sf_sha256 (encode_bank fs gen)) ->
  bank_bytes c bk 256 = encode_bank fs gen -> slot_view c vol bk = Some (gen, fs).
Proof.
  intros Hbk Hg Hv Hwf Hr Hb. unfold slot_view. fold (rec_sector bk). rewrite Hr, Hb.
  rewrite commit_record_ok by (done || lia || apply zlen_sha256).
  rewrite commit_record_gen, commit_record_hash, memeq_refl by (done || lia || apply zlen_sha256).
  cbn [negb]. destruct (encode_bank_holds fs k gen Hwf ltac:(sflia)) as [Hl Hh].
  change SF_TXN_FILES with 5%nat. rewrite (decode_complete _ 5 SF_TXN_DATA Hl geometry_5 [] gen fs Hh). done.
Qed.

Lemma merge_inv slot v s s' : merge slot v s = Some s' ->
  s' = s \/ exists g fs, v = Some (g, fs) /\ s' = (g, slot, fs) /\ s.1.1 < g.
Proof.
  destruct v as [[g fs]|]; cbn [merge]; [|intros [= <-]; by left].
  destruct (g =? s.1.1); [done|]. destruct (Z.ltb_spec s.1.1 g); intros [= <-]; [|by left].
  right. eauto.
Qed.

(** A selected slot is one of the two, with a positive generation. *)
Lemma view_inv c bk0 fs0 g b fs : view c bk0 fs0 = Some (g, b, fs) ->
  header_ok (c SF_TXN_HEADER) = true /\ 0 < g /\ (b = 0 \/ b = 1) /\
  slot_view c (header_volume c) b = Some (g, fs).
Proof.
  unfold view. destruct (header_ok _); cbn [negb]; [|done].
  destruct (merge 0 _ _) as [s1|] eqn:M0; [|done]. destruct (merge 1 _ s1) as [s2|] eqn:M1; [|done].
  destruct (Z.eqb_spec s2.1.1 0) as [|Hn]; [done|]. intros [= ->]. cbn in Hn.
  apply merge_inv in M0. apply merge_inv in M1.
  destruct M1 as [<-|(g1 & f1 & V1 & E1 & L1)].
  - destruct M0 as [E0|(g0 & f0 & V0 & E0 & L0)]; [by inversion E0|].
    injection E0 as -> -> ->. auto.
  - injection E1 as -> -> ->. split; [done|]. split; [|auto].
    destruct M0 as [->|(g0 & f0 & _ & -> & L0)]; cbn in *; lia.
Qed.

Lemma view_single c bk0 fs0 g b fs : header_ok (c SF_TXN_HEADER) = true -> 0 < g -> (b = 0 \/ b = 1) ->
  slot_view c (header_volume c) b = Some (g, fs) -> slot_view c (header_volume c) (1 - b) = None ->
  view c bk0 fs0 = Some (g, b, fs).
Proof.
  intros Hh Hg Hb H1 H2. unfold view. rewrite Hh. cbn [negb].
  destruct Hb as [-> | ->]; change (1 - 0) with 1 in *; change (1 - 1) with 0 in *; rewrite H1, H2; cbn [merge fst];
    rewrite (proj2 (Z.eqb_neq g 0)), (proj2 (Z.ltb_lt 0 g)) by lia; cbn [merge fst];
    by rewrite (proj2 (Z.eqb_neq g 0)) by lia.
Qed.

Lemma view_pair c bk0 fs0 g b fs g' fs' : header_ok (c SF_TXN_HEADER) = true -> 0 < g < g' ->
  (b = 0 \/ b = 1) -> slot_view c (header_volume c) (1 - b) = Some (g, fs) ->
  slot_view c (header_volume c) b = Some (g', fs') -> view c bk0 fs0 = Some (g', b, fs').
Proof.
  intros Hh Hg Hb H1 H2. unfold view. rewrite Hh. cbn [negb].
  destruct Hb as [-> | ->]; change (1 - 0) with 1 in *; change (1 - 1) with 0 in *; rewrite H1, H2; cbn [merge fst].
  - rewrite (proj2 (Z.eqb_neq g' 0)), (proj2 (Z.ltb_lt 0 g')) by lia. cbn [merge fst].
    rewrite (proj2 (Z.eqb_neq g g')), (proj2 (Z.ltb_ge g' g)) by lia. cbn [fst].
    by rewrite (proj2 (Z.eqb_neq g' 0)) by lia.
  - rewrite (proj2 (Z.eqb_neq g 0)), (proj2 (Z.ltb_lt 0 g)) by lia. cbn [merge fst].
    rewrite (proj2 (Z.eqb_neq g' g)), (proj2 (Z.ltb_lt g g')) by lia. cbn [fst].
    by rewrite (proj2 (Z.eqb_neq g' 0)) by lia.
Qed.

(** The view does not depend on what the mount structure held before. *)
Lemma view_indep c bk0 fs0 bk1 fs1 s : view c bk0 fs0 = Some s -> view c bk1 fs1 = Some s.
Proof.
  unfold view. destruct (header_ok _); cbn [negb]; [|done].
  destruct (slot_view c _ 0) as [[g0 f0]|]; cbn [merge fst].
  - destruct (g0 =? 0); [done|]. destruct (0 <? g0); [done|].
    destruct (slot_view c _ 1) as [[g1 f1]|]; cbn [merge fst]; [|done].
    destruct (g1 =? 0); [done|]. by destruct (0 <? g1).
  - destruct (slot_view c _ 1) as [[g1 f1]|]; cbn [merge fst]; [|done].
    destruct (g1 =? 0); [done|]. by destruct (0 <? g1).
Qed.

(** ** Rebooting from an image *)

(** After a power cut the medium is read through a device that holds exactly
    the surviving image. *)
#[export] Instance image_device : BlockDevice image := {|
  dev_read := fun c s => (0, c s, c);
  dev_write := fun c s blk => (0, upd c s blk);
  dev_flush := fun c => (0, c)
|}.

#[export, refine] Instance image_laws : DeviceLaws image := {|
  img := fun c => c; crash := fun c c' => c' = c
|}.
Proof.
  - intros d s r blk d' [= <- <- <-]. done.
  - intros d s blk r d' [= <- <-]. split; [|done]. intros c ->. right. by exists d.
  - intros d r d' [= <- <-]. done.
Defined.

(** Mounting [c] after a reboot succeeds with the snapshot [s]. *)
Definition reboots (c : image) (s : selection) : Prop :=
  forall t0, zlen (buffer t0) = SF_TXN_BUFFER ->
  exists t1, sf_txn_mount t0 c = (0, t1, c) /\ ready t1 = true /\ selected t1 = s /\
             volume t1 = header_volume c.

Lemma view_reboots c s bk0 fs0 : sectors c -> view c bk0 fs0 = Some s -> reboots c s.
Proof.
  intros Hs Hv t0 Hb. pose proof (mount_spec t0 c Hb Hs) as M.
  apply (view_indep _ _ _ (bank t0) (files t0)) in Hv.
  destruct (sf_txn_mount t0 c) as [[r t1] d1]. destruct M as [M1 M2]. change (img c) with c in *.
  destruct (decide (r = 0)) as [->|Hn].
  - destruct (M1 eq_refl) as (Hr & [Hd _] & _ & Hvol & Hv'). exists t1.
    change (d1 = c) in Hd. subst d1. rewrite Hv in Hv'. injection Hv' as Es. done.
  - specialize (M2 Hn (fun _ _ => eq_refl)). congruence.
Qed.

(** ** The commit theorem *)

Section Commit.
Context {D : Type} `{DeviceLaws D}.

(** [t] is mounted on [d]: the medium is durable and holds exactly [t]. *)
Definition mounted (t : SfTxn) (d : D) : Prop :=
  ready t = true /\ generation t <= UINT64_MAX /\ zlen (volume t) = 16 /\
  zlen (buffer t) = SF_TXN_BUFFER /\ (exists k, files_wf k (files t)) /\
  exists c, clean d c /\ sectors c /\ volume t = header_volume c /\
            view c (bank t) (files t) = Some (selected t).

Lemma lxor_bank b : (b = 0 \/ b = 1) -> Z.lxor b 1 = 1 - b.
Proof. by intros [-> | ->]. Qed.

Section Images.
Variables (c c' : image) (g b : Z) (fs fs' : list SfTxnFile) (k' : nat).
Hypothesis c_sectors : sectors c.
Hypothesis old : view c b fs = Some (g, b, fs).
Hypothesis g_lt : g < UINT64_MAX.
Hypothesis vol_len : zlen (header_volume c) = 16.
Hypothesis new_wf : files_wf k' fs'.

(** An invalidated target record leaves the old snapshot selected. *)
Lemma view_partial : touched (1 - b) (fill 0 512) c c' -> view c' b fs = Some (g, b, fs).
Proof.
  intros Ht. apply view_inv in old as (Hh & Hg & Hb & Hv).
  assert (Hbk : 0 <= 1 - b <= 1) by lia.
  pose proof (touched_header _ _ _ _ Hbk Ht) as Eh.
  assert (Ev : header_volume c' = header_volume c) by (unfold header_volume; by rewrite Eh).
  apply view_single; [by rewrite Eh|done|done|rewrite Ev|].
  - rewrite <-Hv. pose proof (touched_other _ _ _ _ Hbk Ht (header_volume c)) as E.
    by replace (1 - (1 - b)) with b in E by lia.
  - apply slot_view_invalid. apply Ht.
Qed.

(** A published record selects the new snapshot. *)
Lemma view_complete :
  touched (1 - b) (commit_record (g + 1) (1 - b) (header_volume c) (sf_sha256 (encode_bank fs' (g + 1)))) c c' ->
  bank_bytes c' (1 - b) 256 = encode_bank fs' (g + 1) ->
  header_volume c' = header_volume c /\ view c' (1 - b) fs' = Some (g + 1, 1 - b, fs').
Proof.
  intros Ht Hbb. apply view_inv in old as (Hh & Hg & Hb & Hv).
  assert (Hbk : 0 <= 1 - b <= 1) by lia.
  pose proof (touched_header _ _ _ _ Hbk Ht) as Eh.
  assert (Ev : header_volume c' = header_volume c) by (unfold header_volume; by rewrite Eh).
  split; [done|]. apply (view_pair _ _ _ g (1 - b) fs); [by rewrite Eh|lia|lia|rewrite Ev..].
  - rewrite <-Hv. pose proof (touched_other _ _ _ _ Hbk Ht (header_volume c)) as E.
    by replace (1 - (1 - b)) with b in * by lia.
  - apply (slot_view_new _ _ _ _ _ k'); try done; [lia|]. apply Ht.
Qed.
End Images.

Lemma stage_errors fs paths data bytes count r n :
  loop_exit count (stage_one paths data bytes) fs = Done (r, n) -> r = SF_INVALID \/ r = SF_NO_SPACE.
Proof.
  intros E. pose proof (loop_exit_inv (fun _ _ => True)
    (fun out : Z * list SfTxnFile => out.1 = SF_INVALID \/ out.1 = SF_NO_SPACE)
    (stage_one paths data bytes) count fs I) as L. rewrite E in L. apply L.
  intros j g _ _. unfold stage_one. repeat case_match; simplify_eq; auto.
Qed.

Lemma commit_ok_staged t paths data bytes count d t' d' : ready t = true ->
  sf_txn_commit t paths data bytes count d = (0, t', d') ->
  exists fs', staged (files t) paths data bytes count = Some fs' /\ files t' = fs' /\ ready t' = true.
Proof.
  intros Hr. unfold sf_txn_commit, staged. rewrite Hr. cbn [negb].
  destruct (_ || _); [done|]. destruct (loop_exit _ _ _) as [[e n]|fs'] eqn:Est.
  - intros [= -> <- <-]. by destruct (stage_errors _ _ _ _ _ _ _ Est).
  - destruct (publish _ _ _ _ _); intros [= <- <-]. eauto.
Qed.

(** C1. Commits are atomic under power loss.  On every device that tears no
    sector and honours flushes, a commit that reaches the device either returns 0
    and leaves exactly the new snapshot durable, or returns
    SF_COMMIT_UNCERTAIN, and then every image a power cut may leave mounts to
    the complete old or the complete new snapshot.  A commit refused before that
    leaves the device and the mounted snapshot alone. *)
Theorem txn_commit_crash_safe t d paths data bytes count r t' d' :
  mounted t d -> args_ok data bytes ->
  sf_txn_commit t paths data bytes count d = (r, t', d') ->
  (r = 0 /\ mounted t' d' /\ exists fs', staged (files t) paths data bytes count = Some fs' /\
     selected t' = (generation t + 1, Z.lxor (bank t) 1, fs') /\
     forall c, crash d' c -> reboots c (selected t')) \/
  (r = SF_COMMIT_UNCERTAIN /\ ready t' = false /\
     exists fs', staged (files t) paths data bytes count = Some fs' /\
     forall c, crash d' c ->
       reboots c (selected t) \/ reboots c (generation t + 1, Z.lxor (bank t) 1, fs')) \/
  ((r = SF_INVALID \/ r = SF_NO_SPACE) /\ d' = d /\ selected t' = selected t /\ mounted t' d').
Proof.
  intros Hm Ha. pose proof Hm as (Hr & Hg & Hvl & Hbl & Hwf & c & Hc & Hs & Hvol & Hv).
  unfold sf_txn_commit. rewrite Hr. cbn [negb].
  destruct (_ || _) eqn:Hguard; [intros [= <- <- <-]; right; right; auto|].
  apply orb_false_iff in Hguard as [_ Hgm]. apply Z.eqb_neq in Hgm.
  destruct (loop_exit count (stage_one paths data bytes) (files t)) as [[e n]|fs'] eqn:Est.
  { intros [= <- <- <-]. right; right. split; [by eapply stage_errors|]. done. }
  assert (Hst : staged (files t) paths data bytes count = Some fs') by (unfold staged; by rewrite Est).
  destruct (staged_spec _ _ _ _ _ _ Ha Hwf Hst) as ([k' Hwf'] & _ & _).
  pose proof (view_inv _ _ _ _ _ _ Hv) as (_ & Hg0 & Hb01 & _).
  set (g := generation t) in *. set (b := bank t) in *. set (fs := files t) in *.
  change (selected t) with (g, b, fs) in *. rewrite (lxor_bank b Hb01). cbn zeta.
  match goal with |- context [publish _ _ ?v _ _] => change v with (volume t) end.
  rewrite Hvol in *.
  destruct (encode_bank_holds fs' k' (g + 1) Hwf' ltac:(sflia)) as [Hel _].
  pose proof (publish_spec (g + 1) (1 - b) (header_volume c) (encode_bank fs' (g + 1)) d c
                Hc Hs Hel ltac:(lia) Hvl) as HP. cbv zeta in HP.
  destruct (publish _ _ _ _ d) as [d1|d1]; intros [= <- <- <-].
  - right; left. split; [done|]. split; [done|]. exists fs'. split; [done|].
    intros x Hx. destruct (HP x Hx) as [->|[Ht|[Ht Hb]]].
    + left. by eapply view_reboots.
    + left. eapply view_reboots; [apply Ht|]. by eapply view_partial.
    + right. eapply view_reboots; [apply Ht|]. eapply view_complete; try done. lia.
  - left. destruct HP as (x & Hcx & Htx & Hbx).
    destruct (view_complete c x g b fs fs' k' Hv ltac:(lia) Hvl Hwf' Htx Hbx) as [Evx Hvx].
    split; [done|]. split.
    + split; [done|]. split; [cbn; lia|]. split; [cbn; by rewrite Hvol|]. split; [done|].
      split; [by exists k'|]. exists x. split; [done|]. split; [apply Htx|]. split; [cbn; congruence|done].
    + exists fs'. split; [done|]. split; [done|]. intros y Hy. destruct Hcx as [_ Hcx]. rewrite (Hcx y Hy).
      eapply view_reboots; [apply Htx|exact Hvx].
Qed.
(** C6. What was committed is what is read: after a successful commit every
    written path reads back its new bytes and every other path reads as before. *)
Theorem txn_commit_get t d paths data bytes count t' d' :
  mounted t d -> args_ok data bytes ->
  sf_txn_commit t paths data bytes count d = (0, t', d') ->
  (forall n capacity, (n < count)%nat -> nth n bytes 0 <= capacity ->
     sf_txn_get t' (nth n paths []) capacity = (nth n bytes 0, slice 0 (nth n bytes 0) (nth n data []))) /\
  (forall q capacity, cstr q <> [] -> (forall n, (n < count)%nat -> cstr q <> cstr (nth n paths [])) ->
     sf_txn_get t' q capacity = sf_txn_get t q capacity).
Proof.
  intros Hm Ha Hc. pose proof Hm as (Hr & _ & _ & _ & Hwf & _).
  destruct (commit_ok_staged _ _ _ _ _ _ _ _ Hr Hc) as (fs' & Hst & Ef & Hr').
  destruct (staged_spec _ _ _ _ _ _ Ha Hwf Hst) as (Hwf' & Hnew & Hold). rewrite <-Ef in *.
  split.
  - intros n cap Hn Hcap. destruct (Hnew n Hn) as [Hp El].
    rewrite get_lookup, El by (done || by apply path_ok_cstr_nonempty).
    specialize (Ha n). rewrite zlen_slice by lia. destruct (Z.ltb_spec cap (nth n bytes 0)); [lia|done].
  - intros q cap Hq Hqn. rewrite !get_lookup by done. by rewrite Hold.
Qed.

(** The scratch buffer a resize hands to the commit. *)
Definition resize_scratch (t : SfTxn) (path : list Z) (bytes : Z) : list Z :=
  let b := blit 0 (fill 0 bytes) (buffer t) in
  match find_index (fun i => streq (f_path (files t !!! i)) path) SF_TXN_FILES with
  | Some i => blit 0 (slice 0 (Z.min (f_bytes (files t !!! i)) bytes) (f_data (files t !!! i))) b
  | None => b
  end.

Lemma scratch_prefix n x buf : zlen x <= n -> n <= zlen buf ->
  zlen (blit 0 x (blit 0 (fill 0 n) buf)) = zlen buf /\
  slice 0 n (blit 0 x (blit 0 (fill 0 n) buf)) = x ++ fill 0 (n - zlen x).
Proof.
  intros Hx Hn. pose proof (zlen_nonneg x). split; [blen|].
  rewrite slice_blit_within by blen. rewrite slice_blit_same by blen. by apply blit_zero_prefix.
Qed.

Lemma resize_scratch_spec t path bytes : (exists k, files_wf k (files t)) -> cstr path <> [] ->
  zlen (buffer t) = SF_TXN_BUFFER -> 0 <= bytes <= SF_TXN_FILE_BYTES ->
  let old := default [] (lookup_file (files t) path) in
  bytes <= zlen (resize_scratch t path bytes) /\
  slice 0 bytes (resize_scratch t path bytes) = slice 0 bytes old ++ fill 0 (bytes - zlen old).
Proof.
  intros [k Hwf] Hp Hb Hn old. unfold old, lookup_file, resize_scratch.
  destruct (find_index _ _) as [i|] eqn:E.
  - change (default [] (Some ?x)) with x. apply find_index_Some in E as (Hi & Hs & _). apply streq_spec in Hs.
    pose proof (path_slot k _ Hwf path i Hp Hi Hs) as Hik. destruct Hwf as (_ & _ & Hw & _).
    destruct (file_wf_lens _ (Hw i Hik)) as [_ Ld]. destruct (Hw i Hik) as (_ & _ & Fb & Fd & Fc).
    set (f := files t !!! i) in *. set (m := Z.min (f_bytes f) bytes).
    assert (Lx : zlen (slice 0 m (f_data f)) = m) by (apply zlen_slice; lia).
    destruct (scratch_prefix bytes (slice 0 m (f_data f)) (buffer t)) as [L1 L2]; [lia|sflia|].
    split; [sflia|]. rewrite L2, Lx, Fc. unfold content, m.
    destruct (Z.le_gt_cases bytes (f_bytes f)).
    + rewrite Z.min_r, slice_slice by lia. unfold fill. do 2 f_equal. lia.
    + rewrite Z.min_l by lia. f_equal. symmetry. apply slice_beyond. fold (content f). lia.
  - destruct (scratch_prefix bytes [] (buffer t)) as [L1 L2]; [rewrite zlen_nil; lia|sflia|].
    change (blit 0 [] (blit 0 (fill 0 bytes) (buffer t))) with (blit 0 (fill 0 bytes) (buffer t)) in *.
    split; [sflia|]. rewrite L2. change (default [] None) with (@nil Z). by rewrite slice_beyond by (rewrite zlen_nil; lia).
Qed.

(** C8. Resizing keeps the common prefix and pads with zeros: when the new size
    differs from the current one (0 for an absent file), a successful resize
    stores the old contents cut or zero-extended to the new size and leaves
    every other file alone. *)
Theorem txn_resize_contents t d path bytes t' d' :
  mounted t d -> 0 <= bytes ->
  let old := default [] (lookup_file (files t) path) in
  zlen old <> bytes -> sf_txn_resize t path bytes d = (0, t', d') ->
  lookup_file (files t') path = Some (slice 0 bytes old ++ fill 0 (bytes - zlen old)) /\
  forall q, cstr q <> [] -> cstr q <> cstr path -> lookup_file (files t') q = lookup_file (files t) q.
Proof.
  intros Hm Hb old Hne. pose proof Hm as (Hr & _ & _ & Hbl & Hwf & _).
  unfold sf_txn_resize. rewrite Hr. cbn [negb].
  destruct (path_ok path) eqn:Hp; [|done]. destruct (Z.ltb_spec SF_TXN_FILE_BYTES bytes) as [|Hle]; [done|].
  cbn [negb]. pose proof (path_ok_cstr_nonempty path Hp) as Hpn.
  set (b := match find_index _ _ with Some _ => _ | None => _ end).
  assert (Hcase : (if bytes =? zlen old then (0, t, d)
                   else sf_txn_commit (t <| buffer := resize_scratch t path bytes |>) [path]
                          [resize_scratch t path bytes] [bytes] 1 d) = (0, t', d') ->
                  lookup_file (files t') path = Some (slice 0 bytes old ++ fill 0 (bytes - zlen old)) /\
                  forall q, cstr q <> [] -> cstr q <> cstr path -> lookup_file (files t') q = lookup_file (files t) q).
  { rewrite (proj2 (Z.eqb_neq bytes (zlen old))) by congruence. intros Hc.
    destruct (resize_scratch_spec t path bytes Hwf Hpn Hbl ltac:(sflia)) as [Lb Eb].
    apply commit_ok_staged in Hc as (fs' & Hst & -> & _); [|done].
    assert (Ha : args_ok [resize_scratch t path bytes] [bytes]) by (intros [|[|n]]; [exact (conj Hb Lb)|exact (conj (Z.le_refl 0) (Z.le_refl 0))..]).
    destruct (staged_spec _ _ _ _ _ _ Ha Hwf Hst) as (_ & Hnew & Hrest).
    destruct (Hnew 0%nat ltac:(lia)) as [_ El]. cbn in El. rewrite El, Eb. split; [done|].
    intros q Hq Hqp. apply Hrest; [done|]. intros n Hn. by replace n with 0%nat by lia. }
  intros Hc. apply Hcase. rewrite <-Hc. unfold b, old, lookup_file, resize_scratch.
  destruct (find_index _ _) as [i|] eqn:E; [|done]. change (default [] (Some ?x)) with x.
  destruct Hwf as [k Hwf]. apply find_index_Some in E as (Hi & Hs & _). apply streq_spec in Hs.
  pose proof (path_slot k _ Hwf path i Hpn Hi Hs) as Hik. destruct Hwf as (_ & _ & Hw & _).
  destruct (Hw i Hik) as (_ & _ & _ & _ & ->). done.
Qed.

(** A slot that mounts holds a well-formed table and a 64-bit generation. *)
Lemma slot_view_wf c vol slot g fs : sectors c -> (forall s, bytes_ok (c s)) ->
  slot_view c vol slot = Some (g, fs) -> (exists k, files_wf k fs) /\ g <= UINT64_MAX.
Proof.
  intros Hs Hb. unfold slot_view. destruct (record_ok _ _ _); cbn [negb]; [|done].
  set (rec := c (SF_TXN_HEADER + 1 + slot)). set (b := bank_bytes c slot 256).
  assert (Hg : get64 rec 8 <= UINT64_MAX).
  { unfold get64. pose proof (le_val_bound (slice 8 8 rec)) as B.
    rewrite zlen_slice in B by (unfold rec; rewrite ?Hs; lia).
    specialize (B ltac:(apply Forall_take, Forall_drop, Hb)). sflia. }
  assert (Lb : zlen b = SF_TXN_BUFFER) by (unfold b; by rewrite zlen_bank_bytes).
  assert (Bb : bytes_ok b).
  { unfold b, bank_bytes, bytes_ok. rewrite flat_map_concat_map. apply Forall_concat, Forall_map.
    apply Forall_forall. intros i _. apply Hb. }
  destruct (memeq _ _ _); cbn [negb]; [|done].
  destruct (decode b [] (get64 rec 8) SF_TXN_FILES SF_TXN_DATA) as [r5 n5] eqn:E5.
  destruct (Z.eqb_spec r5 0) as [->|].
  { intros [= <- <-]. apply decode_sound in E5; [|done|done|constructor].
    destruct E5 as (k & _ & _ & _ & _ & _ & Hwf & _). eauto. }
  destruct (decode b [] (get64 rec 8) 4 1024) as [r4 n4] eqn:E4. destruct (Z.eqb_spec r4 0) as [->|]; [|done].
  intros [= <- <-]. apply decode_sound in E4; [|done|done|constructor].
  destruct E4 as (k & _ & _ & _ & _ & _ & Hwf & _). eauto.
Qed.

(** C7. A successful mount of a device with nothing in flight, whatever bytes
    it holds, establishes the state that commits start from: the selected
    snapshot is a well-formed table and is what a reboot selects. *)
Theorem txn_mount_establishes t d t' d' :
  zlen (buffer t) = SF_TXN_BUFFER -> sectors (img d) -> (forall s, bytes_ok (img d s)) ->
  (forall c, crash d c -> c = img d) -> sf_txn_mount t d = (0, t', d') ->
  mounted t' d' /\ reboots (img d') (selected t').
Proof.
  intros Hb Hs Hby Hcl Hm. pose proof (mount_spec t d Hb Hs) as M. rewrite Hm in M.
  destruct M as [M _]. destruct (M eq_refl) as (Hr & [Hi Hcr] & Hb' & Hvol & Hv).
  pose proof (view_inv _ _ _ _ _ _ Hv) as (_ & _ & _ & Hsv).
  destruct (slot_view_wf _ _ _ _ _ Hs Hby Hsv) as [Hwf Hg]. rewrite Hi.
  split; [|by eapply view_reboots].
  split; [done|]. split; [done|]. split; [rewrite Hvol; unfold header_volume; apply zlen_slice; rewrite ?Hs; lia|].
  split; [done|]. split; [done|]. exists (img d). split; [split; [done|]; auto|]. split; [done|].
  split; [done|]. by eapply view_indep.
Qed.

End Commit.
