(* ===== verification/TxnDisk.v ===== *)
(** * A write-back disk that loses power

    A concrete device for the transaction store: writes go to a volatile cache
    until a flush, a power budget makes every operation after the budget fail,
    and a power cut keeps an arbitrary subsequence of the cached writes.  It
    satisfies the device laws, so the crash theorem covers a power cut at every
    step of a commit; the examples run it on a freshly formatted volume. *)

From S2P Require Import Prelude Bytes Abi Sha256 TxnPath TxnFormat Txn TxnStage TxnCrash.

Record Disk := MkDisk { medium : image; cache : list (Z * list Z); power : nat }.

Definition apply_writes (l : list (Z * list Z)) (c : image) : image :=
  fold_left (fun c w => upd c w.1 w.2) l c.

Definition disk_img (d : Disk) : image := apply_writes (cache d) (medium d).

#[export] Instance disk_device : BlockDevice Disk := {|
  dev_read := fun d s => (0, disk_img d s, d);
  dev_write := fun d s blk =>
    match power d with
    | O => (SF_DEVICE_GONE, MkDisk (medium d) (cache d ++ [(s, blk)]) O)
    | S p => (0, MkDisk (medium d) (cache d ++ [(s, blk)]) p)
    end;
  dev_flush := fun d =>
    match power d with
    | O => (SF_DEVICE_GONE, d)
    | S p => (0, MkDisk (disk_img d) [] p)
    end
|}.

Definition disk_crash (d : Disk) (c : image) : Prop :=
  exists l, l `sublist_of` cache d /\ c = apply_writes l (medium d).

Lemma apply_writes_snoc l s blk c : apply_writes (l ++ [(s, blk)]) c = upd (apply_writes l c) s blk.
Proof. unfold apply_writes. by rewrite fold_left_app. Qed.

Lemma sublist_snoc_inv {A} (l k : list A) x : l `sublist_of` k ++ [x] ->
  l `sublist_of` k \/ exists l', l' `sublist_of` k /\ l = l' ++ [x].
Proof.
  intros H. apply sublist_app_r in H as (l1 & l2 & -> & H1 & H2).
  apply sublist_cons_r in H2 as [H2|(l3 & -> & H3)].
  - apply sublist_nil_r in H2 as ->. left. by rewrite app_nil_r.
  - apply sublist_nil_r in H3 as ->. right. eauto.
Qed.

#[export, refine] Instance disk_laws : DeviceLaws Disk := {|
  img := disk_img; crash := disk_crash
|}.
Proof.
  - intros d s r blk d' [= <- <- <-]. done.
  - intros d s blk r d' E.
    assert (Hc : medium d' = medium d /\ cache d' = cache d ++ [(s, blk)]).
    { cbn in E. destruct (power d); by injection E as <- <-. }
    destruct Hc as [Em Ec]. split.
    + intros c (l & Hl & ->). rewrite Ec in Hl. rewrite Em.
      apply sublist_snoc_inv in Hl as [Hl|(l' & Hl & ->)]; [left; by exists l|].
      right. exists (apply_writes l' (medium d)). split; [by exists l'|]. apply apply_writes_snoc.
    + intros _. unfold disk_img. rewrite Em, Ec. apply apply_writes_snoc.
  - intros d r d' E. cbn in E. destruct (power d); injection E as <- <-; cbn.
    + split; [done|discriminate].
    + split; [|done]. intros c (l & Hl & ->). cbn in Hl. by apply sublist_nil_r in Hl as ->.
Defined.

(** ** A formatted volume *)

Definition volume_id : list Z := fill 7 16.

Definition header_body : list Z :=
  header_magic ++ le_bytes 4 1 ++ le_bytes 4 SF_TXN_SECTORS ++ volume_id ++ fill 0 448.

Definition empty_bank : list Z := encode_bank no_files 1.

(** Header, a commit record for bank 0 at generation 1, and an empty bank 0. *)
Definition formatted : image := fun s =>
  if s =? SF_TXN_HEADER then header_body ++ sf_sha256 header_body
  else if s =? SF_TXN_HEADER + 1 then commit_record 1 0 volume_id (sf_sha256 empty_bank)
  else if (SF_TXN_BANK <=? s) && (s <? SF_TXN_BANK + SF_TXN_BANK_SECTORS)
    then slice ((s - SF_TXN_BANK) * 512) 512 empty_bank
  else fill 0 512.

Definition fresh_txn : SfTxn := MkTxn 1 0 true volume_id no_files no_files empty_bank.
Definition fresh_disk (power : nat) : Disk := MkDisk formatted [] power.

Lemma empty_bank_len : zlen empty_bank = SF_TXN_BUFFER.
Proof. apply (encode_bank_holds no_files 0); [apply files_wf_nil|sflia]. Qed.

Lemma zlen_header_body : zlen header_body = 480.
Proof.
  assert (zlen header_magic = 8) by done. assert (zlen volume_id = 16) by done.
  unfold header_body. blen.
Qed.

Lemma formatted_sectors : sectors formatted.
Proof.
  intros s. unfold formatted. destruct (s =? SF_TXN_HEADER).
  { rewrite zlen_app, zlen_header_body, zlen_sha256. done. }
  destruct (s =? SF_TXN_HEADER + 1); [apply zlen_commit_record; [done|apply zlen_sha256]|].
  destruct (_ && _) eqn:E; [|done]. pose proof empty_bank_len. apply zlen_slice; sflia.
Qed.

Lemma formatted_header : header_ok (formatted SF_TXN_HEADER) = true /\ header_volume formatted = volume_id.
Proof.
  assert (Hm : zlen header_magic = 8) by done. assert (Hv : zlen volume_id = 16) by done.
  pose proof zlen_header_body as Lb. pose proof (zlen_sha256 header_body) as Lh.
  assert (Hs : forall off n, 0 <= off -> 0 <= n -> off + n <= 480 ->
            slice off n (header_body ++ sf_sha256 header_body) = slice off n header_body)
    by (intros; apply slice_app_l; lia).
  unfold header_volume, formatted. rewrite Z.eqb_refl.
  split; [|rewrite Hs by lia; unfold header_body; by fields].
  set (h := header_body ++ sf_sha256 header_body).
  assert (Lhh : zlen h = 512) by (unfold h; rewrite zlen_app; lia).
  assert (E1 : memeq h header_magic 8 = true).
  { apply memeq_spec; [lia..|]. unfold h. rewrite Hs by lia. unfold header_body. by fields. }
  assert (E2 : get32 h 8 = 1 /\ get32 h 12 = SF_TXN_SECTORS).
  { unfold get32, h. rewrite !Hs by lia. unfold header_body. by fields. }
  assert (E3 : zero (drop (Z.to_nat 32) h) 448 = true).
  { apply zero_slice; [lia..|]. unfold h. rewrite Hs by lia. unfold header_body. by fields. }
  assert (E4 : sealed h = true).
  { unfold sealed. apply memeq_slice; [apply zlen_sha256|lia|lia|]. unfold h.
    rewrite (slice_head 0 480) by done. by fields. }
  unfold header_ok. rewrite E1, (proj1 E2), (proj2 E2), E3, E4. done.
Qed.

Lemma formatted_bank n : (n <= 256)%nat -> bank_bytes formatted 0 n = slice 0 (Z.of_nat n * 512) empty_bank.
Proof.
  induction n as [|n IH]; intros Hn; [done|]. rewrite bank_bytes_S, IH by lia.
  replace (Z.of_nat (S n) * 512) with (Z.of_nat n * 512 + 512) by lia. rewrite slice_split by lia. f_equal.
  unfold formatted. rewrite (proj2 (Z.eqb_neq _ SF_TXN_HEADER)) by sflia.
  rewrite (proj2 (Z.eqb_neq _ (SF_TXN_HEADER + 1))) by sflia.
  destruct (_ && _) eqn:E; [f_equal; sflia|sflia].
Qed.

Lemma formatted_record :
  formatted (rec_sector 0) = commit_record 1 0 volume_id (sf_sha256 (encode_bank no_files 1)).
Proof.
  unfold formatted, rec_sector. change (_ =? SF_TXN_HEADER) with false.
  change (_ =? SF_TXN_HEADER + 1) with true. reflexivity.
Qed.

Lemma formatted_unused : formatted (rec_sector (1 - 0)) = fill 0 512.
Proof.
  unfold formatted, rec_sector. change (_ =? SF_TXN_HEADER) with false.
  change (_ =? SF_TXN_HEADER + 1) with false. change (_ && _) with false. reflexivity.
Qed.

Lemma fresh_mounted p : mounted fresh_txn (fresh_disk p).
Proof.
  destruct formatted_header as [Hh Hv].
  split; [done|]. split; [change (1 <= UINT64_MAX); sflia|]. split; [done|]. split; [apply empty_bank_len|].
  split; [exists 0%nat; apply files_wf_nil|]. exists formatted. split.
  { split; [done|]. intros c (l & Hl & ->). cbn in Hl. by apply sublist_nil_r in Hl as ->. }
  split; [apply formatted_sectors|]. split; [done|].
  apply view_single; [done|cbn; lia|by left|rewrite Hv..].
  - apply (slot_view_new formatted volume_id 0 1 no_files 0);
      [lia|sflia|reflexivity|apply files_wf_nil|exact formatted_record|].
    rewrite formatted_bank by lia. apply slice_all. symmetry. exact empty_bank_len.
  - apply slot_view_invalid. exact formatted_unused.
Qed.

(** ** A small commit *)

(** ["/a"] and three bytes. *)
Definition ex_path : list Z := [47; 97].
Definition ex_data : list Z := [1; 2; 3].

Lemma ex_args : args_ok [ex_data] [3].
Proof. intros [|[|n]]; vm_compute; split; congruence. Qed.

(** ** Enough power completes a commit *)

Lemma disk_write_ok (d : Disk) s blk p : power d = S p ->
  exists d', dev_write d s blk = (0, d') /\ power d' = p.
Proof. intros Hp. cbn. rewrite Hp. eauto. Qed.

Lemma disk_flush_ok (d : Disk) p : power d = S p -> exists d', dev_flush d = (0, d') /\ power d' = p.
Proof. intros Hp. cbn. rewrite Hp. eauto. Qed.

Lemma disk_write_flush_ok (d : Disk) s blk p : power d = S (S p) ->
  exists d', write_flush d s blk = Go d' /\ power d' = p.
Proof.
  intros Hp. unfold write_flush. destruct (disk_write_ok d s blk (S p) Hp) as (d1 & -> & Hp1). change (truthy 0) with false. cbv iota.
  destruct (disk_flush_ok d1 p Hp1) as (d2 & -> & Hp2). eauto.
Qed.

Lemma disk_write_bank_ok bk b (d : Disk) p : power d = (256 + p)%nat ->
  exists d', write_bank bk b d = Go d' /\ power d' = p.
Proof.
  intros Hp. unfold write_bank. change (Z.to_nat SF_TXN_BANK_SECTORS) with 256%nat.
  set (body := fun (i : nat) (d : Disk) => _).
  assert (L : match loop_exit 256 body d with Go d' => power d' + 256 = 256 + p | Done _ => False end%nat).
  { apply (loop_exit_inv (fun i d' => (power d' + i = 256 + p)%nat) (fun _ => False)); [lia|].
    intros i di Hi HI. unfold body.
    destruct (disk_write_ok di (SF_TXN_BANK + bk * SF_TXN_BANK_SECTORS + Z.of_nat i)
                (slice (Z.of_nat i * 512) 512 b) (power di - 1)) as (d' & -> & Hd); [lia|].
    change (truthy 0) with false. cbv iota. lia. }
  destruct (loop_exit 256 body d) as [?|d']; [done|]. exists d'. split; [done|]. lia.
Qed.

Lemma disk_publish_ok gen bk vol b p : exists d', publish gen bk vol b (fresh_disk (261 + p)) = Go d'.
Proof.
  unfold publish.
  destruct (disk_write_flush_ok (fresh_disk (261 + p)) (SF_TXN_HEADER + 1 + bk) (fill 0 512) (259 + p)) as (d1 & -> & H1); [done|].
  destruct (disk_write_bank_ok bk b d1 (3 + p)) as (d2 & -> & H2); [lia|].
  destruct (disk_flush_ok d2 (2 + p) H2) as (d3 & -> & H3). change (truthy 0) with false. cbv iota.
  edestruct (disk_write_flush_ok d3) as (d4 & -> & _); [exact H3|]. eauto.
Qed.

Lemma ex_staged dat len : (SF_TXN_FILE_BYTES <? len) = false ->
  exists fs', loop_exit 1 (stage_one [ex_path] [dat] [len]) no_files = Go fs'.
Proof.
  intros Hl. unfold loop_exit. cbn [exit_from]. unfold stage_one. cbn [nth].
  replace (path_ok ex_path) with true by (vm_compute; reflexivity). rewrite Hl. cbn [negb orb].
  change (find_index (fun j => streq (nth j [ex_path] []) ex_path) 0) with (@None nat). cbv iota.
  replace (find_index _ SF_TXN_FILES) with (Some 0%nat) by (vm_compute; reflexivity). eauto.
Qed.

Lemma ex_commit_ok buf dat len p : (SF_TXN_FILE_BYTES <? len) = false -> exists t' d',
  sf_txn_commit (fresh_txn <| buffer := buf |>) [ex_path] [dat] [len] 1 (fresh_disk (261 + p)) = (0, t', d').
Proof.
  intros Hl. set (t := fresh_txn <| buffer := buf |>). unfold sf_txn_commit.
  change (ready t) with true. change (generation t) with 1.
  change ((1 =? 0)%nat || (SF_TXN_FILES <? 1)%nat || (1 =? UINT64_MAX)) with false. cbn [negb]. cbv iota.
  change (files t) with no_files. destruct (ex_staged dat len Hl) as [fs' ->]. cbv zeta.
  edestruct disk_publish_ok as [d' ->]. eauto.
Qed.

Lemma ex_lookup : lookup_file no_files ex_path = None.
Proof. vm_compute. reflexivity. Qed.

Lemma ex_resize_ok : exists t' d', sf_txn_resize fresh_txn ex_path 5 (fresh_disk 300) = (0, t', d').
Proof.
  unfold sf_txn_resize. change (ready fresh_txn) with true. change (files fresh_txn) with no_files.
  replace (path_ok ex_path) with true by (vm_compute; reflexivity).
  replace (find_index _ _) with (@None nat) by (vm_compute; reflexivity).
  change (SF_TXN_FILE_BYTES <? 5) with false. change (5 =? 0) with false. cbn [negb]. cbv iota zeta.
  apply (ex_commit_ok _ _ 5 39). reflexivity.
Qed.

(** The formatted volume holds bytes. *)
Lemma formatted_bytes s : bytes_ok (formatted s).
Proof.
  assert (Hf : forall v n, bytes_ok (fill v n)).
  { intros v n. apply Forall_replicate. apply u8_bounds. }
  assert (Hh : bytes_ok header_body) by (apply bytes_okb_sound; vm_compute; reflexivity).
  unfold formatted. destruct (s =? SF_TXN_HEADER); [by apply Forall_app_2; [|apply sha256_bytes_ok]|].
  destruct (s =? SF_TXN_HEADER + 1).
  { rewrite commit_record_layout by (done || apply zlen_sha256).
    assert (Hb : bytes_ok (record_body 1 0 volume_id (sf_sha256 empty_bank))).
    { unfold record_body. repeat apply Forall_app_2; try apply le_bytes_ok; try apply Hf; try apply sha256_bytes_ok.
      apply bytes_okb_sound; vm_compute; reflexivity. }
    apply Forall_app_2; [done|apply sha256_bytes_ok]. }
  destruct (_ && _); [|apply Hf]. unfold slice. apply Forall_take, Forall_drop.
  unfold empty_bank, encode_bank. rewrite (used_files_wf 0 no_files files_wf_nil), encode_header.
  unfold bank_header. cbn [loop loop_from]. repeat apply Forall_app_2; try apply le_bytes_ok; try apply Hf.
  apply bytes_okb_sound; vm_compute; reflexivity.
Qed.

(** ** The theorems on the fresh volume *)

Lemma txn_commit_crash_safe_witness : exists r t' d',
  sf_txn_commit fresh_txn [ex_path] [ex_data] [3] 1 (fresh_disk 100) = (r, t', d') /\
  (r = 0 \/ r = SF_COMMIT_UNCERTAIN \/ r = SF_INVALID \/ r = SF_NO_SPACE).
Proof.
  destruct (sf_txn_commit fresh_txn [ex_path] [ex_data] [3] 1 (fresh_disk 100)) as [[r t'] d'] eqn:E.
  exists r, t', d'. split; [reflexivity|].
  destruct (txn_commit_crash_safe fresh_txn (fresh_disk 100) [ex_path] [ex_data] [3] 1 r t' d'
              (fresh_mounted 100) ex_args E) as [(-> & _)|[(-> & _)|[[->| ->] _]]]; auto.
Defined.

Lemma txn_commit_get_witness : exists t' d',
  sf_txn_commit fresh_txn [ex_path] [ex_data] [3] 1 (fresh_disk 300) = (0, t', d') /\
  sf_txn_get t' ex_path 8 = (3, [1; 2; 3]).
Proof.
  destruct (ex_commit_ok empty_bank ex_data 3 39 eq_refl) as (t' & d' & E). exists t', d'. split; [exact E|].
  destruct (txn_commit_get fresh_txn (fresh_disk 300) [ex_path] [ex_data] [3] 1 t' d'
              (fresh_mounted 300) ex_args E) as [H _].
  apply (H 0%nat 8); [lia|vm_compute; congruence].
Defined.

Lemma txn_resize_contents_witness : exists t' d',
  sf_txn_resize fresh_txn ex_path 5 (fresh_disk 300) = (0, t', d') /\
  lookup_file (files t') ex_path = Some [0; 0; 0; 0; 0].
Proof.
  destruct ex_resize_ok as (t' & d' & E). exists t', d'. split; [exact E|].
  destruct (txn_resize_contents fresh_txn (fresh_disk 300) ex_path 5 t' d' (fresh_mounted 300)) as [H _];
    [lia| |exact E|].
  - change (files fresh_txn) with no_files. rewrite ex_lookup. vm_compute. congruence.
  - change (files fresh_txn) with no_files in H. rewrite ex_lookup in H. exact H.
Defined.

Lemma txn_mount_establishes_witness : exists t',
  sf_txn_mount fresh_txn formatted = (0, t', formatted) /\ mounted t' formatted.
Proof.
  destruct (fresh_mounted 0) as (_ & _ & _ & Hb & _ & c & [Hc _] & Hs & _ & Hv).
  change (formatted = c) in Hc. subst c.
  destruct (view_reboots formatted _ _ _ Hs Hv fresh_txn Hb) as (t' & E & _).
  exists t'. split; [exact E|].
  apply (@txn_mount_establishes image _ image_laws fresh_txn formatted t' formatted Hb Hs formatted_bytes); [|exact E].
  intros c Hc. exact Hc.
Defined.
