(* ===== verification/Manager.v ===== *)
(** * Module manager

    [services/manager.c]: the sixteen-slot module registry of the init process,
    its lifecycle transitions and the lease ledger that ties a running module
    to the generation of each provider it was registered against. *)

From S2P Require Import Prelude Bytes Abi.

Inductive mod_state :=
| MOD_DISCOVERED | MOD_VERIFIED | MOD_RESOLVED | MOD_STAGED | MOD_INITIALIZED | MOD_ACTIVE
| MOD_QUIESCING | MOD_DRAINING | MOD_STOPPED | MOD_UNLOADED | MOD_FAILED | MOD_QUARANTINED.
#[export] Instance mod_state_eq_dec : EqDecision mod_state.
Proof. solve_decision. Defined.

Definition RES_LEASE : nat := 0.
Definition RES_COUNT : nat := 10.
Definition MODULES : nat := 16.
#[export] Hint Unfold RES_LEASE RES_COUNT MODULES : sf.

Record SfModule := MkModule {
  mod_id : list Z; mod_generation : Z; state : mod_state; pinned : bool; dependencies : Z;
  resources : list Z; dependency_generations : list Z
}.
#[export] Instance SfModule_settable : Settable SfModule :=
  fun x => MkModule (mod_id x) (mod_generation x) (state x) (pinned x) (dependencies x)
             (resources x) (dependency_generations x).

Definition zero_module : SfModule :=
  MkModule (fill 0 64) 0 MOD_DISCOVERED false 0 (replicate RES_COUNT 0) (replicate MODULES 0).
#[export] Instance SfModule_inhabited : Inhabited SfModule := populate zero_module.

Record SfManager := MkManager { modules : list SfModule; next_generation : Z }.
#[export] Instance SfManager_settable : Settable SfManager :=
  fun m => MkManager (modules m) (next_generation m).

Definition zero_manager : SfManager := MkManager (replicate MODULES zero_module) 0.

Definition in_state (x : SfModule) (s : mod_state) : bool := bool_decide (state x = s).

(** [deps & (1u<<j)]. *)
Definition has_dep (deps : Z) (j : nat) : bool := Z.testbit deps (Z.of_nat j).

Definition registered (x : SfModule) : bool :=
  truthy (mod_generation x) && negb (in_state x MOD_DISCOVERED) && negb (in_state x MOD_UNLOADED).

Definition set_module (i : nat) (f : SfModule -> SfModule) (m : SfManager) : SfManager :=
  m <| modules ::= alter f i |>.

Definition add_resource (r : nat) (v : Z) (x : SfModule) : SfModule :=
  x <| resources ::= alter (fun n => u32 (n + v)) r |>.

Definition vacant (x : SfModule) : bool := in_state x MOD_DISCOVERED || in_state x MOD_UNLOADED.

(** The generations of the providers named by [deps]. *)
Definition bind_generations (m : SfManager) (deps : Z) : list Z :=
  map (fun j => if has_dep deps j then mod_generation (modules m !!! j) else 0) (seq 0 MODULES).

Definition sfmod_add (m : SfManager) (name : list Z) (deps : Z) (pin : bool) : Z * SfManager :=
  if (hd 0 name =? 0) || (64 <=? strlen name) then (SF_INVALID, m)
  else if truthy (Z.shiftr deps 16) then (SF_DEPENDENCY, m)
  else if negb (all_below (fun j => negb (has_dep deps j) || registered (modules m !!! j)) MODULES)
    then (SF_DEPENDENCY, m)
  else if next_generation m =? UINT32_MAX then (SF_NO_SPACE, m)
  else match find_index (fun i => vacant (modules m !!! i)) MODULES with
  | None => (SF_NO_SPACE, m)
  | Some i =>
      let gen := next_generation m + 1 in
      let x := MkModule (blit 0 (cstr name ++ [0]) (fill 0 64)) gen MOD_VERIFIED pin deps
                 (replicate RES_COUNT 0) (bind_generations (m <| next_generation := gen |>) deps) in
      (Z.of_nat i, (m <| next_generation := gen |>) <| modules ::= <[i := x]> |>)
  end.

(** The provider checks of [sfmod_start], in order; [Some r] is the early return. *)
Definition start_check (m : SfManager) (i : nat) (x : SfModule) : flow Z unit :=
  loop_exit MODULES (fun j _ =>
    if has_dep (dependencies x) j then
      let p := modules m !!! j in
      if (j =? i)%nat || negb (in_state p MOD_ACTIVE)
         || negb (mod_generation p =? nth j (dependency_generations x) 0) then Done SF_DEPENDENCY
      else if nth RES_LEASE (resources p) 0 =? UINT32_MAX then Done SF_NO_SPACE
      else Go tt
    else Go tt) tt.

(** Add [v] to the lease count of every provider in [deps]. *)
Definition adjust_leases (deps v : Z) (m : SfManager) : SfManager :=
  loop MODULES (fun j m => if has_dep deps j then set_module j (add_resource RES_LEASE v) m else m) m.

Definition sfmod_start (m : SfManager) (i : nat) : Z * SfManager :=
  if (MODULES <=? i)%nat then (SF_INVALID, m)
  else
    let x := modules m !!! i in
    if negb (in_state x MOD_VERIFIED) && negb (in_state x MOD_STOPPED) then (SF_INVALID, m)
    else if truthy (Z.shiftr (dependencies x) 16) then (SF_DEPENDENCY, m)
    else match start_check m i x with
    | Done r => (r, m)
    | Go _ =>
        let m := set_module i (fun x => x <| state := MOD_RESOLVED |> <| state := MOD_STAGED |>
                                          <| state := MOD_INITIALIZED |>) m in
        let m := adjust_leases (dependencies x) 1 m in
        (0, set_module i (fun x => x <| state := MOD_ACTIVE |>) m)
    end.

Definition sfmod_acquire (m : SfManager) (i r : nat) : Z * SfManager :=
  if (MODULES <=? i)%nat || (RES_COUNT <=? r)%nat then (SF_INVALID, m)
  else
    let x := modules m !!! i in
    if in_state x MOD_QUIESCING || in_state x MOD_DRAINING then (SF_DRAINING, m)
    else if negb (in_state x MOD_ACTIVE) then (SF_STALE_HANDLE, m)
    else if nth r (resources x) 0 =? UINT32_MAX then (SF_NO_SPACE, m)
    else (0, set_module i (add_resource r 1) m).

Definition sfmod_release (m : SfManager) (i r : nat) : Z * SfManager :=
  if (MODULES <=? i)%nat || (RES_COUNT <=? r)%nat
     || negb (truthy (nth r (resources (modules m !!! i)) 0)) then (SF_INVALID, m)
  else (0, set_module i (add_resource r (-1)) m).

Definition sfmod_prepare (m : SfManager) (i : nat) : Z * SfManager :=
  if (MODULES <=? i)%nat then (SF_INVALID, m)
  else
    let x := modules m !!! i in
    if pinned x then (SF_DENIED, m)
    else if negb (in_state x MOD_ACTIVE) then (SF_INVALID, m)
    else (0, set_module i (fun x => x <| state := MOD_QUIESCING |> <| state := MOD_DRAINING |>) m).

Definition sfmod_cancel (m : SfManager) (i : nat) : Z * SfManager :=
  if (MODULES <=? i)%nat || negb (in_state (modules m !!! i) MOD_DRAINING) then (SF_INVALID, m)
  else (0, set_module i (fun x => x <| state := MOD_ACTIVE |>) m).

(** The provider checks of [sfmod_stop]. *)
Definition stop_check (m : SfManager) (x : SfModule) : flow Z unit :=
  loop_exit MODULES (fun j _ =>
    if has_dep (dependencies x) j then
      let p := modules m !!! j in
      if negb (registered p) || negb (mod_generation p =? nth j (dependency_generations x) 0)
        then Done SF_DEPENDENCY
      else if negb (truthy (nth RES_LEASE (resources p) 0)) then Done SF_INVALID
      else Go tt
    else Go tt) tt.

Definition sfmod_stop (m : SfManager) (i : nat) : Z * SfManager :=
  if (MODULES <=? i)%nat || negb (in_state (modules m !!! i) MOD_DRAINING) then (SF_INVALID, m)
  else
    let x := modules m !!! i in
    match find_index (fun r => truthy (nth r (resources x) 0)) RES_COUNT with
    | Some r => (if (r =? RES_LEASE)%nat then SF_DEPENDENCY else SF_BUSY, m)
    | None =>
        if truthy (Z.shiftr (dependencies x) 16) then (SF_DEPENDENCY, m)
        else match stop_check m x with
        | Done r => (r, m)
        | Go _ =>
            let m := adjust_leases (dependencies x) (-1) m in
            (0, set_module i (fun x => x <| state := MOD_STOPPED |>) m)
        end
    end.

Definition sfmod_unload (m : SfManager) (i : nat) : Z * SfManager :=
  if (MODULES <=? i)%nat || negb (in_state (modules m !!! i) MOD_STOPPED) then (SF_INVALID, m)
  else (0, set_module i (fun x => x <| state := MOD_UNLOADED |>) m).

(** ** The ledger *)

(** A module that holds leases on its providers. *)
Definition holding (x : SfModule) : bool := in_state x MOD_ACTIVE || in_state x MOD_DRAINING.

Definition holds_on (m : SfManager) (j i : nat) : bool :=
  holding (modules m !!! i) && has_dep (dependencies (modules m !!! i)) j.

(** The number of running modules registered against [j]. *)
Definition holders (m : SfManager) (j : nat) : Z := countn (holds_on m j) MODULES.

(** References taken through [sfmod_acquire] and not yet released. *)
Definition ghost := nat -> nat -> Z.

Definition res (x : SfModule) (r : nat) : Z := nth r (resources x) 0.

(** Well-typed slots. *)
Definition module_typed (next : Z) (x : SfModule) : Prop :=
  length (resources x) = RES_COUNT /\ length (dependency_generations x) = MODULES /\
  0 <= dependencies x < 65536 /\ 0 <= mod_generation x <= next /\
  (vacant x = false -> 0 < mod_generation x) /\
  (forall r, (r < RES_COUNT)%nat -> 0 <= res x r <= UINT32_MAX).

Record ledger_ok (m : SfManager) (acq : ghost) : Prop := {
  lo_len : length (modules m) = MODULES;
  lo_next : 0 <= next_generation m <= UINT32_MAX;
  lo_typed i : (i < MODULES)%nat -> module_typed (next_generation m) (modules m !!! i);
  lo_unique i j : (i < MODULES)%nat -> (j < MODULES)%nat ->
    0 < mod_generation (modules m !!! i) -> 
    mod_generation (modules m !!! i) = mod_generation (modules m !!! j) -> i = j;
  lo_acq i r : (i < MODULES)%nat -> (r < RES_COUNT)%nat -> 0 <= acq i r;
  lo_count i r : (i < MODULES)%nat -> (r < RES_COUNT)%nat ->
    res (modules m !!! i) r = acq i r + (if (r =? RES_LEASE)%nat then holders m i else 0);
  lo_idle i r : (i < MODULES)%nat -> (r < RES_COUNT)%nat -> holding (modules m !!! i) = false ->
    res (modules m !!! i) r = 0;
  lo_bound i j : (i < MODULES)%nat -> (j < MODULES)%nat -> holds_on m j i = true ->
    j <> i /\ holding (modules m !!! j) = true /\
    mod_generation (modules m !!! j) = nth j (dependency_generations (modules m !!! i)) 0
}.

(** ** Counting and field updates *)

Lemma set_module_len i f m : length (modules (set_module i f m)) = length (modules m).
Proof. apply length_alter. Qed.

Lemma set_module_lookup i f m k : (i < length (modules m))%nat ->
  modules (set_module i f m) !!! k = if decide (k = i) then f (modules m !!! i) else modules m !!! k.
Proof.
  intros Hi. change (modules (set_module i f m)) with (alter f i (modules m)).
  rewrite alter_insert_total by done. case_decide as H.
  - subst k. by rewrite insert_lookup_total_eq.
  - by rewrite insert_lookup_total_ne by done.
Qed.

Lemma add_resource_res r v x k : (r < length (resources x))%nat ->
  res (add_resource r v x) k = if decide (k = r) then u32 (res x r + v) else res x k.
Proof.
  intros Hr. unfold res. change (resources (add_resource r v x)) with (alter (fun n => u32 (n + v)) r (resources x)).
  rewrite !nth_lookup. destruct (lookup_lt_is_Some_2 (resources x) r Hr) as [n Hn].
  case_decide as H.
  - subst k. by rewrite list_lookup_alter_eq, Hn.
  - by rewrite list_lookup_alter_ne by done.
Qed.

Lemma add_resource_len r v x : length (resources (add_resource r v x)) = length (resources x).
Proof. apply length_alter. Qed.

(** Adjusting leases changes only the lease counts of the named providers. *)
Lemma adjust_leases_lookup deps v m k : length (modules m) = MODULES -> (k < MODULES)%nat ->
  modules (adjust_leases deps v m) !!! k =
  (if has_dep deps k then add_resource RES_LEASE v (modules m !!! k) else modules m !!! k).
Proof.
  intros Hl Hk. unfold adjust_leases.
  set (body := fun (j : nat) (m : SfManager) => if has_dep deps j then _ else m).
  set (P := fun (i : nat) (m' : SfManager) => length (modules m') = MODULES /\
    forall k, (k < MODULES)%nat -> modules m' !!! k =
      if decide (k < i)%nat then
        (if has_dep deps k then add_resource RES_LEASE v (modules m !!! k) else modules m !!! k)
      else modules m !!! k).
  assert (L : P MODULES (loop MODULES body m)).
  { apply (loop_inv P).
    - split; [done|]. intros j Hj. case_decide; [lia|done].
    - intros j m' Hj [Hl' Hm']. unfold body. destruct (has_dep deps j) eqn:Hd.
      + split; [by rewrite set_module_len|]. intros i Hi. rewrite set_module_lookup by lia.
        destruct (decide (i = j)) as [->|Hij].
        * rewrite Hm' by done. repeat case_decide; try lia. by rewrite Hd.
        * rewrite Hm' by done. repeat case_decide; try lia; done.
      + split; [done|]. intros i Hi. rewrite Hm' by done.
        destruct (decide (i = j)) as [->|Hij]; repeat case_decide; try lia; try done. by rewrite Hd. }
  destruct L as [_ L]. rewrite L by done. case_decide; [done|lia].
Qed.

Lemma adjust_leases_frame deps v m : length (modules m) = MODULES ->
  length (modules (adjust_leases deps v m)) = MODULES /\
  next_generation (adjust_leases deps v m) = next_generation m.
Proof.
  intros Hl. unfold adjust_leases.
  apply (loop_inv (fun _ m' => length (modules m') = MODULES /\ next_generation m' = next_generation m)); [done|].
  intros j m' _ [H1 H2]. destruct (has_dep deps j); [|done]. by rewrite set_module_len.
Qed.

(** ** Every operation keeps the ledger *)

Lemma holders_same m m' j :
  (forall i, (i < MODULES)%nat -> holds_on m' j i = holds_on m j i) -> holders m' j = holders m j.
Proof. intros Hs. by apply countn_ext. Qed.

Definition restate (s : mod_state) (x : SfModule) : SfModule := x <| state := s |>.

(** A state change that keeps the module's leases. *)
Lemma ledger_restate m acq i s : ledger_ok m acq -> (i < MODULES)%nat ->
  holding (restate s (modules m !!! i)) = holding (modules m !!! i) ->
  (vacant (restate s (modules m !!! i)) = false -> vacant (modules m !!! i) = false) ->
  ledger_ok (set_module i (restate s) m) acq.
Proof.
  intros [Hl Hn Ht Hu Ha Hc Hi Hb] Hlt Hh Hv.
  assert (Hlk : forall k, modules (set_module i (restate s) m) !!! k =
            if decide (k = i) then restate s (modules m !!! i) else modules m !!! k)
    by (intros; apply set_module_lookup; lia).
  assert (Hho : forall j k, holds_on (set_module i (restate s) m) j k = holds_on m j k).
  { intros j k. unfold holds_on. rewrite Hlk. case_decide as E; [|done]. subst k. by rewrite Hh. }
  assert (Hho' : forall j, holders (set_module i (restate s) m) j = holders m j)
    by (intros; by apply holders_same).
  split; try done.
  - by rewrite set_module_len.
  - intros k Hk. rewrite Hlk. case_decide as E; [|by apply Ht]. destruct (Ht i Hlt) as (T1 & T2 & T3 & T4 & T5 & T6).
    repeat split; try done; try apply T3; try apply T4; try (by apply T6); auto.
  - intros j k Hj Hk. rewrite !Hlk. intros Hp He. apply Hu; try done; repeat case_decide; subst; done.
  - intros k r Hk Hr. rewrite Hho', Hlk, <-Hc by done. by case_decide; subst.
  - intros k r Hk Hr. rewrite Hlk. case_decide; [subst k; rewrite Hh|]; by apply Hi.
  - intros k j Hk Hj. rewrite Hho. intros Hkj. destruct (Hb k j Hk Hj Hkj) as (B1 & B2 & B3).
    rewrite !Hlk. split; [done|]. repeat case_decide; subst; rewrite ?Hh; done.
Qed.

Lemma u32_incr n : 0 <= n < UINT32_MAX -> u32 (n + 1) = n + 1.
Proof. intros. apply u32_small. sflia. Qed.

Lemma u32_decr n : 0 < n <= UINT32_MAX -> u32 (n + -1) = n - 1.
Proof. intros. rewrite u32_small by sflia. lia. Qed.

(** Moving one resource count and its ghost together. *)
Lemma ledger_resource m acq i r v : ledger_ok m acq -> (i < MODULES)%nat -> (r < RES_COUNT)%nat ->
  holding (modules m !!! i) = true -> u32 (res (modules m !!! i) r + v) = res (modules m !!! i) r + v ->
  0 <= acq i r + v ->
  ledger_ok (set_module i (add_resource r v) m)
    (fun i' r' => if decide (i' = i /\ r' = r) then acq i r + v else acq i' r').
Proof.
  intros [Hl Hn Ht Hu Ha Hc Hi Hb] Hlt Hr Hh Hw Hnn.
  assert (Hlk : forall k, modules (set_module i (add_resource r v) m) !!! k =
            if decide (k = i) then add_resource r v (modules m !!! i) else modules m !!! k)
    by (intros; apply set_module_lookup; lia).
  assert (Hho : forall j k, holds_on (set_module i (add_resource r v) m) j k = holds_on m j k).
  { intros j k. unfold holds_on. rewrite Hlk. by case_decide; subst. }
  assert (Hho' : forall j, holders (set_module i (add_resource r v) m) j = holders m j)
    by (intros; by apply holders_same).
  pose proof (Ht i Hlt) as (T1 & T2 & T3 & T4 & T5 & T6).
  assert (Hrs : forall k, res (add_resource r v (modules m !!! i)) k =
            if decide (k = r) then res (modules m !!! i) r + v else res (modules m !!! i) k)
    by (intros; rewrite add_resource_res by lia; by rewrite Hw).
  assert (Hb32 : 0 <= res (modules m !!! i) r + v <= UINT32_MAX).
  { rewrite <-Hw. pose proof (u32_bounds (res (modules m !!! i) r + v)). sflia. }
  split; try done.
  - by rewrite set_module_len.
  - intros k Hk. rewrite Hlk. case_decide as E; [|by apply Ht].
    split; [by rewrite add_resource_len|]. repeat split; try done; try apply T3; try apply T4; auto;
      rewrite Hrs; case_decide; try lia; by apply T6.
  - intros j k Hj Hk. rewrite !Hlk. intros Hp He. apply Hu; try done; repeat case_decide; subst; done.
  - intros k q Hk Hq. case_decide; [lia|by apply Ha].
  - intros k q Hk Hq. rewrite Hho', Hlk.
    destruct (decide (k = i)) as [->|]; [rewrite Hrs|]; repeat case_decide; subst; try tauto; rewrite Hc by done; lia.
  - intros k q Hk Hq. rewrite Hlk. case_decide; [subst k|by apply Hi]. intros Hf.
    change (holding (modules m !!! i) = false) in Hf. congruence.
  - intros k j Hk Hj. rewrite Hho. intros Hkj. destruct (Hb k j Hk Hj Hkj) as (B1 & B2 & B3).
    rewrite !Hlk. split; [done|]. repeat case_decide; subst; done.
Qed.

Lemma start_check_spec m i x : start_check m i x = Go tt ->
  forall j, (j < MODULES)%nat -> has_dep (dependencies x) j = true ->
  j <> i /\ in_state (modules m !!! j) MOD_ACTIVE = true /\
  mod_generation (modules m !!! j) = nth j (dependency_generations x) 0 /\
  res (modules m !!! j) RES_LEASE <> UINT32_MAX.
Proof.
  intros H.
  set (P := fun (n : nat) (_ : unit) => forall j, (j < n)%nat -> has_dep (dependencies x) j = true ->
    j <> i /\ in_state (modules m !!! j) MOD_ACTIVE = true /\
    mod_generation (modules m !!! j) = nth j (dependency_generations x) 0 /\
    res (modules m !!! j) RES_LEASE <> UINT32_MAX).
  assert (L : match start_check m i x with Go u => P MODULES u | Done _ => True end).
  { apply (loop_exit_inv P (fun _ => True)); [intros j Hj; lia|].
    intros n u Hn Hp. cbv beta zeta. destruct (has_dep (dependencies x) n) eqn:Hd.
    - destruct (Nat.eqb_spec n i); [exact I|]. destruct (in_state (modules m !!! n) MOD_ACTIVE) eqn:Ha; [|exact I].
      destruct (Z.eqb_spec (mod_generation (modules m !!! n)) (nth n (dependency_generations x) 0)); [|exact I].
      cbn [negb orb]. fold (res (modules m !!! n) RES_LEASE).
      destruct (Z.eqb_spec (res (modules m !!! n) RES_LEASE) UINT32_MAX); [exact I|].
      intros j Hj Hdj. destruct (decide (j = n)) as [->|]; [done|]. apply Hp; [lia|done].
    - intros j Hj Hdj. destruct (decide (j = n)) as [->|]; [congruence|]. apply Hp; [lia|done]. }
  by rewrite H in L.
Qed.

(** A module's running flag flips and its providers' leases follow. *)
Section Flip.
Variables (m m' : SfManager) (acq : ghost) (i : nat) (v : Z) (s : mod_state).
Notation x := (modules m !!! i).
Hypothesis ok : ledger_ok m acq.
Hypothesis i_lt : (i < MODULES)%nat.
Hypothesis len' : length (modules m') = MODULES.
Hypothesis next' : next_generation m' = next_generation m.
Hypothesis lookup' : forall k, (k < MODULES)%nat -> modules m' !!! k =
  if decide (k = i) then restate s x
  else if has_dep (dependencies x) k then add_resource RES_LEASE v (modules m !!! k) else modules m !!! k.
Hypothesis providers : forall j, (j < MODULES)%nat -> has_dep (dependencies x) j = true ->
  j <> i /\ holding (modules m !!! j) = true /\
  mod_generation (modules m !!! j) = nth j (dependency_generations x) 0 /\
  u32 (res (modules m !!! j) RES_LEASE + v) = res (modules m !!! j) RES_LEASE + v.
(** Nothing runs against [i] while it flips, and its counts are zero. *)
Hypothesis no_holders : holders m i = 0.
Hypothesis idle : forall r, (r < RES_COUNT)%nat -> res x r = 0.
Hypothesis not_vacant : vacant x = false.
Hypothesis flip : (holding x = false /\ holding (restate s x) = true /\ v = 1) \/
                  (holding x = true /\ holding (restate s x) = false /\ v = -1).

Lemma flip_holds_other j k : (k < MODULES)%nat -> k <> i -> holds_on m' j k = holds_on m j k.
Proof.
  intros Hk Hne. unfold holds_on. rewrite lookup' by done. case_decide; [done|].
  by destruct (has_dep (dependencies x) k).
Qed.

Lemma flip_holds_self j : holds_on m' j i = holding (restate s x) && has_dep (dependencies x) j.
Proof. unfold holds_on. rewrite lookup' by done. by case_decide. Qed.

Lemma flip_holders j : (j < MODULES)%nat ->
  holders m' j = holders m j + (if has_dep (dependencies x) j then v else 0).
Proof.
  intros Hj. destruct (has_dep (dependencies x) j) eqn:Hd.
  - destruct flip as [(H1 & H2 & Hv)|(H1 & H2 & Hv)]; rewrite Hv.
    + apply (countn_flip (holds_on m j) (holds_on m' j) MODULES i); try done.
      * unfold holds_on. by rewrite H1.
      * by rewrite flip_holds_self, H2, Hd.
      * intros k Hk Hne. symmetry. by apply flip_holds_other.
    + assert (E : countn (holds_on m j) MODULES = countn (holds_on m' j) MODULES + 1).
      { apply (countn_flip _ _ MODULES i); try done.
        - by rewrite flip_holds_self, H2.
        - unfold holds_on. by rewrite H1, Hd.
        - intros k Hk Hne. by apply flip_holds_other. }
      unfold holders. lia.
  - rewrite Z.add_0_r. apply holders_same. intros k Hk. destruct (decide (k = i)) as [->|Hne].
    + rewrite flip_holds_self. unfold holds_on. by rewrite Hd, !andb_false_r.
    + by apply flip_holds_other.
Qed.

Lemma self_not_dep : has_dep (dependencies x) i = false.
Proof. destruct (has_dep (dependencies x) i) eqn:Hd; [|done]. by destruct (providers i i_lt Hd). Qed.

Lemma no_holder_of_self k : (k < MODULES)%nat -> holds_on m i k = false.
Proof. intros Hk. by apply (countn_zero _ MODULES). Qed.

Lemma flip_fields k : (k < MODULES)%nat ->
  mod_generation (modules m' !!! k) = mod_generation (modules m !!! k) /\
  dependencies (modules m' !!! k) = dependencies (modules m !!! k) /\
  dependency_generations (modules m' !!! k) = dependency_generations (modules m !!! k) /\
  length (resources (modules m' !!! k)) = length (resources (modules m !!! k)) /\
  (k <> i -> state (modules m' !!! k) = state (modules m !!! k)) /\
  (forall r, (r < RES_COUNT)%nat -> res (modules m' !!! k) r = res (modules m !!! k) r +
     (if (r =? RES_LEASE)%nat && has_dep (dependencies x) k then v else 0)).
Proof.
  intros Hk. rewrite lookup' by done. destruct (decide (k = i)) as [->|Hne].
  - repeat split; try done. intros r Hr. rewrite self_not_dep, andb_false_r.
    change (res (restate s x) r) with (res x r). lia.
  - destruct (has_dep (dependencies x) k) eqn:Hd.
    + destruct (providers k Hk Hd) as (_ & _ & _ & Hw). destruct (lo_typed _ _ ok k Hk) as (T1 & _).
      repeat split; try done; [apply add_resource_len|]. intros r Hr.
      rewrite add_resource_res by sflia. rewrite Hw.
      destruct (Nat.eqb_spec r RES_LEASE) as [->|Hr0]; cbn [andb]; case_decide; lia.
    + repeat split; try done. intros r Hr. rewrite andb_false_r. lia.
Qed.

Lemma flip_holding k : (k < MODULES)%nat -> k <> i -> holding (modules m' !!! k) = holding (modules m !!! k).
Proof.
  intros Hk Hne. destruct (flip_fields k Hk) as (_ & _ & _ & _ & E & _). specialize (E Hne).
  unfold holding, in_state. by rewrite E.
Qed.

Lemma ledger_flip : ledger_ok m' acq.
Proof.
  destruct ok as [Hl Hn Ht Hu Ha Hc Hi Hb].
  assert (Hcount : forall k r, (k < MODULES)%nat -> (r < RES_COUNT)%nat ->
            res (modules m' !!! k) r = acq k r + (if (r =? RES_LEASE)%nat then holders m' k else 0)).
  { intros k r Hk Hr. destruct (flip_fields k Hk) as (_ & _ & _ & _ & _ & Er). rewrite Er, Hc, flip_holders by done.
    destruct (has_dep (dependencies x) k) eqn:Hd;
      destruct (r =? RES_LEASE)%nat; cbn [andb]; lia. }
  split; try done.
  - by rewrite next'.
  - intros k Hk. destruct (flip_fields k Hk) as (E1 & E2 & E3 & E4 & E5 & E6).
    destruct (Ht k Hk) as (T1 & T2 & T3 & T4 & T5 & T6). rewrite next'.
    split; [congruence|]. split; [congruence|]. rewrite E1, E2. split; [done|]. split; [done|]. split.
    + intros Hv. apply T5. destruct (decide (k = i)) as [->|Hne]; [done|].
      unfold vacant, in_state in *. by rewrite E5 in Hv.
    + intros r Hr. rewrite E6 by done. destruct (_ && _) eqn:E; [|rewrite Z.add_0_r; by apply T6].
      apply andb_prop in E as [Er Hd]. apply Nat.eqb_eq in Er as ->.
      destruct (providers k Hk Hd) as (_ & _ & _ & <-).
      pose proof (u32_bounds (res (modules m !!! k) RES_LEASE + v)). sflia.
  - intros a b Hka Hkb. destruct (flip_fields a Hka) as (-> & _). destruct (flip_fields b Hkb) as (-> & _). by apply Hu.
  - intros k r Hk Hr Hf. destruct (flip_fields k Hk) as (_ & _ & _ & _ & _ & Er). rewrite Er by done.
    destruct (decide (k = i)) as [->|Hne].
    + by rewrite self_not_dep, idle, andb_false_r by done.
    + rewrite flip_holding in Hf by done. rewrite Hi by done. destruct (_ && _) eqn:E; [|done].
      apply andb_prop in E as [_ Hd]. destruct (providers k Hk Hd) as (_ & Hh & _). congruence.
  - intros a b Hka Hkb Hab. destruct (flip_fields b Hkb) as (-> & _). destruct (flip_fields a Hka) as (_ & _ & -> & _).
    destruct (decide (a = i)) as [->|Hai].
    + rewrite flip_holds_self in Hab. apply andb_prop in Hab as [_ Hd].
      destruct (providers b Hkb Hd) as (Hbi & Hh & Hg & _). split; [done|]. split; [|done]. by rewrite flip_holding.
    + rewrite flip_holds_other in Hab by done. destruct (Hb a b Hka Hkb Hab) as (B1 & B2 & B3).
      split; [done|]. split; [|done]. destruct (decide (b = i)) as [->|Hbi]; [|by rewrite flip_holding].
      by rewrite no_holder_of_self in Hab.
Qed.
End Flip.

Lemma in_state_true x s : in_state x s = true <-> state x = s.
Proof. unfold in_state. apply bool_decide_eq_true. Qed.

Lemma holding_spec x : holding x = true <-> state x = MOD_ACTIVE \/ state x = MOD_DRAINING.
Proof. unfold holding. by rewrite orb_true_iff, !in_state_true. Qed.

Lemma holders_pos m j i : (i < MODULES)%nat -> holds_on m j i = true -> 1 <= holders m j.
Proof.
  intros Hi Hh. unfold holders. pose proof (countn_nonneg (holds_on m j) MODULES).
  destruct (decide (countn (holds_on m j) MODULES = 0)) as [E|]; [|lia].
  by rewrite (countn_zero _ _ i E Hi) in Hh.
Qed.

Lemma idle_no_holders m acq i : ledger_ok m acq -> (i < MODULES)%nat ->
  res (modules m !!! i) RES_LEASE = 0 -> holders m i = 0.
Proof.
  intros [_ _ _ _ Ha Hc _ _] Hi Hr. specialize (Hc i RES_LEASE Hi ltac:(sflia)).
  specialize (Ha i RES_LEASE Hi ltac:(sflia)).
  change (RES_LEASE =? RES_LEASE)%nat with true in Hc. cbv iota in Hc.
  assert (0 <= holders m i) by apply countn_nonneg. lia.
Qed.

(** The effect of the two-phase lease update of start and stop. *)
Lemma flip_lookup m i v s f : length (modules m) = MODULES -> (i < MODULES)%nat ->
  has_dep (dependencies (modules m !!! i)) i = false ->
  (forall x, restate s (f x) = restate s x) ->
  forall k, (k < MODULES)%nat ->
  modules (set_module i (restate s) (adjust_leases (dependencies (modules m !!! i)) v (set_module i f m))) !!! k =
  if decide (k = i) then restate s (modules m !!! i)
  else if has_dep (dependencies (modules m !!! i)) k then add_resource RES_LEASE v (modules m !!! k)
  else modules m !!! k.
Proof.
  intros Hl Hi Hd Hf k Hk. set (m1 := set_module i f m).
  assert (Hl1 : length (modules m1) = MODULES) by (unfold m1; by rewrite set_module_len).
  destruct (adjust_leases_frame (dependencies (modules m !!! i)) v m1 Hl1) as [Hl2 _].
  rewrite set_module_lookup by lia. rewrite !adjust_leases_lookup by done. rewrite Hd. unfold m1.
  rewrite !set_module_lookup by lia. repeat case_decide; try done.
Qed.

Lemma start_ledger m acq i : ledger_ok m acq -> ledger_ok (sfmod_start m i).2 acq.
Proof.
  intros Hok. unfold sfmod_start. destruct (Nat.leb_spec MODULES i) as [|Hi]; [done|]. cbv zeta.
  set (x := modules m !!! i). destruct (negb (in_state x MOD_VERIFIED) && negb (in_state x MOD_STOPPED)) eqn:Hst; [done|].
  destruct (truthy (Z.shiftr (dependencies x) 16)); [done|].
  destruct (start_check m i x) as [|[]] eqn:Hc; [done|]. cbn [snd].
  pose proof (start_check_spec m i x Hc) as Hp.
  assert (Hs : state x = MOD_VERIFIED \/ state x = MOD_STOPPED).
  { rewrite <-!in_state_true. destruct (in_state x MOD_VERIFIED), (in_state x MOD_STOPPED); auto. }
  assert (Hnh : holding x = false).
  { destruct (holding x) eqn:E; [|done]. apply holding_spec in E. destruct E, Hs; congruence. }
  assert (Hself : has_dep (dependencies x) i = false).
  { destruct (has_dep (dependencies x) i) eqn:Hd; [|done]. by destruct (Hp i Hi Hd). }
  pose proof (lo_len _ _ Hok) as Hl.
  assert (Hidle : forall r, (r < RES_COUNT)%nat -> res x r = 0) by (intros; by apply (lo_idle _ _ Hok)).
  apply (ledger_flip m _ acq i 1 MOD_ACTIVE Hok Hi).
  - rewrite set_module_len. apply adjust_leases_frame. by rewrite set_module_len.
  - destruct (adjust_leases_frame (dependencies x) 1
      (set_module i (fun x => x <| state := MOD_RESOLVED |> <| state := MOD_STAGED |> <| state := MOD_INITIALIZED |>) m))
      as [_ E]; [by rewrite set_module_len|]. exact E.
  - by apply flip_lookup.
  - intros j Hj Hd. destruct (Hp j Hj Hd) as (H1 & H2 & H3 & H4). split; [done|].
    split; [apply holding_spec; left; by apply in_state_true|]. split; [done|].
    apply u32_incr. destruct (lo_typed _ _ Hok j Hj) as (_ & _ & _ & _ & _ & T).
    specialize (T RES_LEASE ltac:(sflia)). lia.
  - apply (idle_no_holders m acq); [done|done|]. apply Hidle. sflia.
  - exact Hidle.
  - fold x. unfold vacant, in_state. by destruct Hs as [-> | ->].
  - left. done.
Qed.

(** Under the ledger a draining module's providers are always releasable. *)
Lemma stop_check_go m acq i : ledger_ok m acq -> (i < MODULES)%nat -> holding (modules m !!! i) = true ->
  stop_check m (modules m !!! i) = Go tt.
Proof.
  intros Hok Hi Hh. set (x := modules m !!! i) in *.
  assert (L : match stop_check m x with Go _ => True | Done _ => False end).
  { apply (loop_exit_inv (fun _ _ => True) (fun _ => False)); [done|]. intros j u Hj _. cbv beta zeta.
    destruct (has_dep (dependencies x) j) eqn:Hd; [|exact I].
    assert (Hho : holds_on m j i = true) by (unfold holds_on; fold x; by rewrite Hh, Hd).
    destruct (lo_bound _ _ Hok i j Hi Hj Hho) as (_ & Hpj & Hg).
    assert (Hreg : registered (modules m !!! j) = true).
    { destruct (lo_typed _ _ Hok j Hj) as (_ & _ & _ & _ & T & _).
      apply holding_spec in Hpj. unfold registered, vacant, in_state in *.
      destruct Hpj as [E|E]; rewrite E in *; specialize (T eq_refl); by rewrite (proj2 (truthy_true _)) by lia. }
    rewrite Hreg, Hg, Z.eqb_refl. cbn [negb orb]. fold (res (modules m !!! j) RES_LEASE).
    pose proof (holders_pos m j i Hi Hho). pose proof (lo_acq _ _ Hok j RES_LEASE Hj ltac:(sflia)).
    rewrite (lo_count _ _ Hok j RES_LEASE Hj ltac:(sflia)). change (RES_LEASE =? RES_LEASE)%nat with true. cbv iota.
    rewrite (proj2 (truthy_true _)) by lia. exact I. }
  destruct (stop_check m x) as [|[]]; done.
Qed.

Lemma stop_ledger m acq i : ledger_ok m acq -> ledger_ok (sfmod_stop m i).2 acq.
Proof.
  intros Hok. unfold sfmod_stop. destruct (Nat.leb_spec MODULES i) as [|Hi]; [done|]. cbn [orb].
  set (x := modules m !!! i). destruct (in_state x MOD_DRAINING) eqn:Hst; [|done]. cbn [negb].
  destruct (find_index _ RES_COUNT) eqn:Hf; [done|].
  destruct (truthy (Z.shiftr (dependencies x) 16)); [done|].
  destruct (stop_check m x) as [|[]] eqn:Hc; [done|]. cbn [snd].
  assert (Hh : holding x = true) by (apply holding_spec; right; by apply in_state_true).
  pose proof (lo_len _ _ Hok) as Hl.
  assert (Hidle : forall r, (r < RES_COUNT)%nat -> res x r = 0).
  { intros r Hr. apply truthy_false. exact (proj1 (find_index_None _ _) Hf r Hr). }
  assert (Hself : has_dep (dependencies x) i = false).
  { destruct (has_dep (dependencies x) i) eqn:Hd; [|done]. exfalso.
    assert (Hho : holds_on m i i = true) by (unfold holds_on; fold x; by rewrite Hh, Hd).
    by destruct (lo_bound _ _ Hok i i Hi Hi Hho). }
  assert (Heq : set_module i (fun x => x <| state := MOD_STOPPED |>) (adjust_leases (dependencies x) (-1) m) =
                set_module i (restate MOD_STOPPED) (adjust_leases (dependencies x) (-1) m)) by done.
  rewrite Heq.
  apply (ledger_flip m _ acq i (-1) MOD_STOPPED Hok Hi).
  - rewrite set_module_len. by apply adjust_leases_frame.
  - destruct (adjust_leases_frame (dependencies x) (-1) m Hl) as [_ E]. exact E.
  - intros k Hk. rewrite set_module_lookup by (destruct (adjust_leases_frame (dependencies x) (-1) m Hl); lia).
    rewrite !adjust_leases_lookup by done. fold x. rewrite Hself. by case_decide; subst.
  - intros j Hj Hd. fold x in Hd. assert (Hho : holds_on m j i = true) by (unfold holds_on; fold x; by rewrite Hh, Hd).
    destruct (lo_bound _ _ Hok i j Hi Hj Hho) as (H1 & H2 & H3). split; [done|]. split; [done|]. split; [done|].
    pose proof (holders_pos m j i Hi Hho). pose proof (lo_acq _ _ Hok j RES_LEASE Hj ltac:(sflia)).
    pose proof (lo_count _ _ Hok j RES_LEASE Hj ltac:(sflia)) as Ec.
    change (RES_LEASE =? RES_LEASE)%nat with true in Ec. cbv iota in Ec.
    destruct (lo_typed _ _ Hok j Hj) as (_ & _ & _ & _ & _ & T). specialize (T RES_LEASE ltac:(sflia)).
    rewrite u32_decr by lia. lia.
  - apply (idle_no_holders m acq); [done|done|]. apply Hidle. sflia.
  - exact Hidle.
  - fold x. unfold vacant, in_state. apply in_state_true in Hst. by rewrite Hst.
  - right. done.
Qed.

Lemma nth_zeros n r : nth r (replicate n 0) 0 = 0.
Proof. revert r. induction n; intros [|r]; simpl; auto. Qed.

Lemma fresh_typed next x : resources x = replicate RES_COUNT 0 ->
  length (dependency_generations x) = MODULES -> 0 <= dependencies x < 65536 ->
  0 <= mod_generation x <= next -> (vacant x = false -> 0 < mod_generation x) -> module_typed next x.
Proof.
  intros Hr Hg Hd Hn Hv. split; [by rewrite Hr|]. do 4 (split; [done|]).
  intros r _. unfold res. rewrite Hr, nth_zeros. sflia.
Qed.

Lemma vacant_not_holding x : vacant x = true -> holding x = false.
Proof.
  unfold vacant. rewrite orb_true_iff, !in_state_true. intros H. destruct (holding x) eqn:E; [|done].
  apply holding_spec in E. destruct E, H; congruence.
Qed.

Lemma add_ledger m acq name deps pin : 0 <= deps -> ledger_ok m acq ->
  ledger_ok (sfmod_add m name deps pin).2 acq.
Proof.
  intros Hdeps Hok. unfold sfmod_add. destruct (_ || _); [done|].
  destruct (truthy (Z.shiftr deps 16)) eqn:Hsh; [done|]. destruct (negb _); [done|].
  destruct (Z.eqb_spec (next_generation m) UINT32_MAX) as [|Hnm]; [done|].
  destruct (find_index _ MODULES) as [i|] eqn:Hf; [|done]. cbv zeta. cbn [snd].
  apply find_index_Some in Hf as (Hi & Hvac & _). pose proof (vacant_not_holding _ Hvac) as Hnh.
  destruct Hok as [Hl Hn Ht Hu Ha Hc Hid Hb]. set (gen := next_generation m + 1).
  set (x := MkModule _ gen MOD_VERIFIED pin deps _ _).
  set (m' := (m <| next_generation := gen |>) <| modules ::= <[i := x]> |>).
  assert (Hlk : forall k, modules m' !!! k = if decide (k = i) then x else modules m !!! k).
  { intros k. change (modules m') with (<[i := x]> (modules m)). case_decide as E.
    - subst k. rewrite insert_lookup_total_eq by lia. done.
    - by rewrite insert_lookup_total_ne by done. }
  assert (Hho : forall j k, holds_on m' j k = holds_on m j k).
  { intros j k. unfold holds_on. rewrite Hlk. case_decide; [subst k|done]. by rewrite Hnh. }
  assert (Hho' : forall j, holders m' j = holders m j) by (intros; by apply holders_same).
  assert (Hd16 : deps < 65536).
  { apply truthy_false in Hsh. rewrite Z.shiftr_div_pow2 in Hsh by lia.
    pose proof (Z.div_mod deps (2 ^ 16)). pose proof (Z.mod_pos_bound deps (2 ^ 16)). lia. }
  split.
  - change (length (<[i := x]> (modules m)) = MODULES). by rewrite length_insert.
  - change (0 <= gen <= UINT32_MAX). unfold gen. lia.
  - intros k Hk. change (next_generation m') with gen. rewrite Hlk. case_decide.
    + apply fresh_typed; try done; cbn; unfold gen; lia.
    + destruct (Ht k Hk) as (T1 & T2 & T3 & T4 & T5 & T6). do 3 (split; [done|]).
      split; [unfold gen; lia|]. done.
  - intros a b Hka Hkb. rewrite !Hlk. destruct (Ht a Hka) as (_ & _ & _ & Ta & _), (Ht b Hkb) as (_ & _ & _ & Tb & _).
    repeat case_decide; subst; cbn; unfold gen; try lia. by apply Hu.
  - done.
  - intros k r Hk Hr. rewrite Hho', Hlk. case_decide as E; [subst k|by apply Hc].
    rewrite <-Hc by done. rewrite Hid by done. apply nth_zeros.
  - intros k r Hk Hr. rewrite Hlk. case_decide as E; [|by apply Hid]. intros _. apply nth_zeros.
  - intros a b Hka Hkb. rewrite Hho. intros Hab. destruct (Hb a b Hka Hkb Hab) as (B1 & B2 & B3).
    rewrite !Hlk. split; [done|]. case_decide as E; [subst b; congruence|]. case_decide as E2; [|done].
    subst a. unfold holds_on in Hab. by rewrite Hnh in Hab.
Qed.

(** ** Operation sequences *)

Inductive mod_op :=
| OpAdd (name : list Z) (deps : Z) (pin : bool) | OpStart (i : nat) | OpAcquire (i r : nat)
| OpRelease (i r : nat) | OpPrepare (i : nat) | OpCancel (i : nat) | OpStop (i : nat) | OpUnload (i : nat).

Definition mod_step (o : mod_op) (m : SfManager) : Z * SfManager :=
  match o with
  | OpAdd name deps pin => sfmod_add m name deps pin
  | OpStart i => sfmod_start m i
  | OpAcquire i r => sfmod_acquire m i r
  | OpRelease i r => sfmod_release m i r
  | OpPrepare i => sfmod_prepare m i
  | OpCancel i => sfmod_cancel m i
  | OpStop i => sfmod_stop m i
  | OpUnload i => sfmod_unload m i
  end.

(** The references the callers hold. *)
Definition ghost_step (o : mod_op) (status : Z) (acq : ghost) : ghost :=
  match o with
  | OpAcquire i r => if status =? 0 then
      fun i' r' => if decide (i' = i /\ r' = r) then acq i r + 1 else acq i' r' else acq
  | OpRelease i r => if status =? 0 then
      fun i' r' => if decide (i' = i /\ r' = r) then acq i r + -1 else acq i' r' else acq
  | _ => acq
  end.

(** Callers pass 32-bit masks and release only what they acquired. *)
Definition op_fair (o : mod_op) (acq : ghost) : Prop :=
  match o with
  | OpAdd _ deps _ => 0 <= deps
  | OpRelease i r => 0 < acq i r
  | _ => True
  end.

Inductive reachable : SfManager -> ghost -> Prop :=
| reach_init : reachable zero_manager (fun _ _ => 0)
| reach_step m acq o : reachable m acq -> op_fair o acq ->
    reachable (mod_step o m).2 (ghost_step o (mod_step o m).1 acq).

Lemma zero_ledger : ledger_ok zero_manager (fun _ _ => 0).
Proof.
  assert (Hz : forall i, (i < MODULES)%nat -> modules zero_manager !!! i = zero_module)
    by (intros; by apply lookup_total_replicate_2).
  assert (Hh : forall j i, (i < MODULES)%nat -> holds_on zero_manager j i = false)
    by (intros; unfold holds_on; by rewrite Hz).
  assert (Hho : forall j, holders zero_manager j = 0) by (intros; apply countn_all_false; auto).
  split; try done.
  - intros i Hi. rewrite Hz by done. by apply fresh_typed.
  - intros i j Hi Hj. rewrite !Hz by done. cbn. lia.
  - intros i r Hi Hr. rewrite Hz, Hho by done. unfold res. cbn [resources zero_module].
    rewrite nth_zeros. by destruct (r =? RES_LEASE)%nat.
  - intros i r Hi Hr _. rewrite Hz by done. apply nth_zeros.
  - intros i j Hi Hj. by rewrite Hh.
Qed.

Lemma acquire_ledger m acq i r : ledger_ok m acq ->
  ledger_ok (sfmod_acquire m i r).2 (ghost_step (OpAcquire i r) (sfmod_acquire m i r).1 acq).
Proof.
  intros Hok. unfold sfmod_acquire. destruct (Nat.leb_spec MODULES i) as [|Hi]; [done|].
  destruct (Nat.leb_spec RES_COUNT r) as [|Hr]; [done|]. cbn [orb]. cbv zeta.
  destruct (_ || _); [done|]. destruct (in_state (modules m !!! i) MOD_ACTIVE) eqn:Ha; [|done]. cbn [negb].
  fold (res (modules m !!! i) r). destruct (Z.eqb_spec (res (modules m !!! i) r) UINT32_MAX) as [|Hn]; [done|].
  destruct (lo_typed _ _ Hok i Hi) as (_ & _ & _ & _ & _ & T). specialize (T r Hr).
  pose proof (lo_acq _ _ Hok i r Hi Hr). apply (ledger_resource m acq i r 1); try done; [|apply u32_incr; lia|lia].
  apply holding_spec. left. by apply in_state_true.
Qed.

Lemma release_ledger m acq i r : ledger_ok m acq -> 0 < acq i r ->
  ledger_ok (sfmod_release m i r).2 (ghost_step (OpRelease i r) (sfmod_release m i r).1 acq).
Proof.
  intros Hok Hpos. unfold sfmod_release. destruct (Nat.leb_spec MODULES i) as [|Hi]; [done|].
  destruct (Nat.leb_spec RES_COUNT r) as [|Hr]; [done|]. cbn [orb]. fold (res (modules m !!! i) r).
  destruct (truthy (res (modules m !!! i) r)) eqn:Ht; [|done]. cbn [negb].
  destruct (lo_typed _ _ Hok i Hi) as (_ & _ & _ & _ & _ & T). specialize (T r Hr). apply truthy_true in Ht.
  apply (ledger_resource m acq i r (-1)); try done; [|rewrite u32_decr by lia; lia|lia].
  destruct (holding (modules m !!! i)) eqn:Hh; [done|]. by rewrite (lo_idle _ _ Hok i r Hi Hr Hh) in Ht.
Qed.

(** Prepare, cancel and unload only change the lifecycle state. *)
Lemma restate_ops_ledger m acq i :
  ledger_ok m acq -> ledger_ok (sfmod_prepare m i).2 acq /\ ledger_ok (sfmod_cancel m i).2 acq /\
  ledger_ok (sfmod_unload m i).2 acq.
Proof.
  intros Hok.
  assert (Hre : forall s, (i < MODULES)%nat -> holding (restate s (modules m !!! i)) = holding (modules m !!! i) ->
            (vacant (restate s (modules m !!! i)) = false -> vacant (modules m !!! i) = false) ->
            ledger_ok (set_module i (restate s) m) acq) by (intros; by apply ledger_restate).
  unfold sfmod_prepare, sfmod_cancel, sfmod_unload. cbv zeta.
  destruct (Nat.leb_spec MODULES i) as [|Hi]; [done|]. cbn [orb]. refine (conj _ (conj _ _)).
  - destruct (pinned _); [done|]. destruct (in_state (modules m !!! i) MOD_ACTIVE) eqn:E; [|done].
    apply in_state_true in E. apply (Hre MOD_DRAINING Hi).
    + unfold holding, in_state. by rewrite E.
    + unfold vacant, in_state. by rewrite E.
  - destruct (in_state (modules m !!! i) MOD_DRAINING) eqn:E; [|done]. apply in_state_true in E.
    apply (Hre MOD_ACTIVE Hi).
    + unfold holding, in_state. by rewrite E.
    + unfold vacant, in_state. by rewrite E.
  - destruct (in_state (modules m !!! i) MOD_STOPPED) eqn:E; [|done]. apply in_state_true in E.
    apply (Hre MOD_UNLOADED Hi).
    + unfold holding, in_state. by rewrite E.
    + done.
Qed.

Lemma reachable_ledger m acq : reachable m acq -> ledger_ok m acq.
Proof.
  induction 1 as [|m acq o _ IH Hf]; [apply zero_ledger|].
  destruct o; cbn [mod_step ghost_step]; cbn [op_fair] in Hf.
  - by apply add_ledger.
  - by apply start_ledger.
  - by apply (acquire_ledger m acq).
  - by apply (release_ledger m acq).
  - by apply restate_ops_ledger.
  - by apply restate_ops_ledger.
  - by apply stop_ledger.
  - by apply restate_ops_ledger.
Qed.

(** C29. The lease ledger is exact: in every state reachable by registry calls,
    where callers release only what they acquired, a running module's providers
    are running at exactly the generation it was registered against, and each
    counter is the references acquired by callers plus, for leases, the number of
    running dependents. *)
Theorem manager_ledger_exact m acq : reachable m acq ->
  (forall i j, (i < MODULES)%nat -> (j < MODULES)%nat ->
     holding (modules m !!! i) = true -> has_dep (dependencies (modules m !!! i)) j = true ->
     j <> i /\ holding (modules m !!! j) = true /\
     mod_generation (modules m !!! j) = nth j (dependency_generations (modules m !!! i)) 0) /\
  (forall i r, (i < MODULES)%nat -> (r < RES_COUNT)%nat ->
     nth r (resources (modules m !!! i)) 0 = acq i r + (if (r =? RES_LEASE)%nat then holders m i else 0)) /\
  (forall i j, (i < MODULES)%nat -> (j < MODULES)%nat -> 0 < mod_generation (modules m !!! i) ->
     mod_generation (modules m !!! i) = mod_generation (modules m !!! j) -> i = j).
Proof.
  intros Hr. apply reachable_ledger in Hr as Hok. split; [|split].
  - intros i j Hi Hj Hh Hd. apply (lo_bound _ _ Hok); try done. unfold holds_on. by rewrite Hh, Hd.
  - exact (lo_count _ _ Hok).
  - exact (lo_unique _ _ Hok).
Qed.

(** Stopping a draining module of a reachable registry succeeds exactly when
    no caller holds a reference and no dependent runs; otherwise it reports
    leases before other resources and changes nothing.  The checks for a
    malformed ledger never fire. *)
Theorem manager_stop_outcome m acq i : reachable m acq -> (i < MODULES)%nat ->
  state (modules m !!! i) = MOD_DRAINING ->
  ((sfmod_stop m i).1 = 0 <->
     holders m i = 0 /\ forall r, (r < RES_COUNT)%nat -> acq i r = 0) /\
  ((sfmod_stop m i).1 = 0 -> state (modules (sfmod_stop m i).2 !!! i) = MOD_STOPPED) /\
  ((sfmod_stop m i).1 <> 0 -> (sfmod_stop m i).2 = m /\
     (sfmod_stop m i).1 = if 0 <? acq i RES_LEASE + holders m i then SF_DEPENDENCY else SF_BUSY).
Proof.
  intros Hr Hi Hst. apply reachable_ledger in Hr as Hok. pose proof (lo_len _ _ Hok) as Hl.
  unfold sfmod_stop. destruct (Nat.leb_spec MODULES i); [lia|].
  assert (Hds : in_state (modules m !!! i) MOD_DRAINING = true) by (by apply in_state_true).
  assert (Hh : holding (modules m !!! i) = true) by (apply holding_spec; auto).
  rewrite Hds. cbn [negb orb]. cbv zeta.
  assert (Hcnt : forall r, (r < RES_COUNT)%nat -> nth r (resources (modules m !!! i)) 0
             = acq i r + (if (r =? RES_LEASE)%nat then holders m i else 0)) by (intros; by apply (lo_count _ _ Hok)).
  assert (Hpos : 0 <= holders m i) by apply countn_nonneg.
  assert (Ha : forall r, (r < RES_COUNT)%nat -> 0 <= acq i r) by (intros; by apply (lo_acq _ _ Hok)).
  destruct (find_index _ RES_COUNT) as [r|] eqn:Hf; cbn [fst snd].
  - apply find_index_Some in Hf as (Hrc & Ht & Hmin). apply truthy_true in Ht. rewrite Hcnt in Ht by done.
    pose proof (Ha r Hrc). split; [|split].
    + split; [destruct (r =? RES_LEASE)%nat; done|]. intros [Hz Hq]. rewrite (Hq r Hrc), Hz in Ht.
      by destruct (r =? RES_LEASE)%nat.
    + destruct (r =? RES_LEASE)%nat; done.
    + intros _. split; [done|]. destruct (Nat.eqb_spec r RES_LEASE) as [->|Hne].
      * rewrite (proj2 (Z.ltb_lt _ _)) by lia. done.
      * specialize (Hmin RES_LEASE ltac:(sflia)). apply truthy_false in Hmin.
        rewrite Hcnt in Hmin by sflia. change (RES_LEASE =? RES_LEASE)%nat with true in Hmin. cbv iota in Hmin.
        by rewrite Hmin.
  - rewrite find_index_None in Hf.
    assert (Hz : forall r, (r < RES_COUNT)%nat -> acq i r + (if (r =? RES_LEASE)%nat then holders m i else 0) = 0).
    { intros r Hrc. rewrite <-Hcnt by done. apply truthy_false. by apply (Hf r). }
    destruct (lo_typed _ _ Hok i Hi) as (_ & _ & Hd16 & _).
    assert (Hsh : truthy (Z.shiftr (dependencies (modules m !!! i)) 16) = false).
    { apply truthy_false. rewrite Z.shiftr_div_pow2 by lia. apply Z.div_small. lia. }
    rewrite Hsh, (stop_check_go m acq i Hok Hi Hh). cbn [fst snd].
    split; [|split; [|done]].
    + split; [|done]. intros _. pose proof (Hz RES_LEASE ltac:(sflia)) as Hz0.
      change (RES_LEASE =? RES_LEASE)%nat with true in Hz0. cbv iota in Hz0.
      pose proof (Ha RES_LEASE ltac:(sflia)). split; [lia|]. intros r Hrc. specialize (Hz r Hrc).
      pose proof (Ha r Hrc). destruct (r =? RES_LEASE)%nat; lia.
    + intros _. rewrite set_module_lookup by (destruct (adjust_leases_frame (dependencies (modules m !!! i)) (-1) m Hl); lia).
      by case_decide.
Qed.

(** A provider and a dependent, both running. *)
Definition ex_ops : list mod_op :=
  [OpAdd [112] 0 false; OpStart 0; OpAdd [99] 1 false; OpStart 1; OpAcquire 0 1; OpPrepare 0].

Definition run_ops (os : list mod_op) : SfManager * ghost :=
  fold_left (fun s o => ((mod_step o s.1).2, ghost_step o (mod_step o s.1).1 s.2)) os
            (zero_manager, fun _ _ => 0).

Lemma ex_reachable : reachable (run_ops ex_ops).1 (run_ops ex_ops).2.
Proof.
  unfold run_ops, ex_ops. cbn [fold_left fst snd].
  do 6 (apply reach_step; [|cbn [op_fair]; try lia; exact I]). apply reach_init.
Qed.

Lemma manager_ledger_exact_witness :
  holding (modules (run_ops ex_ops).1 !!! 1%nat) = true /\
  holding (modules (run_ops ex_ops).1 !!! 0%nat) = true.
Proof.
  split; [vm_compute; reflexivity|].
  apply (proj1 (manager_ledger_exact _ _ ex_reachable) 1%nat 0%nat); [sflia|sflia|vm_compute; reflexivity..].
Defined.

Lemma manager_stop_outcome_witness :
  (sfmod_stop (run_ops ex_ops).1 0).1 <> 0 /\ (sfmod_stop (run_ops ex_ops).1 0).2 = (run_ops ex_ops).1.
Proof.
  assert (H : (sfmod_stop (run_ops ex_ops).1 0).1 <> 0) by (vm_compute; congruence).
  split; [exact H|].
  apply (manager_stop_outcome _ _ 0 ex_reachable); [sflia|vm_compute; reflexivity|exact H].
Defined.
