(* ===== verification/ManagerCycle.v ===== *)
(** * Dependency cycles

    [sfmod_cycle] of [services/manager.c]: a depth-first search with three
    marks per module (0 new, 1 on the current path, 2 finished) that writes the
    path into a bounded character buffer.  A write outside the buffer and an
    exhausted recursion budget are both [None], so that a result other than
    [None] includes memory safety and termination. *)

From stdpp Require Import relations.
From S2P Require Import Prelude Bytes Abi Manager.
Open Scope Z_scope.

(** [chain[k]=v]. *)
Definition poke (l : list Z) (k : nat) (v : Z) : option (list Z) :=
  if (k <? length l)%nat then Some (<[k:=v]> l) else None.

Definition mark (marks : list Z) (i : nat) : Z := nth i marks 0.

Fixpoint visit (fuel : nat) (deps : list Z) (n i : nat) (marks chain : list Z) (size depth : nat)
  : option (bool * (list Z * list Z)) :=
  match fuel with
  | O => None
  | S fuel =>
      if mark marks i =? 1 then
        chain ← (if (depth + 2 <? size)%nat
                 then chain ← poke chain depth (65 + Z.of_nat i); poke chain (depth + 1) 0
                 else Some chain);
        Some (true, (marks, chain))
      else if mark marks i =? 2 then Some (false, (marks, chain))
      else
        let marks := <[i:=1]> marks in
        if (size <=? depth + 2)%nat then Some (true, (marks, chain))
        else
          chain ← poke chain depth (65 + Z.of_nat i);
          chain ← poke chain (depth + 1) 62;
          chain ← poke chain (depth + 2) 0;
          match loop_exit n (fun j '(marks, chain) =>
                  if has_dep (nth i deps 0) j then
                    match visit fuel deps n j marks chain size (depth + 2) with
                    | Some (false, s) => Go s
                    | r => Done r
                    end
                  else Go (marks, chain)) (marks, chain) with
          | Done r => r
          | Go (marks, chain) =>
              chain ← poke chain depth 0;
              Some (false, (<[i:=2]> marks, chain))
          end
  end.

(** Every nested call marks a new module, so sixteen nested calls and the one
    that meets a mark are enough. *)
Definition CYCLE_FUEL : nat := 17.

Definition sfmod_cycle (deps : list Z) (n : nat) (chain : list Z) (size : nat)
  : option (Z * list Z) :=
  if (16 <? n)%nat || (size <? 4)%nat then Some (SF_INVALID, chain)
  else
    match loop_exit n (fun i '(marks, chain) =>
            if truthy (Z.shiftr (nth i deps 0) (Z.of_nat n)) then Done (Some (SF_DEPENDENCY, chain))
            else match visit CYCLE_FUEL deps n i marks chain size 0 with
                 | None => Done None
                 | Some (true, (_, chain)) => Done (Some (SF_DEPENDENCY, chain))
                 | Some (false, s) => Go s
                 end) (replicate 16 0, chain) with
    | Done r => r
    | Go (_, chain) => chain ← poke chain 0 0; Some (0, chain)
    end.

(** ** The dependency graph *)

Definition edge (deps : list Z) (n : nat) (i j : nat) : Prop :=
  (j < n)%nat /\ has_dep (nth i deps 0) j = true.

(** Some module below [n] depends on itself, directly or not. *)
Definition cyclic (deps : list Z) (n : nat) : Prop :=
  exists c, (c < n)%nat /\ tc (edge deps n) c c.

Lemma poke_in l k v : (k < length l)%nat -> poke l k v = Some (<[k:=v]> l).
Proof. intros H. unfold poke. by rewrite (proj2 (Nat.ltb_lt _ _)). Qed.

Lemma mark_insert marks i v k : (i < length marks)%nat ->
  mark (<[i:=v]> marks) k = if decide (k = i) then v else mark marks k.
Proof.
  intros Hi. unfold mark. rewrite !nth_lookup. case_decide as E.
  - subst. by rewrite list_lookup_insert_eq.
  - by rewrite list_lookup_insert_ne.
Qed.

Section Search.
Context (deps : list Z) (n size : nat).
Hypothesis Hn : (n <= 16)%nat.
Hypothesis Hsize : (4 <= size)%nat.

Notation dep := (edge deps n).

Definition gray (marks : list Z) : Z := countn (fun k => mark marks k =? 1) n.

(** Finished modules are closed under dependency and lie on no cycle. *)
Record marks_ok (marks : list Z) : Prop := {
  mo_len : length marks = 16%nat;
  mo_closed : forall b c, mark marks b = 2 -> dep b c -> mark marks c = 2;
  mo_acyclic : forall b, mark marks b = 2 -> ~ tc dep b b
}.

Lemma closed_reach marks b c : marks_ok marks -> mark marks b = 2 -> tc dep b c -> mark marks c = 2.
Proof.
  intros Hok Hb Hp. induction Hp as [x y He|x y z He _ IH].
  - by apply (mo_closed _ Hok x).
  - apply IH. by apply (mo_closed _ Hok x).
Qed.

Lemma marks_gray marks i : marks_ok marks -> (i < n)%nat -> mark marks i <> 2 ->
  marks_ok (<[i:=1]> marks).
Proof.
  intros Hok Hi Hw. pose proof (mo_len _ Hok) as Hl.
  assert (Hb : forall k, mark (<[i:=1]> marks) k = 2 <-> mark marks k = 2).
  { intros k. rewrite mark_insert by lia. case_decide; [subst; lia|done]. }
  split.
  - by rewrite length_insert.
  - intros b c H1 H2. apply Hb. apply Hb in H1. by apply (mo_closed _ Hok b).
  - intros b H1. apply Hb in H1. by apply (mo_acyclic _ Hok).
Qed.

Lemma marks_black marks i : marks_ok marks -> (i < n)%nat -> mark marks i = 1 ->
  (forall j, dep i j -> mark marks j = 2) -> marks_ok (<[i:=2]> marks).
Proof.
  intros Hok Hi Hg Hs. pose proof (mo_len _ Hok) as Hl.
  assert (Hb : forall k, mark marks k = 2 -> mark (<[i:=2]> marks) k = 2).
  { intros k Hk. rewrite mark_insert by lia. by case_decide. }
  split.
  - by rewrite length_insert.
  - intros b c H1 H2. rewrite mark_insert in H1 by lia. apply Hb. case_decide; subst; auto.
    by apply (mo_closed _ Hok b).
  - intros b H1. rewrite mark_insert in H1 by lia. case_decide as Eq; [subst b|by apply (mo_acyclic _ Hok)].
    intros Hp. assert (mark marks i = 2); [|lia]. inversion Hp as [x y He|x y z He Hr]; subst; [by apply Hs|].
    apply (closed_reach marks y i Hok); auto.
Qed.

Lemma gray_insert marks i : (i < n)%nat -> length marks = 16%nat -> mark marks i <> 1 ->
  gray (<[i:=1]> marks) = gray marks + 1.
Proof.
  intros Hi Hl Hm. unfold gray. apply (countn_flip _ _ n i Hi).
  - by apply Z.eqb_neq.
  - rewrite mark_insert by lia. by case_decide.
  - intros k _ Hk. rewrite mark_insert by lia. by case_decide.
Qed.

Lemma gray_same marks marks' : (forall k, mark marks' k = 1 <-> mark marks k = 1) -> gray marks' = gray marks.
Proof. intros H. apply countn_ext. intros k _. specialize (H k). destruct (Z.eqb_spec (mark marks' k) 1), (Z.eqb_spec (mark marks k) 1); tauto. Qed.

(** What a call needs and what it leaves. *)
Record visit_pre (fuel i : nat) (marks chain : list Z) (depth : nat) : Prop := {
  vp_i : (i < n)%nat;
  vp_marks : marks_ok marks;
  vp_chain : length chain = size;
  vp_term : depth = 0%nat \/ chain !! depth = Some 0;
  vp_depth : Z.of_nat depth = 2 * gray marks;
  vp_fuel : Z.of_nat n < Z.of_nat fuel + gray marks;
  vp_path : forall g, (g < n)%nat -> mark marks g = 1 -> tc dep g i
}.

Record finished (marks chain : list Z) (marks' chain' : list Z) (depth : nat) : Prop := {
  fi_marks : marks_ok marks';
  fi_chain : length chain' = size;
  fi_gray : forall k, mark marks' k = 1 <-> mark marks k = 1;
  fi_black : forall k, mark marks k = 2 -> mark marks' k = 2;
  fi_term : chain' !! depth = Some 0 \/ chain' = chain
}.

(** The search stopped: the buffer holds a terminated string, and if it was
    long enough for any path there is a cycle. *)
Definition stopped (chain' : list Z) : Prop :=
  length chain' = size /\ (exists k, chain' !! k = Some 0) /\ ((2 * n < size)%nat -> cyclic deps n).

Definition visit_post (i : nat) (marks chain : list Z) (depth : nat)
    (r : option (bool * (list Z * list Z))) : Prop :=
  match r with
  | None => False
  | Some (true, (_, chain')) => stopped chain'
  | Some (false, (marks', chain')) => finished marks chain marks' chain' depth /\ mark marks' i = 2
  end.

Lemma gray_max marks i : (i < n)%nat -> mark marks i <> 1 -> gray marks < Z.of_nat n.
Proof.
  intros Hi Hm. unfold gray.
  assert (H : forall p m, countn p m <= Z.of_nat m).
  { intros p m. induction m as [|m IH]; cbn [countn]; [lia|]. destruct (p m); unfold b2z; lia. }
  pose proof (countn_flip (fun k => mark marks k =? 1) (fun k => (k =? i)%nat || (mark marks k =? 1)) n i Hi) as F.
  specialize (H (fun k => (k =? i)%nat || (mark marks k =? 1)) n). rewrite F in H; [lia| | |].
  - by apply Z.eqb_neq.
  - by rewrite Nat.eqb_refl.
  - intros k _ Hk. by rewrite (proj2 (Nat.eqb_neq _ _) Hk).
Qed.

Lemma visit_on_path fuel i marks chain depth : visit_pre (S fuel) i marks chain depth -> mark marks i = 1 ->
  visit_post i marks chain depth (visit (S fuel) deps n i marks chain size depth).
Proof.
  intros [Hi Hm Hc Ht Hd _ Hp] Hg. cbn [visit]. rewrite (proj2 (Z.eqb_eq _ _) Hg).
  assert (Hcy : cyclic deps n) by (exists i; auto).
  destruct (Nat.ltb_spec (depth + 2) size) as [Hlt|Hge].
  - rewrite poke_in by lia. cbn [mbind option_bind]. rewrite poke_in by (rewrite length_insert; lia).
    cbn [mbind option_bind]. split; [by rewrite !length_insert|split; [|done]].
    exists (depth + 1)%nat. apply list_lookup_insert_eq. rewrite length_insert. lia.
  - cbn [mbind option_bind]. split; [done|split; [|done]].
    destruct Ht as [->|Ht]; [lia|]. eauto.
Qed.

(** The marks and the buffer when the dependencies of [i] are searched. *)
Definition entered (i : nat) (chain : list Z) (depth : nat) : list Z :=
  <[(depth + 2)%nat:=0]> (<[(depth + 1)%nat:=62]> (<[depth:=65 + Z.of_nat i]> chain)).

Lemma child_pre fuel i j marks chain depth marks' chain' :
  visit_pre (S fuel) i marks chain depth -> mark marks i <> 1 -> dep i j ->
  finished (<[i:=1]> marks) (entered i chain depth) marks' chain' (depth + 2) ->
  chain' !! (depth + 2)%nat = Some 0 ->
  visit_pre fuel j marks' chain' (depth + 2).
Proof.
  intros [Hi Hm Hc Ht Hd Hf Hp] Hg He [Fm Fc Fg Fb _] H0. pose proof (mo_len _ Hm) as Hl.
  assert (HG : gray marks' = gray marks + 1).
  { rewrite (gray_same _ _ Fg). by apply gray_insert. }
  split; try done.
  - apply He.
  - by right.
  - lia.
  - lia.
  - intros g Hgn Hgm. apply Fg in Hgm. rewrite mark_insert in Hgm by lia. case_decide.
    + subst. by apply tc_once.
    + apply tc_r with i; auto.
Qed.

Lemma finished_trans marks0 chain0 marks chain marks' chain' depth :
  finished marks0 chain0 marks chain depth -> finished marks chain marks' chain' depth ->
  chain !! depth = Some 0 -> finished marks0 chain0 marks' chain' depth /\ chain' !! depth = Some 0.
Proof.
  intros [_ _ G1 B1 T1] [M2 C2 G2 B2 T2] H0.
  assert (H0' : chain' !! depth = Some 0) by (destruct T2 as [|T2]; [done|by rewrite T2]).
  split; [|done]. split; auto. intros k. by rewrite G2.
Qed.

(** All dependencies of [i] are finished: [i] is finished too. *)
Lemma visit_close i marks chain0 ms ch chain depth :
  marks_ok marks -> (i < n)%nat -> mark marks i <> 1 -> mark marks i <> 2 -> (depth + 2 < size)%nat ->
  finished (<[i:=1]> marks) chain0 ms ch (depth + 2) -> (forall j, dep i j -> mark ms j = 2) ->
  finished marks chain (<[i:=2]> ms) (<[depth:=0]> ch) depth /\ mark (<[i:=2]> ms) i = 2.
Proof.
  intros Hm Hi Hg Hb Hs [Fm Fc Fg Fb _] Hdone. pose proof (mo_len _ Hm) as Hl. pose proof (mo_len _ Fm) as Hlm.
  split; [|rewrite mark_insert by lia; by case_decide]. split.
  - apply marks_black; auto. apply Fg. rewrite mark_insert by lia. by case_decide.
  - by rewrite length_insert.
  - intros k. rewrite mark_insert by lia. case_decide as Ek; [subst; lia|].
    rewrite Fg, mark_insert by lia. by case_decide.
  - intros k Hk. rewrite mark_insert by lia. case_decide as Ek; [done|]. apply Fb.
    rewrite mark_insert by lia. by case_decide.
  - left. apply list_lookup_insert_eq. lia.
Qed.

Lemma visit_spec : forall fuel i marks chain depth, visit_pre fuel i marks chain depth ->
  visit_post i marks chain depth (visit fuel deps n i marks chain size depth).
Proof.
  induction fuel as [|fuel IH]; intros i marks chain depth Hpre; pose proof Hpre as [Hi Hm Hc Ht Hd Hf Hp].
  { exfalso. assert (gray marks <= Z.of_nat n); [|lia]. clear. unfold gray.
    induction n as [|m IH]; cbn [countn]; [lia|]. destruct (mark marks m =? 1); unfold b2z; lia. }
  destruct (Z.eqb_spec (mark marks i) 1) as [Hg|Hg]; [by apply visit_on_path|].
  cbn [visit]. rewrite (proj2 (Z.eqb_neq _ _) Hg).
  pose proof (mo_len _ Hm) as Hl. pose proof (gray_max marks i Hi Hg) as Hmax.
  destruct (Z.eqb_spec (mark marks i) 2) as [Hb|Hb].
  { split; [|done]. split; auto. }
  cbv zeta. destruct (Nat.leb_spec size (depth + 2)) as [Hs|Hs].
  { split; [done|split; [|lia]]. destruct Ht as [->|Ht]; [lia|eauto]. }
  rewrite poke_in by lia. cbn [mbind option_bind]. rewrite poke_in by (rewrite !length_insert; lia).
  cbn [mbind option_bind]. rewrite poke_in by (rewrite !length_insert; lia). cbn [mbind option_bind].
  fold (entered i chain depth).
  pose (P := fun k (s : list Z * list Z) =>
    finished (<[i:=1]> marks) (entered i chain depth) s.1 s.2 (depth + 2) /\
    s.2 !! (depth + 2)%nat = Some 0 /\ forall j, (j < k)%nat -> dep i j -> mark s.1 j = 2).
  match goal with |- context [loop_exit n ?b ?s] => set (body := b); set (s0 := s) end.
  assert (L : match loop_exit n body s0 with
              | Go s => P n s
              | Done r => visit_post i marks chain depth r end).
  { apply (loop_exit_inv P (visit_post i marks chain depth)).
    - assert (H0 : entered i chain depth !! (depth + 2)%nat = Some 0)
        by (apply list_lookup_insert_eq; rewrite !length_insert; lia).
      split; [|split; [done|intros; lia]]. split; auto.
      + by apply marks_gray.
      + unfold s0, entered. cbn [snd]. by rewrite !length_insert.
    - intros j [ms ch] Hj (Fin & H0 & Hdone). unfold body. cbn [fst snd] in *.
      destruct (has_dep (nth i deps 0) j) eqn:Hdep.
      + assert (He : dep i j) by done.
        pose proof (IH j ms ch (depth + 2)%nat (child_pre fuel i j marks chain depth ms ch Hpre Hg He Fin H0)) as Hv.
        destruct (visit fuel deps n j ms ch size (depth + 2)) as [[[] [ms' ch']]|]; [exact Hv| |done].
        destruct Hv as [Fin' Hj2]. destruct (finished_trans _ _ _ _ _ _ _ Fin Fin' H0) as [F2 H0'].
        split; [done|split; [done|]]. intros k Hk Hek. destruct (decide (k = j)) as [->|]; [done|].
        apply (fi_black _ _ _ _ _ Fin'). apply Hdone; [lia|done].
      + split; [done|split; [done|]]. intros k Hk Hek. destruct (decide (k = j)) as [->|]; [|apply Hdone; [lia|done]].
        destruct Hek. congruence. }
  destruct (loop_exit n body s0) as [r|[ms ch]]; [done|]. destruct L as (Fin & H0 & Hdone).
  cbn [fst snd] in *. rewrite poke_in by (rewrite (fi_chain _ _ _ _ _ Fin); lia). cbn [mbind option_bind visit_post].
  apply (visit_close i marks (entered i chain depth)); auto. intros j Hj. apply Hdone; [apply Hj|done].
Qed.

End Search.

Definition deps_in_range (deps : list Z) (n : nat) : Prop :=
  forall i, (i < n)%nat -> Z.shiftr (nth i deps 0) (Z.of_nat n) = 0.

(** The modules searched so far are finished and none is on the path. *)
Record searched (deps : list Z) (n size k : nat) (marks chain : list Z) : Prop := {
  se_marks : marks_ok deps n marks;
  se_gray : forall g, mark marks g <> 1;
  se_chain : length chain = size;
  se_done : forall i, (i < k)%nat -> mark marks i = 2;
  se_range : forall i, (i < k)%nat -> Z.shiftr (nth i deps 0) (Z.of_nat n) = 0
}.

Definition cycle_result (deps : list Z) (n size : nat) (r : option (Z * list Z)) : Prop :=
  match r with
  | None => False
  | Some (r, chain') =>
      length chain' = size /\ r = SF_DEPENDENCY /\
      (deps_in_range deps n -> (exists k, chain' !! k = Some 0) /\ ((2 * n < size)%nat -> cyclic deps n))
  end.

Lemma searched_step deps n size k marks chain : (n <= 16)%nat -> (4 <= size)%nat -> (k < n)%nat ->
  searched deps n size k marks chain -> Z.shiftr (nth k deps 0) (Z.of_nat n) = 0 ->
  match visit CYCLE_FUEL deps n k marks chain size 0 with
  | None => False
  | Some (true, (_, chain')) => stopped deps n size chain'
  | Some (false, (marks', chain')) => searched deps n size (S k) marks' chain'
  end.
Proof.
  intros Hn Hs Hk [Sm Sg Sc Sd Sr] Hr.
  assert (HG : gray n marks = 0).
  { apply countn_all_false. intros i _. apply Z.eqb_neq, Sg. }
  pose proof (visit_spec deps n size Hn Hs CYCLE_FUEL k marks chain 0) as V.
  assert (Hpre : visit_pre deps n size CYCLE_FUEL k marks chain 0).
  { split; auto; try lia. - unfold CYCLE_FUEL. lia. - intros g _ Hg. by destruct (Sg g). }
  specialize (V Hpre). clear Hpre. destruct (visit CYCLE_FUEL deps n k marks chain size 0) as [[[] [ms ch]]|]; try exact V.
  destruct V as [[Fm Fc Fg Fb _] Hk2]. split; auto.
  - intros g Hg. apply Fg in Hg. by destruct (Sg g).
  - intros i Hi. destruct (decide (i = k)) as [->|]; [done|]. apply Fb, Sd. lia.
  - intros i Hi. destruct (decide (i = k)) as [->|]; [done|]. apply Sr. lia.
Qed.

(** C30. The cycle search terminates, stays inside its buffer and is correct: it
    answers 0 only for an acyclic dependency table, with any buffer it accepts;
    when the buffer is longer than twice the number of modules it answers 0 for
    every acyclic table, so a rejection proves a cycle; and the buffer then
    holds a terminated string. *)
Theorem sfmod_cycle_correct deps n chain : (n <= 16)%nat -> (4 <= length chain)%nat ->
  exists r chain', sfmod_cycle deps n chain (length chain) = Some (r, chain') /\
    length chain' = length chain /\ (r = 0 \/ r = SF_DEPENDENCY) /\
    (r = 0 -> deps_in_range deps n /\ ~ cyclic deps n) /\
    (deps_in_range deps n -> exists k, chain' !! k = Some 0) /\
    (deps_in_range deps n -> (2 * n < length chain)%nat -> (r = 0 <-> ~ cyclic deps n)).
Proof.
  intros Hn Hs. unfold sfmod_cycle. destruct (Nat.ltb_spec 16 n); [lia|].
  destruct (Nat.ltb_spec (length chain) 4); [lia|]. cbn [orb].
  match goal with |- context [loop_exit n ?b ?s] => set (body := b); set (s0 := s) end.
  set (size := length chain) in *.
  assert (L : match loop_exit n body s0 with
              | Go s => searched deps n size n s.1 s.2
              | Done r => cycle_result deps n size r end).
  { apply (loop_exit_inv (fun k s => searched deps n size k s.1 s.2) (cycle_result deps n size)).
    - assert (Hz : forall g, mark (replicate 16 0) g = 0)
        by (intros g; unfold mark; apply nth_zeros).
      split; [split; [done|intros b c Hb|intros b Hb]; unfold s0 in Hb; cbn [fst] in Hb; rewrite Hz in Hb; lia| |done|lia|lia].
      intros g. cbn [fst s0]. rewrite Hz. lia.
    - intros k [ms ch] Hk Hse. unfold body. cbn [fst snd] in *.
      destruct (truthy (Z.shiftr (nth k deps 0) (Z.of_nat n))) eqn:Ht.
      + apply truthy_true in Ht. split; [apply Hse|split; [done|]]. intros Hr. by destruct Ht; apply Hr.
      + apply truthy_false in Ht. pose proof (searched_step _ _ _ _ _ _ Hn Hs Hk Hse Ht) as V.
        destruct (visit CYCLE_FUEL deps n k ms ch size 0) as [[[] [ms' ch']]|]; [|exact V..].
        destruct V as (V1 & V2 & V3). by split. }
  destruct (loop_exit n body s0) as [[[r ch]|]|[ms ch]]; [|done|].
  - destruct L as (L1 & -> & L3). exists SF_DEPENDENCY, ch. split; [done|]. split; [done|]. split; [auto|].
    split; [done|]. split; [apply L3|]. intros Hr Hlen. split; [done|]. intros Hc. by destruct Hc; apply L3.
  - destruct L as [Sm Sg Sc Sd Sr]. cbn [fst snd] in *. rewrite poke_in by lia. cbn [mbind option_bind].
    assert (Hac : ~ cyclic deps n).
    { intros (c & Hc & Hp). by apply (mo_acyclic _ _ _ Sm c (Sd c Hc)). }
    exists 0, (<[0%nat:=0]> ch). split; [done|]. split; [by rewrite length_insert|]. split; [auto|].
    split; [by split|]. split; [|done]. intros _. exists 0%nat. apply list_lookup_insert_eq. lia.
Qed.

Lemma sfmod_cycle_correct_witness :
  exists r chain', sfmod_cycle [2; 4; 1] 3 (fill 0 16) (length (fill 0 16)) = Some (r, chain') /\ r = SF_DEPENDENCY.
Proof.
  destruct (sfmod_cycle_correct [2; 4; 1] 3 (fill 0 16)) as (r & ch & H & _); [lia|vm_compute; lia|].
  exists r, ch. split; [exact H|]. vm_compute in H. injection H as <- _. reflexivity.
Defined.
