(* ===== verification/CMem.v ===== *)
(** * Byte-addressed memory

    Memory as a total function from addresses to bytes, with the reads and
    writes the C code performs on it, NUL-terminated strings and the bounded
    [while] loop.  Pointers are unreduced integers: the code modelled here
    does no pointer arithmetic that wraps. *)

From S2P Require Import Prelude Bytes.

Definition mem := Z -> Z.

(** [*p=v]. *)
Definition upd (m : mem) (a v : Z) : mem := fun x => if x =? a then v else m x.

Definition mread (m : mem) (a n : Z) : list Z :=
  map (fun i => m (a + Z.of_nat i)) (seq 0 (Z.to_nat n)).

Definition mwrite (m : mem) (a : Z) (bs : list Z) : mem :=
  fun x => if (a <=? x) && (x <? a + zlen bs) then at_ bs (x - a) else m x.

Definition load32 (m : mem) (a : Z) : Z := le_val (mread m a 4).
Definition store32 (m : mem) (a v : Z) : mem := mwrite m a (le_bytes 4 v).
Definition load64 (m : mem) (a : Z) : Z := le_val (mread m a 8).
Definition store64 (m : mem) (a v : Z) : mem := mwrite m a (le_bytes 8 v).

(** [while (c(s)) s=b(s)], [None] when the fuel does not suffice. *)
Fixpoint while {S : Type} (fuel : nat) (c : S -> bool) (b : S -> S) (s : S) : option S :=
  if c s then match fuel with O => None | Datatypes.S f => while f c b (b s) end else Some s.

Lemma while_total {S} (Inv : S -> Prop) (measure : S -> nat) c (b : S -> S) :
  (forall s, Inv s -> c s = true -> Inv (b s) /\ (measure (b s) < measure s)%nat) ->
  forall fuel s, Inv s -> (measure s <= fuel)%nat ->
  exists s', while fuel c b s = Some s' /\ Inv s' /\ c s' = false.
Proof.
  intros Hstep. induction fuel as [|fuel IH]; intros s Hi Hm; cbn [while]; destruct (c s) eqn:Hc; eauto.
  - destruct (Hstep s Hi Hc). lia.
  - destruct (Hstep s Hi Hc). apply IH; [done|lia].
Qed.

Lemma while_sound {S} (Inv : S -> Prop) c (b : S -> S) :
  (forall s, Inv s -> c s = true -> Inv (b s)) ->
  forall fuel s s', Inv s -> while fuel c b s = Some s' -> Inv s' /\ c s' = false.
Proof.
  intros Hstep. induction fuel as [|fuel IH]; intros s s' Hi; cbn [while]; destruct (c s) eqn:Hc; try done.
  - intros [= <-]. done.
  - intros Hw. apply (IH (b s)); auto.
  - intros [= <-]. done.
Qed.

(** Case analysis on the comparisons of a goal, keeping the consistent cases. *)
Ltac bcase :=
  repeat match goal with
  | |- context [Z.leb ?a ?b] => destruct (Z.leb_spec a b); try lia
  | |- context [Z.ltb ?a ?b] => destruct (Z.ltb_spec a b); try lia
  | |- context [Z.eqb ?a ?b] => destruct (Z.eqb_spec a b); try lia
  end; cbn [andb orb negb].

(** [s] is the NUL-terminated string at [a]. *)
Fixpoint cstring (m : mem) (a : Z) (s : list Z) : Prop :=
  match s with
  | [] => m a = 0
  | c :: s => m a = c /\ c <> 0 /\ cstring m (a + 1) s
  end.

Lemma cstring_ext m m' a s : (forall x, a <= x <= a + zlen s -> m x = m' x) -> cstring m a s -> cstring m' a s.
Proof.
  revert a. induction s as [|c s IH]; intros a Hx; cbn [cstring].
  - intros Hz. rewrite <-Hx by (rewrite zlen_nil; lia). done.
  - rewrite zlen_cons in Hx. pose proof (zlen_nonneg s). intros (Hc & Hn & Hs).
    split; [rewrite <-Hx by lia; done|]. split; [done|]. apply IH; [|done]. intros x Hr. apply Hx. lia.
Qed.

Lemma cstring_app m a s t : cstring m a (s ++ t) -> cstring m (a + zlen s) t.
Proof.
  revert a. induction s as [|c s IH]; intros a; cbn [cstring app].
  - by rewrite zlen_nil, Z.add_0_r.
  - intros (_ & _ & Hs). apply IH in Hs. rewrite zlen_cons. by replace (a + (1 + zlen s)) with (a + 1 + zlen s) by lia.
Qed.

Lemma upd_same m a v : upd m a v a = v.
Proof. unfold upd. by rewrite Z.eqb_refl. Qed.

Lemma upd_other m a v x : x <> a -> upd m a v x = m x.
Proof. intros. unfold upd. by rewrite (proj2 (Z.eqb_neq _ _)). Qed.

(** Cutting a string with a NUL. *)
Lemma cstring_cut m a s t : cstring m a (s ++ t) -> cstring (upd m (a + zlen s) 0) a s.
Proof.
  revert a. induction s as [|c s IH]; intros a; cbn [cstring app].
  - intros _. rewrite zlen_nil, Z.add_0_r. apply upd_same.
  - rewrite zlen_cons. pose proof (zlen_nonneg s). intros (Hc & Hn & Hs). rewrite upd_other by lia.
    split; [done|]. split; [done|]. replace (a + (1 + zlen s)) with (a + 1 + zlen s) by lia. by apply IH.
Qed.

(** ** Reads and writes *)

Lemma zlen_mread m a n : 0 <= n -> zlen (mread m a n) = n.
Proof. intros. unfold zlen, mread. rewrite length_map, length_seq. lia. Qed.

Lemma mread_ext m m' a n : (forall x, a <= x < a + n -> m x = m' x) -> mread m a n = mread m' a n.
Proof.
  intros Hx. unfold mread. apply map_ext_in. intros i Hi. apply in_seq in Hi. apply Hx. lia.
Qed.

Lemma mwrite_out m a bs x : x < a \/ a + zlen bs <= x -> mwrite m a bs x = m x.
Proof.
  intros Hx. unfold mwrite. destruct (Z.leb_spec a x); [|done]. destruct (Z.ltb_spec x (a + zlen bs)); [lia|done].
Qed.

Lemma mread_nth m a n i : 0 <= i < n -> at_ (mread m a n) i = m (a + i).
Proof.
  intros Hi. unfold at_, mread. rewrite (list_lookup_fmap _ (seq 0 (Z.to_nat n))), lookup_seq_lt by lia. simpl. f_equal. lia.
Qed.

Lemma mread_mwrite_same m a bs : mread (mwrite m a bs) a (zlen bs) = bs.
Proof.
  apply buf_ext; [by rewrite zlen_mread by apply zlen_nonneg|].
  intros i Hi. rewrite zlen_mread in Hi by apply zlen_nonneg. rewrite mread_nth by lia.
  unfold mwrite. rewrite (proj2 (Z.leb_le _ _)), (proj2 (Z.ltb_lt _ _)) by lia. simpl. f_equal. lia.
Qed.

Lemma load64_ext m m' a : (forall x, a <= x < a + 8 -> m x = m' x) -> load64 m a = load64 m' a.
Proof. intros Hx. unfold load64. f_equal. by apply mread_ext. Qed.

Lemma load64_store64_same m a v : 0 <= v <= UINT64_MAX -> load64 (store64 m a v) a = v.
Proof.
  intros Hv. unfold load64, store64. pose proof (mread_mwrite_same m a (le_bytes 8 v)) as E.
  rewrite zlen_le_bytes in E. change (Z.of_nat 8) with 8 in E. rewrite E. apply le_val_bytes. sflia.
Qed.

Lemma load64_mwrite_other m a bs x : x + 8 <= a \/ a + zlen bs <= x -> load64 (mwrite m a bs) x = load64 m x.
Proof. intros Hx. apply load64_ext. intros y Hy. apply mwrite_out. lia. Qed.

Lemma load64_store64_other m a v x : x + 8 <= a \/ a + 8 <= x -> load64 (store64 m a v) x = load64 m x.
Proof. intros. apply load64_mwrite_other. rewrite zlen_le_bytes. lia. Qed.

Lemma load64_zero m a n x : a <= x -> x + 8 <= a + n -> load64 (mwrite m a (fill 0 n)) x = 0.
Proof.
  intros H1 H2. unfold load64. replace (mread (mwrite m a (fill 0 n)) x 8) with (fill 0 8); [done|].
  apply buf_ext; [rewrite zlen_mread by lia; done|]. intros i Hi. rewrite zlen_fill in Hi by lia.
  rewrite mread_nth by lia. unfold mwrite. rewrite zlen_fill by lia.
  rewrite (proj2 (Z.leb_le _ _)), (proj2 (Z.ltb_lt _ _)) by lia. cbn [andb].
  unfold at_, fill. rewrite !lookup_replicate_2 by lia. done.
Qed.


Lemma load32_store32_same m a v : 0 <= v <= UINT32_MAX -> load32 (store32 m a v) a = v.
Proof.
  intros Hv. unfold load32, store32. pose proof (mread_mwrite_same m a (le_bytes 4 v)) as E.
  rewrite zlen_le_bytes in E. change (Z.of_nat 4) with 4 in E. rewrite E. apply le_val_bytes. sflia.
Qed.

Lemma store32_out m a v x : x < a \/ a + 4 <= x -> store32 m a v x = m x.
Proof. intros. apply mwrite_out. rewrite zlen_le_bytes. lia. Qed.

Lemma load32_ext m m' a : (forall x, a <= x < a + 4 -> m x = m' x) -> load32 m a = load32 m' a.
Proof. intros Hx. unfold load32. f_equal. by apply mread_ext. Qed.

Lemma load32_store32_other m a v x : x + 4 <= a \/ a + 4 <= x -> load32 (store32 m a v) x = load32 m x.
Proof. intros Hx. apply load32_ext. intros y Hy. apply store32_out. lia. Qed.
