(* ===== verification/LibcString.v ===== *)
(** * libc strings

    [recovered/libc/src/string.c] over byte-addressed memory.  A loop bounded
    by a count is structural in the count; a loop that runs to a NUL takes
    fuel and gives [None] when the fuel ends first.  [NULL] is [None]. *)

From S2P Require Import Prelude Bytes CMem.

(** ** Counted routines *)

Fixpoint memset (m : mem) (p c : Z) (n : nat) : mem :=
  match n with
  | O => m
  | S n => memset (upd m p (u8 c)) (p + 1) c n
  end.

Fixpoint memcpy (m : mem) (d s : Z) (n : nat) : mem :=
  match n with
  | O => m
  | S n => memcpy (upd m d (m s)) (d + 1) (s + 1) n
  end.

(** [*--d = *--s]. *)
Fixpoint move_down (m : mem) (d s : Z) (n : nat) : mem :=
  match n with
  | O => m
  | S n => move_down (upd m (d - 1) (m (s - 1))) (d - 1) (s - 1) n
  end.

Definition memmove (m : mem) (d s : Z) (n : nat) : mem :=
  if d <? s then memcpy m d s n else move_down m (d + Z.of_nat n) (s + Z.of_nat n) n.

Fixpoint memcmp (m : mem) (p1 p2 : Z) (n : nat) : Z :=
  match n with
  | O => 0
  | S n => if negb (m p1 =? m p2) then m p1 - m p2 else memcmp m (p1 + 1) (p2 + 1) n
  end.

Fixpoint memchr (m : mem) (p c : Z) (n : nat) : option Z :=
  match n with
  | O => None
  | S n => if m p =? u8 c then Some p else memchr m (p + 1) c n
  end.

(** ** NUL-terminated routines *)

Definition strlen (fuel : nat) (m : mem) (s : Z) : option Z :=
  while fuel (fun len => truthy (m (s + len))) (fun len => len + 1) 0.

(** [while ( ( *d++ = *src++));] *)
Fixpoint copy_str (fuel : nat) (m : mem) (d src : Z) : option mem :=
  let c := m src in
  let m := upd m d c in
  if truthy c then match fuel with O => None | S fuel => copy_str fuel m (d + 1) (src + 1) end
  else Some m.

Definition strcpy (fuel : nat) (m : mem) (dest src : Z) : option mem := copy_str fuel m dest src.

(** [while (n-- && ( *d++ = *src++));] returns what is left of [n], which has
    wrapped to [SIZE_MAX] when the test of [n] ended the loop. *)
Fixpoint strncpy_copy (m : mem) (d src : Z) (n : nat) : Z * Z * mem :=
  match n with
  | O => (UINT64_MAX, d, m)
  | S n =>
      let c := m src in
      let m := upd m d c in
      if truthy c then strncpy_copy m (d + 1) (src + 1) n else (Z.of_nat n, d + 1, m)
  end.

Definition strncpy (m : mem) (dest src : Z) (n : nat) : mem :=
  let '(n, d, m) := strncpy_copy m dest src n in
  memset m d 0 (Z.to_nat n).

Definition strcmp (fuel : nat) (m : mem) (s1 s2 : Z) : option Z :=
  '(s1, s2) ← while fuel (fun '(s1, s2) => truthy (m s1) && (m s1 =? m s2))
                (fun '(s1, s2) => (s1 + 1, s2 + 1)) (s1, s2);
  Some (m s1 - m s2).

Fixpoint strncmp (m : mem) (s1 s2 : Z) (n : nat) : Z :=
  match n with
  | O => 0
  | S n => if truthy (m s1) && (m s1 =? m s2) then strncmp m (s1 + 1) (s2 + 1) n else m s1 - m s2
  end.

Definition find_end (fuel : nat) (m : mem) (d : Z) : option Z :=
  while fuel (fun d => truthy (m d)) (fun d => d + 1) d.

Definition strcat (fuel : nat) (m : mem) (dest src : Z) : option mem :=
  d ← find_end fuel m dest; copy_str fuel m d src.

(** [while (n-- && *src) *d++ = *src++;] *)
Fixpoint strncat_copy (m : mem) (d src : Z) (n : nat) : Z * mem :=
  match n with
  | O => (d, m)
  | S n => if truthy (m src) then strncat_copy (upd m d (m src)) (d + 1) (src + 1) n else (d, m)
  end.

Definition strncat (fuel : nat) (m : mem) (dest src : Z) (n : nat) : option mem :=
  d ← find_end fuel m dest;
  let '(d, m) := strncat_copy m d src n in
  Some (upd m d 0).

Fixpoint strchr (fuel : nat) (m : mem) (s c : Z) : option (option Z) :=
  if truthy (m s) then
    if m s =? u8 c then Some (Some s)
    else match fuel with O => None | S fuel => strchr fuel m (s + 1) c end
  else Some (if c =? 0 then Some s else None).

Fixpoint strrchr_from (fuel : nat) (m : mem) (s c : Z) (last : option Z) : option (option Z) :=
  if truthy (m s) then
    let last := if m s =? u8 c then Some s else last in
    match fuel with O => None | S fuel => strrchr_from fuel m (s + 1) c last end
  else Some (if c =? 0 then Some s else last).

Definition strrchr (fuel : nat) (m : mem) (s c : Z) : option (option Z) := strrchr_from fuel m s c None.

Fixpoint strstr_from (fuel : nat) (m : mem) (haystack needle : Z) (nlen : nat) : option (option Z) :=
  if truthy (m haystack) then
    if (m haystack =? m needle) && (memcmp m haystack needle nlen =? 0) then Some (Some haystack)
    else match fuel with O => None | S fuel => strstr_from fuel m (haystack + 1) needle nlen end
  else Some None.

Definition strstr (fuel : nat) (m : mem) (haystack needle : Z) : option (option Z) :=
  nlen ← strlen fuel m needle;
  if nlen =? 0 then Some (Some haystack) else strstr_from fuel m haystack needle (Z.to_nat nlen).

(** [while ( *a && *a != *s) a++;] *)
Definition scan_set (fuel : nat) (m : mem) (s set : Z) : option Z :=
  while fuel (fun a => truthy (m a) && negb (m a =? m s)) (fun a => a + 1) set.

Fixpoint span_from (fuel : nat) (stop_on_member : bool) (setfuel : nat) (m : mem) (s set len : Z)
  : option Z :=
  if truthy (m s) then
    a ← scan_set setfuel m s set;
    if bool_decide (truthy (m a) = stop_on_member) then Some len
    else match fuel with O => None | S fuel => span_from fuel stop_on_member setfuel m (s + 1) set (len + 1) end
  else Some len.

Definition strspn (fuel : nat) (m : mem) (s accept : Z) : option Z := span_from fuel false fuel m s accept 0.
Definition strcspn (fuel : nat) (m : mem) (s reject : Z) : option Z := span_from fuel true fuel m s reject 0.

Fixpoint strpbrk_from (fuel setfuel : nat) (m : mem) (s accept : Z) : option (option Z) :=
  if truthy (m s) then
    a ← scan_set setfuel m s accept;
    if truthy (m a) then Some (Some s)
    else match fuel with O => None | S fuel => strpbrk_from fuel setfuel m (s + 1) accept end
  else Some None.

Definition strpbrk (fuel : nat) (m : mem) (s accept : Z) : option (option Z) := strpbrk_from fuel fuel m s accept.

(** [strtok] keeps [static char *next]. *)
Definition strtok (fuel : nat) (m : mem) (next str : option Z) (delim : Z)
  : option (option Z * option Z * mem) :=
  let next := match str with Some _ => str | None => next end in
  match next with
  | None => Some (None, None, m)
  | Some next =>
      n ← strspn fuel m next delim;
      let next := next + n in
      if negb (truthy (m next)) then Some (None, None, m)
      else
        let token := next in
        n ← strcspn fuel m next delim;
        let next := next + n in
        if truthy (m next) then Some (Some token, Some (next + 1), upd m next 0)
        else Some (Some token, None, m)
  end.

(** ** Copies *)

Lemma memcpy_forward n : forall m d s x, d < s \/ s + Z.of_nat n <= d ->
  memcpy m d s n x = if (d <=? x) && (x <? d + Z.of_nat n) then m (s + (x - d)) else m x.
Proof.
  induction n as [|n IH]; intros m d s x Hd; cbn [memcpy]; [by bcase|].
  rewrite IH by lia. destruct (Z.eq_dec x d) as [->|Hx].
  - bcase. rewrite upd_same. f_equal. lia.
  - bcase; rewrite ?upd_other by lia; try done. f_equal. lia.
Qed.

Lemma move_down_spec n : forall m d s x, s <= d ->
  move_down m d s n x = if (d - Z.of_nat n <=? x) && (x <? d) then m (s + (x - d)) else m x.
Proof.
  induction n as [|n IH]; intros m d s x Hd; cbn [move_down]; [by bcase|].
  rewrite IH by lia. destruct (Z.eq_dec x (d - 1)) as [->|Hx].
  - bcase. rewrite upd_same. f_equal. lia.
  - bcase; rewrite ?upd_other by lia; try done. f_equal. lia.
Qed.

(** [memmove] copies correctly however the two regions overlap: every byte
    of the destination is the old byte of the source at the same offset, and no
    other byte changes. *)
Theorem memmove_overlap m d s n x :
  memmove m d s n x = if (d <=? x) && (x <? d + Z.of_nat n) then m (s + (x - d)) else m x.
Proof.
  unfold memmove. destruct (Z.ltb_spec d s).
  - apply memcpy_forward. lia.
  - rewrite move_down_spec by lia. replace (d + Z.of_nat n - Z.of_nat n) with d by lia.
    destruct (_ && _); [|done]. f_equal. lia.
Qed.

Lemma memset_spec n : forall m p c x,
  memset m p c n x = if (p <=? x) && (x <? p + Z.of_nat n) then u8 c else m x.
Proof.
  induction n as [|n IH]; intros m p c x; cbn [memset]; [by bcase|].
  rewrite IH. destruct (Z.eq_dec x p) as [->|Hx].
  - bcase. apply upd_same.
  - bcase; try done; by rewrite upd_other.
Qed.

(** The copy loop of [strncpy] on a source that does not overlap the destination. *)
Lemma strncpy_copy_spec n : forall m d src s, cstring m src s ->
  (d + Z.of_nat n <= src \/ src + zlen s < d) ->
  let '(r, d', m') := strncpy_copy m d src n in
  let c := Z.min (Z.of_nat n) (zlen s + 1) in
  d' = d + c /\ r = (if zlen s <? Z.of_nat n then Z.of_nat n - (zlen s + 1) else UINT64_MAX) /\
  (forall x, m' x = if (d <=? x) && (x <? d + c) then m (src + (x - d)) else m x).
Proof.
  induction n as [|n IH]; intros m d src s Hs Hd; cbn [strncpy_copy]; cbv zeta.
  - pose proof (zlen_nonneg s). split; [lia|]. split; [by bcase|]. intros x. by bcase.
  - destruct s as [|c s]; cbn [cstring] in Hs.
    + rewrite Hs. cbn [truthy Z.eqb negb]. rewrite zlen_nil in *.
      split; [lia|]. split; [bcase; lia|].
      intros x. bcase; try (apply upd_other; lia).
      replace x with d by lia. rewrite upd_same, <-Hs. f_equal. lia.
    + destruct Hs as (Hc & Hn & Hs). rewrite zlen_cons in *. pose proof (zlen_nonneg s).
      rewrite Hc, (proj2 (truthy_true c) Hn).
      specialize (IH (upd m d c) (d + 1) (src + 1) s). destruct (strncpy_copy (upd m d c) (d + 1) (src + 1) n) as [[r d'] m'].
      destruct IH as (E1 & E2 & E3); [|lia|].
      { apply (cstring_ext m); [|done]. intros x Hx. rewrite upd_other; [done|lia]. }
      cbv zeta in *. split; [lia|]. split; [rewrite E2; bcase; lia|].
      intros x. rewrite E3. destruct (Z.eq_dec x d) as [->|Hx].
      * bcase. rewrite upd_same, <-Hc. f_equal. lia.
      * bcase; rewrite ?upd_other by lia; try done. f_equal. lia.
Qed.

(** C40. [strncpy] into a buffer of [n] bytes: a source shorter than [n] is copied
    and padded with NULs and nothing else changes.  A source of [n] or more
    characters makes the counter wrap, and the padding loop then clears
    2^64-1 bytes starting right behind the buffer. *)
Theorem strncpy_outcome m d src s n : cstring m src s -> (d + Z.of_nat n <= src \/ src + zlen s < d) ->
  (zlen s < Z.of_nat n ->
     (forall x, d <= x < d + zlen s -> strncpy m d src n x = m (src + (x - d))) /\
     (forall x, d + zlen s <= x < d + Z.of_nat n -> strncpy m d src n x = 0) /\
     (forall x, x < d \/ d + Z.of_nat n <= x -> strncpy m d src n x = m x)) /\
  (Z.of_nat n <= zlen s ->
     forall x, d + Z.of_nat n <= x < d + Z.of_nat n + UINT64_MAX -> strncpy m d src n x = 0).
Proof.
  intros Hs Hd. unfold strncpy. pose proof (strncpy_copy_spec n m d src s Hs Hd) as Hc.
  destruct (strncpy_copy m d src n) as [[r d'] m']. cbv zeta in Hc. destruct Hc as (-> & -> & Hm).
  assert (Hz : m (src + zlen s) = 0).
  { pose proof (cstring_app m src s []) as E. rewrite app_nil_r in E. exact (E Hs). }
  pose proof (zlen_nonneg s). split; intros Hl; [rewrite (proj2 (Z.ltb_lt _ _)) by lia|rewrite (proj2 (Z.ltb_ge _ _)) by lia].
  - rewrite Z.min_r in * by lia. split; [|split]; intros x Hx; rewrite memset_spec, ?Hm, Z2Nat.id by lia; bcase; try done.
    replace (src + (x - d)) with (src + zlen s) by lia. done.
  - rewrite Z.min_l in * by lia. intros x Hx. rewrite memset_spec, Z2Nat.id by sflia. by bcase.
Qed.

(** Memory that holds the bytes [s] from address [a] on, zero elsewhere. *)
Definition mem_at (a : Z) (s : list Z) : mem := mwrite (fun _ => 0) a s.

Lemma strncpy_outcome_witness :
  strncpy (mem_at 200 [97; 98; 99]) 100 200 2 102 = 0 /\ strncpy (mem_at 200 [97; 98; 99]) 100 200 5 103 = 0.
Proof.
  assert (Hc : cstring (mem_at 200 [97; 98; 99]) 200 [97; 98; 99]) by (cbn; repeat split; done).
  split.
  - apply (strncpy_outcome _ 100 200 [97; 98; 99] 2 Hc); [left; lia|done|sflia].
  - destruct (strncpy_outcome _ 100 200 [97; 98; 99] 5 Hc) as [Hs _]; [left; lia|].
    destruct Hs as (_ & Hs & _); [reflexivity|]. apply Hs. vm_compute. by split.
Defined.

(** ** Searching *)

Lemma strlen_spec fuel m a s : cstring m a s -> (length s <= fuel)%nat -> strlen fuel m a = Some (zlen s).
Proof.
  unfold strlen. intros Hs Hf. rewrite <-(Z.add_0_l (zlen s)). replace a with (a + 0) in Hs by lia. revert Hf Hs. generalize 0.
  revert fuel. induction s as [|c s IH]; intros fuel z Hf Hs; cbn [cstring] in Hs; cbn [length] in Hf.
  - destruct fuel; cbn [while]; rewrite Hs; cbn [truthy Z.eqb negb]; f_equal; by rewrite zlen_nil, Z.add_0_r.
  - destruct Hs as (Hc & Hn & Hs). destruct fuel as [|fuel]; [lia|]. cbn [while].
    rewrite Hc, (proj2 (truthy_true c) Hn), (IH fuel (z + 1)); [|lia|by rewrite Z.add_assoc].
    rewrite zlen_cons. f_equal. lia.
Qed.

(** The needle occurs at the front. *)
Definition prefix_of (t s : list Z) : bool := bool_decide (take (length t) s = t).

Lemma memcmp_prefix m h s nd t : cstring m h s -> cstring m nd t ->
  (memcmp m h nd (length t) =? 0) = prefix_of t s.
Proof.
  revert h s nd. unfold prefix_of. induction t as [|c t IH]; intros h s nd Hs Ht; cbn [memcmp length take].
  - by rewrite take_0.
  - destruct Ht as (Hc & Hn & Ht). destruct s as [|b s]; cbn [cstring] in Hs.
    + rewrite Hs, Hc. cbn [take]. destruct (Z.eqb_spec 0 c); [lia|]. cbn [negb].
      rewrite bool_decide_eq_false_2 by done. apply Z.eqb_neq. lia.
    + destruct Hs as (Hb & Hnb & Hs). rewrite Hb, Hc. cbn [take]. destruct (Z.eqb_spec b c) as [->|Hne]; cbn [negb].
      * rewrite (IH (h + 1) s (nd + 1) Hs Ht). apply bool_decide_ext. split; [by intros ->|by intros [=]].
      * rewrite bool_decide_eq_false_2 by congruence. apply Z.eqb_neq. lia.
Qed.

(** First position of [t] in [s]. *)
Fixpoint find_sub (t s : list Z) : option Z :=
  if prefix_of t s then Some 0
  else match s with [] => None | _ :: s => Z.succ <$> find_sub t s end.

Lemma strstr_from_spec m nd t : cstring m nd t -> t <> [] -> forall fuel h s, cstring m h s -> (length s <= fuel)%nat ->
  strstr_from fuel m h nd (length t) = Some ((fun i => h + i) <$> find_sub t s).
Proof.
  intros Ht Hne. induction fuel as [|fuel IH]; intros h s Hs Hf.
  all: destruct s as [|c s]; cbn [length] in Hf; cbn [strstr_from find_sub].
  1,3: cbn [cstring] in Hs; rewrite Hs; unfold prefix_of; destruct t; [done|]; cbn; done.
  1: lia.
  pose proof Hs as (Hc & Hn & Hs'). rewrite Hc at 1. rewrite (proj2 (truthy_true c) Hn).
  rewrite (memcmp_prefix m h (c :: s) nd t Hs Ht). destruct t as [|b t]; [done|]. destruct Ht as (Hb & _).
  destruct (prefix_of (b :: t) (c :: s)) eqn:Hp.
  - assert (b = c) as ->. { apply bool_decide_eq_true in Hp. cbn [length take] in Hp. congruence. }
    rewrite Hc, Hb, Z.eqb_refl. cbn [andb]. cbn. do 2 f_equal. lia.
  - rewrite andb_false_r. rewrite (IH (h + 1) s Hs') by lia. f_equal.
    destruct (find_sub (b :: t) s); [|done]. cbn. f_equal. lia.
Qed.

(** [strstr] returns the first occurrence of the needle, or NULL when there
    is none, and terminates within the two string lengths. *)
Theorem strstr_first fuel m h nd s t : cstring m h s -> cstring m nd t ->
  (length s <= fuel)%nat -> (length t <= fuel)%nat ->
  strstr fuel m h nd = Some ((fun i => h + i) <$> find_sub t s).
Proof.
  intros Hs Ht Hf1 Hf2. unfold strstr. rewrite (strlen_spec fuel m nd t Ht Hf2). cbn [mbind option_bind].
  destruct t as [|b t].
  - rewrite zlen_nil. assert (find_sub [] s = Some 0) as -> by (destruct s; reflexivity).
    cbn. do 2 f_equal. lia.
  - rewrite zlen_cons. pose proof (zlen_nonneg t). destruct (Z.eqb_spec (1 + zlen t) 0); [lia|].
    replace (Z.to_nat (1 + zlen t)) with (length (b :: t)) by (unfold zlen; cbn [length]; lia).
    by apply strstr_from_spec.
Qed.

Lemma strstr_first_witness :
  strstr 10 (mem_at 100 [97; 98; 97; 99; 0; 97; 99; 0]) 100 105 = Some (Some 102).
Proof.
  rewrite (strstr_first 10 _ 100 105 [97; 98; 97; 99] [97; 99]); [reflexivity| | |cbn; lia|cbn; lia]; cbn; repeat split; done.
Defined.

(** ** Tokens *)

Definition member (set : list Z) (c : Z) : bool := existsb (Z.eqb c) set.

Lemma scan_set_spec m s : forall ds fuel d, cstring m d ds -> (length ds <= fuel)%nat ->
  exists a, scan_set fuel m s d = Some a /\ truthy (m a) = member ds (m s).
Proof.
  unfold scan_set. induction ds as [|c ds IH]; intros fuel d Hd Hf; cbn [cstring] in Hd; cbn [length] in Hf.
  - exists d. destruct fuel; cbn [while]; rewrite Hd; done.
  - destruct Hd as (Hc & Hn & Hd). destruct fuel as [|fuel]; [lia|]. cbn [while member existsb].
    rewrite Hc, (proj2 (truthy_true c) Hn). cbn [andb]. rewrite (Z.eqb_sym (m s) c).
    destruct (Z.eqb_spec c (m s)) as [E|E]; cbn [negb orb].
    + exists d. split; [done|]. rewrite Hc. by apply truthy_true.
    + apply (IH fuel (d + 1)); [done|lia].
Qed.

(** Length of the longest prefix of members ([b = true]) or of non-members. *)
Fixpoint span_len (b : bool) (ds s : list Z) : Z :=
  match s with
  | c :: s => if bool_decide (member ds c = b) then 1 + span_len b ds s else 0
  | [] => 0
  end.

Lemma span_from_spec m d ds sf stop : cstring m d ds -> (length ds <= sf)%nat ->
  forall s fuel a len, cstring m a s -> (length s <= fuel)%nat ->
  span_from fuel stop sf m a d len = Some (len + span_len (negb stop) ds s).
Proof.
  intros Hd Hsf. induction s as [|c s IH]; intros fuel a len Hs Hf; cbn [cstring] in Hs; cbn [length] in Hf.
  - destruct fuel; cbn [span_from]; rewrite Hs; cbn [truthy Z.eqb negb span_len]; by rewrite Z.add_0_r.
  - destruct Hs as (Hc & Hn & Hs). destruct fuel as [|fuel]; [lia|]. cbn [span_from].
    rewrite Hc, (proj2 (truthy_true c) Hn). destruct (scan_set_spec m a ds sf d Hd Hsf) as (x & -> & Hx).
    cbn [mbind option_bind span_len]. rewrite Hx, Hc. destruct (member ds c), stop; cbn [negb];
      repeat (case_bool_decide; try done); rewrite ?(IH fuel (a + 1) (len + 1) Hs) by lia; f_equal; cbn [negb]; lia.
Qed.

Lemma span_len_split b ds s : exists s1 s2, s = s1 ++ s2 /\ zlen s1 = span_len b ds s /\
  Forall (fun c => member ds c = b) s1 /\ match s2 with c :: _ => member ds c = negb b | [] => True end.
Proof.
  induction s as [|c s IH]; [by exists [], []|]. cbn [span_len]. case_bool_decide as E.
  - destruct IH as (s1 & s2 & -> & Hl & Hf & Hh). exists (c :: s1), s2. rewrite zlen_cons.
    split; [done|]. split; [lia|]. split; [by constructor|done].
  - exists [], (c :: s). split; [done|]. split; [done|]. split; [constructor|]. by destruct (member ds c), b.
Qed.

(** The words of [s]: maximal runs of non-delimiters. *)
Fixpoint words (ds cur s : list Z) : list (list Z) :=
  match s with
  | [] => match cur with [] => [] | _ => [rev cur] end
  | c :: s =>
      if member ds c then match cur with [] => words ds [] s | _ => rev cur :: words ds [] s end
      else words ds (c :: cur) s
  end.

Lemma words_skip ds s1 s2 : Forall (fun c => member ds c = true) s1 -> words ds [] (s1 ++ s2) = words ds [] s2.
Proof. induction 1 as [|c s1 Hc _ IH]; [done|]. cbn [words app]. by rewrite Hc. Qed.

Lemma words_run ds s1 : Forall (fun c => member ds c = false) s1 -> forall cur s2,
  words ds cur (s1 ++ s2) = words ds (rev s1 ++ cur) s2.
Proof.
  induction 1 as [|c s1 Hc _ IH]; intros cur s2; [done|]. cbn [words app rev]. rewrite Hc, IH.
  by rewrite <-app_assoc.
Qed.

(** One call, at the start of a region [s] of the string being split. *)
Lemma strtok_step fuel m a s d ds : cstring m a s -> cstring m d ds ->
  (length s <= fuel)%nat -> (length ds <= fuel)%nat ->
  match words ds [] s with
  | [] => strtok fuel m (Some a) None d = Some (None, None, m)
  | w :: ws => exists tok, a <= tok /\ tok + zlen w <= a + zlen s /\
      ((ws = [] /\ strtok fuel m (Some a) None d = Some (Some tok, None, m) /\ cstring m tok w) \/
       exists s', let e := tok + zlen w in
         words ds [] s' = ws /\ (length s' < length s)%nat /\ e + 1 + zlen s' = a + zlen s /\
         strtok fuel m (Some a) None d = Some (Some tok, Some (e + 1), upd m e 0) /\
         cstring (upd m e 0) tok w /\ cstring (upd m e 0) (e + 1) s')
  end.
Proof.
  intros Hs Hd Hf1 Hf2. unfold strtok, strspn, strcspn.
  rewrite (span_from_spec m d ds fuel false Hd Hf2 s fuel a 0 Hs Hf1). cbn [mbind option_bind negb].
  destruct (span_len_split true ds s) as (s1 & s2 & -> & Hl & Hf & Hh). rewrite <-Hl, Z.add_0_l.
  rewrite words_skip by done. pose proof (cstring_app m a s1 s2 Hs) as Hs2. rewrite zlen_app.
  destruct s2 as [|c s2].
  { cbn [cstring] in Hs2. rewrite Hs2. done. }
  pose proof Hs2 as (Hc & Hn & _). rewrite Hc, (proj2 (truthy_true c) Hn). cbn [negb].
  rewrite length_app in Hf1. pose proof (zlen_nonneg s1).
  rewrite (span_from_spec m d ds fuel true Hd Hf2 (c :: s2) fuel (a + zlen s1) 0 Hs2) by lia.
  cbn [mbind option_bind negb]. destruct (span_len_split false ds (c :: s2)) as (w & r & Hw & Hlw & Hfw & Hhw).
  rewrite <-Hlw, Z.add_0_l. rewrite Hw in *. rewrite (words_run ds w Hfw [] r), app_nil_r.
  pose proof (cstring_app m _ w r Hs2) as Hr. rewrite zlen_app.
  assert (Hwne : rev w <> []).
  { destruct w as [|b w]; [|cbn [rev]; intros E; by apply app_eq_nil in E as [_ ?]].
    cbn [app] in Hw. subst r. cbn [negb] in *. congruence. }
  destruct r as [|b r]; cbn [words].
  - destruct (rev w) as [|x l] eqn:Er; [done|]. rewrite <-Er, rev_involutive. exists (a + zlen s1).
    rewrite zlen_nil. split; [lia|]. split; [lia|]. left. split; [done|]. cbn [cstring] in Hr. rewrite Hr.
    split; [done|]. by rewrite app_nil_r in Hs2.
  - cbn [negb] in Hhw. rewrite Hhw. destruct (rev w) as [|x l] eqn:Er; [done|]. rewrite <-Er, rev_involutive.
    exists (a + zlen s1). rewrite zlen_cons. pose proof (zlen_nonneg r). pose proof (zlen_nonneg w). split; [lia|]. split; [lia|]. right.
    exists r. cbv zeta. destruct Hr as (Hb & Hnb & Hr). rewrite Hb, (proj2 (truthy_true b) Hnb).
    split; [done|]. split; [rewrite !length_app; cbn [length]; lia|]. split; [lia|]. split; [done|].
    split.
    + apply cstring_cut with (t := b :: r). exact Hs2.
    + apply (cstring_ext m); [|done]. intros y Hy. rewrite upd_other; [done|lia].
Qed.

(** Calling [strtok] until it returns NULL: the token pointers and the memory left. *)
Fixpoint strtok_all (calls fuel : nat) (m : mem) (next str : option Z) (delim : Z) : option (list Z * mem) :=
  match calls with
  | O => None
  | S calls =>
      '(tok, next, m) ← strtok fuel m next str delim;
      match tok with
      | None => Some ([], m)
      | Some p => '(ps, m) ← strtok_all calls fuel m next None delim; Some (p :: ps, m)
      end
  end.

Lemma strtok_all_spec fuel d ds : (length ds <= fuel)%nat -> forall calls m a s,
  cstring m a s -> cstring m d ds -> (d + zlen ds < a \/ a + zlen s < d) ->
  (length s <= fuel)%nat -> (length s + 1 < calls)%nat ->
  exists ps m', strtok_all calls fuel m (Some a) None d = Some (ps, m') /\
    Forall2 (cstring m') ps (words ds [] s) /\ (forall x, x < a \/ a + zlen s < x -> m' x = m x).
Proof.
  intros Hf2. induction calls as [|calls IH]; intros m a s Hs Hd Hdis Hf1 Hc; [lia|].
  pose proof (strtok_step fuel m a s d ds Hs Hd Hf1 Hf2) as Hstep. cbn [strtok_all].
  destruct (words ds [] s) as [|w ws].
  { rewrite Hstep. cbn [mbind option_bind]. by exists [], m. }
  destruct Hstep as (tok & Ha & He & [(-> & -> & Hw)|(s' & Hws & Hlt & Hend & -> & Hw & Hs')]); cbn [mbind option_bind].
  - destruct calls as [|calls]; [lia|]. cbn. exists [tok], m. split; [done|]. split; [by repeat constructor|done].
  - set (m1 := upd m (tok + zlen w) 0) in *. pose proof (zlen_nonneg w). pose proof (zlen_nonneg s'). pose proof (zlen_nonneg ds).
    destruct (IH m1 (tok + zlen w + 1) s') as (ps & m' & -> & HF & Hout); try done; try lia.
    { apply (cstring_ext m); [|done]. intros x Hx. unfold m1. rewrite upd_other; [done|lia]. }
    cbn [mbind option_bind]. exists (tok :: ps), m'. split; [done|]. split.
    + rewrite <-Hws. constructor; [|done]. apply (cstring_ext m1); [|done]. intros x Hx. symmetry. apply Hout. lia.
    + intros x Hx. rewrite Hout by lia. unfold m1. apply upd_other. lia.
Qed.

(** Calling [strtok] on a string and then on NULL until it returns NULL
    yields exactly the words of the string, in order: the maximal runs of
    characters that are not delimiters, each NUL-terminated in place. *)
Theorem strtok_words fuel m a s d ds : cstring m a s -> cstring m d ds ->
  (d + zlen ds < a \/ a + zlen s < d) -> (length s <= fuel)%nat -> (length ds <= fuel)%nat ->
  exists ps m', strtok_all (length s + 2) fuel m None (Some a) d = Some (ps, m') /\
    Forall2 (cstring m') ps (words ds [] s).
Proof.
  intros Hs Hd Hdis Hf1 Hf2.
  destruct (strtok_all_spec fuel d ds Hf2 (length s + 2) m a s) as (ps & m' & He & HF & _); try done; [lia|].
  exists ps, m'. split; [|done]. rewrite <-He. by rewrite Nat.add_comm.
Qed.

Lemma strtok_words_witness :
  exists ps m', strtok_all 7 9 (mem_at 100 [32; 97; 98; 32; 99; 0; 32; 0]) None (Some 100) 106 = Some (ps, m') /\
    Forall2 (cstring m') ps [[97; 98]; [99]].
Proof.
  apply (strtok_words 9 _ 100 [32; 97; 98; 32; 99] 106 [32]); [cbn; repeat split; done..|vm_compute; auto|cbn; lia|cbn; lia].
Defined.
