(* ===== verification/LibcStdlib.v ===== *)
(** * libc conversions, sorting and searching

    [recovered/libc/src/ctype.c] and [recovered/libc/src/stdlib.c] over
    byte-addressed memory.  Signed arithmetic that the C standard leaves
    undefined on overflow wraps to its width. *)

From S2P Require Import Prelude Bytes CMem Decimal LibcString.

(** A plain [char] is signed. *)
Definition schar (c : Z) : Z := if c <? 128 then c else c - 256.

(** ** Character classes *)

Definition _U : Z := 0x01.
Definition _L : Z := 0x02.
Definition _D : Z := 0x04.
Definition _S : Z := 0x08.
Definition _P : Z := 0x10.
Definition _C : Z := 0x20.
Definition _X : Z := 0x40.
Definition _G : Z := 0x80.

Definition _ctype_table : list Z :=
  replicate 8 _C ++ [_C] ++ replicate 5 (Z.lor _C _S) ++ [_C; _C] ++ replicate 8 _C ++ replicate 8 _C
  ++ [_S]
  ++ replicate 15 (Z.lor _P _G)
  ++ replicate 10 (Z.lor (Z.lor _D _X) _G)
  ++ replicate 7 (Z.lor _P _G)
  ++ replicate 6 (Z.lor (Z.lor _U _X) _G)
  ++ replicate 20 (Z.lor _U _G)
  ++ replicate 6 (Z.lor _P _G)
  ++ replicate 6 (Z.lor (Z.lor _L _X) _G)
  ++ replicate 20 (Z.lor _L _G)
  ++ replicate 4 (Z.lor _P _G) ++ [_C].

Definition _ctype (c : Z) : Z := if u32 c <? 128 then at_ _ctype_table (u8 c) else 0.

Definition isalpha (c : Z) : Z := Z.land (_ctype c) (Z.lor _U _L).
Definition isdigit (c : Z) : Z := Z.land (_ctype c) _D.
Definition isalnum (c : Z) : Z := Z.land (_ctype c) (Z.lor (Z.lor _U _L) _D).
Definition isspace (c : Z) : Z := Z.land (_ctype c) _S.
Definition isupper (c : Z) : Z := Z.land (_ctype c) _U.
Definition islower (c : Z) : Z := Z.land (_ctype c) _L.
Definition isprint (c : Z) : Z := Z.land (_ctype c) (Z.lor _G _S).
Definition ispunct (c : Z) : Z := Z.land (_ctype c) _P.
Definition isxdigit (c : Z) : Z := Z.land (_ctype c) _X.
Definition isgraph (c : Z) : Z := Z.land (_ctype c) _G.
Definition iscntrl (c : Z) : Z := Z.land (_ctype c) _C.
Definition toupper (c : Z) : Z := if truthy (islower c) then c - 32 else c.
Definition tolower (c : Z) : Z := if truthy (isupper c) then c + 32 else c.

(** ** Exit handlers *)

Definition ATEXIT_MAX : Z := 32.

Definition atexit {F : Type} (func : F) (funcs : list F) : Z * list F :=
  if ATEXIT_MAX <=? zlen funcs then (-1, funcs) else (0, funcs ++ [func]).

(** [exit] calls the handlers from the last registered to the first. *)
Definition exit_calls {F : Type} (funcs : list F) : list F := rev funcs.

(** ** Numbers *)

Definition abs (j : Z) : Z := s32 (if j <? 0 then - j else j).
Definition labs (j : Z) : Z := s64 (if j <? 0 then - j else j).

(** [while ( *s == ' ' || *s == '\t') s++;] *)
Definition skip_blanks (fuel : nat) (m : mem) (s : Z) : option Z :=
  while fuel (fun s => (m s =? 32) || (m s =? 9)) (fun s => s + 1) s.

(** [if ( *s == '-') { sign = -1; s++; } else if ( *s == '+') s++;] *)
Definition take_sign (m : mem) (s : Z) : bool * Z :=
  if m s =? 45 then (true, s + 1) else if m s =? 43 then (false, s + 1) else (false, s).

Definition decimal_loop (fuel : nat) (wrap : Z -> Z) (m : mem) (s : Z) : option (Z * Z) :=
  while fuel (fun '(s, n) => (48 <=? schar (m s)) && (schar (m s) <=? 57))
    (fun '(s, n) => (s + 1, wrap (n * 10 + (schar (m s) - 48)))) (s, 0).

Definition atoi (fuel : nat) (m : mem) (s : Z) : option Z :=
  s ← skip_blanks fuel m s;
  let '(neg, s) := take_sign m s in
  '(_, n) ← decimal_loop fuel s32 m s;
  Some (s32 ((if neg : bool then -1 else 1) * n)).

Definition atol (fuel : nat) (m : mem) (s : Z) : option Z :=
  s ← skip_blanks fuel m s;
  let '(neg, s) := take_sign m s in
  '(_, n) ← decimal_loop fuel s64 m s;
  Some (s64 ((if neg : bool then -1 else 1) * n)).

Definition skip_space (fuel : nat) (m : mem) (s : Z) : option Z :=
  while fuel (fun s => truthy (isspace (m s))) (fun s => s + 1) s.

(** The base and the start of the digits. *)
Definition take_base (m : mem) (s base : Z) : Z * Z :=
  let x := (m (s + 1) =? 120) || (m (s + 1) =? 88) in
  if base =? 0 then
    if m s =? 48 then if x then (16, s + 2) else (8, s) else (10, s)
  else if (base =? 16) && (m s =? 48) && x then (base, s + 2)
  else (base, s).

Definition digit_of (c : Z) : option Z :=
  if (48 <=? c) && (c <=? 57) then Some (c - 48)
  else if (97 <=? c) && (c <=? 122) then Some (c - 97 + 10)
  else if (65 <=? c) && (c <=? 90) then Some (c - 65 + 10)
  else None.

Fixpoint radix_loop (fuel : nat) (wrap : Z -> Z) (m : mem) (s base acc : Z) : option (Z * Z) :=
  if truthy (m s) then
    match digit_of (schar (m s)) with
    | None => Some (acc, s)
    | Some dig =>
        if base <=? dig then Some (acc, s)
        else match fuel with
             | O => None
             | S fuel => radix_loop fuel wrap m (s + 1) base (wrap (acc * base + dig))
             end
    end
  else Some (acc, s).

(** The value and [*endptr]. *)
Definition strtol (fuel : nat) (m : mem) (nptr base : Z) : option (Z * Z) :=
  s ← skip_space fuel m nptr;
  let '(neg, s) := take_sign m s in
  let '(base, s) := take_base m s base in
  '(acc, s) ← radix_loop fuel s64 m s base 0;
  Some (if neg : bool then s64 (- acc) else acc, s).

Definition strtoul (fuel : nat) (m : mem) (nptr base : Z) : option (Z * Z) :=
  s ← skip_space fuel m nptr;
  let '(neg, s) := take_sign m s in
  let '(base, s) := take_base m s base in
  '(acc, s) ← radix_loop fuel u64 m s base 0;
  Some (if neg : bool then u64 (- acc) else acc, s).

(** ** Random numbers and the environment *)

Definition rand (seed : Z) : Z * Z :=
  let seed := u64 (seed * 1103515245 + 12345) in
  (Z.land (Z.shiftr seed 16) 0x7fff, seed).

Definition srand (seed : Z) : Z := u32 seed.

Fixpoint getenv_from (fuel : nat) (m : mem) (ep name : Z) (len : nat) : option (option Z) :=
  let e := load64 m ep in
  if truthy e then
    if (strncmp m e name len =? 0) && (m (e + Z.of_nat len) =? 61) then Some (Some (e + Z.of_nat len + 1))
    else match fuel with O => None | S fuel => getenv_from fuel m (ep + 8) name len end
  else Some None.

Definition getenv (fuel : nat) (m : mem) (environ name : Z) : option (option Z) :=
  if environ =? 0 then Some None
  else len ← strlen fuel m name; getenv_from fuel m environ name (Z.to_nat len).

Definition setenv (name value overwrite : Z) : Z := -1.
Definition unsetenv (name : Z) : Z := -1.

(** ** Sorting and searching

    [compar] reads the two elements it is given pointers to. *)

Section Arrays.
Context (size : nat) (compar : mem -> Z -> Z -> Z).

Definition elem (base : Z) (i : nat) : Z := base + Z.of_nat i * Z.of_nat size.

Definition swap_down (m : mem) (arr tmp : Z) (j : nat) : mem :=
  let m := memcpy m tmp (elem arr (S j)) size in
  let m := memcpy m (elem arr (S j)) (elem arr j) size in
  memcpy m (elem arr j) tmp size.

Fixpoint insert_down (m : mem) (arr tmp : Z) (j : nat) : mem :=
  match j with
  | O => m
  | S j => if 0 <? compar m (elem arr j) (elem arr (S j)) then insert_down (swap_down m arr tmp j) arr tmp j else m
  end.

(** [tmp] is the result of [malloc(size)]. *)
Definition qsort (m : mem) (base : Z) (nmemb : nat) (tmp : option Z) : mem :=
  match tmp with
  | None => m
  | Some tmp => loop_from 1 (nmemb - 1) (fun i m => insert_down m base tmp i) m
  end.

(** Every turn shrinks [hi - lo]. *)
Fixpoint bsearch_loop (fuel : nat) (m : mem) (key arr : Z) (lo hi : nat) : option Z :=
  match fuel with
  | O => None
  | S fuel =>
      if (lo <? hi)%nat then
        let mid := (lo + (hi - lo) / 2)%nat in
        let cmp := compar m key (elem arr mid) in
        if cmp =? 0 then Some (elem arr mid)
        else if cmp <? 0 then bsearch_loop fuel m key arr lo mid
        else bsearch_loop fuel m key arr (S mid) hi
      else None
  end.

Definition bsearch (m : mem) (key base : Z) (nmemb : nat) : option Z :=
  bsearch_loop (S nmemb) m key base 0 nmemb.

End Arrays.

(** ** What the conversions compute *)

(** A byte that is a digit of the base. *)
Definition is_radix_digit (base c : Z) : bool :=
  (c <? 256) && match digit_of (schar c) with Some d => d <? base | None => false end.

Definition radix_step (base acc c : Z) : Z := acc * base + default 0 (digit_of (schar c)).
Definition radix_value (base : Z) (ds : list Z) : Z := fold_left (radix_step base) ds 0.

Lemma digit_of_nonneg c d : digit_of c = Some d -> 0 <= d.
Proof. unfold digit_of. bcase; intros [= <-]; lia. Qed.

Lemma radix_fold_ge base ds : 1 <= base -> forall acc, 0 <= acc -> acc <= fold_left (radix_step base) ds acc.
Proof.
  intros Hb. induction ds as [|c ds IH]; intros acc Ha; [done|]. cbn [fold_left].
  assert (acc <= radix_step base acc c).
  { unfold radix_step. destruct (digit_of (schar c)) eqn:E; cbn; [apply digit_of_nonneg in E|]; nia. }
  pose proof (IH (radix_step base acc c)). lia.
Qed.

(** The rest of the string does not continue the number. *)
Definition stops (base : Z) (rest : list Z) : Prop :=
  match rest with [] => True | c :: _ => c < 256 /\ is_radix_digit base c = false end.

Lemma radix_loop_spec m base rest ds : 2 <= base -> stops base rest -> Forall (fun c => is_radix_digit base c = true) ds ->
  forall fuel s acc, cstring m s (ds ++ rest) -> (length ds <= fuel)%nat ->
  0 <= acc -> fold_left (radix_step base) ds acc < 2 ^ 63 ->
  radix_loop fuel s64 m s base acc = Some (fold_left (radix_step base) ds acc, s + zlen ds).
Proof.
  intros Hb Hrest. induction 1 as [|c ds Hc _ IH]; intros fuel s acc Hs Hf Ha Hlt; cbn [app] in Hs; cbn [fold_left length] in *.
  - rewrite zlen_nil, Z.add_0_r. destruct rest as [|c rest]; cbn [cstring] in Hs.
    + destruct fuel; cbn [radix_loop]; by rewrite Hs.
    + destruct Hs as (Hc & Hn & _). cbn [stops] in Hrest. unfold is_radix_digit in Hrest. destruct Hrest as [Hby Hrest]. rewrite (proj2 (Z.ltb_lt _ _) Hby) in Hrest.
      destruct fuel; cbn [radix_loop]; rewrite Hc, (proj2 (truthy_true c) Hn);
        destruct (digit_of (schar c)); try done; by rewrite (proj2 (Z.leb_le _ _)) by (apply Z.ltb_ge; done).
  - destruct Hs as (Hv & Hn & Hs). destruct fuel as [|fuel]; [lia|]. cbn [radix_loop].
    rewrite Hv, (proj2 (truthy_true c) Hn). unfold is_radix_digit in Hc.
    apply andb_true_iff in Hc as [_ Hc]. destruct (digit_of (schar c)) as [d|] eqn:Ed; [|done]. apply Z.ltb_lt in Hc. rewrite (proj2 (Z.leb_gt _ _)) by done.
    assert (Hst : radix_step base acc c = acc * base + d) by (unfold radix_step; by rewrite Ed).
    rewrite Hst in *. pose proof (digit_of_nonneg _ _ Ed).
    pose proof (radix_fold_ge base ds ltac:(lia) (acc * base + d) ltac:(nia)).
    assert (Hw : s64 (acc * base + d) = acc * base + d) by (unfold s64; rewrite Z.mod_small by nia; lia).
    rewrite Hw, zlen_cons. rewrite (IH fuel (s + 1) (acc * base + d)); try done; [do 2 f_equal; lia|lia|nia].
Qed.

Lemma skip_space_spec m rest : (match rest with [] => True | c :: _ => isspace c = 0 end) -> forall ws fuel s,
  Forall (fun c => isspace c <> 0) ws -> cstring m s (ws ++ rest) -> (length ws <= fuel)%nat ->
  skip_space fuel m s = Some (s + zlen ws).
Proof.
  intros Hrest. unfold skip_space. induction ws as [|c ws IH]; intros fuel s Hws Hs Hf; cbn [app length] in *.
  - rewrite zlen_nil, Z.add_0_r. assert (E : truthy (isspace (m s)) = false).
    { apply truthy_false. destruct rest as [|c rest]; cbn [cstring] in Hs; [by rewrite Hs|]. destruct Hs as (-> & _). done. }
    destruct fuel; cbn [while]; by rewrite E.
  - inversion_clear Hws as [|? ? Hc Hws']. destruct Hs as (Hv & Hn & Hs). destruct fuel as [|fuel]; [lia|]. cbn [while].
    rewrite Hv, (proj2 (truthy_true _) Hc), (IH fuel (s + 1)); try done; [|lia]. rewrite zlen_cons. f_equal. lia.
Qed.

(** A digit is neither a blank nor a sign. *)
Lemma radix_digit_char base c : is_radix_digit base c = true -> isspace c = 0 /\ c <> 45 /\ c <> 43.
Proof.
  unfold is_radix_digit, digit_of, schar. intros H.
  assert (Hr : 48 <= c <= 57 \/ 65 <= c <= 90 \/ 97 <= c <= 122).
  { revert H. bcase; intros; (done || lia). }
  split; [|lia]. unfold isspace, _ctype. rewrite (u32_small c) by lia. rewrite (u8_small c) by lia.
  rewrite (proj2 (Z.ltb_lt _ _)) by lia.
  assert (Hall : forall i, (48 <= i <= 122)%nat -> Z.land (at_ _ctype_table (Z.of_nat i)) _S = 0).
  { intros i Hi. unfold at_. rewrite Nat2Z.id. do 123 (destruct i as [|i]; [reflexivity || lia|]). lia. }
  specialize (Hall (Z.to_nat c)). rewrite Z2Nat.id in Hall by lia. apply Hall. lia.
Qed.

(** An optional sign. *)
Inductive sign_text : list Z -> bool -> Prop :=
| sign_none : sign_text [] false
| sign_minus : sign_text [45] true
| sign_plus : sign_text [43] false.

Lemma strtol_spec fuel m a ws sgn neg ds rest base :
  2 <= base <= 36 -> Forall (fun c => isspace c <> 0) ws -> sign_text sgn neg ->
  ds <> [] -> Forall (fun c => is_radix_digit base c = true) ds -> stops base rest ->
  (base = 16 -> take 2 (ds ++ rest) <> [48; 120] /\ take 2 (ds ++ rest) <> [48; 88]) ->
  cstring m a (ws ++ sgn ++ ds ++ rest) -> (length (ws ++ ds) <= fuel)%nat -> radix_value base ds < 2 ^ 63 ->
  strtol fuel m a base
  = Some (if neg then - radix_value base ds else radix_value base ds, a + zlen (ws ++ sgn ++ ds)).
Proof.
  intros Hb Hws Hsgn Hne Hds Hrest H16 Hs Hf Hlt. rewrite length_app in Hf. unfold strtol.
  destruct ds as [|c ds]; [done|]. pose proof (Forall_inv Hds) as Hc. destruct (radix_digit_char base c Hc) as (Hsp & H45 & H43).
  rewrite (skip_space_spec m (sgn ++ (c :: ds) ++ rest)) with (ws := ws); [|by destruct Hsgn; [exact Hsp|reflexivity..]|done|done|lia].
  cbn [mbind option_bind]. pose proof (cstring_app _ _ _ _ Hs) as Hs1.
  assert (Hsg : take_sign m (a + zlen ws) = (neg, a + zlen ws + zlen sgn)).
  { unfold take_sign. destruct Hsgn; cbn [app cstring] in Hs1.
    - destruct Hs1 as (-> & _). rewrite zlen_nil, Z.add_0_r. by rewrite !(proj2 (Z.eqb_neq _ _)).
    - destruct Hs1 as (-> & _). done.
    - destruct Hs1 as (-> & _). done. }
  rewrite Hsg. pose proof (cstring_app _ _ _ _ Hs1) as Hs2. set (p := a + zlen ws + zlen sgn) in *.
  assert (Hbs : take_base m p base = (base, p)).
  { unfold take_base. destruct (Z.eqb_spec base 0); [lia|]. destruct (Z.eqb_spec base 16) as [E16|]; [|done]. cbn [andb].
    destruct (H16 E16) as (Hx1 & Hx2). cbn [app] in Hs2, Hx1, Hx2. destruct Hs2 as (-> & _ & Hs2).
    destruct (Z.eqb_spec c 48) as [->|]; [|done]. cbn [andb].
    assert (Hx : m (p + 1) <> 120 /\ m (p + 1) <> 88).
    { destruct (ds ++ rest) as [|b l]; cbn [cstring] in Hs2; [rewrite Hs2; lia|]. destruct Hs2 as (-> & _). cbn in Hx1, Hx2.
      split; intros ->; [apply Hx1|apply Hx2]; by destruct l. }
    destruct Hx. by rewrite !(proj2 (Z.eqb_neq _ _)). }
  rewrite Hbs. unfold radix_value in *.
  rewrite (radix_loop_spec m base rest (c :: ds)) by (done || lia). cbn [mbind option_bind]. f_equal. rewrite !zlen_app.
  assert (Hp : p + zlen (c :: ds) = a + (zlen ws + (zlen sgn + zlen (c :: ds)))) by (unfold p; lia). rewrite Hp.
  destruct neg; [|done]. f_equal.
  pose proof (radix_fold_ge base (c :: ds) ltac:(lia) 0 ltac:(lia)).
  unfold s64. rewrite Z.mod_small by lia. lia.
Qed.

(** [strtol] with an explicit base reads blanks, an optional sign and the
    longest run of digits of that base, returns the signed value whenever its
    magnitude is below 2^63, and leaves [endptr] on the first character that is
    not part of the number. *)
Theorem strtol_value fuel m a ws sgn neg ds rest base :
  2 <= base <= 36 -> Forall (fun c => isspace c <> 0) ws -> sign_text sgn neg ->
  ds <> [] -> Forall (fun c => is_radix_digit base c = true) ds -> stops base rest ->
  (base = 16 -> take 2 (ds ++ rest) <> [48; 120] /\ take 2 (ds ++ rest) <> [48; 88]) ->
  cstring m a (ws ++ sgn ++ ds ++ rest) -> (length (ws ++ ds) <= fuel)%nat -> radix_value base ds < 2 ^ 63 ->
  strtol fuel m a base
  = Some (if neg then - radix_value base ds else radix_value base ds, a + zlen (ws ++ sgn ++ ds)).
Proof. apply strtol_spec. Qed.

Lemma strtol_value_witness :
  strtol 20 (mem_at 100 [32; 45; 49; 50; 55; 59; 0]) 100 10 = Some (-127, 105).
Proof.
  apply (strtol_value 20 _ 100 [32] [45] true [49; 50; 55] [59] 10);
    [lia|repeat constructor; vm_compute; congruence|constructor|done|repeat constructor|by vm_compute|lia
    |cbn; repeat split; done|cbn; lia|vm_compute; reflexivity].
Defined.
