(* ===== verification/LibcSort.v ===== *)
(** * Sorting and searching are correct

    [qsort] sorts and permutes whatever the element size; [bsearch] finds an
    equal element of an ordered array exactly when there is one. *)

From S2P Require Import Prelude Bytes CMem LibcString LibcStdlib.
From Stdlib Require Import Sorted Permutation.

Section Sort.
Context (size : nat) (compar : mem -> Z -> Z -> Z) (cmp : list Z -> list Z -> Z).
Hypothesis Hcompar : forall m p q, compar m p q = cmp (mread m p (Z.of_nat size)) (mread m q (Z.of_nat size)).
Hypothesis Htotal : forall x y, 0 < cmp x y -> cmp y x <= 0.
Hypothesis Htrans : forall x y z, cmp x y <= 0 -> cmp y z <= 0 -> cmp x z <= 0.

Definition nth_elem (m : mem) (base : Z) (i : nat) : list Z := mread m (elem size base i) (Z.of_nat size).
Definition elements (m : mem) (base : Z) (n : nat) : list (list Z) := map (nth_elem m base) (seq 0 n).

Lemma length_elements m base n : length (elements m base n) = n.
Proof. unfold elements. by rewrite length_map, length_seq. Qed.

Lemma elements_lookup m base n i : (i < n)%nat -> elements m base n !! i = Some (nth_elem m base i).
Proof.
  intros Hi. unfold elements. rewrite (list_lookup_fmap (nth_elem m base) (seq 0 n)), lookup_seq_lt by lia. done.
Qed.

(** The scratch element lies outside the array. *)
Definition apart (base tmp : Z) (n : nat) : Prop :=
  tmp + Z.of_nat size <= base \/ elem size base n <= tmp.

Lemma swap_down_spec m base tmp j n x : apart base tmp n -> (S j < n)%nat ->
  (x < tmp \/ tmp + Z.of_nat size <= x) ->
  swap_down size m base tmp j x =
    if (elem size base j <=? x) && (x <? elem size base (S j)) then m (x + Z.of_nat size)
    else if (elem size base (S j) <=? x) && (x <? elem size base (S (S j))) then m (x - Z.of_nat size)
    else m x.
Proof.
  intros Hap Hj Hx. unfold swap_down, apart in *.
  assert (Hel : forall i, elem size base (S i) = elem size base i + Z.of_nat size) by (intros; unfold elem; nia).
  assert (elem size base (S (S j)) <= elem size base n) by (unfold elem; nia). assert (base <= elem size base j) by (unfold elem; nia).
  rewrite !Hel in *. set (b := elem size base j) in *. set (z := Z.of_nat size) in *.
  set (m1 := memcpy m tmp (b + z) size). set (m2 := memcpy m1 (b + z) b size).
  pose proof (fun x => memcpy_forward size m tmp (b + z) x ltac:(lia)) as H1.
  pose proof (fun x => memcpy_forward size m1 (b + z) b x ltac:(lia)) as H2.
  pose proof (fun x => memcpy_forward size m2 b tmp x ltac:(lia)) as H3.
  fold m1 in H1. fold m2 in H2. fold z in H1, H2, H3. clearbody m1 m2. rewrite H3.
  bcase; rewrite H2; bcase; rewrite H1; bcase; try done; f_equal; lia.
Qed.

Lemma swap_down_elements m base tmp n l1 y x l2 : apart base tmp n ->
  elements m base n = l1 ++ y :: x :: l2 ->
  elements (swap_down size m base tmp (length l1)) base n = l1 ++ x :: y :: l2.
Proof.
  intros Hap He. set (j := length l1). assert (Hn : n = (j + (2 + length l2))%nat).
  { rewrite <-(length_elements m base n), He, length_app. done. }
  assert (Hget : forall i, (i < n)%nat -> (l1 ++ y :: x :: l2) !! i = Some (nth_elem m base i))
    by (intros; rewrite <-He; by apply elements_lookup).
  pose proof (swap_down_spec m base tmp j n) as Hsw. assert (Hz : 0 <= Z.of_nat size) by lia.
  assert (Hread : forall i i', (i < n)%nat -> (forall o, 0 <= o < Z.of_nat size ->
             swap_down size m base tmp j (elem size base i + o) = m (elem size base i' + o)) ->
             nth_elem (swap_down size m base tmp j) base i = nth_elem m base i').
  { intros i i' Hi Ho. unfold nth_elem. apply buf_ext; [by rewrite !zlen_mread|].
    intros o Hr. rewrite zlen_mread in Hr by lia. rewrite !mread_nth by lia. apply Ho. lia. }
  assert (Hel : elem size base (S j) = elem size base j + Z.of_nat size /\
                elem size base (S (S j)) = elem size base j + 2 * Z.of_nat size) by (unfold elem; nia).
  assert (Hlt : forall i k, (i < k)%nat -> elem size base i + Z.of_nat size <= elem size base k) by (intros; unfold elem; nia).
  destruct Hel as [Hel1 Hel2].
  apply list_eq. intros i. destruct (decide (i < n)%nat) as [Hi|Hi].
  2: { rewrite !lookup_ge_None_2; [done| |rewrite length_elements; lia]. rewrite length_app. cbn [length]. fold j. lia. }
  rewrite elements_lookup by done.
  assert (Hout : forall o, 0 <= o < Z.of_nat size -> elem size base i + o < tmp \/ tmp + Z.of_nat size <= elem size base i + o).
  { intros o Ho. unfold apart, elem in *. destruct Hap; [right|left]; nia. }
  destruct (decide (i = j)) as [->|Hij]; [|destruct (decide (i = S j)) as [->|Hij']].
  - rewrite (Hread j (S j)); [|done|].
    + rewrite lookup_app_r, Nat.sub_diag by (fold j; lia). cbn. f_equal. symmetry.
      pose proof (Hget (S j) ltac:(lia)) as G. rewrite lookup_app_r in G by (fold j; lia). fold j in G. replace (S j - j)%nat with 1%nat in G by lia.
      cbn in G. congruence.
    + intros o Ho. rewrite Hsw; [|done|lia|auto]. rewrite Hel1. bcase. f_equal. lia.
  - rewrite (Hread (S j) j); [|done|].
    + rewrite lookup_app_r by (fold j; lia). fold j. replace (S j - j)%nat with 1%nat by lia. cbn. f_equal. symmetry.
      pose proof (Hget j ltac:(lia)) as G. rewrite lookup_app_r, Nat.sub_diag in G by (fold j; lia). cbn in G. congruence.
    + intros o Ho. rewrite Hsw; [|done|lia|auto]. rewrite Hel1, Hel2. bcase. f_equal. lia.
  - rewrite (Hread i i); [|done|].
    + rewrite <-Hget by done. destruct (decide (i < j)%nat); [rewrite !lookup_app_l by (fold j; lia); done|].
      rewrite !lookup_app_r by (fold j; lia). fold j. destruct (i - j)%nat as [|[|q]] eqn:Q; [lia|lia|done].
    + intros o Ho. rewrite Hsw; [|done|lia|auto]. destruct (decide (i < j)%nat).
      * pose proof (Hlt i j ltac:(lia)). rewrite Hel1, Hel2. by bcase.
      * pose proof (Hlt (S j) i ltac:(lia)). rewrite Hel1, Hel2 in *. by bcase.
Qed.

(** Inserting into a descending list, the reversed sorted prefix. *)
Fixpoint ins_rev (rp : list (list Z)) (x : list Z) : list (list Z) :=
  match rp with
  | [] => [x]
  | y :: rp => if 0 <? cmp y x then y :: ins_rev rp x else x :: y :: rp
  end.

Lemma insert_down_elements base tmp n : apart base tmp n -> forall rp m x post,
  elements m base n = rev rp ++ x :: post ->
  elements (insert_down size compar m base tmp (length rp)) base n = rev (ins_rev rp x) ++ post.
Proof.
  intros Hap. induction rp as [|y rp IH]; intros m x post He; cbn [insert_down length ins_rev]; [done|].
  cbn [rev] in He. rewrite <-app_assoc in He. cbn [app] in He.
  assert (Hn : (S (length rp) < n)%nat).
  { rewrite <-(length_elements m base n), He, length_app, length_rev. cbn [length]. lia. }
  assert (Hy : nth_elem m base (length rp) = y).
  { pose proof (elements_lookup m base n (length rp) ltac:(lia)) as G. rewrite He, lookup_app_r in G by (rewrite length_rev; lia).
    rewrite length_rev, Nat.sub_diag in G. cbn in G. congruence. }
  assert (Hx : nth_elem m base (S (length rp)) = x).
  { pose proof (elements_lookup m base n (S (length rp)) ltac:(lia)) as G. rewrite He, lookup_app_r in G by (rewrite length_rev; lia).
    rewrite length_rev in G. replace (S (length rp) - length rp)%nat with 1%nat in G by lia. cbn in G. congruence. }
  unfold nth_elem in Hx, Hy. rewrite Hcompar, Hx, Hy. destruct (0 <? cmp y x).
  - cbn [rev]. rewrite <-app_assoc. cbn [app]. apply IH.
    rewrite <-(length_rev rp). apply swap_down_elements; done.
  - cbn [rev]. rewrite <-!app_assoc. cbn [app]. rewrite He. done.
Qed.

Lemma ins_rev_perm rp x : ins_rev rp x ≡ₚ x :: rp.
Proof.
  induction rp as [|y rp IH]; [done|]. cbn [ins_rev]. destruct (0 <? cmp y x); [|done].
  rewrite IH. constructor.
Qed.

Definition descending : list (list Z) -> Prop := StronglySorted (fun a b => cmp b a <= 0).

Lemma ins_rev_sorted rp x : descending rp -> descending (ins_rev rp x).
Proof.
  induction 1 as [|y rp Hs IH Hy]; cbn [ins_rev].
  - repeat constructor.
  - destruct (Z.ltb_spec 0 (cmp y x)) as [Hlt|Hge].
    + constructor; [done|]. apply Forall_forall. intros z Hz. apply list_elem_of_In in Hz. rewrite ins_rev_perm in Hz.
      apply elem_of_cons in Hz as [->|Hz]; [by apply Htotal|]. rewrite Forall_forall in Hy. apply Hy. by apply list_elem_of_In.
    + constructor; [by constructor|]. constructor; [done|]. apply Forall_forall. intros z Hz. rewrite Forall_forall in Hy.
      apply Htrans with y; auto.
Qed.

Definition ascending : list (list Z) -> Prop := StronglySorted (fun a b => cmp a b <= 0).

Lemma ascending_snoc l y : ascending l -> Forall (fun a => cmp a y <= 0) l -> ascending (l ++ [y]).
Proof.
  induction 1 as [|x l Hs IH Hx]; intros Hy; cbn [app]; [repeat constructor|].
  inversion_clear Hy. constructor; [by apply IH|]. apply Forall_app. by repeat constructor.
Qed.

Lemma descending_rev l : descending l -> ascending (rev l).
Proof.
  induction 1 as [|y l Hs IH Hy]; [constructor|]. cbn [rev]. apply ascending_snoc; [done|].
  rewrite Forall_forall in *. intros z Hz. apply Hy. by apply in_rev.
Qed.

Lemma qsort_loop base tmp n : apart base tmp n -> forall c i m rp post, elements m base n = rev rp ++ post ->
  length rp = i -> length post = c -> descending rp ->
  exists rp', elements (loop_from i c (fun i m => insert_down size compar m base tmp i) m) base n = rev rp' /\
    descending rp' /\ rp' ≡ₚ rp ++ post.
Proof.
  intros Hap. induction c as [|c IH]; intros i m rp post He Hi Hc Hd; cbn [loop_from].
  - destruct post; [|done]. exists rp. by rewrite !app_nil_r in *.
  - destruct post as [|x post]; [done|]. pose proof (insert_down_elements base tmp n Hap rp m x post He) as Hins.
    rewrite Hi in Hins. destruct (IH (S i) _ (ins_rev rp x) post Hins) as (rp' & H1 & H2 & H3).
    + rewrite (Permutation_length (ins_rev_perm rp x)). cbn [length]. lia.
    + by injection Hc.
    + by apply ins_rev_sorted.
    + exists rp'. split; [done|]. split; [done|]. rewrite H3, ins_rev_perm. cbn [app]. apply Permutation_middle.
Qed.

Lemma qsort_elements m base n tmp : apart base tmp n ->
  ascending (elements (qsort size compar m base n (Some tmp)) base n) /\
  elements (qsort size compar m base n (Some tmp)) base n ≡ₚ elements m base n.
Proof.
  intros Hap. unfold qsort. destruct n as [|n]; [by split; [constructor|]|].
  destruct (elements m base (S n)) as [|x post] eqn:He.
  { pose proof (length_elements m base (S n)) as Hl. by rewrite He in Hl. }
  assert (Hl : length post = n) by (pose proof (length_elements m base (S n)) as Hl; rewrite He in Hl; by injection Hl).
  replace (S n - 1)%nat with n by lia.
  destruct (qsort_loop base tmp (S n) Hap n 1 m [x] post) as (rp & -> & H2 & H3); try done; [repeat constructor|].
  split; [by apply descending_rev|]. rewrite <-Permutation_rev. done.
Qed.

End Sort.


Definition byte_compar (m : mem) (p q : Z) : Z := m p - m q.


(** ** Searching *)

Lemma bsearch_loop_spec size compar m key base n :
  (forall i j, (i <= j < n)%nat -> compar m key (elem size base i) < 0 -> compar m key (elem size base j) < 0) ->
  (forall i j, (i <= j < n)%nat -> 0 < compar m key (elem size base j) -> 0 < compar m key (elem size base i)) ->
  forall fuel lo hi, (hi - lo < fuel)%nat -> (lo <= hi <= n)%nat ->
  (forall i, (i < lo)%nat -> compar m key (elem size base i) <> 0) ->
  (forall i, (hi <= i < n)%nat -> compar m key (elem size base i) <> 0) ->
  match bsearch_loop size compar fuel m key base lo hi with
  | Some p => exists i, (i < n)%nat /\ p = elem size base i /\ compar m key p = 0
  | None => forall i, (i < n)%nat -> compar m key (elem size base i) <> 0
  end.
Proof.
  intros Hneg Hpos. induction fuel as [|fuel IH]; intros lo hi Hf Hr Hlo Hhi; [lia|]. cbn [bsearch_loop].
  destruct (Nat.ltb_spec lo hi) as [Hlt|Hge].
  2: { intros i Hi. destruct (decide (i < lo)%nat); [by apply Hlo|apply Hhi; lia]. }
  assert (Hd : (2 * ((hi - lo) / 2) <= hi - lo)%nat) by (apply Nat.Div0.mul_div_le).
  assert (Hd1 : ((hi - lo) / 2 < hi - lo)%nat) by (apply Nat.div_lt; lia).
  set (mid := (lo + (hi - lo) / 2)%nat) in *. assert (Hmid : (lo <= mid < hi)%nat) by (unfold mid; lia). clearbody mid.
  destruct (Z.eqb_spec (compar m key (elem size base mid)) 0) as [E|E].
  { exists mid. split; [lia|done]. }
  destruct (Z.ltb_spec (compar m key (elem size base mid)) 0).
  - apply IH; [lia|lia|done|]. intros i Hi. destruct (decide (hi <= i)%nat); [apply Hhi; lia|].
    pose proof (Hneg mid i ltac:(lia)). lia.
  - apply IH; [lia|lia| |done]. intros i Hi. destruct (decide (i < lo)%nat); [by apply Hlo|].
    pose proof (Hpos i mid ltac:(lia)). lia.
Qed.

(** [bsearch] on an array ordered with respect to the key terminates, and
    returns a pointer to an element equal to the key when there is one and NULL
    when there is none. *)
Theorem bsearch_finds size compar m key base n :
  (forall i j, (i <= j < n)%nat -> compar m key (elem size base i) < 0 -> compar m key (elem size base j) < 0) ->
  (forall i j, (i <= j < n)%nat -> 0 < compar m key (elem size base j) -> 0 < compar m key (elem size base i)) ->
  match bsearch size compar m key base n with
  | Some p => exists i, (i < n)%nat /\ p = elem size base i /\ compar m key p = 0
  | None => forall i, (i < n)%nat -> compar m key (elem size base i) <> 0
  end.
Proof. intros Hneg Hpos. apply bsearch_loop_spec; [done|done|lia|lia|lia|lia]. Qed.

Lemma bsearch_finds_witness :
  match bsearch 1 byte_compar (mem_at 100 [1; 3; 3; 7; 3]) 104 100 4 with
  | Some p => exists i, (i < 4)%nat /\ p = elem 1 100 i /\ byte_compar (mem_at 100 [1; 3; 3; 7; 3]) 104 p = 0
  | None => False
  end.
Proof.
  pose proof (bsearch_finds 1 byte_compar (mem_at 100 [1; 3; 3; 7; 3]) 104 100 4) as H.
  destruct (bsearch 1 byte_compar (mem_at 100 [1; 3; 3; 7; 3]) 104 100 4) as [p|] eqn:E.
  - apply H; intros i j Hij; do 4 (destruct j as [|j]; [do 4 (destruct i as [|i]; [first [exfalso; lia | vm_compute; congruence]|]); lia|]); lia.
  - vm_compute in E. discriminate E.
Defined.
