(* ===== verification/LibcMalloc.v ===== *)
(** * libc heap

    [recovered/libc/src/malloc.c]: a first-fit heap of blocks with 16-byte
    headers in memory obtained from the [brk] system call, which is a
    parameter, and [strdup] of [string.c]. *)

From S2P Require Import Prelude Bytes CMem LibcString.

Definition MALLOC_MAGIC : Z := 0xDEADBEEF.
Definition HEADER_SIZE : Z := 16.
Definition MALLOC_ALIGN : Z := 16.
#[export] Hint Unfold MALLOC_MAGIC HEADER_SIZE MALLOC_ALIGN : sf.

(** [malloc_header_t]: size, used, prev_size and magic. *)
Definition hdr_size (m : mem) (h : Z) : Z := load32 m h.
Definition hdr_used (m : mem) (h : Z) : Z := load32 m (h + 4).
Definition hdr_magic (m : mem) (h : Z) : Z := load32 m (h + 12).
Definition set_used (m : mem) (h v : Z) : mem := store32 m (h + 4) v.
Definition set_size (m : mem) (h v : Z) : mem := store32 m h v.

Section Malloc.
Context {B : Type} (sys_brk : B -> Z -> Z * B) (brk_of : B -> Z).

Record heap := MkHeap { hmem : mem; heap_base : Z; heap_end : Z; heap_brk : Z; kern : B }.

Definition ensure_heap (h : heap) : heap :=
  if heap_base h =? 0 then
    let '(base, k) := sys_brk (kern h) 0 in
    let '(brk, k) := sys_brk k (base + 0x10000) in
    MkHeap (hmem h) base brk brk k
  else h.

(** [(size + MALLOC_ALIGN - 1) & ~(size_t)(MALLOC_ALIGN - 1)], at least 16. *)
Definition round_size (size : Z) : Z :=
  let size := Z.ldiff (u64 (size + MALLOC_ALIGN - 1)) (MALLOC_ALIGN - 1) in
  if size <? 16 then 16 else size.

(** The first-fit search: a free block large enough, or [Some None] at the end. *)
Fixpoint first_fit (fuel : nat) (m : mem) (hdr end_ size : Z) : option (option Z) :=
  if hdr <? end_ then
    if negb (truthy (hdr_used m hdr)) && (size <=? hdr_size m hdr) then Some (Some hdr)
    else match fuel with
         | O => None
         | S fuel => first_fit fuel m (hdr + HEADER_SIZE + hdr_size m hdr) end_ size
         end
  else Some None.

Definition malloc (fuel : nat) (size : Z) (h : heap) : option (option Z * heap) :=
  if size =? 0 then Some (None, h)
  else
    let size := round_size size in
    let h := ensure_heap h in
    found ← first_fit fuel (hmem h) (heap_base h) (heap_end h) size;
    match found with
    | Some hdr =>
        Some (Some (hdr + HEADER_SIZE),
              MkHeap (set_used (hmem h) hdr 1) (heap_base h) (heap_end h) (heap_brk h) (kern h))
    | None =>
        let needed := HEADER_SIZE + size in
        let '(oom, h) :=
          if heap_brk h <? heap_end h + needed then
            let expand := Z.ldiff (u64 (needed + 0x10000 - 1)) 0xFFFF in
            let '(new_brk, k) := sys_brk (kern h) (heap_brk h + expand) in
            (new_brk =? heap_brk h, MkHeap (hmem h) (heap_base h) (heap_end h) new_brk k)
          else (false, h) in
        if oom : bool then Some (None, h)
        else
          let hdr := heap_end h in
          let m := store32 (hmem h) hdr (u32 size) in
          let m := store32 m (hdr + 4) 1 in
          let m := store32 m (hdr + 8) 0 in
          let m := store32 m (hdr + 12) MALLOC_MAGIC in
          Some (Some (hdr + HEADER_SIZE),
                MkHeap m (heap_base h) (hdr + HEADER_SIZE + size) (heap_brk h) (kern h))
    end.

Definition free (ptr : option Z) (h : heap) : heap :=
  match ptr with
  | None => h
  | Some ptr =>
      let hdr := ptr - HEADER_SIZE in
      if negb (hdr_magic (hmem h) hdr =? MALLOC_MAGIC) then h
      else
        let m := set_used (hmem h) hdr 0 in
        let next := hdr + HEADER_SIZE + hdr_size m hdr in
        let m :=
          if (next <? heap_end h) && negb (truthy (hdr_used m next)) && (hdr_magic m next =? MALLOC_MAGIC)
          then set_size m hdr (u32 (hdr_size m hdr + HEADER_SIZE + hdr_size m next))
          else m in
        MkHeap m (heap_base h) (heap_end h) (heap_brk h) (kern h)
  end.

Definition set_mem (m : mem) (h : heap) : heap :=
  MkHeap m (heap_base h) (heap_end h) (heap_brk h) (kern h).

Definition calloc (fuel : nat) (num size : Z) (h : heap) : option (option Z * heap) :=
  let total := u64 (num * size) in
  '(p, h) ← malloc fuel total h;
  match p with
  | Some a => Some (p, set_mem (memset (hmem h) a 0 (Z.to_nat total)) h)
  | None => Some (p, h)
  end.

Definition realloc (fuel : nat) (ptr : option Z) (size : Z) (h : heap) : option (option Z * heap) :=
  match ptr with
  | None => malloc fuel size h
  | Some p =>
      if size =? 0 then Some (None, free ptr h)
      else
        let hdr := p - HEADER_SIZE in
        if size <=? hdr_size (hmem h) hdr then Some (ptr, h)
        else
          '(new_ptr, h) ← malloc fuel size h;
          match new_ptr with
          | None => Some (None, h)
          | Some q =>
              let old := hdr_size (hmem h) hdr in
              let copy := if old <? size then old else size in
              let h := set_mem (memcpy (hmem h) q p (Z.to_nat copy)) h in
              Some (new_ptr, free ptr h)
          end
  end.

Definition strdup (fuel : nat) (s : Z) (h : heap) : option (option Z * heap) :=
  n ← strlen fuel (hmem h) s;
  let len := n + 1 in
  '(d, h) ← malloc fuel len h;
  match d with
  | Some a => Some (d, set_mem (memcpy (hmem h) a s (Z.to_nat len)) h)
  | None => Some (d, h)
  end.

(** ** The chain of blocks *)

Record blk := MkBlk { b_at : Z; b_size : Z; b_used : bool; b_magic : bool }.

Definition header (m : mem) (b : blk) : Prop :=
  hdr_size m (b_at b) = b_size b /\ hdr_used m (b_at b) = b2z (b_used b) /\
  (hdr_magic m (b_at b) =? MALLOC_MAGIC) = b_magic b /\
  0 <= b_size b < 2 ^ 32 /\ b_size b mod 16 = 0 /\
  (b_magic b = false -> b_size b = 0 /\ b_used b = false).

Fixpoint chain (m : mem) (a e : Z) (bs : list blk) : Prop :=
  match bs with
  | [] => a = e
  | b :: bs => b_at b = a /\ header m b /\ chain m (a + HEADER_SIZE + b_size b) e bs
  end.

Record heap_ok (h : heap) (bs : list blk) : Prop := {
  ho_base : heap_base h mod 16 = 0 /\ 0 < heap_base h;
  ho_chain : chain (hmem h) (heap_base h) (heap_end h) bs;
  ho_brk : heap_end h <= heap_brk h /\ brk_of (kern h) = heap_brk h;
  ho_small : heap_end h - heap_base h < 2 ^ 32
}.

(** The allocations a program holds: payload address and size. *)
Definition live (bs : list blk) : list (Z * Z) :=
  map (fun b => (b_at b + HEADER_SIZE, b_size b)) (List.filter b_used bs).

(** Regions in increasing order without overlap. *)
Fixpoint separate (a : Z) (l : list (Z * Z)) : Prop :=
  match l with
  | [] => True
  | (p, s) :: l => a <= p /\ separate (p + s) l
  end.

Lemma chain_app m bs1 bs2 : forall a e,
  chain m a e (bs1 ++ bs2) <-> exists c, chain m a c bs1 /\ chain m c e bs2.
Proof.
  induction bs1 as [|b bs1 IH]; intros a e; cbn [chain app].
  - split; [by exists a|]. intros (c & -> & Hc). done.
  - rewrite IH. split.
    + intros (Ha & Hh & c & H1 & H2). by exists c.
    + intros (c & (Ha & Hh & H1) & H2). split; [done|]. split; [done|]. by exists c.
Qed.

Lemma chain_bounds m bs : forall a e, chain m a e bs -> a <= e /\ forall b, In b bs -> a <= b_at b /\ b_at b + HEADER_SIZE + b_size b <= e.
Proof.
  induction bs as [|b bs IH]; intros a e; cbn [chain].
  - intros ->. split; [lia|done].
  - intros (Ha & (_ & _ & _ & Hs & _) & Hc). destruct (IH _ _ Hc) as [Hle Hin]. split; [sflia|].
    intros b' [<-|Hb]; [sflia|]. pose proof (Hin _ Hb). sflia.
Qed.

Lemma header_ext m m' b : (forall x, b_at b <= x < b_at b + HEADER_SIZE -> m x = m' x) -> header m b -> header m' b.
Proof.
  intros Hx. unfold header, hdr_size, hdr_used, hdr_magic, load32.
  rewrite (mread_ext m m' (b_at b)), (mread_ext m m' (b_at b + 4)), (mread_ext m m' (b_at b + 12));
    [done|intros x Hr; apply Hx; sflia..].
Qed.

Lemma chain_ext m m' bs : forall a e,
  (forall b x, In b bs -> b_at b <= x < b_at b + HEADER_SIZE -> m x = m' x) -> chain m a e bs -> chain m' a e bs.
Proof.
  induction bs as [|b bs IH]; intros a e Hx; cbn [chain]; [done|]. intros (Ha & Hh & Hc).
  split; [done|]. split.
  - apply (header_ext m); [|done]. intros x Hr. apply (Hx b); [by left|done].
  - apply IH; [|done]. intros b' x Hb Hr. apply (Hx b'); [by right|done].
Qed.

Lemma chain_aligned m bs : forall a e, a mod 16 = 0 -> chain m a e bs -> e mod 16 = 0 /\ forall b, In b bs -> b_at b mod 16 = 0.
Proof.
  induction bs as [|b bs IH]; intros a e Ha; cbn [chain]; [by intros ->|].
  intros (Hb & (_ & _ & _ & _ & Hs & _) & Hc). apply IH in Hc as [He Hin]; [|autounfold with sf; Z.div_mod_to_equations; lia].
  split; [done|]. intros b' [<-|Hb']; [by rewrite Hb|auto].
Qed.

Lemma first_fit_spec m size : forall bs fuel a e, chain m a e bs -> (length bs <= fuel)%nat ->
  (first_fit fuel m a e size = Some None) \/
  exists bs1 b bs2, bs = bs1 ++ b :: bs2 /\ b_used b = false /\ size <= b_size b /\
    first_fit fuel m a e size = Some (Some (b_at b)).
Proof.
  induction bs as [|b bs IH]; intros fuel a e Hc Hf; cbn [chain length] in *.
  - subst e. left. destruct fuel; cbn [first_fit]; by rewrite Z.ltb_irrefl.
  - destruct Hc as (Ha & Hh & Hc). pose proof Hh as (Hs & Hu & _ & Hr & _). destruct fuel as [|fuel]; [lia|]. cbn [first_fit].
    destruct (chain_bounds _ _ _ _ Hc) as [Hle _]. rewrite Ha in Hs, Hu.
    rewrite (proj2 (Z.ltb_lt _ _)) by sflia. rewrite Hs, Hu.
    destruct (negb (truthy (b2z (b_used b))) && (size <=? b_size b)) eqn:E.
    + right. apply andb_true_iff in E as [E1 E2]. exists [], b, bs. rewrite Ha. destruct (b_used b); [done|].
      split; [done|]. split; [done|]. split; [by apply Z.leb_le|done].
    + destruct (IH fuel _ _ Hc ltac:(lia)) as [->|(bs1 & b' & bs2 & -> & H1 & H2 & ->)]; [by left|right].
      by exists (b :: bs1), b', bs2.
Qed.

Lemma live_app bs1 bs2 : live (bs1 ++ bs2) = live bs1 ++ live bs2.
Proof. unfold live. by rewrite List.filter_app, map_app. Qed.

Lemma chain_separate m bs : forall a e, chain m a e bs -> separate a (live bs).
Proof.
  assert (Hweak : forall l a b, a <= b -> separate b l -> separate a l).
  { intros [|[p s] l] a b Hab; cbn [separate]; [done|]. intros [? ?]. split; [lia|done]. }
  induction bs as [|b bs IH]; intros a e; cbn [chain]; [done|]. intros (Ha & (_ & _ & _ & Hs & _) & Hc).
  apply IH in Hc. unfold live in *. cbn [List.filter]. destruct (b_used b); cbn [map separate].
  - rewrite Ha. split; [sflia|done].
  - apply Hweak with (2 := Hc). sflia.
Qed.

Lemma live_in bs p s : In (p, s) (live bs) -> exists b, In b bs /\ b_used b = true /\ p = b_at b + HEADER_SIZE /\ s = b_size b.
Proof.
  unfold live. intros Hin. apply in_map_iff in Hin as (b & [= <- <-] & Hb). apply filter_In in Hb as [Hb Hu]. by exists b.
Qed.

(** Distinct blocks of a chain do not overlap. *)
Lemma chain_apart m a e bs1 b bs2 b' : chain m a e (bs1 ++ b :: bs2) -> In b' (bs1 ++ bs2) ->
  b_at b' + HEADER_SIZE + b_size b' <= b_at b \/ b_at b + HEADER_SIZE + b_size b <= b_at b'.
Proof.
  intros Hc Hin. apply chain_app in Hc as (c & H1 & Hat & Hh & H2). apply in_app_iff in Hin as [Hin|Hin].
  - left. rewrite Hat. by apply (chain_bounds _ _ _ _ H1).
  - right. rewrite Hat. by apply (chain_bounds _ _ _ _ H2).
Qed.

Lemma ldiff15 x : Z.ldiff x 15 = x / 16 * 16.
Proof. change 15 with (Z.ones 4). rewrite Z.ldiff_ones_r by lia. rewrite Z.shiftl_mul_pow2, Z.shiftr_div_pow2 by lia. done. Qed.

Lemma round_size_spec size : 0 < size < 2 ^ 32 ->
  size <= round_size size < size + 16 /\ 16 <= round_size size /\ round_size size mod 16 = 0.
Proof.
  intros Hs. unfold round_size. autounfold with sf. rewrite u64_small by lia. rewrite ldiff15.
  assert (E : (size + 16 - 1) / 16 * 16 mod 16 = 0) by (rewrite Z.mod_mul; lia).
  destruct (Z.ltb_spec ((size + 16 - 1) / 16 * 16) 16); Z.div_mod_to_equations; lia.
Qed.

Definition with_used (u : bool) (b : blk) : blk := MkBlk (b_at b) (b_size b) u (b_magic b).

Lemma header_set_used m b u : header m b -> b_magic b = true ->
  header (set_used m (b_at b) (b2z u)) (with_used u b).
Proof.
  intros (H1 & H2 & H3 & H4 & H5 & _) Hm. unfold header, hdr_size, hdr_used, hdr_magic, set_used in *. cbn [b_at b_size b_used b_magic with_used].
  rewrite load32_store32_same by (destruct u; sflia). rewrite !load32_store32_other by lia.
  repeat split; try done; lia || congruence.
Qed.

(** Marking one block of the chain. *)
Lemma chain_set_used m a e bs1 b bs2 u : chain m a e (bs1 ++ b :: bs2) -> b_magic b = true ->
  chain (set_used m (b_at b) (b2z u)) a e (bs1 ++ with_used u b :: bs2).
Proof.
  intros Hc Hm. pose proof (fun b' => chain_apart m a e bs1 b bs2 b' Hc) as Hap.
  apply chain_app in Hc as (c & H1 & Hat & Hh & H2). apply chain_app. exists c.
  assert (Hout : forall b' x, In b' (bs1 ++ bs2) -> b_at b' <= x < b_at b' + HEADER_SIZE -> 0 <= b_size b' ->
            m x = set_used m (b_at b) (b2z u) x).
  { intros b' x Hin Hx Hs'. symmetry. apply store32_out. destruct Hh as (_ & _ & _ & Hs & _). pose proof (Hap b' Hin). sflia. }
  assert (Hsz : forall l p q b', chain m p q l -> In b' l -> 0 <= b_size b').
  { induction l as [|y l IH]; intros p q b' Hl Hin; [done|]. destruct Hl as (_ & (_ & _ & _ & Hs & _) & Hl).
    destruct Hin as [<-|Hin]; [lia|eauto]. }
  split; [|split; [done|split]].
  - apply (chain_ext m); [|done]. intros b' x Hin Hx. apply (Hout b'); [apply in_app_iff; auto|done|eauto].
  - by apply header_set_used.
  - apply (chain_ext m); [|done]. intros b' x Hin Hx. apply (Hout b'); [apply in_app_iff; auto|done|eauto].
Qed.

(** The program's data: payload bytes of the allocations it holds. *)
Definition payload_kept (bs : list blk) (m m' : mem) : Prop :=
  forall p s x, In (p, s) (live bs) -> p <= x < p + s -> m' x = m x.

Lemma set_used_payload m a e bs1 b bs2 u : chain m a e (bs1 ++ b :: bs2) ->
  payload_kept (bs1 ++ b :: bs2) m (set_used m (b_at b) u).
Proof.
  intros Hc p s x Hin Hx. apply live_in in Hin as (b' & Hb & _ & -> & ->). apply store32_out.
  apply in_app_iff in Hb as [Hb|[<-|Hb]]; [|sflia|];
    destruct (chain_apart m a e bs1 b bs2 b' Hc) as [?|?]; try (apply in_app_iff; auto);
    apply chain_app in Hc as (c & _ & Hat & (_ & _ & _ & Hs & _) & _); sflia.
Qed.

(** [brk] moves the break to the requested address or leaves it. *)
Definition brk_law : Prop := forall k a,
  brk_of (sys_brk k a).2 = (sys_brk k a).1 /\ ((sys_brk k a).1 = a \/ (sys_brk k a).1 = brk_of k).

Lemma grow_spec h bs needed : brk_law -> heap_ok h bs -> 0 <= needed < 2 ^ 33 ->
  let '(oom, h') :=
    if heap_brk h <? heap_end h + needed then
      let '(new_brk, k) := sys_brk (kern h) (heap_brk h + Z.ldiff (u64 (needed + 0x10000 - 1)) 0xFFFF) in
      (new_brk =? heap_brk h, MkHeap (hmem h) (heap_base h) (heap_end h) new_brk k)
    else (false, h) in
  hmem h' = hmem h /\ heap_base h' = heap_base h /\ heap_end h' = heap_end h /\ heap_ok h' bs /\
  (oom = false -> heap_end h + needed <= heap_brk h').
Proof.
  intros Hlaw Hok Hn. destruct Hok as [Hb Hc [Hbrk Hcur] Hs]. destruct (Z.ltb_spec (heap_brk h) (heap_end h + needed)).
  2: { repeat split; try done; lia. }
  change 0xFFFF with (Z.ones 16). rewrite Z.ldiff_ones_r by lia. rewrite Z.shiftl_mul_pow2, Z.shiftr_div_pow2 by lia.
  rewrite u64_small by lia. set (ex := (needed + 0x10000 - 1) / 2 ^ 16 * 2 ^ 16).
  assert (Hex : needed <= ex) by (unfold ex; Z.div_mod_to_equations; lia). clearbody ex.
  destruct (Hlaw (kern h) (heap_brk h + ex)) as [Hl1 Hl2]. destruct (sys_brk (kern h) (heap_brk h + ex)) as [nb k]. cbn [fst snd] in *.
  split; [done|]. split; [done|]. split; [done|]. split.
  - split; [done|done|cbn [heap_end heap_brk kern]; lia|done].
  - intros Ho. apply Z.eqb_neq in Ho. cbn [heap_brk]. lia.
Qed.

Lemma new_header m a size magic_ok : 0 <= size < 2 ^ 32 -> size mod 16 = 0 -> magic_ok = true ->
  header (store32 (store32 (store32 (store32 m a (u32 size)) (a + 4) 1) (a + 8) 0) (a + 12) MALLOC_MAGIC)
    (MkBlk a size true magic_ok).
Proof.
  intros Hs Hm ->. unfold header, hdr_size, hdr_used, hdr_magic. cbn [b_at b_size b_used b_magic].
  rewrite load32_store32_same by sflia.
  rewrite (load32_store32_other _ (a + 12) _ a), (load32_store32_other _ (a + 8) _ a), (load32_store32_other _ (a + 4) _ a),
    load32_store32_same, u32_small by (rewrite ?u32_small; sflia).
  rewrite (load32_store32_other _ (a + 12) _ (a + 4)), (load32_store32_other _ (a + 8) _ (a + 4)), load32_store32_same by sflia.
  repeat split; done || lia.
Qed.

(** What a successful allocation gives. *)
Definition allocated (size : Z) (bs bs' : list blk) (p : Z) : Prop :=
  exists s l1 l2, size <= s /\ p mod 16 = 0 /\ live bs = l1 ++ l2 /\ live bs' = l1 ++ (p, s) :: l2.

Lemma malloc_spec fuel size h bs : brk_law -> heap_ok h bs -> 0 < size < 2 ^ 32 ->
  heap_end h - heap_base h + HEADER_SIZE + round_size size < 2 ^ 32 -> (length bs <= fuel)%nat ->
  exists r h' bs', malloc fuel size h = Some (r, h') /\ heap_ok h' bs' /\ payload_kept bs (hmem h) (hmem h') /\
    match r with Some p => allocated size bs bs' p | None => live bs' = live bs end.
Proof.
  intros Hlaw Hok Hsz Hroom Hf. unfold malloc. destruct (Z.eqb_spec size 0); [lia|].
  pose proof Hok as [[Hb0 Hb1] Hc Hbrk Hsm]. unfold ensure_heap. destruct (Z.eqb_spec (heap_base h) 0); [lia|].
  destruct (round_size_spec size Hsz) as (Hr1 & Hr2 & Hr3). set (rs := round_size size) in *. clearbody rs.
  destruct (chain_aligned _ _ _ _ Hb0 Hc) as [Hend Hal].
  destruct (first_fit_spec (hmem h) rs bs fuel _ _ Hc Hf) as [->|(bs1 & b & bs2 & -> & Hu & Hsb & ->)]; cbn [mbind option_bind].
  - pose proof (grow_spec h bs (HEADER_SIZE + rs) Hlaw Hok ltac:(sflia)) as Hg.
    destruct (if _ <? _ then _ else _) as [oom h']. destruct Hg as (G1 & G2 & G3 & Hok' & Hfit).
    destruct oom; [exists None, h', bs; repeat split; try apply Hok'; try done; by rewrite G1|].
    specialize (Hfit eq_refl). rewrite G1, G2, G3. set (e := heap_end h) in *.
    destruct (chain_bounds _ _ _ _ Hc) as [Hle Hin].
    exists (Some (e + HEADER_SIZE)). eexists. exists (bs ++ [MkBlk e rs true true]). split; [reflexivity|].
    assert (Hout : forall x, x < e -> hmem h x =
              store32 (store32 (store32 (store32 (hmem h) e (u32 rs)) (e + 4) 1) (e + 8) 0) (e + 12) MALLOC_MAGIC x).
    { intros x Hx. rewrite !store32_out by lia. done. }
    split; [|split].
    + split; cbn [hmem heap_base heap_end heap_brk kern]; [done| |destruct Hok' as [_ _ [_ ?] _]; split; [sflia|done]|sflia].
      apply chain_app. exists e. split.
      * apply (chain_ext (hmem h)); [|done]. intros b x Hbi Hx. apply Hout. pose proof (Hin b Hbi).
        assert (0 <= b_size b); [|sflia]. apply in_split in Hbi as (y1 & y2 & ->).
        apply chain_app in Hc as (? & _ & _ & (_ & _ & _ & ? & _) & _). lia.
      * split; [done|]. split; [by apply new_header; [sflia|..]|done].
    + intros p s x Hp Hx. apply live_in in Hp as (b & Hbi & _ & -> & ->). symmetry. apply Hout. pose proof (Hin b Hbi). cbn [hmem]. sflia.
    + exists rs, (live bs), []. rewrite live_app, app_nil_r. split; [lia|]. split; [sflia || (autounfold with sf; Z.div_mod_to_equations; lia)|done].
  - assert (Hm : b_magic b = true).
    { destruct (b_magic b) eqn:E; [done|]. apply chain_app in Hc as (? & _ & _ & (_ & _ & _ & _ & _ & Hz) & _). destruct (Hz E). lia. }
    exists (Some (b_at b + HEADER_SIZE)). eexists. exists (bs1 ++ with_used true b :: bs2). split; [reflexivity|].
    split; [|split].
    + split; cbn [hmem heap_base heap_end heap_brk kern]; try done. by apply (chain_set_used _ _ _ bs1 b bs2 true).
    + cbn [hmem]. by apply (set_used_payload _ (heap_base h) (heap_end h)).
    + exists (b_size b), (live bs1), (live bs2). split; [lia|]. split.
      * specialize (Hal b ltac:(apply in_app_iff; right; by left)). autounfold with sf. Z.div_mod_to_equations. lia.
      * split; rewrite live_app; unfold live at 2; cbn [List.filter]; [by rewrite Hu|done].
Qed.

Lemma live_split bs l1 p s l2 : live bs = l1 ++ (p, s) :: l2 ->
  exists bs1 b bs2, bs = bs1 ++ b :: bs2 /\ live bs1 = l1 /\ live bs2 = l2 /\ b_used b = true /\
    p = b_at b + HEADER_SIZE /\ s = b_size b.
Proof.
  revert l1. induction bs as [|b bs IH]; intros l1 Hl; [by destruct l1|].
  unfold live in Hl. cbn [List.filter] in Hl. destruct (b_used b) eqn:Hu; cbn [map] in Hl; fold (live bs) in Hl.
  - destruct l1 as [|y l1]; cbn [app] in Hl.
    + injection Hl as <- <- Hl. by exists [], b, bs.
    + injection Hl as <- Hl. destruct (IH l1 Hl) as (bs1 & b' & bs2 & -> & <- & H2 & H3).
      exists (b :: bs1), b', bs2. split; [done|]. split; [|done]. unfold live. cbn [List.filter]. by rewrite Hu.
  - destruct (IH l1 Hl) as (bs1 & b' & bs2 & -> & <- & H2 & H3).
    exists (b :: bs1), b', bs2. split; [done|]. split; [|done]. unfold live. cbn [List.filter]. by rewrite Hu.
Qed.

(** Absorbing the free block behind a free block. *)
Lemma chain_merge m a e bs1 b n bs3 : chain m a e (bs1 ++ b :: n :: bs3) -> e - a < 2 ^ 32 ->
  b_used b = false -> b_magic b = true ->
  let s := b_size b + HEADER_SIZE + b_size n in
  chain (set_size m (b_at b) (u32 s)) a e (bs1 ++ MkBlk (b_at b) s false true :: bs3) /\
  payload_kept (bs1 ++ bs3) m (set_size m (b_at b) (u32 s)).
Proof.
  intros Hc Hsm Hu Hm s. pose proof (fun b' => chain_apart m a e bs1 b (n :: bs3) b' Hc) as Hap.
  apply chain_app in Hc as (c & H1 & Hat & Hh & Hat2 & Hh2 & H2).
  destruct Hh as (E1 & E2 & E3 & E4 & E5 & _), Hh2 as (_ & _ & _ & F4 & F5 & _).
  destruct (chain_bounds _ _ _ _ H1) as [B1 _]. destruct (chain_bounds _ _ _ _ H2) as [B2 _].
  assert (Hs : u32 s = s) by (apply u32_small; unfold s; sflia). rewrite Hs.
  assert (Hout : forall x, x < b_at b \/ b_at b + HEADER_SIZE <= x -> m x = set_size m (b_at b) s x).
  { intros x Hx. symmetry. apply store32_out. sflia. }
  assert (Hsz : forall l p q b', chain m p q l -> In b' l -> 0 <= b_size b').
  { induction l as [|y l IH]; intros p q b' Hl Hin; [done|]. destruct Hl as (_ & (_ & _ & _ & Hz & _) & Hl).
    destruct Hin as [<-|Hin]; [lia|eauto]. }
  assert (Hkeep : forall b' x, In b' bs1 \/ In b' bs3 -> b_at b' <= x < b_at b' + HEADER_SIZE + b_size b' -> m x = set_size m (b_at b) s x).
  { intros b' x Hin Hx. apply Hout. pose proof (Hap b' ltac:(apply in_app_iff; destruct Hin; [left|right; right]; done)).
    assert (0 <= b_size b') by (destruct Hin; eauto). sflia. }
  split.
  - apply chain_app. exists c. split; [|split; [done|split]].
    + apply (chain_ext m); [|done]. intros b' x Hin Hx. apply (Hkeep b'); [auto|]. pose proof (Hsz _ _ _ _ H1 Hin). lia.
    + unfold header, hdr_size, hdr_used, hdr_magic, set_size in *. cbn [b_at b_size b_used b_magic].
      rewrite load32_store32_same by (unfold s; sflia). rewrite !load32_store32_other by lia. rewrite E2, E3, Hu, Hm.
      repeat split; try done; unfold s; autounfold with sf in *; try lia. Z.div_mod_to_equations. lia.
    + cbn [b_size]. replace (c + HEADER_SIZE + s) with (c + HEADER_SIZE + b_size b + HEADER_SIZE + b_size n) by (unfold s; lia).
      apply (chain_ext m); [|done]. intros b' x Hin Hx. apply (Hkeep b'); [auto|]. pose proof (Hsz _ _ _ _ H2 Hin). lia.
  - intros p t x Hin Hx. apply live_in in Hin as (b' & Hb & _ & -> & ->). apply in_app_iff in Hb.
    symmetry. apply (Hkeep b'); [done|sflia].
Qed.

Lemma free_spec h bs l1 p s l2 : heap_ok h bs -> live bs = l1 ++ (p, s) :: l2 ->
  exists bs', heap_ok (free (Some p) h) bs' /\ live bs' = l1 ++ l2 /\
    (forall q t x, In (q, t) (l1 ++ l2) -> q <= x < q + t -> hmem (free (Some p) h) x = hmem h x).
Proof.
  intros Hok Hl. destruct (live_split _ _ _ _ _ Hl) as (bs1 & b & bs2 & -> & <- & <- & Hu & -> & ->).
  destruct Hok as [Hb Hc Hbrk Hsm]. unfold free. replace (b_at b + HEADER_SIZE - HEADER_SIZE) with (b_at b) by lia.
  pose proof Hc as Hc0. apply chain_app in Hc0 as (c & H1 & Hat & Hh & H2).
  assert (Hm : b_magic b = true).
  { destruct (b_magic b) eqn:E; [done|]. destruct Hh as (_ & _ & _ & _ & _ & Hz). destruct (Hz E). congruence. }
  pose proof Hh as (E1 & E2 & E3 & _). rewrite E3, Hm. cbn [negb].
  pose proof (chain_set_used _ _ _ bs1 b bs2 false Hc Hm) as Hc1. change (b2z false) with 0 in Hc1.
  pose proof (set_used_payload _ _ _ bs1 b bs2 0 Hc) as Hp1. set (m := set_used (hmem h) (b_at b) 0) in *.
  assert (Hpk : forall q t x, In (q, t) (live bs1 ++ live bs2) -> q <= x < q + t -> m x = hmem h x).
  { intros q t x Hin Hx. apply (Hp1 q t); [|done]. rewrite live_app. unfold live at 2. cbn [List.filter]. rewrite Hu. cbn [map].
    apply in_app_iff in Hin as [?|?]; apply in_app_iff; [by left|right; by right]. }
  pose proof Hc1 as Hc2. apply chain_app in Hc2 as (c' & _ & Hat' & Hh' & Hrest).
  assert (Hsz : hdr_size m (b_at b) = b_size b) by apply Hh'. rewrite Hsz.
  cbn [b_at with_used] in Hat'. cbn [b_size with_used] in Hrest. rewrite <-Hat' in Hrest.
  assert (Hlive : live (with_used false b :: bs2) = live bs2) by done.
  destruct bs2 as [|n bs3]; cbn [chain] in Hrest.
  - rewrite Hrest, Z.ltb_irrefl. cbn [andb]. exists (bs1 ++ [with_used false b]).
    split; [split; done|]. split; [by rewrite live_app|exact Hpk].
  - destruct Hrest as (Hn & Hhn & Hrest). rewrite <-Hn in *. destruct (chain_bounds _ _ _ _ Hrest) as [Hle _].
    pose proof Hhn as (N1 & N2 & N3 & N4 & _). rewrite (proj2 (Z.ltb_lt _ _)) by sflia. rewrite N2, N3, N1. cbn [andb].
    destruct (negb (truthy (b2z (b_used n))) && b_magic n) eqn:Ecase.
    + apply andb_true_iff in Ecase as [Enu _].
      destruct (chain_merge m _ _ bs1 (with_used false b) n bs3 Hc1 Hsm eq_refl Hm) as [Hc3 Hp3]. cbn [b_at b_size with_used] in Hc3, Hp3.
      assert (Hnl : live (n :: bs3) = live bs3) by (unfold live; cbn [List.filter]; by destruct (b_used n)).
      eexists. split; [split; [done|exact Hc3|done|done]|]. split.
      * rewrite !live_app, Hnl. done.
      * intros q t x Hin Hx. cbn [hmem]. rewrite (Hp3 q t); [|by rewrite live_app, <-Hnl|done]. by apply (Hpk q t).
    + exists (bs1 ++ with_used false b :: n :: bs3). split; [split; done|]. split; [by rewrite live_app|exact Hpk].
Qed.

End Malloc.


(** A kernel that grants every request. *)
Definition ex_brk (k a : Z) : Z * Z := if a =? 0 then (k, k) else (a, a).
Definition ex_heap : heap := MkHeap (fun _ => 0) 4096 4096 4096 4096.

