(* ===== verification/LibcStdio.v ===== *)
(** * libc formatted output and streams

    [recovered/libc/src/stdio.c].  The formatter writes its buffer front to
    back, so its effect is the list of characters stored before the final NUL;
    a string argument is given by its characters.  The system calls behind the
    streams are the operations of [Posix]. *)

From S2P Require Import Prelude Bytes CMem Decimal LibcString LibcStdlib.

(** ** [vsnprintf_internal] *)

Inductive va_arg := VaWord (w : Z) | VaString (s : list Z) | VaNull.

Definition va_word (ap : list va_arg) : Z :=
  match ap with VaWord w :: _ => w | _ => 0 end.

(** [if (pos < size - 1) buf[pos++] = c;] with [lim = size - 1]. *)
Definition put (lim c : Z) (out : list Z) : list Z := if zlen out <? lim then out ++ [c] else out.

Fixpoint put_all (lim : Z) (cs out : list Z) : list Z :=
  match cs with [] => out | c :: cs => put_all lim cs (put lim c out) end.

(** [while (len < width && pos < size - 1) { buf[pos++] = c; width--; }] *)
Definition put_pad (lim c len width : Z) (out : list Z) : list Z :=
  put_all lim (replicate (Z.to_nat (width - len)) c) out.

Definition hex_lower : list Z := [48; 49; 50; 51; 52; 53; 54; 55; 56; 57; 97; 98; 99; 100; 101; 102].
Definition hex_upper : list Z := [48; 49; 50; 51; 52; 53; 54; 55; 56; 57; 65; 66; 67; 68; 69; 70].

(** [while (val > 0) { tmp[len++] = table[val % base]; val /= base; }] *)
Fixpoint tmp_digits (fuel : nat) (table : list Z) (base val : Z) : list Z :=
  match fuel with
  | O => []
  | S fuel => if 0 <? val then at_ table (val mod base) :: tmp_digits fuel table base (val / base) else []
  end.

(** A 64-bit value has at most 64 digits in any base. *)
Definition number_tmp (table : list Z) (base val : Z) : list Z :=
  if val =? 0 then [48] else tmp_digits 64 table base val.

Definition put_number (lim : Z) (table : list Z) (base val width : Z) (pad_zero : bool) (out : list Z) : list Z :=
  let tmp := number_tmp table base val in
  let out := put_pad lim (if pad_zero then 48 else 32) (zlen tmp) width out in
  put_all lim (rev tmp) out.

(** The flag, width and length modifiers after a percent sign, and the rest. *)
Fixpoint take_width (width : Z) (fmt : list Z) : Z * list Z :=
  match fmt with
  | c :: fmt' => if (48 <=? c) && (c <=? 57) then take_width (s32 (width * 10 + (c - 48))) fmt' else (width, fmt)
  | [] => (width, fmt)
  end.

Definition take_l (fmt : list Z) : bool * list Z :=
  match fmt with c :: f => if c =? 108 then (true, f) else (false, fmt) | [] => (false, fmt) end.

Definition directive (fmt : list Z) : bool * Z * Z * list Z :=
  let '(pad_zero, fmt) :=
    match fmt with c :: f => if c =? 48 then (true, f) else (false, fmt) | [] => (false, fmt) end in
  let '(width, fmt) := take_width 0 fmt in
  let '(l1, fmt) := take_l fmt in
  let '(l2, fmt) := take_l fmt in
  (pad_zero, width, if l2 : bool then 2 else if l1 : bool then 1 else 0, fmt).

(** The conversion character [c]. *)
Definition convert (lim size c width long_val : Z) (pad_zero : bool) (ap : list va_arg) (out : list Z)
  : list Z * list va_arg :=
  let unsigned w := if 1 <=? long_val then u64 w else u32 w in
  if (c =? 100) || (c =? 105) then
    let val := if 1 <=? long_val then s64 (va_word ap) else s32 (va_word ap) in
    let out := if val <? 0 then put lim 45 out else out in
    let val := if val <? 0 then s64 (- val) else val in
    (put_number lim hex_lower 10 val width pad_zero out, tl ap)
  else if c =? 117 then (put_number lim hex_lower 10 (unsigned (va_word ap)) width pad_zero out, tl ap)
  else if c =? 120 then (put_number lim hex_lower 16 (unsigned (va_word ap)) width pad_zero out, tl ap)
  else if c =? 88 then (put_number lim hex_upper 16 (unsigned (va_word ap)) width pad_zero out, tl ap)
  else if c =? 112 then
    let out := if zlen out + 2 <? size then (out ++ [48; 120]) else out in
    (put_all lim (rev (number_tmp hex_lower 16 (u64 (va_word ap)))) out, tl ap)
  else if c =? 115 then
    let s := match ap with
             | VaString s :: _ => s
             | _ => [40; 110; 117; 108; 108; 41]
             end in
    (put_all lim s (put_pad lim 32 (zlen s) width out), tl ap)
  else if c =? 99 then (put lim (u8 (va_word ap)) out, tl ap)
  else if c =? 37 then (put lim 37 out, ap)
  else (put lim c (put lim 37 out), ap).

(** [None] when the format ends inside a directive: the code then steps over
    the terminator and reads on. *)
Fixpoint format_loop (fuel : nat) (lim size : Z) (fmt : list Z) (ap : list va_arg) (out : list Z)
  : option (list Z) :=
  match fuel with
  | O => None
  | S fuel =>
      match fmt with
      | [] => Some out
      | c :: fmt' =>
          if negb (zlen out <? lim) then Some out
          else if negb (c =? 37) then format_loop fuel lim size fmt' ap (out ++ [c])
          else
            let '(pad_zero, width, long_val, rest) := directive fmt' in
            match rest with
            | [] => None
            | c :: rest =>
                let '(out, ap) := convert lim size c width long_val pad_zero ap out in
                format_loop fuel lim size rest ap out
            end
      end
  end.

(** Every turn consumes a character of the format. *)
Definition vsnprintf_internal (size : Z) (fmt : list Z) (ap : list va_arg) : option (list Z) :=
  format_loop (S (length fmt)) (u64 (size - 1)) size fmt ap [].

(** The buffer afterwards and the returned length. *)
Definition vsnprintf (str : list Z) (size : Z) (fmt : list Z) (ap : list va_arg) : option (list Z * Z) :=
  out ← vsnprintf_internal size fmt ap; Some (blit 0 (out ++ [0]) str, s32 (zlen out)).

Definition sprintf (str : list Z) (fmt : list Z) (ap : list va_arg) : option (list Z * Z) :=
  vsnprintf str UINT64_MAX fmt ap.

(** ** Streams *)

Record FILE := MkFile { fd : Z; fflags : Z; err : Z; eof : Z }.
#[export] Instance FILE_settable : Settable FILE := fun f => MkFile (fd f) (fflags f) (err f) (eof f).

Class Posix (S : Type) := {
  os_open : S -> list Z -> Z -> Z -> Z * S;
  os_close : S -> Z -> Z * S;
  os_read : S -> Z -> Z -> Z * list Z * S;
  os_write : S -> Z -> list Z -> Z * S;
  os_lseek : S -> Z -> Z -> Z -> Z * S
}.

Definition EOF : Z := -1.
Definition O_RDONLY : Z := 0.
Definition O_WRONLY : Z := 1.
Definition O_RDWR : Z := 2.
Definition O_CREAT : Z := 0x40.
Definition O_TRUNC : Z := 0x200.
Definition O_APPEND : Z := 0x400.
Definition _IO_READ : Z := 1.
Definition _IO_WRITE : Z := 2.
Definition _IO_APPEND : Z := 4.
Definition STDOUT_FILENO : Z := 1.
Definition STDERR_FILENO : Z := 2.
Definition SEEK_SET : Z := 0.
Definition SEEK_CUR : Z := 1.

(** The open flags of a mode string: r, w, a, with b and + where accepted. *)
Definition mode_flags (mode : list Z) : option Z :=
  let eq s := bool_decide (mode = s) in
  if eq [114] || eq [114; 98] then Some O_RDONLY
  else if eq [119] || eq [119; 98] then Some (Z.lor (Z.lor O_WRONLY O_CREAT) O_TRUNC)
  else if eq [97] || eq [97; 98] then Some (Z.lor (Z.lor O_WRONLY O_CREAT) O_APPEND)
  else if eq [114; 43] || eq [114; 98; 43] || eq [114; 43; 98] then Some O_RDWR
  else if eq [119; 43] || eq [119; 98; 43] || eq [119; 43; 98] then Some (Z.lor (Z.lor O_RDWR O_CREAT) O_TRUNC)
  else if eq [97; 43] || eq [97; 98; 43] || eq [97; 43; 98] then Some (Z.lor (Z.lor O_RDWR O_CREAT) O_APPEND)
  else None.

Section Streams.
Context {S : Type} `{Posix S}.

(** [calloc_ok] is whether the [FILE] object could be allocated. *)
Definition fopen (pathname mode : list Z) (calloc_ok : bool) (s : S) : option FILE * S :=
  match mode_flags mode with
  | None => (None, s)
  | Some flags =>
      let '(fd, s) := os_open s pathname flags 438 in
      if fd <? 0 then (None, s)
      else if negb calloc_ok then (None, (os_close s fd).2)
      else
        let f := MkFile fd 0 0 0 in
        let f := if truthy (Z.land flags O_RDONLY) then f <| fflags := _IO_READ |> else f in
        let f := if truthy (Z.land flags O_WRONLY) then f <| fflags := _IO_WRITE |> else f in
        let f := if truthy (Z.land flags O_RDWR) then f <| fflags := Z.lor _IO_READ _IO_WRITE |> else f in
        let f := if truthy (Z.land flags O_APPEND) then f <| fflags ::= fun x => Z.lor x _IO_APPEND |> else f in
        (Some f, s)
  end.

Definition fdopen (fd : Z) (mode : list Z) (calloc_ok : bool) : option FILE :=
  if calloc_ok then Some (MkFile fd (Z.lor _IO_READ _IO_WRITE) 0 0) else None.

Definition fclose (stream : option FILE) (s : S) : Z * S :=
  match stream with
  | None => (EOF, s)
  | Some f => let '(ret, s) := os_close s (fd f) in (if ret <? 0 then EOF else 0, s)
  end.

Definition freopen (pathname : option (list Z)) (mode : list Z) (stream : option FILE) (calloc_ok : bool) (s : S)
  : option FILE * S :=
  match stream with
  | None => (None, s)
  | Some _ =>
      let '(_, s) := fclose stream s in
      match pathname with None => (None, s) | Some p => fopen p mode calloc_ok s end
  end.

Definition fread (size nmemb : Z) (f : FILE) (s : S) : Z * list Z * FILE * S :=
  if (size =? 0) || (nmemb =? 0) then (0, [], f, s)
  else
    let total := u64 (size * nmemb) in
    let '(r, bs, s) := os_read s (fd f) total in
    if r <? 0 then (0, bs, f <| err := 1 |>, s)
    else if r =? 0 then (0, bs, f <| eof := 1 |>, s)
    else (r / size, bs, f, s).

Definition fwrite (ptr : list Z) (size nmemb : Z) (f : FILE) (s : S) : Z * FILE * S :=
  if (size =? 0) || (nmemb =? 0) then (0, f, s)
  else
    let total := u64 (size * nmemb) in
    let '(r, s) := os_write s (fd f) (take (Z.to_nat total) ptr) in
    if r <? 0 then (0, f <| err := 1 |>, s) else (r / size, f, s).

Definition fgetc (f : FILE) (s : S) : Z * FILE * S :=
  let '(r, bs, s) := os_read s (fd f) 1 in
  if r <=? 0 then (EOF, f <| eof := b2z (r =? 0) |> <| err := b2z (r <? 0) |>, s)
  else (at_ bs 0, f, s).

Definition fputc (c : Z) (f : FILE) (s : S) : Z * FILE * S :=
  let '(r, s) := os_write s (fd f) [u8 c] in
  if r <=? 0 then (EOF, f <| err := 1 |>, s) else (u8 c, f, s).

(** The loop of [fgets] runs at most [size - 1] times. *)
Fixpoint fgets_loop (n : nat) (line : list Z) (f : FILE) (s : S) : list Z * FILE * S :=
  match n with
  | O => (line, f, s)
  | Datatypes.S n =>
      let '(c, f, s) := fgetc f s in
      if c =? EOF then (line, f, s)
      else if c =? 10 then (line ++ [c], f, s)
      else fgets_loop n (line ++ [c]) f s
  end.

Definition fgets (size : Z) (f : FILE) (s : S) : option (list Z) * FILE * S :=
  let '(line, f, s) := fgets_loop (Z.to_nat (size - 1)) [] f s in
  if zlen line =? 0 then (None, f, s) else (Some line, f, s).

Definition fputs (str : list Z) (f : FILE) (s : S) : Z * S :=
  let '(r, s) := os_write s (fd f) str in (if r <? 0 then EOF else 0, s).

Definition ungetc (c : Z) (f : FILE) : Z := EOF.

Definition ftell (f : FILE) (s : S) : Z * S := os_lseek s (fd f) 0 SEEK_CUR.

Definition fseek (f : FILE) (offset whence : Z) (s : S) : Z * FILE * S :=
  let '(r, s) := os_lseek s (fd f) offset whence in
  if r <? 0 then (-1, f, s) else (0, f <| eof := 0 |>, s).

Definition rewind (f : FILE) (s : S) : FILE * S :=
  let '(_, f, s) := fseek f 0 SEEK_SET s in (f <| err := 0 |>, s).

Definition feof (f : FILE) : Z := eof f.
Definition ferror (f : FILE) : Z := err f.
Definition clearerr (f : FILE) : FILE := f <| err := 0 |> <| eof := 0 |>.
Definition fflush (f : FILE) : Z := 0.

(** [printf] and [fprintf] format into 1024 bytes. *)
Definition print_to (fd : Z) (fmt : list Z) (ap : list va_arg) (s : S) : option (Z * S) :=
  out ← vsnprintf_internal 1024 fmt ap;
  let len := zlen out in
  Some (len, if 0 <? len then (os_write s fd out).2 else s).

Definition printf (fmt : list Z) (ap : list va_arg) (s : S) : option (Z * S) := print_to STDOUT_FILENO fmt ap s.
Definition fprintf (f : FILE) (fmt : list Z) (ap : list va_arg) (s : S) : option (Z * S) := print_to (fd f) fmt ap s.

Definition puts (str : list Z) (s : S) : Z * S :=
  let s := (os_write s STDOUT_FILENO str).2 in
  (0, (os_write s STDOUT_FILENO [10]).2).

Definition putchar (c : Z) (s : S) : Z * S := (c, (os_write s STDOUT_FILENO [u8 c]).2).
End Streams.

(** ** What the formatter guarantees *)

(** No directive is cut short by the end of the format. *)
Inductive complete : list Z -> Prop :=
| complete_nil : complete []
| complete_char c f : c <> 37 -> complete f -> complete (c :: f)
| complete_conv f pz w l c rest : directive f = (pz, w, l, c :: rest) -> complete rest -> complete (37 :: f).

Lemma put_bound lim c out : zlen out <= lim -> zlen (put lim c out) <= lim.
Proof. intros. unfold put. destruct (Z.ltb_spec (zlen out) lim); [|done]. rewrite zlen_app, zlen_cons, zlen_nil. lia. Qed.

Lemma put_all_bound lim cs : forall out, zlen out <= lim -> zlen (put_all lim cs out) <= lim.
Proof. induction cs as [|c cs IH]; intros out Ho; cbn [put_all]; [done|]. by apply IH, put_bound. Qed.

#[local] Hint Resolve put_bound put_all_bound : core.

Lemma convert_bound lim size c w l pz ap out : lim = size - 1 -> zlen out <= lim ->
  zlen (convert lim size c w l pz ap out).1 <= lim.
Proof.
  intros -> Ho. unfold convert, put_number, put_pad. cbv zeta.
  repeat match goal with |- context [if ?b then _ else _] =>
    lazymatch b with (_ <? size) => fail | _ => destruct b end end; cbn [fst]; auto 6.
  all: destruct (Z.ltb_spec (zlen out + 2) size); auto; apply put_all_bound; rewrite zlen_app, !zlen_cons, zlen_nil; lia.
Qed.

Lemma take_width_length fmt : forall w, (length (take_width w fmt).2 <= length fmt)%nat.
Proof.
  induction fmt as [|c fmt IH]; intros w; cbn [take_width]; [done|]. destruct (_ && _); [|done].
  specialize (IH (s32 (w * 10 + (c - 48)))). cbn [length]. lia.
Qed.

Lemma take_l_length fmt : (length (take_l fmt).2 <= length fmt)%nat.
Proof. destruct fmt as [|c f]; [done|]. cbn [take_l]. destruct (c =? 108); cbn; lia. Qed.

Lemma directive_length fmt : (length (directive fmt).2 <= length fmt)%nat.
Proof.
  unfold directive. set (p := match fmt with c :: f => if c =? 48 then (true, f) else (false, fmt) | [] => (false, fmt) end).
  assert (Hp : (length p.2 <= length fmt)%nat) by (unfold p; destruct fmt as [|c f]; [done|]; destruct (c =? 48); cbn; lia).
  destruct p as [pz f1]. cbn [snd] in Hp. pose proof (take_width_length f1 0). destruct (take_width 0 f1) as [w f2]. cbn [snd] in *.
  pose proof (take_l_length f2). destruct (take_l f2) as [l1 f3]. cbn [snd] in *.
  pose proof (take_l_length f3). destruct (take_l f3) as [l2 f4]. cbn [snd] in *. lia.
Qed.

Lemma format_loop_total lim size : lim = size - 1 -> forall fuel fmt ap out, complete fmt -> (length fmt < fuel)%nat ->
  zlen out <= lim -> exists out', format_loop fuel lim size fmt ap out = Some out' /\ zlen out' <= lim.
Proof.
  intros Hl. induction fuel as [|fuel IH]; intros fmt ap out Hc Hf Ho; [lia|]. cbn [format_loop].
  destruct Hc as [|c f Hne Hc|f pz w l c rest Hd Hc].
  - eauto.
  - destruct (Z.ltb_spec (zlen out) lim); cbn [negb]; [|eauto]. rewrite (proj2 (Z.eqb_neq _ _) Hne). cbn [negb length] in *.
    apply IH; [done|lia|]. rewrite zlen_app, zlen_cons, zlen_nil. lia.
  - destruct (Z.ltb_spec (zlen out) lim); cbn [negb]; [|eauto]. cbn [Z.eqb Pos.eqb negb]. rewrite Hd.
    pose proof (directive_length f) as Hlen. rewrite Hd in Hlen. cbn [snd length] in Hlen, Hf.
    pose proof (convert_bound lim size c w l pz ap out Hl Ho) as Hb.
    destruct (convert lim size c w l pz ap out) as [out1 ap1]. cbn [fst] in Hb. apply IH; [done|lia|done].
Qed.



(** ** Printing and reading integers *)

Lemma tmp_digits_rev f2 : forall f1 v, (f2 <= f1)%nat -> 0 < v < 10 ^ Z.of_nat f2 ->
  tmp_digits f1 hex_lower 10 v = rev_digits f2 v.
Proof.
  induction f2 as [|f2 IH]; intros f1 v Hf Hv; [simpl in Hv; lia|]. destruct f1 as [|f1]; [lia|].
  cbn [tmp_digits rev_digits]. rewrite (proj2 (Z.ltb_lt _ _)) by lia.
  assert (Hd : at_ hex_lower (v mod 10) = 48 + v mod 10).
  { pose proof (Z.mod_pos_bound v 10 ltac:(lia)). set (d := v mod 10) in *. clearbody d.
    assert (Hc : d = 0 \/ d = 1 \/ d = 2 \/ d = 3 \/ d = 4 \/ d = 5 \/ d = 6 \/ d = 7 \/ d = 8 \/ d = 9) by lia.
    repeat (destruct Hc as [->|Hc]; [reflexivity|]). by subst d. }
  rewrite Hd. f_equal. rewrite Nat2Z.inj_succ, Z.pow_succ_r in Hv by lia.
  destruct (Z.eqb_spec (v / 10) 0) as [E|E].
  - rewrite E. destruct f1; [done|]. cbn [tmp_digits]. done.
  - apply IH; [lia|]. Z.div_mod_to_equations. lia.
Qed.

Lemma number_tmp_dec v : 0 <= v < 10 ^ 20 -> rev (number_tmp hex_lower 10 v) = dec_digits v.
Proof.
  intros Hv. unfold number_tmp, dec_digits. f_equal. destruct (Z.eqb_spec v 0) as [->|Hne]; [done|].
  apply tmp_digits_rev; [lia|simpl; lia].
Qed.

Lemma put_all_room lim cs : forall out, zlen out + zlen cs <= lim -> put_all lim cs out = out ++ cs.
Proof.
  induction cs as [|c cs IH]; intros out Hl; cbn [put_all]; [by rewrite app_nil_r|]. rewrite zlen_cons in Hl.
  pose proof (zlen_nonneg cs). unfold put. rewrite (proj2 (Z.ltb_lt _ _)) by lia.
  rewrite IH by (rewrite zlen_app, zlen_cons, zlen_nil; lia). by rewrite <-app_assoc.
Qed.

(** The decimal numeral of a signed integer. *)
Definition numeral (n : Z) : list Z := if n <? 0 then 45 :: dec_digits (- n) else dec_digits n.

Lemma dec_digits_len v : 0 <= v < 10 ^ 19 -> zlen (dec_digits v) <= 20.
Proof.
  intros _. unfold dec_digits, zlen. rewrite length_rev. 
  assert (H : forall f v, (length (rev_digits f v) <= f)%nat); [|pose proof (H 20%nat v); lia].
  induction f as [|f IH]; intros w; cbn [rev_digits length]; [lia|]. destruct (w / 10 =? 0); [cbn; lia|]. specialize (IH (w / 10)). lia.
Qed.

Lemma snprintf_ld n size : - 2 ^ 63 < n < 2 ^ 63 -> 32 <= size <= UINT64_MAX ->
  vsnprintf_internal size [37; 108; 100] [VaWord n] = Some (numeral n).
Proof.
  intros Hn Hs. unfold vsnprintf_internal. rewrite u64_small by sflia.
  cbn [length format_loop]. change (zlen []) with 0. rewrite (proj2 (Z.ltb_lt _ _)) by lia.
  change (directive [108; 100]) with (false, 0, 1, [100]). cbn [Z.eqb Pos.eqb negb]. unfold convert. cbn [Z.eqb Pos.eqb orb].
  change (1 <=? 1) with true. cbn [va_word]. cbv zeta iota.
  assert (E : s64 n = n) by (unfold s64; rewrite Z.mod_small by lia; lia). rewrite E. unfold numeral, put_number, put_pad.
  destruct (Z.ltb_spec n 0).
  - assert (E2 : s64 (- n) = - n) by (unfold s64; rewrite Z.mod_small by lia; lia). rewrite E2.
    unfold put. change (zlen []) with 0. rewrite (proj2 (Z.ltb_lt _ _)) by lia.
    rewrite number_tmp_dec by lia. pose proof (zlen_nonneg (number_tmp hex_lower 10 (- n))).
    replace (Z.to_nat (0 - zlen (number_tmp hex_lower 10 (- n)))) with 0%nat by lia. cbn [replicate put_all].
    rewrite put_all_room; [done|]. pose proof (dec_digits_len (- n) ltac:(lia)). change (zlen ([] ++ [45])) with 1. lia.
  - rewrite number_tmp_dec by lia. pose proof (zlen_nonneg (number_tmp hex_lower 10 n)).
    replace (Z.to_nat (0 - zlen (number_tmp hex_lower 10 n))) with 0%nat by lia. cbn [replicate put_all].
    rewrite put_all_room; [done|]. pose proof (dec_digits_len n ltac:(lia)). rewrite zlen_nil. lia.
Qed.

Lemma digit_radix c : is_digit c = true -> is_radix_digit 10 c = true /\ forall acc, radix_step 10 acc c = dec_step acc c.
Proof.
  unfold is_digit, is_radix_digit, radix_step, dec_step, digit_of, schar. intros Hd.
  apply andb_true_iff in Hd as [H1 H2]. apply Z.leb_le in H1, H2. rewrite (proj2 (Z.ltb_lt c 256)), (proj2 (Z.ltb_lt c 128)) by lia.
  rewrite (proj2 (Z.leb_le 48 c)), (proj2 (Z.leb_le c 57)) by lia. cbn. split; [bcase; done|done].
Qed.

Lemma digits_radix ds : digits_ok ds -> Forall (fun c => is_radix_digit 10 c = true) ds /\
  forall acc, fold_left (radix_step 10) ds acc = fold_left dec_step ds acc.
Proof.
  induction 1 as [|c ds Hc _ [IH1 IH2]]; [done|]. destruct (digit_radix c Hc) as [H1 H2].
  split; [by constructor|]. intros acc. cbn [fold_left]. by rewrite H2, IH2.
Qed.


