(* ===== verification/NetBase.v ===== *)
(** * Network stack: data

    Types, byte order, checksums, ring buffers and socket tables of
    [recovered/net]: [net.h], [net_utils], the lookup, buffer and slot
    functions of [socket.c] and the checksums of [ip.c].  Packets are byte
    lists; a socket pointer is its slot number. *)

From S2P Require Import Prelude Bytes.

(** ** Constants of [net.h] *)

Definition IP_PROTO_ICMP : Z := 1.
Definition IP_PROTO_TCP : Z := 6.
Definition IP_PROTO_UDP : Z := 17.
Definition AF_UNIX : Z := 1.
Definition AF_INET : Z := 2.
Definition SOCK_STREAM : Z := 1.
Definition SOCK_DGRAM : Z := 2.
Definition INADDR_LOOPBACK : Z := 0x7F000001.
Definition TCP_CLOSED : Z := 0.
Definition TCP_LISTEN : Z := 1.
Definition TCP_SYN_SENT : Z := 2.
Definition TCP_SYN_RECEIVED : Z := 3.
Definition TCP_ESTABLISHED : Z := 4.
Definition TCP_FIN_WAIT_1 : Z := 5.
Definition TCP_FIN_WAIT_2 : Z := 6.
Definition TCP_CLOSING : Z := 7.
Definition TCP_TIME_WAIT : Z := 8.
Definition TCP_CLOSE_WAIT : Z := 9.
Definition TCP_LAST_ACK : Z := 10.
Definition TCP_FLAG_FIN : Z := 0x01.
Definition TCP_FLAG_SYN : Z := 0x02.
Definition TCP_FLAG_RST : Z := 0x04.
Definition TCP_FLAG_PSH : Z := 0x08.
Definition TCP_FLAG_ACK : Z := 0x10.
Definition NET_MAX_SOCKETS : nat := 256.
Definition NET_RX_BUF_SIZE : Z := 4096.
Definition NET_TX_BUF_SIZE : Z := 4096.
Definition NET_TCP_WINDOW : Z := 65535.
Definition NET_TCP_MSS : Z := 1460.
Definition NET_TCP_BACKLOG : Z := 16.
#[export] Hint Unfold IP_PROTO_ICMP IP_PROTO_TCP IP_PROTO_UDP AF_UNIX AF_INET SOCK_STREAM SOCK_DGRAM
  INADDR_LOOPBACK TCP_CLOSED TCP_LISTEN TCP_SYN_SENT TCP_SYN_RECEIVED TCP_ESTABLISHED TCP_FIN_WAIT_1
  TCP_FIN_WAIT_2 TCP_CLOSING TCP_TIME_WAIT TCP_CLOSE_WAIT TCP_LAST_ACK TCP_FLAG_FIN TCP_FLAG_SYN
  TCP_FLAG_RST TCP_FLAG_PSH TCP_FLAG_ACK NET_MAX_SOCKETS NET_RX_BUF_SIZE NET_TX_BUF_SIZE
  NET_TCP_WINDOW NET_TCP_MSS NET_TCP_BACKLOG : sf.

(** ** Byte order *)

Definition htons (v : Z) : Z := Z.lor (Z.shiftl (Z.land v 0xFF) 8) (Z.land (Z.shiftr v 8) 0xFF).
Definition ntohs (v : Z) : Z := htons v.
Definition htonl (v : Z) : Z :=
  Z.lor (Z.lor (Z.lor (Z.shiftl (Z.land v 0xFF) 24) (Z.shiftl (Z.land (Z.shiftr v 8) 0xFF) 16))
               (Z.shiftl (Z.land (Z.shiftr v 16) 0xFF) 8))
        (Z.land (Z.shiftr v 24) 0xFF).
Definition ntohl (v : Z) : Z := htonl v.

(** ** Checksums *)

(** [while (sum >> 16) sum = (sum & 0xFFFF) + (sum >> 16);]  A 32-bit sum
    needs at most three turns. *)
Fixpoint fold_sum (fuel : nat) (sum : Z) : Z :=
  match fuel with
  | O => sum
  | S fuel =>
      if truthy (Z.shiftr sum 16) then fold_sum fuel (Z.land sum 0xFFFF + Z.shiftr sum 16) else sum
  end.

Definition finish_sum (sum : Z) : Z := u16 (Z.lnot (fold_sum 3 sum)).

(** [for (i = 0; i < n; i++) sum += ptr[i];] *)
Definition sum_words (b : list Z) (n : nat) (sum : Z) : Z :=
  loop n (fun i sum => u32 (sum + get16 b (2 * Z.of_nat i))) sum.

Definition compute_checksum (data : list Z) (len : Z) : Z :=
  let sum := sum_words data (Z.to_nat (len / 2)) 0 in
  let sum := if truthy (Z.land len 1) then u32 (sum + at_ data (len - 1)) else sum in
  finish_sum sum.

Definition compute_ip_checksum (hdr : list Z) : Z :=
  let len := (Z.land (at_ hdr 0) 0x0F * 4) / 2 in
  finish_sum (sum_words hdr (Z.to_nat len) 0).

(** The transport checksum over the pseudo header, shared by [tcp.c] and [udp.c]. *)
Definition pseudo_checksum (proto src_ip dst_ip : Z) (seg : list Z) (len : Z) : Z :=
  let sum := u32 (u16 (Z.shiftr src_ip 16) + u16 (Z.land src_ip 0xFFFF) + u16 (Z.shiftr dst_ip 16) + u16 (Z.land dst_ip 0xFFFF)) in
  let sum := u32 (sum + htons proto) in
  let sum := u32 (sum + htons len) in
  let sum := sum_words seg (Z.to_nat (len / 2)) sum in
  let sum := if truthy (Z.land len 1) then u32 (sum + Z.shiftl (at_ seg (len - 1)) 8) else sum in
  finish_sum sum.

Definition compute_tcp_checksum (src_ip dst_ip : Z) (tcp_seg : list Z) (tcp_len : Z) : Z :=
  pseudo_checksum IP_PROTO_TCP src_ip dst_ip tcp_seg tcp_len.
Definition compute_udp_checksum (src_ip dst_ip : Z) (udp_seg : list Z) (udp_len : Z) : Z :=
  pseudo_checksum IP_PROTO_UDP src_ip dst_ip udp_seg udp_len.

(** ** The IPv4 header *)

(** The twenty bytes the senders build; addresses in network order. *)
Definition ipv4_fields (total_length ident protocol checksum src_ip dst_ip : Z) : list Z :=
  [0x45; 0] ++ le_bytes 2 (htons total_length) ++ le_bytes 2 (htons ident) ++ le_bytes 2 (htons 0x4000)
  ++ [64; protocol] ++ le_bytes 2 checksum ++ le_bytes 4 src_ip ++ le_bytes 4 dst_ip.

(** Filled with checksum 0 first, then with the checksum of that. *)
Definition ipv4_header (total_length ident protocol src_ip dst_ip : Z) : list Z :=
  ipv4_fields total_length ident protocol
    (compute_ip_checksum (ipv4_fields total_length ident protocol 0 src_ip dst_ip)) src_ip dst_ip.

Definition ip_version_ihl (p : list Z) : Z := at_ p 0.
Definition ip_total_length (p : list Z) : Z := get16 p 2.
Definition ip_protocol (p : list Z) : Z := at_ p 9.
Definition ip_src (p : list Z) : Z := get32 p 12.
Definition ip_dst (p : list Z) : Z := get32 p 16.

(** ** Ring buffers *)

(** [buf] is [None] when the pointer is NULL. *)
Record ring := MkRing { buf : option (list Z); read_pos : Z; write_pos : Z; count : Z; rsize : Z }.
#[export] Instance ring_settable : Settable ring := fun r =>
  MkRing (buf r) (read_pos r) (write_pos r) (count r) (rsize r).

Definition empty_ring : ring := MkRing None 0 0 0 0.

(** The storing loop, over the bytes that fit. *)
Fixpoint ring_store (b : list Z) (pos size : Z) (src : list Z) : list Z * Z :=
  match src with
  | [] => (b, pos)
  | c :: src => ring_store (<[Z.to_nat pos:=c]> b) ((pos + 1) mod size) size src
  end.

(** The [n] source bytes; bytes behind the packet are unspecified and read as 0. *)
Definition source_bytes (data : list Z) (n : Z) : list Z :=
  map (fun i => at_ data (Z.of_nat i)) (seq 0 (Z.to_nat n)).

Definition ring_write (data : list Z) (len : Z) (r : ring) : Z * ring :=
  match buf r with
  | None => (0, r)
  | Some b =>
      if len =? 0 then (0, r)
      else
        let avail := u32 (rsize r - count r) in
        let to_write := if len <? avail then len else avail in
        let '(b, pos) := ring_store b (write_pos r) (rsize r) (source_bytes data to_write) in
        (s32 to_write, MkRing (Some b) (read_pos r) pos (u32 (count r + to_write)) (rsize r))
  end.

Fixpoint ring_fetch (n : nat) (b : list Z) (pos size : Z) : list Z * Z :=
  match n with
  | O => ([], pos)
  | S n => let '(out, pos') := ring_fetch n b ((pos + 1) mod size) size in (at_ b pos :: out, pos')
  end.

Definition ring_read (len : Z) (r : ring) : Z * list Z * ring :=
  match buf r with
  | None => (0, [], r)
  | Some b =>
      if count r =? 0 then (0, [], r)
      else
        let to_read := if len <? count r then len else count r in
        let '(out, pos) := ring_fetch (Z.to_nat to_read) b (read_pos r) (rsize r) in
        (s32 to_read, out, MkRing (buf r) pos (write_pos r) (u32 (count r - to_read)) (rsize r))
  end.

(** ** Sockets *)

Record net_tcp_seg := MkSeg { seg_seq : Z; seg_data : list Z; send_time : Z; seg_retries : Z }.
Definition seg_len (s : net_tcp_seg) : Z := u32 (zlen (seg_data s)).

Record net_socket_t := MkSock {
  sk_fd : Z; sk_domain : Z; sk_type : Z; sk_protocol : Z; sk_state : Z; sk_flags : Z;
  sk_local_ip : Z; sk_local_port : Z; sk_remote_ip : Z; sk_remote_port : Z;
  seq_num : Z; ack_num : Z; remote_seq : Z;
  cwnd : Z; ssthresh : Z; rto : Z; srtt : Z; rttvar : Z; retransmit_timer : Z; dup_ack_count : Z;
  bytes_in_flight : Z; last_ack_sent : Z; congestion_state : Z; time_wait_expire : Z;
  retransmit_count : Z; unacked_list : list net_tcp_seg;
  rx : ring; tx : ring; listen_parent : option nat; pending_conns : list nat; blocking_pid : Z
}.
#[export] Instance net_socket_settable : Settable net_socket_t := fun s =>
  MkSock (sk_fd s) (sk_domain s) (sk_type s) (sk_protocol s) (sk_state s) (sk_flags s)
    (sk_local_ip s) (sk_local_port s) (sk_remote_ip s) (sk_remote_port s)
    (seq_num s) (ack_num s) (remote_seq s) (cwnd s) (ssthresh s) (rto s) (srtt s) (rttvar s)
    (retransmit_timer s) (dup_ack_count s) (bytes_in_flight s) (last_ack_sent s)
    (congestion_state s) (time_wait_expire s) (retransmit_count s) (unacked_list s)
    (rx s) (tx s) (listen_parent s) (pending_conns s) (blocking_pid s).

Definition zero_socket : net_socket_t :=
  MkSock 0 0 0 0 0 0 0 0 0 0 0 0 0 0 0 0 0 0 0 0 0 0 0 0 0 [] empty_ring empty_ring None [] 0.
#[export] Instance net_socket_inhabited : Inhabited net_socket_t := populate zero_socket.

Record arp_entry := MkArp { arp_ip : Z; arp_mac : list Z; arp_expire : Z }.
Definition zero_arp : arp_entry := MkArp 0 (fill 0 6) 0.
#[export] Instance arp_entry_inhabited : Inhabited arp_entry := populate zero_arp.

Record ping_state := MkPing {
  pg_dst_ip : Z; pg_id : Z; pg_seq : Z; pg_send_time : Z; pg_active : bool; pg_timeout : bool; pg_rtt : Z
}.
#[export] Instance ping_state_settable : Settable ping_state := fun p =>
  MkPing (pg_dst_ip p) (pg_id p) (pg_seq p) (pg_send_time p) (pg_active p) (pg_timeout p) (pg_rtt p).
Definition zero_ping : ping_state := MkPing 0 0 0 0 false false 0.
#[export] Instance ping_state_inhabited : Inhabited ping_state := populate zero_ping.

(** The rest of the kernel, as far as the stack calls it: the descriptor table
    ([vfs_get_socket], [vfs_register_socket] and the slot number kept in an
    open file's inode, -1 when there is none) and whether the [k]-th
    allocation succeeds. *)
Class Os := {
  vfs : Type;
  vfs_get_socket : Z -> vfs -> option nat;
  vfs_register_socket : nat -> vfs -> Z * vfs;
  vfs_fs_data : Z -> vfs -> Z;
  kmalloc_ok : nat -> Z -> bool
}.

Section State.
Context `{K : Os}.

(** All state of the stack: the configuration, the tables, the millisecond
    clock, the frames handed to the network card, the descriptor table and
    the number of allocations made. *)
Record net := MkNet {
  net_local_ip : Z; net_gateway_ip : Z; net_netmask : Z; net_local_mac : list Z; net_hw_initialized : bool;
  arp_cache : list arp_entry; ping_states : list ping_state;
  sockets : list net_socket_t; socket_used : list bool;
  next_ephemeral_port : Z; tcp_initial_seq : Z; now : Z; wire : list (list Z); files : vfs; allocs : nat
}.
#[export] Instance net_settable : Settable net := fun n =>
  MkNet (net_local_ip n) (net_gateway_ip n) (net_netmask n) (net_local_mac n) (net_hw_initialized n)
    (arp_cache n) (ping_states n) (sockets n) (socket_used n) (next_ephemeral_port n)
    (tcp_initial_seq n) (now n) (wire n) (files n) (allocs n).

Definition sock (n : net) (i : nat) : net_socket_t := sockets n !!! i.
Definition used (n : net) (i : nat) : bool := socket_used n !!! i.
Definition set_sock (i : nat) (f : net_socket_t -> net_socket_t) (n : net) : net := n <| sockets ::= alter f i |>.

Definition net_random (n : net) : Z := Z.land (Z.shiftr (u64 (now n * 1103515245 + 12345)) 16) 0x7FFFFFFF.

Definition kmalloc (size : Z) (n : net) : bool * net :=
  (kmalloc_ok (allocs n) size, n <| allocs ::= S |>).

(** [rtl8139_send]. *)
Definition rtl8139_send (frame : list Z) (n : net) : net := n <| wire ::= fun w => w ++ [frame] |>.

(** ** Slots and lookup *)

(** The descriptor table first, then the slot of that number. *)
Definition net_get_socket (fd : Z) (n : net) : option nat :=
  match vfs_get_socket fd (files n) with
  | Some i => Some i
  | None =>
      if (fd <? 0) || (256 <=? fd) then None
      else if used n (Z.to_nat fd) then Some (Z.to_nat fd) else None
  end.

Definition net_alloc_socket_slot (n : net) : option nat * net :=
  match find_index (fun i => negb (used n i)) NET_MAX_SOCKETS with
  | Some i => (Some i, n <| socket_used ::= fun u => <[i:=true]> u |>)
  | None => (None, n)
  end.

(** The child leaves its parent's pending list, then the slot is cleared. *)
Definition net_free_socket_slot (fd : nat) (n : net) : net :=
  if (NET_MAX_SOCKETS <=? fd)%nat then n
  else
    let n := match listen_parent (sock n fd) with
             | Some parent =>
                 set_sock parent (fun s =>
                   match find_index (fun i => (pending_conns s !!! i =? fd)%nat) (length (pending_conns s)) with
                   | Some i => s <| pending_conns ::= fun l => take i l ++ drop (S i) l |>
                   | None => s
                   end) n
             | None => n
             end in
    (set_sock fd (fun _ => zero_socket) n) <| socket_used ::= fun u => <[fd:=false]> u |>.

Definition net_find_socket_by_port (port ip : Z) (n : net) : option nat :=
  find_index (fun i => used n i && (sk_local_port (sock n i) =? port) &&
    ((sk_local_ip (sock n i) =? 0) || (sk_local_ip (sock n i) =? ip))) NET_MAX_SOCKETS.

Definition net_find_listening_socket (port : Z) (n : net) : option nat :=
  find_index (fun i => used n i && (sk_type (sock n i) =? SOCK_STREAM) && (sk_state (sock n i) =? TCP_LISTEN) &&
    (sk_local_port (sock n i) =? port)) NET_MAX_SOCKETS.

Definition net_find_tcp_socket (local_ip local_port remote_ip remote_port : Z) (n : net) : option nat :=
  find_index (fun i => used n i && (sk_type (sock n i) =? SOCK_STREAM) &&
    (sk_local_port (sock n i) =? local_port) &&
    ((sk_local_ip (sock n i) =? 0) || (sk_local_ip (sock n i) =? local_ip)) &&
    (sk_remote_port (sock n i) =? remote_port) && (sk_remote_ip (sock n i) =? remote_ip)) NET_MAX_SOCKETS.

Definition net_find_udp_socket (port ip : Z) (n : net) : option nat :=
  find_index (fun i => used n i && (sk_type (sock n i) =? SOCK_DGRAM) && (sk_local_port (sock n i) =? port) &&
    ((sk_local_ip (sock n i) =? 0) || (sk_local_ip (sock n i) =? ip))) NET_MAX_SOCKETS.

Definition net_rx_buffer_write (i : nat) (data : list Z) (len : Z) (n : net) : Z * net :=
  let '(r, ring) := ring_write data len (rx (sock n i)) in
  (r, set_sock i (fun s => s <| rx := ring |>) n).

Definition net_rx_buffer_read (i : nat) (len : Z) (n : net) : Z * list Z * net :=
  let '(r, out, ring) := ring_read len (rx (sock n i)) in
  (r, out, set_sock i (fun s => s <| rx := ring |>) n).

(** ** Ephemeral ports *)

(** The counter is 16 bits wide, so it never exceeds 65535 and the reset test
    is never true. *)
Definition next_port (p : Z) : Z := let p := u16 (p + 1) in if 65535 <? p then 49152 else p.

Fixpoint alloc_port_loop (attempts : nat) (n : net) : Z * net :=
  match attempts with
  | O => (0, n)
  | S attempts =>
      let candidate := next_ephemeral_port n in
      let n := n <| next_ephemeral_port := next_port candidate |> in
      match find_index (fun i => used n i && (sk_local_port (sock n i) =? candidate)) NET_MAX_SOCKETS with
      | None => (candidate, n)
      | Some _ => alloc_port_loop attempts n
      end
  end.

Definition net_get_tcp_initial_seq (n : net) : Z := tcp_initial_seq n.

Definition net_alloc_port (n : net) : Z * net := alloc_port_loop 16384 n.

Definition net_configure_ip (ip gateway netmask : Z) (n : net) : net :=
  n <| net_local_ip := ip |> <| net_gateway_ip := gateway |> <| net_netmask := netmask |>.

End State.
