(* ===== verification/NetStack.v ===== *)
(** * Network stack: protocols

    [arp.c], [udp.c], [icmp.c], [tcp.c], [ip.c] and [eth.c] of [recovered/net].
    Sending and receiving call each other: a packet for the loopback network
    is received inside the send.  Every protocol is written over [send_eth],
    and [net_send_eth] at the end ties the knot, one unit of depth per
    nested send. *)

From S2P Require Import Prelude Bytes NetBase.

Definition TCP_CC_SLOW_START : Z := 0.
Definition TCP_CC_CONGESTION_AVOID : Z := 1.
Definition TCP_CC_FAST_RECOVERY : Z := 2.
Definition TCP_RTO_MIN : Z := 200.
Definition TCP_RTO_MAX : Z := 60000.
Definition TCP_RTO_INIT : Z := 1000.
Definition TCP_TIMEWAIT_MS : Z := 60000.
Definition TCP_MAX_RETRIES : Z := 5.
Definition MAX_PING_STATES : nat := 8.
#[export] Hint Unfold TCP_CC_SLOW_START TCP_CC_CONGESTION_AVOID TCP_CC_FAST_RECOVERY TCP_RTO_MIN
  TCP_RTO_MAX TCP_RTO_INIT TCP_TIMEWAIT_MS TCP_MAX_RETRIES MAX_PING_STATES : sf.

Section Stack.
Context `{K : Os}.

(** ** ARP *)

Definition net_arp_init (n : net) : net := n <| arp_cache := replicate 16 zero_arp |>.

Definition arp_cache_insert (ip : Z) (mac : list Z) (n : net) : net :=
  let entry := MkArp ip mac (u64 (now n + 60000)) in
  match find_index (fun i => arp_ip (arp_cache n !!! i) =? ip) 16 with
  | Some i => n <| arp_cache ::= fun c => <[i:=entry]> c |>
  | None =>
      match find_index (fun i => (arp_ip (arp_cache n !!! i) =? 0) || (arp_expire (arp_cache n !!! i) <=? now n)) 16 with
      | Some i => n <| arp_cache ::= fun c => <[i:=entry]> c |>
      | None => n <| arp_cache ::= fun c => <[0%nat:=entry]> c |>
      end
  end.

Definition arp_cache_lookup (ip : Z) (n : net) : option (list Z) :=
  match find_index (fun i => (arp_ip (arp_cache n !!! i) =? ip) && (now n <? arp_expire (arp_cache n !!! i))) 16 with
  | Some i => Some (arp_mac (arp_cache n !!! i))
  | None => None
  end.

(** The 42 bytes of an ARP frame of the host: [oper], target. *)
Definition arp_frame (dst_mac : list Z) (oper : Z) (tha : list Z) (tpa : Z) (n : net) : list Z :=
  dst_mac ++ net_local_mac n ++ le_bytes 2 (htons 0x0806)
  ++ le_bytes 2 (htons 1) ++ le_bytes 2 (htons 0x0800) ++ [6; 4] ++ le_bytes 2 (htons oper)
  ++ net_local_mac n ++ le_bytes 4 (net_local_ip n) ++ tha ++ le_bytes 4 tpa.

Definition arp_send_request (target_ip : Z) (n : net) : net :=
  rtl8139_send (arp_frame (fill 0xFF 6) 1 (fill 0 6) target_ip n) n.

Definition arp_send_reply (target_ip : Z) (target_mac : list Z) (n : net) : net :=
  rtl8139_send (arp_frame target_mac 2 target_mac target_ip n) n.

Definition net_arp_rx (data : list Z) (n : net) : net :=
  if zlen data <? 28 then n
  else if negb (ntohs (get16 data 0) =? 1) || negb (ntohs (get16 data 2) =? 0x0800) then n
  else if negb (at_ data 4 =? 6) || negb (at_ data 5 =? 4) then n
  else
    let oper := ntohs (get16 data 6) in
    let sha := slice 8 6 data in
    let spa := get32 data 14 in
    let tpa := get32 data 24 in
    if oper =? 2 then
      if tpa =? net_local_ip n then arp_cache_insert spa sha n else n
    else if oper =? 1 then
      if tpa =? net_local_ip n then arp_send_reply spa sha (arp_cache_insert spa sha n) else n
    else n.

(** What happens during one [hal_io_wait]: time passes and interrupts may
    deliver frames.  [polls] bounds the waits that fit in the second. *)
Context (hal_io_wait : net -> net) (polls : nat).

Fixpoint arp_poll (polls : nat) (ip deadline : Z) (n : net) : option (list Z) * net :=
  match polls with
  | O => (None, n)
  | S polls =>
      if now n <? deadline then
        let n := hal_io_wait n in
        match arp_cache_lookup ip n with
        | Some mac => (Some mac, n)
        | None => arp_poll polls ip deadline n
        end
      else (None, n)
  end.

Definition net_arp_resolve (ip : Z) (n : net) : option (list Z) * net :=
  match arp_cache_lookup ip n with
  | Some mac => (Some mac, n)
  | None =>
      let n := arp_send_request ip n in
      arp_poll polls ip (u64 (now n + 1000)) n
  end.

(** ** The protocols, over the transmission of an IP packet *)

Section Protocols.
Context (send_eth : list Z -> Z -> net -> net).

(** *** UDP *)

Definition udp_segment (src_port dst_port length checksum : Z) (data : list Z) : list Z :=
  le_bytes 2 (htons src_port) ++ le_bytes 2 (htons dst_port) ++ le_bytes 2 (htons length)
  ++ le_bytes 2 checksum ++ data.

(** The packet is built in an array of [NET_TX_BUF_SIZE] bytes without a
    check that [data] fits. *)
Definition net_udp_send_packet (src_ip_ho src_port_ho dst_ip_ho dst_port_ho : Z) (data : list Z) (n : net) : net :=
  let data_len := zlen data in
  let src_ip_n := htonl (if truthy src_ip_ho then src_ip_ho else INADDR_LOOPBACK) in
  let dst_ip_n := htonl dst_ip_ho in
  let ip := ipv4_header (20 + 8 + data_len) (Z.land (net_random n) 0xFFFF) IP_PROTO_UDP src_ip_n dst_ip_n in
  let udp_total_len := u16 (8 + data_len) in
  let checksum := compute_udp_checksum (ntohl src_ip_n) (ntohl dst_ip_n)
                    (udp_segment src_port_ho dst_port_ho (8 + data_len) 0 data) udp_total_len in
  send_eth (ip ++ udp_segment src_port_ho dst_port_ho (8 + data_len) checksum data) dst_ip_n n.

(** [ip] is the packet, [udp_data] its payload. *)
Definition net_udp_rx (ip udp_data : list Z) (ip_payload_len : Z) (n : net) : net :=
  if ip_payload_len <? 8 then n
  else
    let dst_port_ho := ntohs (get16 udp_data 2) in
    let src_port_ho := ntohs (get16 udp_data 0) in
    let dst_ip_ho := ntohl (ip_dst ip) in
    let src_ip_ho := ntohl (ip_src ip) in
    let udp_len := ntohs (get16 udp_data 4) in
    let payload_len := u64 (udp_len - 8) in
    let payload := drop 8 udp_data in
    match net_find_udp_socket dst_port_ho dst_ip_ho n with
    | None => n
    | Some i =>
        let meta := le_bytes 4 src_ip_ho ++ le_bytes 2 src_port_ho in
        let '(_, n) := net_rx_buffer_write i meta 6 n in
        let '(_, n) := net_rx_buffer_write i payload payload_len n in
        n
    end.

(** *** ICMP *)

Definition find_ping_slot (dst_ip id : Z) (n : net) : option nat :=
  find_index (fun i => pg_active (ping_states n !!! i) && (pg_dst_ip (ping_states n !!! i) =? dst_ip) &&
    (pg_id (ping_states n !!! i) =? id)) MAX_PING_STATES.

Definition alloc_ping_slot (n : net) : option nat :=
  find_index (fun i => negb (pg_active (ping_states n !!! i))) MAX_PING_STATES.

Definition net_icmp_send_echo (dst_ip seq id : Z) (data : list Z) (n : net) : Z * net :=
  match alloc_ping_slot n with
  | None => (-1, n)
  | Some slot =>
      let icmp_len := 8 + zlen data in
      let '(ok, n) := kmalloc icmp_len n in
      if negb ok then (-1, n)
      else
        let rest := le_bytes 4 (Z.lor (u32 (Z.shiftl (htons id) 16)) (htons seq)) ++ data in
        let checksum := compute_checksum ([8; 0] ++ le_bytes 2 0 ++ rest) icmp_len in
        let icmp := [8; 0] ++ le_bytes 2 checksum ++ rest in
        let total_len := 20 + icmp_len in
        let '(ok, n) := kmalloc total_len n in
        if negb ok then (-1, n)
        else
          let ip := ipv4_header total_len (Z.land (net_random n) 0xFFFF) IP_PROTO_ICMP (net_local_ip n) dst_ip in
          let n := n <| ping_states ::= fun l => <[slot := MkPing dst_ip id seq (now n) true false 0]> l |> in
          (0, send_eth (ip ++ icmp) dst_ip n)
  end.

Definition net_icmp_rx (data : list Z) (len src_ip : Z) (n : net) : net :=
  if len <? 8 then n
  else if (at_ data 0 =? 8) && (at_ data 1 =? 0) then
    let reply_len := len in
    let '(ok, n) := kmalloc reply_len n in
    if negb ok then n
    else
      let rest := drop 4 (source_bytes data reply_len) in
      let checksum := compute_checksum ([0; 0] ++ le_bytes 2 0 ++ rest) reply_len in
      let reply := [0; 0] ++ le_bytes 2 checksum ++ rest in
      let total_len := u64 (20 + reply_len) in
      let '(ok, n) := kmalloc total_len n in
      if negb ok then n
      else
        let ip := ipv4_header total_len (Z.land (net_random n) 0xFFFF) IP_PROTO_ICMP (net_local_ip n) src_ip in
        send_eth (ip ++ reply) src_ip n
  else if (at_ data 0 =? 0) && (at_ data 1 =? 0) then
    let id := ntohs (u16 (Z.shiftr (get32 data 4) 16)) in
    match find_ping_slot src_ip id n with
    | Some slot =>
        n <| ping_states ::= alter (fun p => p <| pg_rtt := u32 (now n - pg_send_time p) |> <| pg_active := false |>) slot |>
    | None => n
    end
  else n.

Definition net_icmp_tick (n : net) : net :=
  let now := now n in
  loop MAX_PING_STATES (fun i n =>
    let p := ping_states n !!! i in
    if pg_active p && (5000 <? u64 (now - pg_send_time p)) then
      n <| ping_states ::= alter (fun p => p <| pg_active := false |> <| pg_timeout := true |>) i |>
    else n) n.

(** *** TCP *)

Definition tcp_advertised_window (s : net_socket_t) : Z :=
  let avail := u32 (rsize (rx s) - count (rx s)) in
  if 65535 <? avail then 65535 else avail.

Definition tcp_unacked_add (i : nat) (seq : Z) (data : list Z) (n : net) : net :=
  let '(ok, n) := kmalloc 40 n in
  if negb ok then n
  else
    let '(ok, n) := kmalloc (zlen data) n in
    if negb ok then n
    else set_sock i (fun s => s <| unacked_list ::= fun l => l ++ [MkSeg seq data (now n) 0] |>) n.

Fixpoint drop_acked (ack : Z) (l : list net_tcp_seg) : list net_tcp_seg :=
  match l with
  | [] => []
  | seg :: l' => if u32 (seg_seq seg + seg_len seg) <=? ack then drop_acked ack l' else l
  end.

Definition tcp_unacked_ack (ack : Z) (s : net_socket_t) : net_socket_t := s <| unacked_list ::= drop_acked ack |>.
Definition tcp_unacked_free (s : net_socket_t) : net_socket_t := s <| unacked_list := [] |>.

Definition tcp_update_rtt (rtt_ms : Z) (s : net_socket_t) : net_socket_t :=
  let s :=
    if srtt s =? 0 then s <| srtt := rtt_ms |> <| rttvar := rtt_ms / 2 |>
    else
      let diff := s32 (s32 (srtt s) - s32 rtt_ms) in
      let diff := if diff <? 0 then s32 (- diff) else diff in
      s <| rttvar := u32 (u32 (3 * rttvar s) + diff) / 4 |>
        <| srtt := u32 (u32 (7 * srtt s) + rtt_ms) / 8 |> in
  let rto_ := u32 (srtt s + u32 (4 * rttvar s)) in
  let rto_ := if rto_ <? TCP_RTO_MIN then TCP_RTO_MIN else rto_ in
  let rto_ := if TCP_RTO_MAX <? rto_ then TCP_RTO_MAX else rto_ in
  s <| rto := rto_ |>.

Definition tcp_recalc_in_flight (s : net_socket_t) : net_socket_t :=
  s <| bytes_in_flight := foldl (fun total seg => u32 (total + seg_len seg)) 0 (unacked_list s) |>.

Definition tcp_segment (src_port dst_port seq ack flags window checksum : Z) (data : list Z) : list Z :=
  le_bytes 2 (htons src_port) ++ le_bytes 2 (htons dst_port) ++ le_bytes 4 (htonl seq) ++ le_bytes 4 (htonl ack)
  ++ [Z.shiftl 5 4; flags] ++ le_bytes 2 (htons window) ++ le_bytes 2 checksum ++ le_bytes 2 0 ++ data.

(** The IP packet of a segment of [s], with its two checksums. *)
Definition tcp_packet (s : net_socket_t) (seq tcp_flags : Z) (data : list Z) (n : net) : list Z :=
  let data_len := zlen data in
  let src_ip_n := htonl (if truthy (sk_local_ip s) then sk_local_ip s else INADDR_LOOPBACK) in
  let dst_ip_n := htonl (sk_remote_ip s) in
  let seg checksum := tcp_segment (sk_local_port s) (sk_remote_port s) seq (ack_num s) tcp_flags
                        (tcp_advertised_window s) checksum data in
  ipv4_header (20 + 20 + data_len) (Z.land (net_random n) 0xFFFF) IP_PROTO_TCP src_ip_n dst_ip_n
  ++ seg (compute_tcp_checksum (ntohl src_ip_n) (ntohl dst_ip_n) (seg 0) (u16 (20 + data_len))).

Definition has (flags flag : Z) : bool := truthy (Z.land flags flag).

(** [net_tcp_send_packet] of the socket in slot [i]. *)
Definition net_tcp_send_packet (i : nat) (tcp_flags : Z) (data : list Z) (n : net) : net :=
  let s := sock n i in
  let packet := tcp_packet s (seq_num s) tcp_flags data n in
  let n :=
    if (0 <? zlen data) && has tcp_flags TCP_FLAG_ACK then
      set_sock i (fun s => s <| bytes_in_flight := u32 (bytes_in_flight s + zlen data) |>)
        (tcp_unacked_add i (seq_num s) data n)
    else n in
  let n := set_sock i (fun s =>
    let s := match unacked_list s with
             | _ :: _ => if retransmit_timer s =? 0 then s <| retransmit_timer := u64 (now n + rto s) |> else s
             | [] => s
             end in
    let s := if has tcp_flags TCP_FLAG_SYN then s <| seq_num := u32 (seq_num s + 1) |> else s in
    let s := if has tcp_flags TCP_FLAG_FIN then s <| seq_num := u32 (seq_num s + 1) |> else s in
    let s := s <| seq_num := u32 (seq_num s + zlen data) |> in
    s <| last_ack_sent := ack_num s |>) n in
  send_eth packet (htonl (sk_remote_ip s)) n.

(** The reset answer of a socket that exists on the stack only. *)
Definition tcp_send_rst (dst_ip_ho dst_port_ho src_ip_ho src_port_ho ack : Z) (n : net) : net :=
  let rst_sock := zero_socket <| sk_local_ip := dst_ip_ho |> <| sk_local_port := dst_port_ho |>
                    <| sk_remote_ip := src_ip_ho |> <| sk_remote_port := src_port_ho |>
                    <| seq_num := 0 |> <| ack_num := ack |> in
  send_eth (tcp_packet rst_sock 0 (Z.lor TCP_FLAG_RST TCP_FLAG_ACK) [] n) (htonl src_ip_ho) n.

(** The child of a listening socket, before its buffers. *)
Definition child_socket (fd dst_ip_ho dst_port_ho src_ip_ho src_port_ho seq iss : Z) (parent : nat) (old : net_socket_t) : net_socket_t :=
  old <| sk_fd := fd |> <| sk_domain := AF_INET |> <| sk_type := SOCK_STREAM |> <| sk_protocol := 0 |>
      <| sk_state := TCP_SYN_RECEIVED |> <| sk_flags := 0 |>
      <| sk_local_ip := dst_ip_ho |> <| sk_local_port := dst_port_ho |>
      <| sk_remote_ip := src_ip_ho |> <| sk_remote_port := src_port_ho |>
      <| seq_num := iss |> <| ack_num := u32 (seq + 1) |> <| remote_seq := u32 (seq + 1) |>
      <| cwnd := NET_TCP_MSS |> <| ssthresh := NET_TCP_WINDOW |> <| rto := TCP_RTO_INIT |>
      <| srtt := 0 |> <| rttvar := 0 |> <| retransmit_timer := 0 |> <| dup_ack_count := 0 |>
      <| bytes_in_flight := 0 |> <| last_ack_sent := u32 (seq + 1) |> <| congestion_state := TCP_CC_SLOW_START |>
      <| time_wait_expire := 0 |> <| retransmit_count := 0 |> <| unacked_list := [] |>
      <| listen_parent := Some parent |> <| blocking_pid := -1 |>.

Definition new_ring (ok : bool) (size : Z) : ring := MkRing (if ok then Some (fill 0 size) else None) 0 0 0 size.

(** A SYN for the listening socket in slot [l].  The child's slot number is
    looked up as a descriptor. *)
Definition tcp_rx_listen (l : nat) (dst_ip_ho dst_port_ho src_ip_ho src_port_ho seq : Z) (n : net) : net :=
  if NET_TCP_BACKLOG <=? zlen (pending_conns (sock n l)) then n
  else
    match net_alloc_socket_slot n with
    | (None, n) => n
    | (Some child_fd, n) =>
        match net_get_socket (Z.of_nat child_fd) n with
        | None => n
        | Some child =>
            let iss := u32 (net_get_tcp_initial_seq n + net_random n) in
            let n := set_sock child (child_socket (Z.of_nat child_fd) dst_ip_ho dst_port_ho src_ip_ho src_port_ho seq iss l) n in
            let '(rx_ok, n) := kmalloc NET_RX_BUF_SIZE n in
            let '(tx_ok, n) := kmalloc NET_TX_BUF_SIZE n in
            let n := set_sock child (fun s => s <| rx := new_ring rx_ok NET_RX_BUF_SIZE |>
                                                <| tx := new_ring tx_ok NET_TX_BUF_SIZE |>) n in
            if negb rx_ok || negb tx_ok then net_free_socket_slot child_fd n
            else
              let n := set_sock l (fun s => s <| pending_conns ::= fun p => p ++ [child] |>) n in
              net_tcp_send_packet child (Z.lor TCP_FLAG_SYN TCP_FLAG_ACK) [] n
        end
    end.

(** Does this acknowledgement number count as new? *)
Definition ack_is_new (ack : Z) (s : net_socket_t) : bool :=
  (last_ack_sent s <? ack) ||
  match unacked_list s with seg :: _ => seg_seq seg <? ack | [] => false end.

(** A new acknowledgement: round trip time, window, timer. *)
Definition tcp_new_ack (ack now : Z) (s : net_socket_t) : net_socket_t :=
  let prev_in_flight := bytes_in_flight s in
  let s := match unacked_list s with
           | seg :: _ =>
               if u32 (seg_seq seg + seg_len seg) <=? ack then tcp_update_rtt (u32 (now - send_time seg)) s else s
           | [] => s
           end in
  let s := tcp_recalc_in_flight (tcp_unacked_ack ack s) in
  let acked_bytes := u32 (prev_in_flight - bytes_in_flight s) in
  let s :=
    if congestion_state s =? TCP_CC_SLOW_START then
      let s := s <| cwnd := u32 (cwnd s + acked_bytes) |> in
      if ssthresh s <=? cwnd s then s <| congestion_state := TCP_CC_CONGESTION_AVOID |> else s
    else if congestion_state s =? TCP_CC_CONGESTION_AVOID then
      if 0 <? cwnd s then s <| cwnd := u32 (cwnd s + (NET_TCP_MSS * NET_TCP_MSS) / cwnd s) |> else s
    else if congestion_state s =? TCP_CC_FAST_RECOVERY then
      let s := s <| cwnd := u32 (cwnd s + acked_bytes) |> in
      if (bytes_in_flight s =? 0) || (ssthresh s <=? ack) then
        s <| congestion_state := TCP_CC_CONGESTION_AVOID |> <| cwnd := ssthresh s |>
      else s
    else s in
  let s := s <| dup_ack_count := 0 |> in
  match unacked_list s with
  | _ :: _ => s <| retransmit_timer := u64 (now + rto s) |>
  | [] => s <| retransmit_timer := 0 |>
  end.

Definition half_window (s : net_socket_t) : Z :=
  if 2 * NET_TCP_MSS <? cwnd s / 2 then cwnd s / 2 else 2 * NET_TCP_MSS.

(** A duplicate acknowledgement; the third starts a fast retransmission. *)
Definition tcp_dup_ack (i : nat) (n : net) : net :=
  let n := set_sock i (fun s => s <| dup_ack_count := u32 (dup_ack_count s + 1) |>) n in
  if congestion_state (sock n i) =? TCP_CC_FAST_RECOVERY then
    set_sock i (fun s => s <| cwnd := u32 (cwnd s + NET_TCP_MSS) |>) n
  else if 3 <=? dup_ack_count (sock n i) then
    let n := set_sock i (fun s =>
      let s := s <| ssthresh := half_window s |> in
      s <| cwnd := u32 (ssthresh s + 3 * NET_TCP_MSS) |> <| congestion_state := TCP_CC_FAST_RECOVERY |>) n in
    match unacked_list (sock n i) with
    | seg :: _ =>
        let saved_seq := seq_num (sock n i) in
        let n := set_sock i (fun s => s <| seq_num := seg_seq seg |>) n in
        let n := net_tcp_send_packet i (Z.lor TCP_FLAG_PSH TCP_FLAG_ACK) (seg_data seg) n in
        set_sock i (fun s => s <| seq_num := saved_seq |>) n
    | [] => n
    end
  else n.

Definition tcp_send_ack (i : nat) (n : net) : net := net_tcp_send_packet i TCP_FLAG_ACK [] n.

Definition set_state (st : Z) (i : nat) (n : net) : net := set_sock i (fun s => s <| sk_state := st |>) n.

Definition time_wait (i : nat) (n : net) : net :=
  set_sock i (fun s => s <| sk_state := TCP_TIME_WAIT |> <| time_wait_expire := u64 (now n + TCP_TIMEWAIT_MS) |>) n.

(** [s->ack_num = s->remote_seq = v]. *)
Definition expect (v : Z) (i : nat) (n : net) : net :=
  set_sock i (fun s => s <| ack_num := v |> <| remote_seq := v |>) n.

(** The data part of an established connection. *)
Definition tcp_rx_data (i : nat) (seq : Z) (payload : list Z) (payload_len : Z) (n : net) : net :=
  if 0 <? payload_len then
    if seq =? remote_seq (sock n i) then
      let '(_, n) := net_rx_buffer_write i payload payload_len n in
      tcp_send_ack i (expect (u32 (seq + payload_len)) i n)
    else if remote_seq (sock n i) <? seq then tcp_send_ack i n
    else n
  else n.

Definition tcp_rx_established (i : nat) (flags seq ack : Z) (payload : list Z) (payload_len : Z) (n : net) : net :=
  if has flags TCP_FLAG_RST then set_sock i (fun s => tcp_unacked_free (s <| sk_state := TCP_CLOSED |>)) n
  else
    let n :=
      if has flags TCP_FLAG_ACK then
        if ack_is_new ack (sock n i) then set_sock i (tcp_new_ack ack (now n)) n
        else if ack =? last_ack_sent (sock n i) then tcp_dup_ack i n
        else n
      else n in
    let n := tcp_rx_data i seq payload payload_len n in
    if has flags TCP_FLAG_FIN then set_state TCP_CLOSE_WAIT i (tcp_send_ack i (expect (u32 (seq + 1)) i n))
    else n.

Definition set_ack (v : Z) (i : nat) (n : net) : net := set_sock i (fun s => s <| ack_num := v |>) n.

(** A segment for the socket in slot [i], by its state. *)
Definition tcp_rx_matched (i : nat) (flags seq ack : Z) (payload : list Z) (payload_len : Z) (n : net) : net :=
  let st := sk_state (sock n i) in
  if st =? TCP_SYN_SENT then
    if has flags TCP_FLAG_SYN && has flags TCP_FLAG_ACK then
      let n := tcp_send_ack i (expect (u32 (seq + 1)) i n) in
      set_sock i (fun s => s <| sk_state := TCP_ESTABLISHED |> <| cwnd := NET_TCP_MSS |> <| ssthresh := NET_TCP_WINDOW |>
        <| rto := TCP_RTO_INIT |> <| srtt := 0 |> <| rttvar := 0 |> <| congestion_state := TCP_CC_SLOW_START |>) n
    else if has flags TCP_FLAG_RST then set_state TCP_CLOSED i n
    else n
  else if st =? TCP_SYN_RECEIVED then
    if has flags TCP_FLAG_ACK then set_state TCP_ESTABLISHED i n
    else if has flags TCP_FLAG_RST then set_state TCP_CLOSED i n
    else n
  else if st =? TCP_ESTABLISHED then tcp_rx_established i flags seq ack payload payload_len n
  else if st =? TCP_FIN_WAIT_1 then
    if has flags TCP_FLAG_ACK then
      if has flags TCP_FLAG_FIN then time_wait i (tcp_send_ack i (set_ack (u32 (seq + 1)) i n))
      else set_state TCP_FIN_WAIT_2 i n
    else if has flags TCP_FLAG_FIN then set_state TCP_CLOSING i (tcp_send_ack i (set_ack (u32 (seq + 1)) i n))
    else n
  else if st =? TCP_FIN_WAIT_2 then
    let n := if has flags TCP_FLAG_FIN then time_wait i (tcp_send_ack i (set_ack (u32 (seq + 1)) i n)) else n in
    if 0 <? payload_len then
      let '(_, n) := net_rx_buffer_write i payload payload_len n in
      tcp_send_ack i (expect (u32 (seq + payload_len)) i n)
    else n
  else if st =? TCP_CLOSING then
    let n := if has flags TCP_FLAG_ACK then set_state TCP_TIME_WAIT i n else n in
    set_sock i (fun s => s <| time_wait_expire := u64 (now n + TCP_TIMEWAIT_MS) |>) n
  else if st =? TCP_CLOSE_WAIT then if has flags TCP_FLAG_FIN then tcp_send_ack i n else n
  else if st =? TCP_LAST_ACK then
    if has flags TCP_FLAG_ACK then set_sock i (fun s => tcp_unacked_free (s <| sk_state := TCP_CLOSED |>)) n else n
  else if st =? TCP_TIME_WAIT then if has flags TCP_FLAG_FIN then tcp_send_ack i n else n
  else n.

(** [ip] is the packet, [tcp_data] its payload. *)
Definition net_tcp_rx (ip tcp_data : list Z) (ip_payload_len : Z) (n : net) : net :=
  if ip_payload_len <? 20 then n
  else
    let dst_port_ho := ntohs (get16 tcp_data 2) in
    let src_port_ho := ntohs (get16 tcp_data 0) in
    let dst_ip_ho := ntohl (ip_dst ip) in
    let src_ip_ho := ntohl (ip_src ip) in
    let seq := ntohl (get32 tcp_data 4) in
    let ack := ntohl (get32 tcp_data 8) in
    let flags := at_ tcp_data 13 in
    let header_len := u8 (Z.shiftr (at_ tcp_data 12) 4 * 4) in
    let payload := drop (Z.to_nat header_len) tcp_data in
    let payload_len := u64 (ip_payload_len - header_len) in
    match net_find_tcp_socket dst_ip_ho dst_port_ho src_ip_ho src_port_ho n with
    | Some i => tcp_rx_matched i flags seq ack payload payload_len n
    | None =>
        match net_find_listening_socket dst_port_ho n with
        | None => tcp_send_rst dst_ip_ho dst_port_ho src_ip_ho src_port_ho ack n
        | Some l =>
            if has flags TCP_FLAG_SYN then tcp_rx_listen l dst_ip_ho dst_port_ho src_ip_ho src_port_ho seq n else n
        end
    end.

(** The retransmission timeout of one socket at time [t]. *)
Definition tcp_timeout (i : nat) (t : Z) (n : net) : net :=
  let n := set_sock i (fun s => s <| retransmit_count := u32 (retransmit_count s + 1) |>) n in
  if TCP_MAX_RETRIES <? retransmit_count (sock n i) then
    set_sock i (fun s => tcp_unacked_free (s <| sk_state := TCP_CLOSED |>) <| retransmit_timer := 0 |>) n
  else
    let n := set_sock i (fun s =>
      let rto_ := u32 (rto s * 2) in
      s <| rto := if TCP_RTO_MAX <? rto_ then TCP_RTO_MAX else rto_ |>
        <| ssthresh := half_window s |> <| cwnd := NET_TCP_MSS |> <| congestion_state := TCP_CC_SLOW_START |>) n in
    let n := match unacked_list (sock n i) with
             | seg :: _ =>
                 let saved_seq := seq_num (sock n i) in
                 let n := set_sock i (fun s => s <| seq_num := seg_seq seg |>) n in
                 let tcp_flags := if seg_len seg =? 0 then TCP_FLAG_ACK else Z.lor TCP_FLAG_PSH TCP_FLAG_ACK in
                 let s := sock n i in
                 let n := send_eth (tcp_packet s (seg_seq seg) tcp_flags (seg_data seg) n) (htonl (sk_remote_ip s)) n in
                 set_sock i (fun s => s <| seq_num := saved_seq |>) n
             | [] => n
             end in
    set_sock i (fun s => s <| retransmit_timer := u64 (t + rto s) |>) n.

(** Reaching the retry limit skips the rest of the turn. *)
Definition tcp_tick_one (i : nat) (t : Z) (n : net) : net :=
  let '(stop, n) :=
    if (0 <? retransmit_timer (sock n i)) && (retransmit_timer (sock n i) <=? t) then
      match unacked_list (sock n i) with
      | _ :: _ => (TCP_MAX_RETRIES <? u32 (retransmit_count (sock n i) + 1), tcp_timeout i t n)
      | [] => (false, set_sock i (fun s => s <| retransmit_timer := 0 |>) n)
      end
    else (false, n) in
  let s := sock n i in
  if negb stop && (sk_state s =? TCP_TIME_WAIT) && (0 <? time_wait_expire s) && (time_wait_expire s <=? t) then
    set_sock i (fun s => tcp_unacked_free (s <| sk_state := TCP_CLOSED |> <| time_wait_expire := 0 |>)) n
  else n.

Definition net_tcp_tick (n : net) : net :=
  let t := now n in
  loop NET_MAX_SOCKETS (fun i n =>
    match net_get_socket (Z.of_nat i) n with
    | None => n
    | Some i => if sk_type (sock n i) =? SOCK_STREAM then tcp_tick_one i t n else n
    end) n.

(** *** IP *)

Definition net_rx_ipv4 (data : list Z) (n : net) : net :=
  let len := zlen data in
  if len <? 20 then n
  else if negb (Z.shiftr (ip_version_ihl data) 4 =? 4) then n
  else
    let total_length := ntohs (ip_total_length data) in
    if len <? total_length then n
    else
      let ihl := Z.land (ip_version_ihl data) 0x0F * 4 in
      if ihl <? 20 then n
      else
        let payload := drop (Z.to_nat ihl) data in
        let payload_len := u64 (total_length - ihl) in
        if ip_protocol data =? IP_PROTO_TCP then net_tcp_rx data payload payload_len n
        else if ip_protocol data =? IP_PROTO_UDP then net_udp_rx data payload payload_len n
        else if ip_protocol data =? IP_PROTO_ICMP then net_icmp_rx payload payload_len (ip_src data) n
        else n.

Definition net_loopback_tx (data : list Z) (n : net) : net :=
  if zlen data <? 20 then n
  else if negb (Z.shiftr (ip_version_ihl data) 4 =? 4) then n
  else net_rx_ipv4 data n.

End Protocols.

(** ** Ethernet *)

Fixpoint net_send_eth (depth : nat) (ip_packet : list Z) (dst_ip : Z) (n : net) : net :=
  match depth with
  | O => n
  | S depth =>
      if zlen ip_packet =? 0 then n
      else if Z.land (Z.shiftr (ntohl dst_ip) 24) 0xFF =? 127 then net_loopback_tx (net_send_eth depth) ip_packet n
      else if negb (net_hw_initialized n) then net_loopback_tx (net_send_eth depth) ip_packet n
      else
        let next_hop_ip :=
          if Z.land dst_ip (net_netmask n) =? Z.land (net_local_ip n) (net_netmask n) then dst_ip
          else net_gateway_ip n in
        match net_arp_resolve next_hop_ip n with
        | (None, n) => n
        | (Some dst_mac, n) =>
            let '(ok, n) := kmalloc (14 + zlen ip_packet) n in
            if negb ok then n
            else rtl8139_send (dst_mac ++ net_local_mac n ++ le_bytes 2 (htons 0x0800) ++ ip_packet) n
        end
  end.

End Stack.
