(* ===== verification/NetApi.v ===== *)
(** * Network stack: the socket interface

    The public operations of [recovered/net/src/socket.c].  Local (AF_UNIX)
    sockets are served by another component, which appears here as the
    [Unix] interface; [sendmsg], [recvmsg] and [getsockopt], which work on
    user memory, are not modelled. *)

From S2P Require Import Prelude Bytes NetBase NetStack.

Definition EBADF : Z := 9.
Definition EAGAIN : Z := 11.
Definition ENOMEM : Z := 12.
Definition EINVAL : Z := 22.
Definition EPROTONOSUPPORT : Z := 93.
Definition ESOCKTNOSUPPORT : Z := 94.
Definition EOPNOTSUPP : Z := 95.
Definition EAFNOSUPPORT : Z := 97.
Definition EADDRINUSE : Z := 98.
Definition ENOTCONN : Z := 107.
#[export] Hint Unfold EBADF EAGAIN ENOMEM EINVAL EPROTONOSUPPORT ESOCKTNOSUPPORT EOPNOTSUPP EAFNOSUPPORT
  EADDRINUSE ENOTCONN : sf.

(** Port and address in network order. *)
Record net_sockaddr := MkAddr { sin_family : Z; sin_port : Z; sin_addr : Z }.

Section Api.
Context `{K : Os}.

(** [unix_socket] and its siblings. *)
Class Unix := {
  unix_socket : Z -> Z -> net -> Z * net;
  unix_bind : Z -> option net_sockaddr -> net -> Z * net;
  unix_listen : Z -> Z -> net -> Z * net;
  unix_accept : Z -> net -> Z * net;
  unix_connect : Z -> option net_sockaddr -> net -> Z * net;
  unix_send : Z -> list Z -> net -> Z * net;
  unix_recv : Z -> Z -> net -> Z * list Z * net;
  unix_close : Z -> net -> Z * net
}.

(** [rtl8139_get_mac]: the card's address, if there is a card. *)
Context `{U : Unix} (rtl8139_get_mac : option (list Z)) (hal_io_wait : net -> net) (polls depth : nat).

Definition send_packet : list Z -> Z -> net -> net := net_send_eth hal_io_wait polls depth.
Definition tcp_send : nat -> Z -> list Z -> net -> net := net_tcp_send_packet send_packet.

Definition net_init (n : net) : net :=
  let n := n <| sockets := replicate NET_MAX_SOCKETS zero_socket |> <| socket_used := replicate NET_MAX_SOCKETS false |>
             <| next_ephemeral_port := 49152 |> <| tcp_initial_seq := net_random n |> in
  let n := net_arp_init n in
  match rtl8139_get_mac with
  | Some mac =>
      let n := n <| net_local_mac := mac |> <| net_hw_initialized := true |> in
      if (net_local_ip n =? 0) && (at_ mac 0 =? 0x52) && (at_ mac 1 =? 0x54) && (at_ mac 2 =? 0) then
        n <| net_local_ip := htonl 0x0A00020F |> <| net_gateway_ip := htonl 0x0A000202 |>
          <| net_netmask := htonl 0xFFFFFF00 |>
      else n
  | None => n
  end.

(** The fields [net_socket] sets in a fresh slot. *)
Definition fresh_socket (net_fd domain type iss : Z) (s : net_socket_t) : net_socket_t :=
  s <| sk_fd := net_fd |> <| sk_domain := domain |> <| sk_type := type |>
    <| sk_protocol := if type =? SOCK_STREAM then IP_PROTO_TCP else IP_PROTO_UDP |>
    <| sk_state := TCP_CLOSED |> <| sk_flags := 0 |> <| sk_local_ip := 0 |> <| sk_local_port := 0 |>
    <| sk_remote_ip := 0 |> <| sk_remote_port := 0 |> <| seq_num := iss |> <| ack_num := 0 |> <| remote_seq := 0 |>
    <| listen_parent := None |> <| pending_conns := [] |> <| blocking_pid := -1 |>
    <| cwnd := NET_TCP_MSS |> <| ssthresh := NET_TCP_WINDOW |> <| rto := 1000 |> <| srtt := 0 |> <| rttvar := 0 |>
    <| retransmit_timer := 0 |> <| dup_ack_count := 0 |> <| bytes_in_flight := 0 |> <| last_ack_sent := 0 |>
    <| congestion_state := 0 |> <| time_wait_expire := 0 |> <| retransmit_count := 0 |> <| unacked_list := [] |>.

Definition net_socket (domain type protocol : Z) (n : net) : Z * net :=
  if domain =? AF_UNIX then unix_socket type protocol n
  else if negb (domain =? AF_INET) then (- EAFNOSUPPORT, n)
  else if negb (type =? SOCK_STREAM) && negb (type =? SOCK_DGRAM) then (- ESOCKTNOSUPPORT, n)
  else if negb (protocol =? 0) && negb (protocol =? IP_PROTO_TCP) && negb (protocol =? IP_PROTO_UDP) then (- EPROTONOSUPPORT, n)
  else if (type =? SOCK_STREAM) && negb (protocol =? 0) && negb (protocol =? IP_PROTO_TCP) then (- EPROTONOSUPPORT, n)
  else if (type =? SOCK_DGRAM) && negb (protocol =? 0) && negb (protocol =? IP_PROTO_UDP) then (- EPROTONOSUPPORT, n)
  else
    match net_alloc_socket_slot n with
    | (None, n) => (- ENOMEM, n)
    | (Some net_fd, n) =>
        let n := set_sock net_fd (fresh_socket (Z.of_nat net_fd) domain type (u32 (tcp_initial_seq n + net_random n))) n in
        let '(rx_ok, n) := kmalloc NET_RX_BUF_SIZE n in
        let '(tx_ok, n) := kmalloc NET_TX_BUF_SIZE n in
        if negb rx_ok || negb tx_ok then (- ENOMEM, net_free_socket_slot net_fd n)
        else
          let n := set_sock net_fd (fun s => s <| rx := new_ring rx_ok NET_RX_BUF_SIZE |>
                                               <| tx := new_ring tx_ok NET_TX_BUF_SIZE |>) n in
          let '(vfs_fd, files') := vfs_register_socket net_fd (files n) in
          let n := n <| files := files' |> in
          if vfs_fd <? 0 then (vfs_fd, net_free_socket_slot net_fd n) else (vfs_fd, n)
    end.

Definition net_bind (fd : Z) (addr : option net_sockaddr) (n : net) : Z * net :=
  match net_get_socket fd n with
  | None => (- EBADF, n)
  | Some i =>
      match addr with
      | None => (- EINVAL, n)
      | Some a =>
          if sk_domain (sock n i) =? AF_UNIX then unix_bind fd addr n
          else if negb (sin_family a =? AF_INET) then (- EAFNOSUPPORT, n)
          else
            let port_ho := ntohs (sin_port a) in
            let ip_ho := ntohl (sin_addr a) in
            let busy :=
              if negb (port_ho =? 0) then
                match net_find_socket_by_port port_ho ip_ho n with
                | Some e => negb (sk_fd (sock n e) =? fd)
                | None => false
                end
              else false in
            if busy then (- EADDRINUSE, n)
            else
              let '(port_ho, n) := if port_ho =? 0 then net_alloc_port n else (port_ho, n) in
              (0, set_sock i (fun s => s <| sk_local_ip := ip_ho |> <| sk_local_port := port_ho |>) n)
      end
  end.

Definition net_listen (fd backlog : Z) (n : net) : Z * net :=
  match net_get_socket fd n with
  | None => (- EBADF, n)
  | Some i =>
      if sk_domain (sock n i) =? AF_UNIX then unix_listen fd backlog n
      else if negb (sk_type (sock n i) =? SOCK_STREAM) then (- EOPNOTSUPP, n)
      else if sk_local_port (sock n i) =? 0 then (- EINVAL, n)
      else (0, set_sock i (fun s => s <| sk_state := TCP_LISTEN |> <| pending_conns := [] |>) n)
  end.

(** The descriptor returned is the child's [fd] field: its slot number. *)
Definition net_accept (fd : Z) (n : net) : Z * net :=
  match net_get_socket fd n with
  | None => (- EBADF, n)
  | Some i =>
      if sk_domain (sock n i) =? AF_UNIX then unix_accept fd n
      else if negb (sk_type (sock n i) =? SOCK_STREAM) then (- EOPNOTSUPP, n)
      else if negb (sk_state (sock n i) =? TCP_LISTEN) then (- EINVAL, n)
      else
        let pending := pending_conns (sock n i) in
        match find_index (fun k => sk_state (sock n (pending !!! k)) =? TCP_ESTABLISHED) (length pending) with
        | None => (- EAGAIN, n)
        | Some k =>
            let child := pending !!! k in
            let n := set_sock i (fun s => s <| pending_conns ::= fun l => take k l ++ drop (S k) l |>) n in
            let n := set_sock child (fun s => s <| listen_parent := None |>) n in
            (sk_fd (sock n child), n)
        end
  end.

(** A port and the loopback address for a socket that has no port yet. *)
Definition autobind (i : nat) (n : net) : net :=
  if sk_local_port (sock n i) =? 0 then
    let '(port, n) := net_alloc_port n in
    set_sock i (fun s => s <| sk_local_port := port |> <| sk_local_ip := INADDR_LOOPBACK |>) n
  else n.

Definition net_connect (fd : Z) (addr : option net_sockaddr) (n : net) : Z * net :=
  match net_get_socket fd n with
  | None => (- EBADF, n)
  | Some i =>
      if sk_domain (sock n i) =? AF_UNIX then unix_connect fd addr n
      else if negb (sk_type (sock n i) =? SOCK_STREAM) then (- EOPNOTSUPP, n)
      else
        match addr with
        | None => (- EAFNOSUPPORT, n)
        | Some a =>
            if negb (sin_family a =? AF_INET) then (- EAFNOSUPPORT, n)
            else
              let n := autobind i n in
              let n := set_sock i (fun s =>
                s <| sk_remote_ip := ntohl (sin_addr a) |> <| sk_remote_port := ntohs (sin_port a) |>
                  <| seq_num := u32 (tcp_initial_seq n + net_random n) |> <| ack_num := 0 |>
                  <| cwnd := NET_TCP_MSS |> <| ssthresh := NET_TCP_WINDOW |> <| rto := 1000 |> <| srtt := 0 |>
                  <| rttvar := 0 |> <| retransmit_timer := 0 |> <| dup_ack_count := 0 |> <| bytes_in_flight := 0 |>
                  <| last_ack_sent := 0 |> <| congestion_state := 0 |> <| unacked_list := [] |>
                  <| sk_state := TCP_SYN_SENT |>) n in
              (0, tcp_send i TCP_FLAG_SYN [] n)
        end
  end.

(** The sending loop: chunks of at most one segment while the window is
    open.  Each turn sends at least one byte. *)
Fixpoint send_chunks (fuel : nat) (i : nat) (data : list Z) (send_window total_sent : Z) (n : net) : list Z * Z * net :=
  match fuel with
  | O => (data, total_sent, n)
  | S fuel =>
      let remaining := zlen data in
      if (0 <? remaining) && (0 <? send_window) then
        let chunk := if NET_TCP_MSS <? remaining then NET_TCP_MSS else remaining in
        let chunk := if send_window <? chunk then send_window else chunk in
        let n := tcp_send i (Z.lor TCP_FLAG_PSH TCP_FLAG_ACK) (take (Z.to_nat chunk) data) n in
        send_chunks fuel i (drop (Z.to_nat chunk) data) (send_window - chunk) (total_sent + chunk) n
      else (data, total_sent, n)
  end.

Definition send_window_of (s : net_socket_t) : Z :=
  let w := if NET_TCP_WINDOW <? cwnd s then NET_TCP_WINDOW else cwnd s in
  if w <=? bytes_in_flight s then 0 else w - bytes_in_flight s.

Definition net_send (fd : Z) (data : list Z) (n : net) : Z * net :=
  match net_get_socket fd n with
  | None => (- EBADF, n)
  | Some i =>
      let s := sock n i in
      if sk_domain s =? AF_UNIX then unix_send fd data n
      else if negb (sk_type s =? SOCK_STREAM) then (- EOPNOTSUPP, n)
      else if negb (sk_state s =? TCP_ESTABLISHED) && negb (sk_state s =? TCP_CLOSE_WAIT) then (- ENOTCONN, n)
      else if zlen data =? 0 then (0, n)
      else
        let '(rest, total_sent, n) := send_chunks (length data) i data (send_window_of s) 0 n in
        let '(queued, tx') := ring_write rest (zlen rest) (tx (sock n i)) in
        (s32 (total_sent + queued), set_sock i (fun s => s <| tx := tx' |>) n)
  end.

Definition net_recv (fd len : Z) (n : net) : Z * list Z * net :=
  match net_get_socket fd n with
  | None => (- EBADF, [], n)
  | Some i =>
      let s := sock n i in
      let st := sk_state s in
      if sk_domain s =? AF_UNIX then unix_recv fd len n
      else if negb (sk_type s =? SOCK_STREAM) then (- EOPNOTSUPP, [], n)
      else if negb (st =? TCP_ESTABLISHED) && negb (st =? TCP_FIN_WAIT_1) && negb (st =? TCP_FIN_WAIT_2) &&
              negb (st =? TCP_CLOSE_WAIT) then
        if (st =? TCP_CLOSED) || (st =? TCP_TIME_WAIT) then (0, [], n) else (- ENOTCONN, [], n)
      else if count (rx s) =? 0 then (- EAGAIN, [], n)
      else net_rx_buffer_read i len n
  end.

Definition net_sendto (fd : Z) (data : list Z) (dest_addr : option net_sockaddr) (n : net) : Z * net :=
  match net_get_socket fd n with
  | None => (- EBADF, n)
  | Some i =>
      match dest_addr with
      | None => (- EAFNOSUPPORT, n)
      | Some a =>
          if negb (sin_family a =? AF_INET) then (- EAFNOSUPPORT, n)
          else if sk_type (sock n i) =? SOCK_STREAM then net_send fd data n
          else
            let n := autobind i n in
            let s := sock n i in
            let src_ip := if truthy (sk_local_ip s) then sk_local_ip s else INADDR_LOOPBACK in
            (s32 (zlen data),
             net_udp_send_packet send_packet src_ip (sk_local_port s) (ntohl (sin_addr a)) (ntohs (sin_port a)) data n)
      end
  end.

(** The bytes, the result and the sender's address. *)
Definition net_recvfrom (fd len : Z) (n : net) : Z * list Z * option net_sockaddr * net :=
  match net_get_socket fd n with
  | None => (- EBADF, [], None, n)
  | Some i =>
      if sk_type (sock n i) =? SOCK_STREAM then
        let '(r, out, n) := net_recv fd len n in (r, out, None, n)
      else if count (rx (sock n i)) <? 6 then (- EAGAIN, [], None, n)
      else
        let '(_, meta, n) := net_rx_buffer_read i 6 n in
        let src_ip := get32 meta 0 in
        let src_port := get16 meta 4 in
        let avail := count (rx (sock n i)) in
        let to_read := if len <? avail then len else avail in
        let '(r, out, n) := net_rx_buffer_read i to_read n in
        (r, out, Some (MkAddr AF_INET (htons src_port) (htonl src_ip)), n)
  end.

(** The half close shared by [net_shutdown] and [net_close]. *)
Definition tcp_half_close (i : nat) (n : net) : net :=
  if sk_state (sock n i) =? TCP_ESTABLISHED then
    set_state TCP_FIN_WAIT_1 i (tcp_send i (Z.lor TCP_FLAG_FIN TCP_FLAG_ACK) [] n)
  else if sk_state (sock n i) =? TCP_CLOSE_WAIT then
    set_state TCP_LAST_ACK i (tcp_send i (Z.lor TCP_FLAG_FIN TCP_FLAG_ACK) [] n)
  else n.

Definition net_shutdown (fd how : Z) (n : net) : Z * net :=
  match net_get_socket fd n with
  | None => (- EBADF, n)
  | Some i =>
      if negb (sk_type (sock n i) =? SOCK_STREAM) then (- EOPNOTSUPP, n)
      else (0, if (how =? 1) || (how =? 2) then tcp_half_close i n else n)
  end.

Definition net_close (fd : Z) (n : net) : Z * net :=
  match net_get_socket fd n with
  | None => (- EBADF, n)
  | Some i =>
      if sk_domain (sock n i) =? AF_UNIX then unix_close fd n
      else
        let n := if sk_type (sock n i) =? SOCK_STREAM then tcp_half_close i n else n in
        let net_fd := vfs_fs_data fd (files n) in
        (0, if 0 <=? net_fd then net_free_socket_slot (Z.to_nat net_fd) n else n)
  end.

Definition net_setsockopt (fd level optname : Z) (n : net) : Z :=
  match net_get_socket fd n with
  | None => - EBADF
  | Some _ => if (level =? 1) && ((optname =? 2) || (optname =? 25)) then 0 else - EOPNOTSUPP
  end.

(** [None] for a missing result pointer. *)
Definition net_getsockname (fd : Z) (out : bool) (n : net) : Z * option net_sockaddr :=
  match net_get_socket fd n with
  | None => (- EBADF, None)
  | Some i =>
      if negb out then (- EINVAL, None)
      else (0, Some (MkAddr AF_INET (htons (sk_local_port (sock n i))) (htonl (sk_local_ip (sock n i)))))
  end.

Definition net_getpeername (fd : Z) (out : bool) (n : net) : Z * option net_sockaddr :=
  match net_get_socket fd n with
  | None => (- EBADF, None)
  | Some i =>
      if sk_remote_port (sock n i) =? 0 then (- ENOTCONN, None)
      else if negb out then (- EINVAL, None)
      else (0, Some (MkAddr AF_INET (htons (sk_remote_port (sock n i))) (htonl (sk_remote_ip (sock n i)))))
  end.

End Api.
