(* ===== verification/NetRing.v ===== *)
(** * Socket buffers are byte queues

    The ring buffers of [recovered/net/src/socket.c] against their abstract
    contents: writing appends what fits, reading removes a prefix. *)

From S2P Require Import Prelude Bytes NetBase.

(** Positions inside the buffer, the distance between them the count. *)
Record ring_ok (r : ring) (b : list Z) : Prop := {
  ok_buf : buf r = Some b;
  ok_len : zlen b = rsize r;
  ok_size : 0 < rsize r < 2 ^ 31;
  ok_count : 0 <= count r <= rsize r;
  ok_read : 0 <= read_pos r < rsize r;
  ok_write : write_pos r = (read_pos r + count r) mod rsize r
}.

(** What a reader will get, oldest byte first. *)
Definition contents (r : ring) : list Z :=
  match buf r with
  | Some b => map (fun k => at_ b ((read_pos r + Z.of_nat k) mod rsize r)) (seq 0 (Z.to_nat (count r)))
  | None => []
  end.

Lemma at_insert b i c j : 0 <= i < zlen b -> 0 <= j ->
  at_ (<[Z.to_nat i:=c]> b) j = if j =? i then c else at_ b j.
Proof.
  intros Hi Hj. unfold at_, zlen in *. destruct (Z.eqb_spec j i) as [->|Hn].
  - by rewrite list_lookup_insert_eq by lia.
  - by rewrite list_lookup_insert_ne by lia.
Qed.

Lemma at_cons_succ c l j : 0 < j -> at_ (c :: l) j = at_ l (j - 1).
Proof. intros. unfold at_. rewrite lookup_cons_ne_0 by lia. do 2 f_equal. lia. Qed.

(** The storing loop writes the source from [pos] on and nothing else. *)
Lemma ring_store_spec src : forall b pos size, 0 < size -> zlen b = size -> 0 <= pos < size -> zlen src <= size ->
  let '(b', pos') := ring_store b pos size src in
  zlen b' = size /\ pos' = (pos + zlen src) mod size /\
  forall j, 0 <= j < size ->
    at_ b' ((pos + j) mod size) = if j <? zlen src then at_ src j else at_ b ((pos + j) mod size).
Proof.
  induction src as [|c src IH]; intros b pos size Hs Hb Hp Hl; simpl.
  - rewrite zlen_nil, Z.add_0_r, Z.mod_small by lia. split; [done|]. split; [done|].
    intros j Hj. by destruct (Z.ltb_spec j 0); [lia|].
  - rewrite zlen_cons in *. set (b1 := <[Z.to_nat pos:=c]> b).
    assert (Hb1 : zlen b1 = size) by (unfold b1, zlen in *; rewrite length_insert; lia).
    specialize (IH b1 ((pos + 1) mod size) size Hs Hb1 (wrap_range _ _ Hs) ltac:(lia)).
    destruct (ring_store b1 _ size src) as [b' pos']. destruct IH as (Hl' & Hp' & Hat).
    split; [done|]. rewrite wrap_step in Hp' by done. split; [done|].
    assert (Hat' : forall j, 1 <= j <= size ->
      at_ b' ((pos + j) mod size) = if j - 1 <? zlen src then at_ src (j - 1) else at_ b1 ((pos + j) mod size)).
    { intros j Hj. specialize (Hat (j - 1) ltac:(lia)).
      rewrite wrap_step, Zplus_minus in Hat by done. done. }
    pose proof (zlen_nonneg src).
    intros j Hj. destruct (decide (j = 0)) as [->|Hj0].
    + rewrite Z.add_0_r, Z.mod_small by lia. destruct (Z.ltb_spec 0 (1 + zlen src)); [|lia].
      specialize (Hat' size ltac:(lia)).
      replace ((pos + size) mod size) with pos in Hat'
        by (rewrite <-(Z.mul_1_l size) at 1; rewrite Z.mod_add, Z.mod_small; lia).
      rewrite Hat'. destruct (Z.ltb_spec (size - 1) (zlen src)); [lia|].
      unfold b1. rewrite at_insert by lia. by rewrite Z.eqb_refl.
    + rewrite Hat', at_cons_succ by lia.
      destruct (Z.ltb_spec (j - 1) (zlen src)), (Z.ltb_spec j (1 + zlen src)); try lia.
      unfold b1. rewrite at_insert by (pose proof (wrap_range (pos + j) size); lia).
      destruct (Z.eqb_spec ((pos + j) mod size) pos) as [He|]; [|done].
      rewrite <-(Z.mod_small pos size) in He at 2 by lia. rewrite <-(Z.add_0_r pos) in He at 2.
      apply wrap_inj in He; lia.
Qed.

Lemma length_source_bytes data n : length (source_bytes data n) = Z.to_nat n.
Proof. unfold source_bytes. by rewrite length_map, length_seq. Qed.

Lemma at_source_bytes data n k : 0 <= k < n -> at_ (source_bytes data n) k = at_ data k.
Proof.
  intros. unfold source_bytes, at_ at 1. rewrite list_lookup_fmap, lookup_seq_lt by lia. simpl.
  by rewrite Z2Nat.id by lia.
Qed.

Lemma source_bytes_exact data : source_bytes data (zlen data) = data.
Proof.
  unfold source_bytes, zlen. rewrite Nat2Z.id. apply list_eq. intros i.
  rewrite list_lookup_fmap. destruct (decide (i < length data)%nat).
  - rewrite lookup_seq_lt by done. simpl. unfold at_. rewrite Nat2Z.id.
    by destruct (lookup_lt_is_Some_2 data i ltac:(done)) as [x ->].
  - rewrite (lookup_ge_None_2 data) by lia. by rewrite lookup_ge_None_2 by (rewrite length_seq; lia).
Qed.

(** Elementwise reading of a [map] over [seq]. *)
Lemma map_seq_ext {A} (f g : nat -> A) n : (forall k, (k < n)%nat -> f k = g k) -> map f (seq 0 n) = map g (seq 0 n).
Proof. intros H. apply map_ext_in. intros k Hk%in_seq. apply H. lia. Qed.

Lemma map_seq_app {A} (f : nat -> A) n m : map f (seq 0 (n + m)) = map f (seq 0 n) ++ map (fun k => f (n + k)%nat) (seq 0 m).
Proof.
  rewrite seq_app, map_app. f_equal. simpl.
  rewrite <-(Nat.add_0_r n) at 1. rewrite <-fmap_add_seq. unfold fmap. rewrite map_map. done.
Qed.

Lemma ring_write_spec r b data len : ring_ok r b -> 0 <= len ->
  let w := Z.min len (rsize r - count r) in
  exists r' b', ring_write data len r = (w, r') /\ ring_ok r' b' /\ rsize r' = rsize r /\
    contents r' = contents r ++ source_bytes data w.
Proof.
  intros Hok Hlen w. pose proof Hok as [Hb Hl Hs Hc Hr Hw]. unfold ring_write. rewrite Hb.
  destruct (Z.eqb_spec len 0).
  { exists r, b. replace w with 0 by lia. unfold source_bytes. simpl. by rewrite app_nil_r. } rewrite (u32_small (rsize r - count r)) by lia.
  assert (Hw' : (if len <? rsize r - count r then len else rsize r - count r) = w)
    by (unfold w; destruct (Z.ltb_spec len (rsize r - count r)); lia).
  rewrite Hw'. pose proof (wrap_range (read_pos r + count r) (rsize r) ltac:(lia)).
  assert (Hz : zlen (source_bytes data w) = w) by (unfold zlen; rewrite length_source_bytes; lia).
  pose proof (ring_store_spec (source_bytes data w) b (write_pos r) (rsize r) ltac:(lia) Hl ltac:(lia) ltac:(lia)) as Hst.
  destruct (ring_store _ _ _ _) as [b' pos']. destruct Hst as (Hl' & Hp' & Hat). rewrite Hz in *.
  replace (s32 w) with w by (unfold s32; rewrite Z.mod_small; lia). rewrite u32_small by lia.
  eexists _, b'. split; [done|]. split; [|split; [done|]].
  - constructor; simpl; try done; [lia|]. rewrite Hp', Hw, Z.add_mod_idemp_l by lia. f_equal. lia.
  - unfold contents. rewrite Hb. simpl. rewrite Z2Nat.inj_add by lia. rewrite map_seq_app. f_equal.
    + apply map_seq_ext. intros k Hk. specialize (Hat (rsize r - count r + Z.of_nat k)).
      specialize (Hat ltac:(lia)). rewrite Hw, Z.add_mod_idemp_l in Hat by lia.
      replace (read_pos r + count r + (rsize r - count r + Z.of_nat k))
          with (read_pos r + Z.of_nat k + 1 * rsize r) in Hat by lia.
      rewrite Z.mod_add in Hat by lia.
      destruct (Z.ltb_spec (rsize r - count r + Z.of_nat k) w); [lia|done].
    + unfold source_bytes. apply map_seq_ext. intros k Hk. specialize (Hat (Z.of_nat k) ltac:(lia)).
      rewrite Hw, Z.add_mod_idemp_l in Hat by lia.
      replace (read_pos r + count r + Z.of_nat k) with (read_pos r + Z.of_nat (Z.to_nat (count r) + k)) in Hat by lia.
      rewrite Hat. destruct (Z.ltb_spec (Z.of_nat k) w); [|lia]. apply at_source_bytes. lia.
Qed.

Lemma ring_fetch_spec n : forall b pos size, 0 < size -> 0 <= pos < size ->
  ring_fetch n b pos size =
    (map (fun k => at_ b ((pos + Z.of_nat k) mod size)) (seq 0 n), (pos + Z.of_nat n) mod size).
Proof.
  induction n as [|n IH]; intros b pos size Hs Hp; simpl ring_fetch.
  - simpl. by rewrite Z.add_0_r, Z.mod_small by lia.
  - rewrite IH by (auto; by apply wrap_range). rewrite wrap_step by done. f_equal; [|f_equal; lia].
    rewrite <-cons_seq, <-seq_shift. simpl. rewrite map_map, Z.add_0_r, (Z.mod_small pos) by lia. f_equal.
    apply map_seq_ext. intros k Hk. rewrite wrap_step by done. do 2 f_equal. lia.
Qed.

Lemma ring_read_spec r b len : ring_ok r b -> 0 <= len ->
  let k := Z.min len (count r) in
  exists r', ring_read len r = (k, take (Z.to_nat k) (contents r), r') /\ ring_ok r' b /\ rsize r' = rsize r /\
    contents r' = drop (Z.to_nat k) (contents r).
Proof.
  intros Hok Hlen k. pose proof Hok as [Hb Hl Hs Hc Hr Hw]. unfold ring_read. rewrite Hb.
  destruct (Z.eqb_spec (count r) 0) as [E|E].
  { exists r. replace k with 0 by lia. simpl. rewrite drop_0. done. }
  assert (Hk : (if len <? count r then len else count r) = k)
    by (unfold k; destruct (Z.ltb_spec len (count r)); lia).
  rewrite Hk, ring_fetch_spec by lia.
  replace (s32 k) with k by (unfold s32; rewrite Z.mod_small; lia). rewrite u32_small by lia.
  assert (Hsplit : contents r =
    map (fun j => at_ b ((read_pos r + Z.of_nat j) mod rsize r)) (seq 0 (Z.to_nat k)) ++
    map (fun j => at_ b ((read_pos r + Z.of_nat (Z.to_nat k + j)) mod rsize r)) (seq 0 (Z.to_nat (count r - k)))).
  { unfold contents. rewrite Hb.
    replace (Z.to_nat (count r)) with (Z.to_nat k + Z.to_nat (count r - k))%nat by lia. by rewrite map_seq_app. }
  eexists. split; [|split; [|split]].
  - rewrite Hsplit, take_app_length'; [done|]. by rewrite length_map, length_seq.
  - constructor; simpl; try done; [lia|apply wrap_range; lia|].
    rewrite Hw, Z.add_mod_idemp_l by lia. f_equal. lia.
  - done.
  - rewrite Hsplit, drop_app_length' by (by rewrite length_map, length_seq). unfold contents. simpl.
    apply map_seq_ext. intros j Hj. rewrite Z.add_mod_idemp_l by lia. do 2 f_equal. lia.
Qed.

(** ** The socket table *)

Section Sockets.
Context `{K : Os}.

Lemma sock_set_same i f (n : net) : (i < length (sockets n))%nat -> sock (set_sock i f n) i = f (sock n i).
Proof.
  intros Hi. unfold sock, set_sock. simpl. rewrite alter_insert_total by done. by apply insert_lookup_total_eq.
Qed.

Lemma sock_set_other i j f (n : net) : i <> j -> sock (set_sock i f n) j = sock n j.
Proof.
  intros Hij. unfold sock, set_sock. simpl. rewrite !list_lookup_total_alt. by rewrite list_lookup_alter_ne.
Qed.

Lemma length_set_sock i f (n : net) : length (sockets (set_sock i f n)) = length (sockets n).
Proof. unfold set_sock. simpl. apply length_alter. Qed.

Lemma alter_twice {A} (f g : A -> A) i (l : list A) : alter f i (alter g i l) = alter (fun x => f (g x)) i l.
Proof.
  apply list_eq. intros j. destruct (decide (j = i)) as [->|Hn].
  - rewrite !list_lookup_alter_eq. by destruct (l !! i).
  - by rewrite !list_lookup_alter_ne by done.
Qed.

Lemma set_sock_twice i f g (n : net) : set_sock i f (set_sock i g n) = set_sock i (fun s => f (g s)) n.
Proof. unfold set_sock. simpl. unfold over_field. simpl. by rewrite alter_twice. Qed.

Lemma rx_write_spec i b data len (n : net) : (i < length (sockets n))%nat -> ring_ok (rx (sock n i)) b -> 0 <= len ->
  let r := rx (sock n i) in
  let w := Z.min len (rsize r - count r) in
  exists r' b', net_rx_buffer_write i data len n = (w, set_sock i (fun s => s <| rx := r' |>) n) /\
    ring_ok r' b' /\ rsize r' = rsize r /\ contents r' = contents r ++ source_bytes data w.
Proof.
  intros Hi Hok Hlen r w. destruct (ring_write_spec r b data len Hok Hlen) as (r' & b' & Hw & Hok' & Hsz & Hc).
  exists r', b'. unfold net_rx_buffer_write. fold r. by rewrite Hw.
Qed.

Lemma rx_read_spec i b len (n : net) : (i < length (sockets n))%nat -> ring_ok (rx (sock n i)) b -> 0 <= len ->
  let r := rx (sock n i) in
  let k := Z.min len (count r) in
  exists r', net_rx_buffer_read i len n =
      (k, take (Z.to_nat k) (contents r), set_sock i (fun s => s <| rx := r' |>) n) /\
    ring_ok r' b /\ rsize r' = rsize r /\ contents r' = drop (Z.to_nat k) (contents r).
Proof.
  intros Hi Hok Hlen r k. destruct (ring_read_spec r b len Hok Hlen) as (r' & Hr & Hok' & Hsz & Hc).
  exists r'. unfold net_rx_buffer_read. fold r. by rewrite Hr.
Qed.

Lemma length_contents r b : ring_ok r b -> zlen (contents r) = count r.
Proof. intros [Hb _ _ Hc _ _]. unfold contents, zlen. rewrite Hb, length_map, length_seq. lia. Qed.

(** ** A buffer against a bounded queue *)

Inductive buf_op :=
| BWrite (data : list Z)
| BRead (len : Z).

(** The calls on the receive buffer of socket [i], with their results. *)
Fixpoint run_buffer (i : nat) (ops : list buf_op) (n : net) : list (Z * list Z) * net :=
  match ops with
  | [] => ([], n)
  | BWrite data :: ops =>
      let '(r, n) := net_rx_buffer_write i data (zlen data) n in
      let '(rs, n) := run_buffer i ops n in ((r, []) :: rs, n)
  | BRead len :: ops =>
      let '(r, out, n) := net_rx_buffer_read i len n in
      let '(rs, n) := run_buffer i ops n in ((r, out) :: rs, n)
  end.

(** The same calls on a queue of at most [cap] bytes. *)
Fixpoint run_queue (cap : Z) (ops : list buf_op) (q : list Z) : list (Z * list Z) * list Z :=
  match ops with
  | [] => ([], q)
  | BWrite data :: ops =>
      let w := Z.min (zlen data) (cap - zlen q) in
      let '(rs, q) := run_queue cap ops (q ++ take (Z.to_nat w) data) in ((w, []) :: rs, q)
  | BRead len :: ops =>
      let k := Z.min len (zlen q) in
      let '(rs, q') := run_queue cap ops (drop (Z.to_nat k) q) in ((k, take (Z.to_nat k) q) :: rs, q')
  end.

Definition op_ok (o : buf_op) : Prop := match o with BRead len => 0 <= len | BWrite _ => True end.

Lemma source_bytes_prefix data w : 0 <= w <= zlen data -> source_bytes data w = take (Z.to_nat w) data.
Proof.
  intros Hw. rewrite <-(source_bytes_exact data) at 2. unfold source_bytes.
  replace (Z.to_nat (zlen data)) with (Z.to_nat w + Z.to_nat (zlen data - w))%nat by lia.
  rewrite map_seq_app, take_app_length'; [done|]. by rewrite length_map, length_seq.
Qed.

(** C34. The receive buffer of a socket behaves, over any sequence of
    [net_rx_buffer_write] and [net_rx_buffer_read] calls, as a first-in
    first-out byte queue bounded by the buffer's size: the same results, the
    same bytes, and no other socket changes. *)
Theorem rx_buffer_refines_queue i ops : forall (n : net) b,
  (i < length (sockets n))%nat -> ring_ok (rx (sock n i)) b -> Forall op_ok ops ->
  let '(rs, n') := run_buffer i ops n in
  let '(rs', q') := run_queue (rsize (rx (sock n i))) ops (contents (rx (sock n i))) in
  rs = rs' /\ contents (rx (sock n' i)) = q' /\ (exists b', ring_ok (rx (sock n' i)) b') /\
  (forall j, j <> i -> sock n' j = sock n j).
Proof.
  induction ops as [|o ops IH]; intros n b Hi Hok Hops; simpl; [by eauto|].
  apply Forall_cons_1 in Hops as [Ho Hops].
  pose proof (length_contents _ _ Hok) as Hlen. pose proof (ok_count _ _ Hok).
  destruct o as [data|len]; simpl in Ho.
  - destruct (rx_write_spec i b data (zlen data) n Hi Hok (zlen_nonneg _)) as (r' & b' & -> & Hok' & Hsz & Hc).
    set (n1 := set_sock i _ n). assert (E : rx (sock n1 i) = r') by (unfold n1; by rewrite sock_set_same).
    specialize (IH n1 b'). rewrite E, Hsz, Hc, source_bytes_prefix in IH by (pose proof (zlen_nonneg data); lia).
    rewrite Hlen. specialize (IH ltac:(unfold n1; by rewrite length_set_sock) Hok' Hops).
    destruct (run_buffer i ops n1) as [rs n'], (run_queue _ _ _) as [rs' q'].
    destruct IH as (-> & ? & ? & Hoth). split; [done|]. split; [done|]. split; [done|].
    intros j Hj. rewrite Hoth by done. unfold n1. by rewrite sock_set_other.
  - destruct (rx_read_spec i b len n Hi Hok Ho) as (r' & -> & Hok' & Hsz & Hc).
    set (n1 := set_sock i _ n). assert (E : rx (sock n1 i) = r') by (unfold n1; by rewrite sock_set_same).
    specialize (IH n1 b). rewrite E, Hsz, Hc in IH.
    rewrite Hlen. specialize (IH ltac:(unfold n1; by rewrite length_set_sock) Hok' Hops).
    destruct (run_buffer i ops n1) as [rs n'], (run_queue _ _ _) as [rs' q'].
    destruct IH as (-> & ? & ? & Hoth). split; [done|]. split; [done|]. split; [done|].
    intros j Hj. rewrite Hoth by done. unfold n1. by rewrite sock_set_other.
Qed.

End Sockets.

(** ** A concrete machine *)

(** No open files, allocations succeed. *)
Definition quiet_os : Os := {|
  vfs := unit;
  vfs_get_socket := fun _ _ => None;
  vfs_register_socket := fun i u => (Z.of_nat i, u);
  vfs_fs_data := fun fd _ => fd;
  kmalloc_ok := fun _ _ => true
|}.

Definition demo_net (socks : list net_socket_t) : @net quiet_os :=
  @MkNet quiet_os 0 0 0 (fill 0 6) false (replicate 16 zero_arp) (replicate 8 zero_ping) socks
    (map (fun _ => true) socks) 49152 7 100 [] tt 0.

Definition demo_ring : ring := MkRing (Some [0; 0; 0; 0]) 2 2 0 4.

Lemma demo_ring_ok : ring_ok demo_ring [0; 0; 0; 0].
Proof. constructor; done. Qed.

Lemma rx_buffer_refines_queue_witness :
  let n := demo_net [zero_socket <| rx := demo_ring |>] in
  let ops := [BWrite [1; 2; 3]; BRead 2; BWrite [4; 5; 6; 7]; BRead 9] in
  fst (run_buffer 0 ops n) = fst (run_queue 4 ops []) /\
  fst (run_queue 4 ops []) = [(3, []); (2, [1; 2]); (3, []); (4, [3; 4; 5; 6])].
Proof.
  intros n ops. split; [|reflexivity].
  pose proof (rx_buffer_refines_queue 0 ops n [0; 0; 0; 0] ltac:(simpl; lia) demo_ring_ok
    ltac:(unfold ops; repeat constructor; simpl; lia)) as H.
  change (rsize (rx (sock n 0))) with 4 in H. change (contents (rx (sock n 0))) with (@nil Z) in H.
  destruct (run_buffer 0 ops n) as [rs n'], (run_queue 4 ops []) as [rs' q']. simpl. apply H.
Defined.
