(* ===== verification/NetChecksum.v ===== *)
(** * Internet checksums

    The one's complement arithmetic behind [net_utils.c] and [ip.c]: the
    checksum a sender stores makes the whole block sum to zero. *)

From S2P Require Import Prelude Bytes NetBase.

(** One's complement sum as a number: 1 .. 65535, or 0 for a zero sum. *)
Definition ones (s : Z) : Z := if s =? 0 then 0 else (s - 1) mod 65535 + 1.

Lemma ones_small s : 0 <= s <= 65535 -> ones s = s.
Proof. intros. unfold ones. destruct (Z.eqb_spec s 0); [lia|]. rewrite Z.mod_small; lia. Qed.

Lemma ones_range s : 0 <= s -> 0 <= ones s <= 65535.
Proof.
  intros. unfold ones. destruct (s =? 0); [lia|]. pose proof (Z.mod_pos_bound (s - 1) 65535). lia.
Qed.

(** Folding the carries once keeps the sum. *)
Lemma fold_step s : 0 <= s -> ones (Z.land s 0xFFFF + Z.shiftr s 16) = ones s /\
  Z.land s 0xFFFF + Z.shiftr s 16 = s mod 65536 + s / 65536.
Proof.
  intros Hs. change 0xFFFF with (Z.ones 16). rewrite Z.land_ones, Z.shiftr_div_pow2 by lia.
  change (2 ^ 16) with 65536. split; [|done].
  unfold ones. pose proof (Z.div_mod s 65536 ltac:(lia)). pose proof (Z.mod_pos_bound s 65536 ltac:(lia)).
  pose proof (Z.div_pos s 65536 Hs ltac:(lia)).
  destruct (Z.eqb_spec s 0) as [->|]; [done|].
  destruct (Z.eqb_spec (s mod 65536 + s / 65536) 0); [lia|].
  rewrite H at 3. replace (65536 * (s / 65536) + s mod 65536 - 1)
    with (s mod 65536 + s / 65536 - 1 + (s / 65536) * 65535) by lia.
  by rewrite Z.mod_add by lia.
Qed.

(** Three turns of the folding loop are enough for 32 bits. *)
Lemma fold_sum_ones s : 0 <= s < 2 ^ 32 -> fold_sum 3 s = ones s.
Proof.
  intros Hs.
  assert (Hstop : forall f x, 0 <= x <= 65535 -> fold_sum f x = x).
  { intros [|f] x Hx; simpl; [done|]. rewrite Z.shiftr_div_pow2 by lia.
    change (2 ^ 16) with 65536. rewrite Z.div_small by lia. done. }
  assert (Hgo : forall f x, 65535 < x -> fold_sum (S f) x = fold_sum f (x mod 65536 + x / 65536)).
  { intros f x Hx. simpl. rewrite (proj2 (truthy_true _)); [by rewrite (proj2 (fold_step x ltac:(lia)))|].
    rewrite Z.shiftr_div_pow2 by lia. change (2 ^ 16) with 65536. Z.div_mod_to_equations; lia. }
  assert (Hones : forall x, 0 <= x -> ones (x mod 65536 + x / 65536) = ones x)
    by (intros x Hx; rewrite <-(proj1 (fold_step x Hx)); by rewrite (proj2 (fold_step x Hx))).
  change (2 ^ 32) with 4294967296 in *.
  destruct (Z.le_gt_cases s 65535); [rewrite Hstop, ones_small; lia|]. rewrite Hgo by lia.
  rewrite <-(Hones s) by lia. set (x := s mod 65536 + s / 65536).
  assert (0 <= x <= 131070) by (unfold x; Z.div_mod_to_equations; lia). clearbody x.
  destruct (Z.le_gt_cases x 65535); [rewrite Hstop, ones_small; lia|]. rewrite Hgo by lia.
  rewrite <-(Hones x) by lia. set (y := x mod 65536 + x / 65536).
  assert (0 <= y <= 65535) by (unfold y; Z.div_mod_to_equations; lia). clearbody y.
  rewrite Hstop, ones_small; lia.
Qed.

Lemma finish_sum_spec s : 0 <= s < 2 ^ 32 -> finish_sum s = 65535 - ones s.
Proof.
  intros Hs. unfold finish_sum. rewrite fold_sum_ones by done. pose proof (ones_range s ltac:(lia)).
  unfold Z.lnot, Z.pred, u16. change (2 ^ 16) with 65536.
  replace (- ones s + -1) with (65535 - ones s + (-1) * 65536) by lia. rewrite Z.mod_add, Z.mod_small; lia.
Qed.

(** The sum of the 16-bit words, the last byte of an odd block alone. *)
Fixpoint wsum (b : list Z) : Z :=
  match b with
  | x :: y :: b => x + 256 * y + wsum b
  | [x] => x
  | [] => 0
  end.

(** Induction two bytes at a time. *)
Lemma pair_ind (P : list Z -> Prop) :
  P [] -> (forall x, P [x]) -> (forall x y b, P b -> P (x :: y :: b)) -> forall b, P b.
Proof.
  intros H0 H1 H2 b. enough (P b /\ forall x, P (x :: b)) by tauto.
  induction b as [|y b [IH IH']]; split; auto.
Qed.

Lemma wsum_bound b : bytes_ok b -> 0 <= wsum b <= 65535 * zlen b.
Proof.
  induction b as [|x|x y b IH] using pair_ind; intros Hb; simpl; [unfold zlen; simpl; lia| |].
  - apply Forall_cons_1 in Hb as [Hx _]. unfold zlen; simpl length. sflia.
  - apply Forall_cons_1 in Hb as [Hx Hb]. apply Forall_cons_1 in Hb as [Hy Hb]. specialize (IH Hb).
    rewrite !zlen_cons. sflia.
Qed.

Lemma wsum_app a b : zlen a mod 2 = 0 -> wsum (a ++ b) = wsum a + wsum b.
Proof.
  induction a as [|x|x y a IH] using pair_ind; intros Hm; simpl; [done|done|].
  rewrite !zlen_cons in Hm. rewrite IH; [lia|]. Z.div_mod_to_equations; lia.
Qed.

Lemma loop_from_S {S} (i n : nat) (f : nat -> S -> S) s : loop_from (Datatypes.S i) n f s = loop_from i n (fun k => f (Datatypes.S k)) s.
Proof. revert i s. induction n as [|n IH]; intros i s; simpl; [done|]. by rewrite IH. Qed.

Lemma loop_from_ext {S} (f g : nat -> S -> S) n : forall i s, (forall k s, f k s = g k s) ->
  loop_from i n f s = loop_from i n g s.
Proof. induction n as [|n IH]; intros i s H; simpl; [done|]. by rewrite H, IH. Qed.

Lemma get16_skip2 x y b i : 0 <= i -> get16 (x :: y :: b) (2 + i) = get16 b i.
Proof.
  intros Hi. unfold get16, slice. do 2 f_equal. replace (Z.to_nat (2 + i)) with (S (S (Z.to_nat i))) by lia. done.
Qed.

(** The summing loop with the odd byte is [wsum], modulo 32 bits. *)
Lemma sum_words_wsum b : forall s, 0 <= s < 2 ^ 32 ->
  (let sum := sum_words b (Z.to_nat (zlen b / 2)) s in
   if truthy (Z.land (zlen b) 1) then u32 (sum + at_ b (zlen b - 1)) else sum) = u32 (s + wsum b).
Proof.
  induction b as [|x|x y b IH] using pair_ind; intros s Hs.
  - unfold sum_words, loop. simpl. rewrite Z.add_0_r. by rewrite u32_small.
  - done.
  - replace (zlen (x :: y :: b)) with (2 + zlen b) by (rewrite !zlen_cons; lia).
    replace ((2 + zlen b) / 2) with (1 + zlen b / 2)
      by (Z.div_mod_to_equations; lia).
    replace (Z.land (2 + zlen b) 1) with (Z.land (zlen b) 1)
      by (change 1 with (Z.ones 1); rewrite !Z.land_ones by lia; change (2 ^ 1) with 2; Z.div_mod_to_equations; lia).
    pose proof (zlen_nonneg b). pose proof (Z.div_pos (zlen b) 2 ltac:(lia) ltac:(lia)).
    replace (Z.to_nat (1 + zlen b / 2)) with (S (Z.to_nat (zlen b / 2))) by lia.
    unfold sum_words, loop. simpl loop_from. rewrite loop_from_S.
    rewrite (loop_from_ext _ (fun i sum => u32 (sum + get16 b (2 * Z.of_nat i))))
      by (intros k t; replace (2 * Z.of_nat (S k)) with (2 + 2 * Z.of_nat k) by lia; by rewrite get16_skip2 by lia).
    specialize (IH (u32 (s + get16 (x :: y :: b) (2 * 0))) (u32_bounds _)). unfold sum_words, loop in IH.
    replace (u32 (s + wsum (x :: y :: b))) with (u32 (u32 (s + get16 (x :: y :: b) (2 * 0)) + wsum b)).
    2:{ unfold u32. rewrite Z.add_mod_idemp_l by lia. f_equal. change (wsum (x :: y :: b)) with (x + 256 * y + wsum b).
        change (get16 (x :: y :: b) (2 * 0)) with (x + 256 * (y + 256 * le_val (take 0 b))). rewrite take_0. change (le_val []) with 0. lia. }
    rewrite <-IH. simpl. destruct (truthy (Z.land (zlen b) 1)) eqn:E; [|done].
    f_equal. f_equal. unfold at_. destruct b as [|z b]; [done|].
    rewrite zlen_cons. pose proof (zlen_nonneg b). replace (Z.to_nat (2 + (1 + zlen b) - 1)) with (S (S (Z.to_nat (1 + zlen b - 1)))) by lia. done.
Qed.

Lemma compute_checksum_spec b : bytes_ok b -> zlen b <= 65535 ->
  compute_checksum b (zlen b) = 65535 - ones (wsum b).
Proof.
  intros Hb Hl. unfold compute_checksum. pose proof (sum_words_wsum b 0 ltac:(lia)) as H. simpl in H.
  simpl. rewrite H. pose proof (wsum_bound b Hb). rewrite u32_small by lia. apply finish_sum_spec. lia.
Qed.

Lemma ones_complete s : 0 <= s -> ones (s + (65535 - ones s)) = 65535.
Proof.
  intros Hs. unfold ones at 2. destruct (Z.eqb_spec s 0) as [->|Hn]; [done|].
  pose proof (Z.div_mod (s - 1) 65535 ltac:(lia)) as H. pose proof (Z.mod_pos_bound (s - 1) 65535 ltac:(lia)).
  pose proof (Z.div_pos (s - 1) 65535 ltac:(lia) ltac:(lia)).
  unfold ones. destruct (Z.eqb_spec (s + (65535 - ((s - 1) mod 65535 + 1))) 0); [lia|].
  replace (s + (65535 - ((s - 1) mod 65535 + 1)) - 1) with (65534 + ((s - 1) / 65535) * 65535) by lia.
  rewrite Z.mod_add, Z.mod_small by lia. done.
Qed.

(** The checksum of a block with its own checksum stored is zero. *)
Lemma checksum_stored pre post : bytes_ok pre -> bytes_ok post -> zlen pre mod 2 = 0 -> zlen pre + 2 + zlen post <= 65535 ->
  let block c := pre ++ le_bytes 2 c ++ post in
  let len := zlen pre + 2 + zlen post in
  0 <= compute_checksum (block 0) len < 65536 /\
  compute_checksum (block (compute_checksum (block 0) len)) len = 0.
Proof.
  intros Hpre Hpost Hev Hl block len.
  assert (Hok : forall c, bytes_ok (block c))
    by (intros c; apply Forall_app; split; [done|]; apply Forall_app; split; [apply le_bytes_ok|done]).
  assert (Hlen : forall c, zlen (block c) = len)
    by (intros c; unfold block, len; rewrite !zlen_app, zlen_le_bytes; lia).
  assert (Hsum : forall c, 0 <= c < 65536 -> wsum (block c) = wsum (block 0) + c).
  { intros c Hc. unfold block. rewrite !wsum_app by (done || (rewrite zlen_le_bytes; done)).
    change (wsum (le_bytes 2 c)) with (c mod 256 + 256 * ((c / 256) mod 256) + 0). change (wsum (le_bytes 2 0)) with 0.
    enough (c mod 256 + 256 * ((c / 256) mod 256) = c) by lia. clear -Hc. Z.div_mod_to_equations; lia. }
  assert (Hc : compute_checksum (block 0) len = 65535 - ones (wsum (block 0)))
    by (rewrite <-(Hlen 0); apply compute_checksum_spec; [done|rewrite Hlen; unfold len; lia]).
  pose proof (wsum_bound _ (Hok 0)) as Hw. pose proof (ones_range (wsum (block 0)) ltac:(lia)).
  rewrite Hc. split; [lia|]. set (c := 65535 - ones (wsum (block 0))).
  rewrite <-(Hlen c), compute_checksum_spec by (done || (rewrite Hlen; unfold len; lia)).
  rewrite Hsum by (unfold c; lia). unfold c. rewrite ones_complete by lia. lia.
Qed.

(** A header of five words: [compute_ip_checksum] is the block checksum. *)
Lemma compute_ip_checksum_20 h : bytes_ok h -> zlen h = 20 -> at_ h 0 = 0x45 -> compute_ip_checksum h = compute_checksum h 20.
Proof.
  intros Hb Hl H0. unfold compute_ip_checksum, compute_checksum. rewrite H0.
  change (Z.land 69 15 * 4 / 2) with (20 / 2). change (truthy (Z.land 20 1)) with false. reflexivity.
Qed.

Lemma zlen_ipv4_fields tl id pr ck src dst : zlen (ipv4_fields tl id pr ck src dst) = 20.
Proof. unfold ipv4_fields. rewrite !zlen_app, !zlen_le_bytes. reflexivity. Qed.

(** Every IPv4 header the stack builds verifies: summed again with its
    checksum in place, [compute_ip_checksum] gives zero, for every length,
    identification, protocol and pair of addresses. *)
Theorem ipv4_header_verifies total_length ident protocol src_ip dst_ip : byte_ok protocol ->
  compute_ip_checksum (ipv4_header total_length ident protocol src_ip dst_ip) = 0 /\
  0 <= compute_ip_checksum (ipv4_fields total_length ident protocol 0 src_ip dst_ip) < 65536.
Proof.
  intros Hp.
  set (pre := [0x45; 0] ++ le_bytes 2 (htons total_length) ++ le_bytes 2 (htons ident) ++ le_bytes 2 (htons 0x4000) ++ [64; protocol]).
  set (post := le_bytes 4 src_ip ++ le_bytes 4 dst_ip).
  assert (Hshape : forall c, ipv4_fields total_length ident protocol c src_ip dst_ip = pre ++ le_bytes 2 c ++ post).
  { intros c. unfold ipv4_fields, pre, post. by rewrite <-!app_assoc. }
  assert (Hpre : bytes_ok pre).
  { repeat (apply Forall_app; split); try apply le_bytes_ok; repeat constructor; try done; sflia. }
  assert (Hpost : bytes_ok post) by (apply Forall_app; split; apply le_bytes_ok).
  assert (Hip : forall c, compute_ip_checksum (ipv4_fields total_length ident protocol c src_ip dst_ip)
                          = compute_checksum (pre ++ le_bytes 2 c ++ post) 20).
  { intros c. rewrite compute_ip_checksum_20; [by rewrite Hshape| |apply zlen_ipv4_fields|done].
    rewrite Hshape. apply Forall_app; split; [done|]. apply Forall_app; split; [apply le_bytes_ok|done]. }
  assert (Hz1 : zlen pre = 10) by (unfold pre; rewrite !zlen_app, !zlen_le_bytes; reflexivity).
  assert (Hz2 : zlen post = 8) by (unfold post; rewrite !zlen_app, !zlen_le_bytes; reflexivity).
  pose proof (checksum_stored pre post Hpre Hpost ltac:(by rewrite Hz1) ltac:(rewrite Hz1, Hz2; lia)) as [H1 H2].
  rewrite Hz1, Hz2 in *. unfold ipv4_header. rewrite !Hip. split; [exact H2|exact H1].
Qed.

Lemma ipv4_header_verifies_witness :
  compute_ip_checksum (ipv4_header 1500 4660 IP_PROTO_TCP 0x0F02000A 0x0202000A) = 0.
Proof. exact (proj1 (ipv4_header_verifies 1500 4660 IP_PROTO_TCP 0x0F02000A 0x0202000A ltac:(sflia))). Defined.
