(* ===== verification/NetPacket.v ===== *)
(** * Packets read back

    Byte order conversions are involutions, and the receivers of
    [recovered/net] read from a packet what its sender put there. *)

From S2P Require Import Prelude Bytes NetBase NetStack NetChecksum.

Lemma low_byte v : Z.land v 0xFF = v mod 256.
Proof. change 0xFF with (Z.ones 8). by rewrite Z.land_ones. Qed.

Lemma lor_byte a b n : 0 <= n -> 0 <= b < 2 ^ n -> Z.lor (Z.shiftl a n) b = a * 2 ^ n + b.
Proof.
  intros Hn Hb. rewrite Z.shiftl_mul_pow2 by done. apply (lor_disjoint n); [done| |done]. by rewrite Z.mod_mul by lia.
Qed.

Lemma htons_rev v : htons v = le_val (rev (le_bytes 2 v)).
Proof.
  unfold htons. rewrite !low_byte, Z.shiftr_div_pow2, (lor_byte _ _ 8) by (try apply Z.mod_pos_bound; lia).
  change (rev (le_bytes 2 v)) with [(v / 256) mod 256; v mod 256]. unfold le_val. change (2 ^ 8) with 256. lia.
Qed.

Lemma htonl_rev v : htonl v = le_val (rev (le_bytes 4 v)).
Proof.
  unfold htonl. rewrite !low_byte, !Z.shiftr_div_pow2 by lia.
  change (rev (le_bytes 4 v)) with [(v / 256 / 256 / 256) mod 256; (v / 256 / 256) mod 256; (v / 256) mod 256; v mod 256].
  unfold le_val. rewrite !Z.div_div by lia. change (256 * 256) with 65536. change (256 * 65536) with (2 ^ 24).
  change (2 ^ 8) with 256. change (2 ^ 16) with 65536. change (65536 * 256) with (2 ^ 24).
  set (a := v mod 256). set (b := (v / 256) mod 256). set (c := (v / 65536) mod 256). set (d := (v / 2 ^ 24) mod 256).
  assert (0 <= a < 256 /\ 0 <= b < 256 /\ 0 <= c < 256 /\ 0 <= d < 256)
    by (unfold a, b, c, d; repeat split; apply Z.mod_pos_bound; lia).
  clearbody a b c d.
  rewrite (Z.shiftl_mul_pow2 b), (Z.shiftl_mul_pow2 c) by lia.
  rewrite (lor_byte a (b * 2 ^ 16) 24) by lia.
  replace (a * 2 ^ 24 + b * 2 ^ 16) with (Z.shiftl (a * 256 + b) 16) by (rewrite Z.shiftl_mul_pow2; lia).
  rewrite (lor_byte _ (c * 2 ^ 8) 16) by lia.
  replace ((a * 256 + b) * 2 ^ 16 + c * 2 ^ 8) with (Z.shiftl ((a * 256 + b) * 256 + c) 8) by (rewrite Z.shiftl_mul_pow2; lia).
  rewrite lor_byte by lia. lia.
Qed.

Lemma rev_ok l : bytes_ok l -> bytes_ok (rev l).
Proof. intros H. apply Forall_rev. done. Qed.

Lemma swap_bytes n v : 0 <= v < 256 ^ Z.of_nat n -> le_val (rev (le_bytes n (le_val (rev (le_bytes n v))))) = v.
Proof.
  intros Hv. assert (Hl : length (rev (le_bytes n v)) = n).
  { rewrite length_rev. pose proof (zlen_le_bytes n v). unfold zlen in *. lia. }
  rewrite <-Hl at 1. rewrite le_bytes_val by apply rev_ok, le_bytes_ok. by rewrite rev_involutive, le_val_bytes.
Qed.

Lemma htons_htons v : 0 <= v < 65536 -> htons (htons v) = v.
Proof. intros. rewrite !htons_rev. by apply (swap_bytes 2). Qed.

Lemma htonl_htonl v : 0 <= v < 2 ^ 32 -> htonl (htonl v) = v.
Proof. intros. rewrite !htonl_rev. by apply (swap_bytes 4). Qed.

Lemma htons_bound v : 0 <= htons v < 65536.
Proof. rewrite htons_rev. apply (le_val_bound (rev (le_bytes 2 v))), rev_ok, le_bytes_ok. Qed.

Lemma htonl_bound v : 0 <= htonl v < 2 ^ 32.
Proof. rewrite htonl_rev. apply (le_val_bound (rev (le_bytes 4 v))), rev_ok, le_bytes_ok. Qed.

Lemma ntohs_field v : 0 <= v < 65536 -> ntohs (le_val (le_bytes 2 (htons v))) = v.
Proof. intros. rewrite le_val_bytes by (pose proof (htons_bound v); simpl; lia). by apply htons_htons. Qed.

Lemma ntohl_field v : 0 <= v < 2 ^ 32 -> ntohl (le_val (le_bytes 4 (htonl v))) = v.
Proof. intros. rewrite le_val_bytes by (pose proof (htonl_bound v); simpl; lia). by apply htonl_htonl. Qed.

(** ** Headers *)

Section Headers.
Context (tl id pr src dst : Z) (rest : list Z).
Let p := ipv4_header tl id pr src dst ++ rest.

Lemma header_ihl : ip_version_ihl p = 0x45.
Proof. reflexivity. Qed.

Lemma header_total : ip_total_length p = le_val (le_bytes 2 (htons tl)).
Proof. reflexivity. Qed.

Lemma header_protocol : ip_protocol p = pr.
Proof. reflexivity. Qed.

Lemma header_src : ip_src p = le_val (le_bytes 4 src).
Proof. reflexivity. Qed.

Lemma header_dst : ip_dst p = le_val (le_bytes 4 dst).
Proof. reflexivity. Qed.

Lemma header_payload : drop 20 p = rest.
Proof. reflexivity. Qed.

Lemma header_len : zlen p = 20 + zlen rest.
Proof. unfold p. rewrite zlen_app. unfold ipv4_header. by rewrite zlen_ipv4_fields. Qed.

End Headers.

Section Receive.
Context `{K : Os} (send_eth : list Z -> Z -> net -> net).

(** A well-formed packet reaches its protocol with its payload. *)
Lemma net_rx_ipv4_header id pr src dst rest n : 20 + zlen rest < 65536 ->
  net_rx_ipv4 send_eth (ipv4_header (20 + zlen rest) id pr src dst ++ rest) n =
  (let p := ipv4_header (20 + zlen rest) id pr src dst ++ rest in
   if pr =? IP_PROTO_TCP then net_tcp_rx send_eth p rest (zlen rest) n
   else if pr =? IP_PROTO_UDP then net_udp_rx p rest (zlen rest) n
   else if pr =? IP_PROTO_ICMP then net_icmp_rx send_eth rest (zlen rest) (ip_src p) n
   else n).
Proof.
  intros Hl. pose proof (zlen_nonneg rest). unfold net_rx_ipv4.
  rewrite header_len, header_ihl, header_total, header_protocol, ntohs_field by lia.
  change (Z.shiftr 69 4) with 4. change (Z.land 69 15 * 4) with 20.
  destruct (Z.ltb_spec (20 + zlen rest) 20); [lia|]. destruct (Z.ltb_spec (20 + zlen rest) (20 + zlen rest)); [lia|].
  change (negb (4 =? 4)) with false. change (20 <? 20) with false. cbv iota.
  change (Z.to_nat 20) with 20%nat. rewrite header_payload.
  replace (20 + zlen rest - 20) with (zlen rest) by lia. by rewrite u64_small by lia.
Qed.

Lemma net_loopback_tx_header id pr src dst rest n : 20 + zlen rest < 65536 ->
  net_loopback_tx send_eth (ipv4_header (20 + zlen rest) id pr src dst ++ rest) n =
  net_rx_ipv4 send_eth (ipv4_header (20 + zlen rest) id pr src dst ++ rest) n.
Proof.
  intros Hl. pose proof (zlen_nonneg rest). unfold net_loopback_tx. rewrite header_len, header_ihl.
  destruct (Z.ltb_spec (20 + zlen rest) 20); [lia|]. done.
Qed.

End Receive.
