(* ===== verification/NetUdp.v ===== *)
(** * A datagram through the loopback

    [net_sendto], the UDP, IP and Ethernet layers, the loopback and
    [net_recvfrom] composed. *)

From S2P Require Import Prelude Bytes NetBase NetStack NetApi NetRing NetChecksum NetPacket.

Section Udp.
Context `{K : Os}.

Lemma zlen_udp_segment sp dp l ck data : zlen (udp_segment sp dp l ck data) = 8 + zlen data.
Proof. unfold udp_segment. rewrite !zlen_app, !zlen_le_bytes. lia. Qed.

(** The meta data in front of a datagram in the receive buffer. *)
Definition datagram (src_ip src_port : Z) (data : list Z) : list Z :=
  le_bytes 4 src_ip ++ le_bytes 2 src_port ++ data.

(** Receiving a well-formed datagram appends it to the buffer of its socket. *)
Lemma net_udp_rx_delivers i b id src dst sp dp ck data (n : net) :
  let p := ipv4_header (28 + zlen data) id IP_PROTO_UDP (htonl src) (htonl dst) ++ udp_segment sp dp (8 + zlen data) ck data in
  0 <= src < 2 ^ 32 -> 0 <= dst < 2 ^ 32 -> 0 <= sp < 65536 -> 0 <= dp < 65536 -> zlen data < 65508 ->
  net_find_udp_socket dp dst n = Some i -> (i < length (sockets n))%nat -> ring_ok (rx (sock n i)) b ->
  count (rx (sock n i)) + 6 + zlen data <= rsize (rx (sock n i)) ->
  exists r' b', net_udp_rx p (udp_segment sp dp (8 + zlen data) ck data) (8 + zlen data) n =
      set_sock i (fun s => s <| rx := r' |>) n /\
    ring_ok r' b' /\ contents r' = contents (rx (sock n i)) ++ datagram src sp data.
Proof.
  intros p Hsrc Hdst Hsp Hdp Hlen Hfind Hi Hok Hroom. pose proof (zlen_nonneg data).
  unfold net_udp_rx. destruct (Z.ltb_spec (8 + zlen data) 8); [lia|].
  change (get16 (udp_segment sp dp (8 + zlen data) ck data) 2) with (le_val (le_bytes 2 (htons dp))).
  change (get16 (udp_segment sp dp (8 + zlen data) ck data) 0) with (le_val (le_bytes 2 (htons sp))).
  change (get16 (udp_segment sp dp (8 + zlen data) ck data) 4) with (le_val (le_bytes 2 (htons (8 + zlen data)))).
  change (drop 8 (udp_segment sp dp (8 + zlen data) ck data)) with data.
  unfold p. rewrite header_src, header_dst, !ntohs_field, !ntohl_field, Hfind by lia.
  replace (8 + zlen data - 8) with (zlen data) by lia. rewrite u64_small by lia.
  set (meta := le_bytes 4 src ++ le_bytes 2 sp).
  destruct (rx_write_spec i b meta 6 n Hi Hok ltac:(lia)) as (r1 & b1 & -> & Hok1 & Hsz1 & Hc1).
  set (n1 := set_sock i _ n). assert (E1 : rx (sock n1 i) = r1) by (unfold n1; by rewrite sock_set_same).
  assert (Hok1' : ring_ok (rx (sock n1 i)) b1) by (by rewrite E1).
  destruct (rx_write_spec i b1 data (zlen data) n1 ltac:(unfold n1; by rewrite length_set_sock) Hok1' ltac:(lia))
    as (r2 & b2 & -> & Hok2 & Hsz2 & Hc2).
  exists r2, b2. split; [|split; [done|]].
  - unfold n1. by rewrite set_sock_twice.
  - pose proof (length_contents _ _ Hok1) as Hl1. pose proof (length_contents _ _ Hok) as Hl0.
    rewrite Hc1, zlen_app in Hl1. unfold zlen in Hl1 at 2. rewrite length_source_bytes in Hl1.
    rewrite Hc2, E1, Hc1. rewrite !Z.min_l by (rewrite ?E1; lia).
    change 6 with (zlen meta). rewrite !source_bytes_exact. unfold datagram, meta. by rewrite <-!app_assoc.
Qed.

Context `{U : !Unix} (hal_io_wait : net -> net) (polls : nat).

(** A packet for the 127 network is received at once. *)
Lemma send_eth_loopback depth packet dst (n : net) : 0 <= dst < 2 ^ 32 -> Z.shiftr dst 24 = 127 -> zlen packet <> 0 ->
  net_send_eth hal_io_wait polls (S depth) packet (htonl dst) n =
  net_loopback_tx (net_send_eth hal_io_wait polls depth) packet n.
Proof.
  intros Hd H127 Hz. cbn [net_send_eth]. unfold ntohl. rewrite htonl_htonl by done. rewrite H127.
  destruct (Z.eqb_spec (zlen packet) 0); [done|]. done.
Qed.

Lemma udp_send_loopback depth i b src dst sp dp data (n : net) :
  0 < src < 2 ^ 32 -> 0 <= dst < 2 ^ 32 -> Z.shiftr dst 24 = 127 -> 0 <= sp < 65536 -> 0 <= dp < 65536 -> zlen data < 65508 ->
  net_find_udp_socket dp dst n = Some i -> (i < length (sockets n))%nat -> ring_ok (rx (sock n i)) b ->
  count (rx (sock n i)) + 6 + zlen data <= rsize (rx (sock n i)) ->
  exists r' b', net_udp_send_packet (net_send_eth hal_io_wait polls (S depth)) src sp dst dp data n =
      set_sock i (fun s => s <| rx := r' |>) n /\
    ring_ok r' b' /\ contents r' = contents (rx (sock n i)) ++ datagram src sp data.
Proof.
  intros Hsrc Hdst H127 Hsp Hdp Hlen Hfind Hi Hok Hroom. pose proof (zlen_nonneg data). unfold net_udp_send_packet.
  rewrite (proj2 (truthy_true src)) by lia. change (20 + 8 + zlen data) with (28 + zlen data).
  set (ck := compute_udp_checksum _ _ _ _). set (id := Z.land _ _).
  rewrite send_eth_loopback by (try done; rewrite zlen_app, zlen_udp_segment; pose proof (zlen_nonneg (ipv4_header (28 + zlen data) id IP_PROTO_UDP (htonl src) (htonl dst))); lia).
  set (seg := udp_segment sp dp (8 + zlen data) ck data).
  assert (Hz : zlen seg = 8 + zlen data) by apply zlen_udp_segment.
  assert (E : 28 + zlen data = 20 + zlen seg) by lia.
  destruct (net_udp_rx_delivers i b id src dst sp dp ck data n) as (r' & b' & Hrx & Hok' & Hc'); [lia|done..|].
  exists r', b'. split; [|done]. rewrite E, net_loopback_tx_header, net_rx_ipv4_header by lia.
  change (IP_PROTO_UDP =? IP_PROTO_TCP) with false. change (IP_PROTO_UDP =? IP_PROTO_UDP) with true. cbv zeta iota.
  rewrite <-E, Hz. exact Hrx.
Qed.


End Udp.

(** No local sockets. *)
Definition quiet_unix : @Unix quiet_os := {|
  unix_socket := fun _ _ n => (- EAFNOSUPPORT, n);
  unix_bind := fun _ _ n => (- EBADF, n);
  unix_listen := fun _ _ n => (- EBADF, n);
  unix_accept := fun _ n => (- EBADF, n);
  unix_connect := fun _ _ n => (- EBADF, n);
  unix_send := fun _ _ n => (- EBADF, n);
  unix_recv := fun _ _ n => (- EBADF, [], n);
  unix_close := fun _ n => (- EBADF, n)
|}.

Definition demo_dgram (port : Z) : net_socket_t :=
  zero_socket <| sk_domain := AF_INET |> <| sk_type := SOCK_DGRAM |> <| sk_local_port := port |>
              <| rx := MkRing (Some (fill 0 16)) 11 11 0 16 |>.

