(* ===== verification/NetInv.v ===== *)
(** * The socket table stays well formed

    Ring positions inside their buffers, at most sixteen pending
    connections, retransmission timeouts within their bounds and TCP states
    among the eleven of [net.h]: an invariant of every entry point of the
    stack, however packets nest through the loopback. *)

From S2P Require Import Prelude Bytes NetBase NetStack NetApi NetRing NetUdp.

Definition ring_wf (r : ring) : Prop := match buf r with Some b => ring_ok r b | None => True end.

Definition rto_ok (t : Z) : Prop := t = 0 \/ TCP_RTO_MIN <= t <= TCP_RTO_MAX.

Definition sock_wf (s : net_socket_t) : Prop :=
  ring_wf (rx s) /\ ring_wf (tx s) /\ zlen (pending_conns s) <= NET_TCP_BACKLOG /\ rto_ok (rto s) /\
  TCP_CLOSED <= sk_state s <= TCP_LAST_ACK.

Lemma zero_socket_wf : sock_wf zero_socket.
Proof. refine (conj I (conj I (conj _ (conj (or_introl eq_refl) _)))); vm_compute; intuition congruence. Qed.

Lemma new_ring_wf ok size : 0 < size < 2 ^ 31 -> ring_wf (new_ring ok size).
Proof.
  intros. unfold new_ring, ring_wf. destruct ok; simpl; [|done].
  constructor; simpl; try done; try lia. apply zlen_fill. lia.
Qed.

Lemma ring_write_wf data len r : 0 <= len -> ring_wf r -> ring_wf (ring_write data len r).2.
Proof.
  intros Hlen Hr. unfold ring_wf in Hr. destruct (buf r) as [b|] eqn:E.
  - destruct (ring_write_spec r b data len Hr Hlen) as (r' & b' & -> & Hok & _). simpl. unfold ring_wf.
    by rewrite (ok_buf _ _ Hok).
  - unfold ring_write. rewrite E. simpl. unfold ring_wf. by rewrite E.
Qed.

Lemma ring_read_wf len r : 0 <= len -> ring_wf r -> ring_wf (ring_read len r).2.
Proof.
  intros Hlen Hr. unfold ring_wf in Hr. destruct (buf r) as [b|] eqn:E.
  - destruct (ring_read_spec r b len Hr Hlen) as (r' & -> & Hok & _). simpl. unfold ring_wf.
    by rewrite (ok_buf _ _ Hok).
  - unfold ring_read. rewrite E. simpl. unfold ring_wf. by rewrite E.
Qed.

Section Invariant.
Context `{K : Os}.

Record net_wf (n : net) : Prop := {
  wf_sockets : length (sockets n) = NET_MAX_SOCKETS;
  wf_used : length (socket_used n) = NET_MAX_SOCKETS;
  wf_all : Forall sock_wf (sockets n)
}.

Lemma sock_of_wf n i : net_wf n -> sock_wf (sock n i).
Proof.
  intros [_ _ Hall]. unfold sock. rewrite list_lookup_total_alt.
  destruct (sockets n !! i) eqn:E; simpl; [|apply zero_socket_wf]. by eapply Forall_lookup_1 in E.
Qed.

Lemma set_sock_wf i f n : (forall s, sock_wf s -> sock_wf (f s)) -> net_wf n -> net_wf (set_sock i f n).
Proof.
  intros Hf [H1 H2 Hall]. constructor; [by rewrite length_set_sock|done|].
  unfold set_sock. simpl. apply Forall_alter; auto.
Qed.

(** The same, knowing the socket. *)
Lemma set_sock_wf_at i f n : sock_wf (f (sock n i)) -> net_wf n -> net_wf (set_sock i f n).
Proof.
  intros Hf [H1 H2 Hall]. constructor; [by rewrite length_set_sock|done|].
  unfold set_sock. simpl. destruct (decide (i < length (sockets n))%nat).
  - rewrite alter_insert_total by done. by apply Forall_insert.
  - enough (alter f i (sockets n) = sockets n) as -> by done. apply list_eq. intros j.
    destruct (decide (j = i)) as [->|]; [|by rewrite list_lookup_alter_ne].
    by rewrite list_lookup_alter_eq, lookup_ge_None_2 by lia.
Qed.

(** States with the same socket tables. *)
Lemma net_wf_same n n' : sockets n' = sockets n -> socket_used n' = socket_used n -> net_wf n -> net_wf n'.
Proof. intros E1 E2 [H1 H2 H3]. constructor; rewrite ?E1, ?E2; done. Qed.

(** [keep] closes [sock_wf] goals about updates of unrelated fields. *)
Ltac keep := let E := fresh in intros ? E; exact E.

Lemma set_state_wf st i n : TCP_CLOSED <= st <= TCP_LAST_ACK -> net_wf n -> net_wf (set_state st i n).
Proof.
  intros Hst. apply set_sock_wf. intros s (H1 & H2 & H3 & H4 & _). exact (conj H1 (conj H2 (conj H3 (conj H4 Hst)))).
Qed.

Lemma close_wf i n : net_wf n -> net_wf (set_sock i (fun s => tcp_unacked_free (s <| sk_state := TCP_CLOSED |>)) n).
Proof.
  apply set_sock_wf. intros s (H1 & H2 & H3 & H4 & _). refine (conj H1 (conj H2 (conj H3 (conj H4 _)))). simpl. sflia.
Qed.

Lemma expect_wf v i n : net_wf n -> net_wf (expect v i n).
Proof. apply set_sock_wf. keep. Qed.

Lemma set_ack_wf v i n : net_wf n -> net_wf (set_ack v i n).
Proof. apply set_sock_wf. keep. Qed.

Lemma time_wait_wf i n : net_wf n -> net_wf (time_wait i n).
Proof.
  apply set_sock_wf. intros s (H1 & H2 & H3 & H4 & _). refine (conj H1 (conj H2 (conj H3 (conj H4 _)))). simpl. sflia.
Qed.

Lemma kmalloc_wf size n : net_wf n -> net_wf (kmalloc size n).2.
Proof. apply net_wf_same; done. Qed.

Lemma alloc_slot_wf n : net_wf n -> net_wf (net_alloc_socket_slot n).2.
Proof.
  intros [H1 H2 H3]. unfold net_alloc_socket_slot. destruct (find_index _ _); [|done].
  constructor; simpl; [done|by rewrite length_insert|done].
Qed.

Lemma free_slot_wf fd n : net_wf n -> net_wf (net_free_socket_slot fd n).
Proof.
  intros H. unfold net_free_socket_slot. destruct (_ <=? _)%nat; [done|].
  set (n1 := match listen_parent (sock n fd) with Some _ => _ | None => _ end).
  assert (H1 : net_wf n1).
  { unfold n1. destruct (listen_parent (sock n fd)); [|done]. apply set_sock_wf; [|done].
    intros s (R1 & R2 & R3 & R4 & R5). destruct (find_index _ _) as [k|]; [|done].
    refine (conj R1 (conj R2 (conj _ (conj R4 R5)))). simpl. unfold zlen in *.
    rewrite length_app, length_take, length_drop. lia. }
  assert (H2 : net_wf (set_sock fd (fun _ => zero_socket) n1)) by (apply set_sock_wf; [intros; apply zero_socket_wf|done]).
  destruct H2 as [A B C]. constructor; simpl; [done|by rewrite length_insert|done].
Qed.

Lemma rx_write_wf i data len n : 0 <= len -> net_wf n -> net_wf (net_rx_buffer_write i data len n).2.
Proof.
  intros Hlen H. unfold net_rx_buffer_write. pose proof (sock_of_wf n i H) as (R1 & R2 & R3 & R4 & R5).
  pose proof (ring_write_wf data len (rx (sock n i)) Hlen R1) as Hr. destruct (ring_write _ _ _) as [r ring']. simpl.
  apply set_sock_wf; [|done]. intros s (_ & ?). by split.
Qed.

Lemma rx_read_wf i len n : 0 <= len -> net_wf n -> net_wf (net_rx_buffer_read i len n).2.
Proof.
  intros Hlen H. unfold net_rx_buffer_read. pose proof (sock_of_wf n i H) as (R1 & R2 & R3 & R4 & R5).
  pose proof (ring_read_wf len (rx (sock n i)) Hlen R1) as Hr. destruct (ring_read _ _) as [[r out] ring']. simpl.
  apply set_sock_wf; [|done]. intros s (_ & ?). by split.
Qed.

Lemma alloc_port_loop_same k : forall n, sockets (alloc_port_loop k n).2 = sockets n /\
  socket_used (alloc_port_loop k n).2 = socket_used n.
Proof.
  induction k as [|k IH]; intros n; cbn [alloc_port_loop]; [done|]. destruct (find_index _ _); [|done].
  destruct (IH (n <| next_ephemeral_port := next_port (next_ephemeral_port n) |>)) as [E1 E2]. split; [exact E1|exact E2].
Qed.

Lemma alloc_port_wf n : net_wf n -> net_wf (net_alloc_port n).2.
Proof. apply net_wf_same; apply alloc_port_loop_same. Qed.

(** ** TCP *)

Lemma tcp_update_rtt_wf t s : sock_wf s -> sock_wf (tcp_update_rtt t s).
Proof.
  intros (R1 & R2 & R3 & R4 & R5). unfold tcp_update_rtt. set (s' := if srtt s =? 0 then _ else _).
  assert (E : rx s' = rx s /\ tx s' = tx s /\ pending_conns s' = pending_conns s /\ sk_state s' = sk_state s)
    by (unfold s'; destruct (srtt s =? 0); done). clearbody s'. destruct E as (E1 & E2 & E3 & E4).
  unfold sock_wf. simpl. rewrite E1, E2, E3, E4. refine (conj R1 (conj R2 (conj R3 (conj _ R5)))).
  right. set (x := u32 _). clearbody x. unfold TCP_RTO_MIN, TCP_RTO_MAX.
  destruct (Z.ltb_spec x 200); [done|]. destruct (Z.ltb_spec 60000 x); lia.
Qed.

Lemma tcp_new_ack_wf ack t s : sock_wf s -> sock_wf (tcp_new_ack ack t s).
Proof.
  intros H. unfold tcp_new_ack.
  set (s1 := match unacked_list s with seg :: _ => _ | [] => s end).
  assert (H1 : sock_wf s1) by (unfold s1; destruct (unacked_list s); [done|]; destruct (_ <=? _); [by apply tcp_update_rtt_wf|done]).
  clearbody s1. set (s2 := tcp_recalc_in_flight _). assert (H2 : sock_wf s2) by exact H1. clearbody s2.
  set (acked := u32 _). clearbody acked.
  set (s3 := if congestion_state s2 =? TCP_CC_SLOW_START then _ else _).
  assert (H3 : sock_wf s3) by (unfold s3; repeat case_match; exact H2). clearbody s3.
  destruct (unacked_list _); exact H3.
Qed.

Section Sending.
Context (send_eth : list Z -> Z -> net -> net).
Hypothesis send_wf : forall p d n, net_wf n -> net_wf (send_eth p d n).

Lemma tcp_unacked_add_wf i seq data n : net_wf n -> net_wf (tcp_unacked_add i seq data n).
Proof.
  intros H. unfold tcp_unacked_add, kmalloc. destruct (kmalloc_ok _ _); simpl; [|by apply net_wf_same with n].
  destruct (kmalloc_ok _ _); simpl; [|by apply net_wf_same with n].
  apply set_sock_wf; [keep|]. by apply net_wf_same with n.
Qed.

Lemma tcp_send_packet_wf i flags data n : net_wf n -> net_wf (net_tcp_send_packet send_eth i flags data n).
Proof.
  intros H. unfold net_tcp_send_packet. apply send_wf.
  set (n1 := if _ && _ then _ else n).
  assert (H1 : net_wf n1).
  { unfold n1. destruct (_ && _); [|done]. apply set_sock_wf; [keep|]. by apply tcp_unacked_add_wf. }
  apply set_sock_wf; [|done]. intros s Hs. destruct (unacked_list s); [|destruct (retransmit_timer s =? 0)];
    destruct (has flags TCP_FLAG_SYN), (has flags TCP_FLAG_FIN); exact Hs.
Qed.

Lemma tcp_send_ack_wf i n : net_wf n -> net_wf (tcp_send_ack send_eth i n).
Proof. apply tcp_send_packet_wf. Qed.

Lemma tcp_rx_listen_wf l a b c d e n : net_wf n -> net_wf (tcp_rx_listen send_eth l a b c d e n).
Proof.
  intros H. unfold tcp_rx_listen. destruct (Z.leb_spec NET_TCP_BACKLOG (zlen (pending_conns (sock n l)))) as [|Hroom]; [done|].
  pose proof (alloc_slot_wf n H) as H1. destruct (net_alloc_socket_slot n) as [[fd|] n1] eqn:Ea; simpl in H1; [|done].
  assert (Hs1 : sockets n1 = sockets n) by (unfold net_alloc_socket_slot in Ea; destruct (find_index _ _); by simplify_eq).
  destruct (net_get_socket _ n1) as [child|]; [|done].
  unfold kmalloc. set (n2 := set_sock child (child_socket _ _ _ _ _ _ _ _) n1).
  assert (H2 : net_wf n2).
  { unfold n2. apply set_sock_wf; [|done]. intros s (R1 & R2 & R3 & R4 & R5). unfold sock_wf. simpl.
    refine (conj R1 (conj R2 (conj R3 (conj _ _)))); [right|]; sflia. }
  set (rx_ok := kmalloc_ok _ _). set (tx_ok := kmalloc_ok _ _).
  set (n3 := set_sock child _ _).
  assert (H3 : net_wf n3).
  { unfold n3. apply set_sock_wf; [|by apply net_wf_same with n2].
    intros s (R1 & R2 & R3 & R4 & R5).
    refine (conj _ (conj _ (conj R3 (conj R4 R5)))); apply new_ring_wf; sflia. }
  assert (Hp : pending_conns (sock n3 l) = pending_conns (sock n l)).
  { assert (El : sock n1 l = sock n l) by (unfold sock; by rewrite Hs1).
    destruct (decide (child = l)) as [->|Hne].
    - destruct (decide (l < length (sockets n1))%nat) as [Hl|Hl].
      + unfold n3. rewrite sock_set_same by (unfold n2; simpl; by rewrite length_alter).
        simpl. change (pending_conns (sock n2 l) = pending_conns (sock n l)).
        unfold n2. rewrite sock_set_same by done. simpl. by rewrite El.
      + unfold sock. rewrite !list_lookup_total_alt, !lookup_ge_None_2; [done|rewrite <-Hs1; lia|].
        unfold n3. rewrite length_set_sock. simpl. rewrite length_alter. lia.
    - unfold n3. rewrite sock_set_other by done. change (pending_conns (sock n2 l) = pending_conns (sock n l)).
      unfold n2. by rewrite sock_set_other, El by done. }
  cbv zeta. destruct (_ || _); [by apply free_slot_wf|].
  apply tcp_send_packet_wf. apply set_sock_wf_at; [|done].
  pose proof (sock_of_wf n3 l H3) as (R1 & R2 & R3 & R4 & R5).
  refine (conj R1 (conj R2 (conj _ (conj R4 R5)))). simpl. rewrite Hp, zlen_app, zlen_cons, zlen_nil. sflia.
Qed.

Lemma tcp_dup_ack_wf i n : net_wf n -> net_wf (tcp_dup_ack send_eth i n).
Proof.
  intros H. unfold tcp_dup_ack. set (n1 := set_sock i _ n).
  assert (H1 : net_wf n1) by (apply set_sock_wf; [keep|done]). clearbody n1.
  destruct (_ =? _); [apply set_sock_wf; [keep|done]|]. destruct (_ <=? _); [|done].
  set (n2 := set_sock i _ n1). assert (H2 : net_wf n2) by (apply set_sock_wf; [keep|done]). clearbody n2.
  destruct (unacked_list _); [done|]. apply set_sock_wf; [keep|]. apply tcp_send_packet_wf.
  apply set_sock_wf; [keep|done].
Qed.

(** Storing a payload and acknowledging it. *)
Lemma tcp_store_wf i payload len v n : 0 <= len -> net_wf n ->
  net_wf (let '(_, n) := net_rx_buffer_write i payload len n in tcp_send_ack send_eth i (expect v i n)).
Proof.
  intros Hlen H. pose proof (rx_write_wf i payload len n Hlen H) as H1.
  destruct (net_rx_buffer_write i payload len n) as [r n1]. apply tcp_send_ack_wf, expect_wf. exact H1.
Qed.

Lemma tcp_rx_established_wf i flags seq ack payload len n : 0 <= len -> net_wf n ->
  net_wf (tcp_rx_established send_eth i flags seq ack payload len n).
Proof.
  intros Hlen H. unfold tcp_rx_established. destruct (has flags TCP_FLAG_RST); [by apply close_wf|].
  set (n1 := if has flags TCP_FLAG_ACK then _ else n).
  assert (H1 : net_wf n1).
  { unfold n1. destruct (has flags TCP_FLAG_ACK); [|done].
    destruct (ack_is_new _ _); [apply set_sock_wf; [intros; by apply tcp_new_ack_wf|done]|].
    destruct (_ =? _); [by apply tcp_dup_ack_wf|done]. }
  clearbody n1. set (n2 := tcp_rx_data send_eth i seq payload len n1).
  assert (H2 : net_wf n2).
  { unfold n2, tcp_rx_data. destruct (_ <? _); [|done]. destruct (_ =? _); [by apply tcp_store_wf|].
    destruct (_ <? _); [by apply tcp_send_ack_wf|done]. }
  clearbody n2. destruct (has flags TCP_FLAG_FIN); [|done].
  apply set_state_wf; [sflia|]. by apply tcp_send_ack_wf, expect_wf.
Qed.

Lemma tcp_rx_matched_wf i flags seq ack payload len n : 0 <= len -> net_wf n ->
  net_wf (tcp_rx_matched send_eth i flags seq ack payload len n).
Proof.
  intros Hlen H. unfold tcp_rx_matched.
  assert (Hack : forall v, net_wf (tcp_send_ack send_eth i (set_ack v i n))) by (intros; by apply tcp_send_ack_wf, set_ack_wf).
  destruct (_ =? TCP_SYN_SENT).
  { destruct (_ && _); [|destruct (has _ _); [apply set_state_wf; [sflia|done]|done]].
    apply set_sock_wf; [|by apply tcp_send_ack_wf, expect_wf]. intros s (R1 & R2 & R3 & R4 & R5).
    refine (conj R1 (conj R2 (conj R3 (conj (or_intror _) _)))); simpl; sflia. }
  destruct (_ =? TCP_SYN_RECEIVED).
  { destruct (has _ _); [apply set_state_wf; [sflia|done]|]. destruct (has _ _); [apply set_state_wf; [sflia|done]|done]. }
  destruct (_ =? TCP_ESTABLISHED); [by apply tcp_rx_established_wf|].
  destruct (_ =? TCP_FIN_WAIT_1).
  { destruct (has _ _), (has _ _); [by apply time_wait_wf|apply set_state_wf; [sflia|done]..|done]. }
  destruct (_ =? TCP_FIN_WAIT_2).
  { set (n1 := if has flags TCP_FLAG_FIN then _ else n).
    assert (H1 : net_wf n1) by (unfold n1; destruct (has _ _); [by apply time_wait_wf|done]). clearbody n1.
    destruct (_ <? _); [by apply tcp_store_wf|done]. }
  destruct (_ =? TCP_CLOSING).
  { apply set_sock_wf; [keep|]. destruct (has _ _); [apply set_state_wf; [sflia|done]|done]. }
  destruct (_ =? TCP_CLOSE_WAIT); [destruct (has _ _); [by apply tcp_send_ack_wf|done]|].
  destruct (_ =? TCP_LAST_ACK); [destruct (has _ _); [by apply close_wf|done]|].
  destruct (_ =? TCP_TIME_WAIT); [destruct (has _ _); [by apply tcp_send_ack_wf|done]|done].
Qed.

Lemma tcp_rx_wf ip data len n : net_wf n -> net_wf (net_tcp_rx send_eth ip data len n).
Proof.
  intros H. unfold net_tcp_rx. destruct (_ <? _); [done|]. destruct (net_find_tcp_socket _ _ _ _ _).
  - apply tcp_rx_matched_wf; [apply u64_bounds|done].
  - destruct (net_find_listening_socket _ _); [|by apply send_wf]. destruct (has _ _); [by apply tcp_rx_listen_wf|done].
Qed.

Lemma tcp_timeout_wf i t n : net_wf n -> net_wf (tcp_timeout send_eth i t n).
Proof.
  intros H. unfold tcp_timeout. set (n1 := set_sock i _ n).
  assert (H1 : net_wf n1) by (apply set_sock_wf; [keep|done]). clearbody n1.
  destruct (_ <? _).
  { apply set_sock_wf; [|done]. intros s (R1 & R2 & R3 & R4 & R5).
    refine (conj R1 (conj R2 (conj R3 (conj R4 _)))). simpl. sflia. }
  set (n2 := set_sock i _ n1).
  assert (H2 : net_wf n2).
  { apply set_sock_wf; [|done]. intros s (R1 & R2 & R3 & R4 & R5).
    refine (conj R1 (conj R2 (conj R3 (conj _ R5)))). simpl. unfold rto_ok, TCP_RTO_MIN, TCP_RTO_MAX in *.
    destruct R4 as [->|Hr]; [by left|right]. rewrite u32_small by lia. destruct (Z.ltb_spec 60000 (rto s * 2)); lia. }
  clearbody n2. apply set_sock_wf; [keep|]. destruct (unacked_list _); [done|].
  apply set_sock_wf; [keep|]. apply send_wf. apply set_sock_wf; [keep|done].
Qed.

Lemma tcp_tick_one_wf i t n : net_wf n -> net_wf (tcp_tick_one send_eth i t n).
Proof.
  intros H. unfold tcp_tick_one. set (p := if _ && _ then _ else (false, n)).
  assert (H1 : net_wf p.2).
  { unfold p. destruct (_ && _); [|done]. destruct (unacked_list _); [apply set_sock_wf; [keep|done]|by apply tcp_timeout_wf]. }
  destruct p as [stop n1]. simpl in H1. destruct (_ && _); [|done].
  apply set_sock_wf; [|done]. intros s (R1 & R2 & R3 & R4 & R5).
  refine (conj R1 (conj R2 (conj R3 (conj R4 _)))). simpl. sflia.
Qed.

Lemma tcp_tick_wf n : net_wf n -> net_wf (net_tcp_tick send_eth n).
Proof.
  intros H. unfold net_tcp_tick. apply (loop_inv (fun _ => net_wf)); [done|]. intros j n' _ H'.
  destruct (net_get_socket _ _); [|done]. destruct (_ =? _); [by apply tcp_tick_one_wf|done].
Qed.

(** ** The other protocols *)

Lemma udp_rx_wf ip data len n : net_wf n -> net_wf (net_udp_rx ip data len n).
Proof.
  intros H. unfold net_udp_rx. destruct (_ <? _); [done|]. destruct (net_find_udp_socket _ _ _) as [i|]; [|done].
  pose proof (rx_write_wf i (le_bytes 4 (ntohl (ip_src ip)) ++ le_bytes 2 (ntohs (get16 data 0))) 6 n ltac:(lia) H) as H1.
  destruct (net_rx_buffer_write _ _ 6 _) as [r n1]. simpl in H1.
  pose proof (rx_write_wf i (drop 8 data) (u64 (ntohs (get16 data 4) - 8)) n1 ltac:(apply u64_bounds) H1) as H2.
  destruct (net_rx_buffer_write _ _ _ n1) as [r' n2]. exact H2.
Qed.

Lemma icmp_rx_wf data len src n : net_wf n -> net_wf (net_icmp_rx send_eth data len src n).
Proof.
  intros H. unfold net_icmp_rx, kmalloc. destruct (_ <? _); [done|].
  destruct (_ && _).
  - destruct (kmalloc_ok _ _); simpl; [|by apply net_wf_same with n].
    destruct (kmalloc_ok _ _); simpl; [|by apply net_wf_same with n]. apply send_wf. by apply net_wf_same with n.
  - destruct (_ && _); [|done]. destruct (find_ping_slot _ _ _); [|done]. by apply net_wf_same with n.
Qed.

Lemma icmp_send_echo_wf dst seq id data n : net_wf n -> net_wf (net_icmp_send_echo send_eth dst seq id data n).2.
Proof.
  intros H. unfold net_icmp_send_echo, kmalloc. destruct (alloc_ping_slot n); [|done].
  destruct (kmalloc_ok _ _); simpl; [|by apply net_wf_same with n].
  destruct (kmalloc_ok _ _); simpl; [|by apply net_wf_same with n]. apply send_wf. by apply net_wf_same with n.
Qed.

Lemma icmp_tick_wf n : net_wf n -> net_wf (net_icmp_tick n).
Proof.
  intros H. unfold net_icmp_tick. apply (loop_inv (fun _ => net_wf)); [done|]. intros j n' _ H'.
  destruct (_ && _); [|done]. by apply net_wf_same with n'.
Qed.

Lemma rx_ipv4_wf data n : net_wf n -> net_wf (net_rx_ipv4 send_eth data n).
Proof.
  intros H. unfold net_rx_ipv4. repeat (case_match; [done|]).
  destruct (_ =? IP_PROTO_TCP); [by apply tcp_rx_wf|]. destruct (_ =? IP_PROTO_UDP); [by apply udp_rx_wf|].
  destruct (_ =? IP_PROTO_ICMP); [by apply icmp_rx_wf|done].
Qed.

Lemma loopback_wf data n : net_wf n -> net_wf (net_loopback_tx send_eth data n).
Proof. intros H. unfold net_loopback_tx. repeat (case_match; [done|]). by apply rx_ipv4_wf. Qed.

End Sending.

(** ** Ethernet, and the whole stack *)

Context `{U : !Unix} (rtl8139_get_mac : option (list Z)) (hal_io_wait : net -> net) (polls depth : nat).

(** What the environment keeps: waiting and the local sockets. *)
Record env_ok : Prop := {
  env_wait : forall n, net_wf n -> net_wf (hal_io_wait n);
  env_socket : forall t p n, net_wf n -> net_wf (unix_socket t p n).2;
  env_bind : forall fd a n, net_wf n -> net_wf (unix_bind fd a n).2;
  env_listen : forall fd b n, net_wf n -> net_wf (unix_listen fd b n).2;
  env_accept : forall fd n, net_wf n -> net_wf (unix_accept fd n).2;
  env_connect : forall fd a n, net_wf n -> net_wf (unix_connect fd a n).2;
  env_send : forall fd d n, net_wf n -> net_wf (unix_send fd d n).2;
  env_recv : forall fd l n, net_wf n -> net_wf (unix_recv fd l n).2;
  env_close : forall fd n, net_wf n -> net_wf (unix_close fd n).2
}.
Hypothesis Henv : env_ok.

Lemma arp_insert_wf ip mac n : net_wf n -> net_wf (arp_cache_insert ip mac n).
Proof. intros H. unfold arp_cache_insert. repeat case_match; by apply net_wf_same with n. Qed.

Lemma arp_rx_wf data n : net_wf n -> net_wf (net_arp_rx data n).
Proof.
  intros H. unfold net_arp_rx. destruct (zlen data <? 28); [done|]. do 2 (destruct (_ || _); [done|]).
  destruct (ntohs (get16 data 6) =? 2); [destruct (_ =? _); [by apply arp_insert_wf|done]|].
  destruct (ntohs (get16 data 6) =? 1); [|done]. destruct (_ =? _); [|done].
  apply (net_wf_same (arp_cache_insert (get32 data 14) (slice 8 6 data) n)); [done..|]. by apply arp_insert_wf.
Qed.

Lemma arp_poll_wf k ip deadline : forall n, net_wf n -> net_wf (arp_poll hal_io_wait k ip deadline n).2.
Proof.
  induction k as [|k IH]; intros n H; cbn [arp_poll]; [done|]. destruct (_ <? _); [|done].
  pose proof (env_wait Henv n H). destruct (arp_cache_lookup _ _); [done|]. by apply IH.
Qed.

Lemma send_eth_wf d : forall p dst n, net_wf n -> net_wf (net_send_eth hal_io_wait polls d p dst n).
Proof.
  induction d as [|d IH]; intros p dst n H; cbn [net_send_eth]; [done|].
  destruct (_ =? 0); [done|]. destruct (_ =? 127); [by apply loopback_wf|].
  destruct (negb _); [by apply loopback_wf|].
  assert (H1 : net_wf (net_arp_resolve hal_io_wait polls
    (if Z.land dst (net_netmask n) =? Z.land (net_local_ip n) (net_netmask n) then dst else net_gateway_ip n) n).2).
  { unfold net_arp_resolve. destruct (arp_cache_lookup _ _); [done|]. apply arp_poll_wf. by apply net_wf_same with n. }
  destruct (net_arp_resolve _ _ _ _) as [[mac|] n1]; [|done]. simpl in H1. unfold kmalloc.
  destruct (kmalloc_ok _ _); simpl; by apply net_wf_same with n1.
Qed.

Lemma tcp_send_wf i flags data n : net_wf n -> net_wf (tcp_send hal_io_wait polls depth i flags data n).
Proof. apply tcp_send_packet_wf, send_eth_wf. Qed.

(** Every entry point of the stack: received frames, timers, socket calls. *)
Inductive net_step : net -> net -> Prop :=
| StepTime t n : net_step n (n <| now := t |>)
| StepConfigure ip gw mask n : net_step n (net_configure_ip ip gw mask n)
| StepArp data n : net_step n (net_arp_rx data n)
| StepIp data n : net_step n (net_rx_ipv4 (net_send_eth hal_io_wait polls depth) data n)
| StepIcmpTick n : net_step n (net_icmp_tick n)
| StepTcpTick n : net_step n (net_tcp_tick (net_send_eth hal_io_wait polls depth) n)
| StepEcho dst seq id data n : net_step n (net_icmp_send_echo (net_send_eth hal_io_wait polls depth) dst seq id data n).2
| StepSocket dom ty pr n : net_step n (net_socket dom ty pr n).2
| StepBind fd a n : net_step n (net_bind fd a n).2
| StepListen fd b n : net_step n (net_listen fd b n).2
| StepAccept fd n : net_step n (net_accept fd n).2
| StepConnect fd a n : net_step n (net_connect hal_io_wait polls depth fd a n).2
| StepSend fd data n : net_step n (net_send hal_io_wait polls depth fd data n).2
| StepRecv fd len n : 0 <= len -> net_step n (net_recv fd len n).2
| StepSendto fd data a n : net_step n (net_sendto hal_io_wait polls depth fd data a n).2
| StepRecvfrom fd len n : 0 <= len -> net_step n (net_recvfrom fd len n).2
| StepShutdown fd how n : net_step n (net_shutdown hal_io_wait polls depth fd how n).2
| StepClose fd n : net_step n (net_close hal_io_wait polls depth fd n).2.

Lemma net_socket_wf dom ty pr n : net_wf n -> net_wf (net_socket dom ty pr n).2.
Proof.
  intros H. unfold net_socket. destruct (_ =? AF_UNIX); [by apply env_socket|].
  repeat (case_match; [done|]).
  pose proof (alloc_slot_wf n H) as Ha. destruct (net_alloc_socket_slot n) as [[fd|] n1]; simpl in Ha; [|done].
  set (n2 := set_sock fd _ n1).
  assert (Hb : net_wf n2).
  { apply set_sock_wf; [|done]. intros s (R1 & R2 & R3 & R4 & R5). unfold sock_wf. simpl.
    refine (conj R1 (conj R2 (conj _ (conj (or_intror _) _)))); [unfold zlen; simpl|..]; sflia. }
  unfold kmalloc. set (a := kmalloc_ok _ _). set (b := kmalloc_ok _ _).
  destruct (negb a || negb b); [apply free_slot_wf; by apply net_wf_same with n2|].
  set (n3 := set_sock fd _ _).
  assert (Hc : net_wf n3).
  { apply set_sock_wf; [|by apply net_wf_same with n2]. intros s (R1 & R2 & R3 & R4 & R5).
    refine (conj _ (conj _ (conj R3 (conj R4 R5)))); apply new_ring_wf; sflia. }
  clearbody n3. destruct (vfs_register_socket _ _) as [r f].
  destruct (r <? 0); simpl; [apply free_slot_wf|]; by apply net_wf_same with n3.
Qed.

Lemma net_bind_wf fd a n : net_wf n -> net_wf (net_bind fd a n).2.
Proof.
  intros H. unfold net_bind. destruct (net_get_socket fd n) as [i|]; [|done]. destruct a as [a|]; [|done].
  destruct (_ =? AF_UNIX); [by apply env_bind|]. destruct (negb _); [done|].
  set (busy := if negb _ then _ else false). destruct busy; [done|].
  set (p := if _ =? 0 then _ else _).
  assert (H1 : net_wf p.2) by (unfold p; destruct (_ =? 0); [by apply alloc_port_wf|done]).
  destruct p as [port n1]. apply set_sock_wf; [keep|exact H1].
Qed.

Lemma net_listen_wf fd b n : net_wf n -> net_wf (net_listen fd b n).2.
Proof.
  intros H. unfold net_listen. destruct (net_get_socket fd n) as [i|]; [|done].
  destruct (_ =? AF_UNIX); [by apply env_listen|]. destruct (negb _); [done|]. destruct (_ =? 0); [done|].
  apply set_sock_wf; [|done]. intros s (R1 & R2 & R3 & R4 & R5). unfold sock_wf. simpl.
  refine (conj R1 (conj R2 (conj _ (conj R4 _)))); [unfold zlen; simpl|]; sflia.
Qed.

Lemma net_accept_wf fd n : net_wf n -> net_wf (net_accept fd n).2.
Proof.
  intros H. unfold net_accept. destruct (net_get_socket fd n) as [i|]; [|done].
  destruct (_ =? AF_UNIX); [by apply env_accept|]. destruct (negb _); [done|]. destruct (negb _); [done|].
  destruct (find_index _ _) as [k|]; [|done]. apply set_sock_wf; [keep|]. apply set_sock_wf; [|done].
  intros s (R1 & R2 & R3 & R4 & R5). refine (conj R1 (conj R2 (conj _ (conj R4 R5)))).
  simpl. unfold zlen in *. rewrite length_app, length_take, length_drop. lia.
Qed.

Lemma autobind_wf i n : net_wf n -> net_wf (autobind i n).
Proof.
  intros H. unfold autobind. destruct (_ =? 0); [|done]. pose proof (alloc_port_wf n H) as H1.
  destruct (net_alloc_port n) as [p n1]. apply set_sock_wf; [keep|exact H1].
Qed.

Lemma net_connect_wf fd a n : net_wf n -> net_wf (net_connect hal_io_wait polls depth fd a n).2.
Proof.
  intros H. unfold net_connect. destruct (net_get_socket fd n) as [i|]; [|done].
  destruct (_ =? AF_UNIX); [by apply env_connect|]. destruct (negb _); [done|]. destruct a as [a|]; [|done].
  destruct (negb _); [done|]. pose proof (autobind_wf i n H) as H1. set (n1 := autobind i n) in *. clearbody n1.
  apply tcp_send_wf. apply set_sock_wf; [|done]. intros s (R1 & R2 & R3 & R4 & R5). unfold sock_wf. simpl.
  refine (conj R1 (conj R2 (conj R3 (conj (or_intror _) _)))); sflia.
Qed.

Lemma send_chunks_wf fuel i : forall data w t n, net_wf n ->
  net_wf (send_chunks hal_io_wait polls depth fuel i data w t n).2.
Proof.
  induction fuel as [|fuel IH]; intros data w t n H; cbn [send_chunks]; [done|].
  destruct (_ && _); [|done]. apply IH. by apply tcp_send_wf.
Qed.

Lemma net_send_wf fd data n : net_wf n -> net_wf (net_send hal_io_wait polls depth fd data n).2.
Proof.
  intros H. unfold net_send. destruct (net_get_socket fd n) as [i|]; [|done].
  destruct (_ =? AF_UNIX); [by apply env_send|]. destruct (negb _); [done|]. destruct (_ && _); [done|].
  destruct (_ =? 0); [done|].
  pose proof (send_chunks_wf (length data) i data (send_window_of (sock n i)) 0 n H) as H1.
  destruct (send_chunks _ _ _ _ _ _ _ _ _) as [[rest total] n1]. simpl in H1.
  pose proof (sock_of_wf n1 i H1) as (_ & R2 & _).
  pose proof (ring_write_wf rest (zlen rest) (tx (sock n1 i)) (zlen_nonneg _) R2) as Hr.
  destruct (ring_write _ _ _) as [q t]. apply set_sock_wf; [|done].
  intros s (Q1 & Q2 & Q3 & Q4 & Q5). exact (conj Q1 (conj Hr (conj Q3 (conj Q4 Q5)))).
Qed.

Lemma net_recv_wf fd len n : 0 <= len -> net_wf n -> net_wf (net_recv fd len n).2.
Proof.
  intros Hl H. unfold net_recv. destruct (net_get_socket fd n) as [i|]; [|done].
  destruct (_ =? AF_UNIX); [by apply env_recv|]. destruct (negb _); [done|].
  destruct (_ && _); [destruct (_ || _); done|]. destruct (_ =? 0); [done|]. by apply rx_read_wf.
Qed.

Lemma net_sendto_wf fd data a n : net_wf n -> net_wf (net_sendto hal_io_wait polls depth fd data a n).2.
Proof.
  intros H. unfold net_sendto. destruct (net_get_socket fd n) as [i|]; [|done]. destruct a as [a|]; [|done].
  destruct (negb _); [done|]. destruct (_ =? _); [by apply net_send_wf|].
  pose proof (autobind_wf i n H) as H1. set (n1 := autobind i n) in *. clearbody n1. by apply send_eth_wf.
Qed.

Lemma net_recvfrom_wf fd len n : 0 <= len -> net_wf n -> net_wf (net_recvfrom fd len n).2.
Proof.
  intros Hl H. unfold net_recvfrom. destruct (net_get_socket fd n) as [i|]; [|done]. destruct (_ =? SOCK_STREAM).
  { pose proof (net_recv_wf fd len n Hl H) as H1. destruct (net_recv fd len n) as [[r out] n1]. exact H1. }
  destruct (_ <? 6); [done|].
  pose proof (rx_read_wf i 6 n ltac:(lia) H) as H1. destruct (net_rx_buffer_read i 6 n) as [[r meta] n1]. simpl in H1.
  destruct (Z.ltb_spec len (count (rx (sock n1 i)))) as [|].
  - pose proof (rx_read_wf i len n1 Hl H1) as H2. destruct (net_rx_buffer_read i _ n1) as [[r2 o2] n2]. exact H2.
  - destruct (decide (0 <= count (rx (sock n1 i)))) as [Hc|Hc]; [|lia || idtac].
    + pose proof (rx_read_wf i _ n1 Hc H1) as H2. destruct (net_rx_buffer_read i _ n1) as [[r2 o2] n2]. exact H2.
    + unfold net_rx_buffer_read, ring_read. destruct (sock_of_wf n1 i H1) as (R1 & _). unfold ring_wf in R1.
      destruct (buf (rx (sock n1 i))) eqn:E; [pose proof (ok_count _ _ R1); lia|].
      apply set_sock_wf_at; [|done]. exact (sock_of_wf n1 i H1).
Qed.

Lemma half_close_wf i n : net_wf n -> net_wf (tcp_half_close hal_io_wait polls depth i n).
Proof.
  intros H. unfold tcp_half_close.
  destruct (_ =? _); [apply set_state_wf; [sflia|by apply tcp_send_wf]|].
  destruct (_ =? _); [apply set_state_wf; [sflia|by apply tcp_send_wf]|done].
Qed.

Lemma net_shutdown_wf fd how n : net_wf n -> net_wf (net_shutdown hal_io_wait polls depth fd how n).2.
Proof.
  intros H. unfold net_shutdown. destruct (net_get_socket fd n) as [i|]; [|done]. destruct (negb _); [done|].
  simpl. destruct (_ || _); [by apply half_close_wf|done].
Qed.

Lemma net_close_wf fd n : net_wf n -> net_wf (net_close hal_io_wait polls depth fd n).2.
Proof.
  intros H. unfold net_close. destruct (net_get_socket fd n) as [i|]; [|done].
  destruct (_ =? AF_UNIX); [by apply env_close|]. set (n1 := if _ =? SOCK_STREAM then _ else n).
  assert (H1 : net_wf n1) by (unfold n1; destruct (_ =? _); [by apply half_close_wf|done]). clearbody n1.
  simpl. destruct (_ <=? _); [by apply free_slot_wf|done].
Qed.

Lemma net_init_wf n : net_wf (net_init rtl8139_get_mac n).
Proof.
  assert (H0 : forall m : net, sockets m = replicate NET_MAX_SOCKETS zero_socket ->
    socket_used m = replicate NET_MAX_SOCKETS false -> net_wf m).
  { intros m E1 E2. constructor; rewrite ?E1, ?E2, ?length_replicate; [done..|]. apply Forall_replicate, zero_socket_wf. }
  unfold net_init. destruct rtl8139_get_mac; [destruct (_ && _)|]; by apply H0.
Qed.

(** The states the stack can reach after [net_init]. *)
Inductive net_reach (n0 : net) : net -> Prop :=
| ReachInit : net_reach n0 (net_init rtl8139_get_mac n0)
| ReachStep n n' : net_reach n0 n -> net_step n n' -> net_reach n0 n'.

Lemma net_step_wf n n' : net_step n n' -> net_wf n -> net_wf n'.
Proof.
  destruct 1; intros Hwf; first
    [ by apply net_wf_same with n | by apply arp_rx_wf | by apply rx_ipv4_wf; [apply send_eth_wf|] | by apply icmp_tick_wf
    | by apply tcp_tick_wf; [apply send_eth_wf|] | by apply icmp_send_echo_wf; [apply send_eth_wf|]
    | by apply net_socket_wf | by apply net_bind_wf | by apply net_listen_wf | by apply net_accept_wf
    | by apply net_connect_wf | by apply net_send_wf | by apply net_recv_wf | by apply net_sendto_wf
    | by apply net_recvfrom_wf | by apply net_shutdown_wf | by apply net_close_wf ].
Qed.

(** C32. In every state the stack reaches from [net_init] by any sequence of
    received frames, timer ticks and socket calls, with any nesting through
    the loopback, every socket's ring buffers have their positions inside
    their arrays and consistent with their counts, at most sixteen pending
    connections, a retransmission timeout of zero or between 200 ms and
    60 s, and a TCP state of [net.h]. *)
Theorem socket_table_safe n0 n i : net_reach n0 n -> sock_wf (sock n i).
Proof.
  intros Hr. apply sock_of_wf. induction Hr as [|n n' _ IH Hs]; [apply net_init_wf|]. by apply net_step_wf with n.
Qed.

End Invariant.

(** A machine without network card or local sockets. *)
Lemma quiet_env_ok : @env_ok quiet_os quiet_unix (fun n => n).
Proof. constructor; intros; assumption. Qed.

Lemma socket_table_safe_witness :
  sock_wf (sock (@net_socket quiet_os quiet_unix AF_INET SOCK_STREAM 0 (net_init None (demo_net []))).2 0).
Proof.
  apply (@socket_table_safe quiet_os quiet_unix None (fun n => n) 0 1 quiet_env_ok (demo_net [])).
  eapply ReachStep; [apply ReachInit|]. apply StepSocket.
Defined.
