(* ===== verification/NetTcp.v ===== *)
(** * TCP streams

    What a peer's byte stream becomes in the receive buffer of an
    established connection when the network loses, repeats and reorders
    segments, and what a reset for nobody does on the loopback. *)

From S2P Require Import Prelude Bytes NetBase NetStack NetRing NetChecksum NetPacket NetUdp.

Section Tcp.
Context `{K : Os}.

(** ** Operations that leave the receive side alone *)

(** The fields a connection is found by, and those of its receive side. *)
Definition same_conn (s s' : net_socket_t) : Prop :=
  sk_type s' = sk_type s /\ sk_state s' = sk_state s /\ sk_local_ip s' = sk_local_ip s /\
  sk_local_port s' = sk_local_port s /\ sk_remote_ip s' = sk_remote_ip s /\ sk_remote_port s' = sk_remote_port s.

Definition same_rx (s s' : net_socket_t) : Prop := same_conn s s' /\ rx s' = rx s /\ remote_seq s' = remote_seq s.

(** Same slots, and related sockets in every slot. *)
Definition net_rel (R : net_socket_t -> net_socket_t -> Prop) (n n' : net) : Prop :=
  socket_used n' = socket_used n /\ length (sockets n') = length (sockets n) /\ forall j, R (sock n j) (sock n' j).

#[export] Instance same_conn_preorder : PreOrder same_conn.
Proof.
  split; [intros s; repeat split|]. intros s1 s2 s3 (?&?&?&?&?&?) (?&?&?&?&?&?). repeat split; congruence.
Qed.

#[export] Instance same_rx_preorder : PreOrder same_rx.
Proof.
  split; [intros s; repeat split|]. intros s1 s2 s3 (C & ? & ?) (D & ? & ?).
  split; [by transitivity s2|]. split; congruence.
Qed.

#[export] Instance net_rel_preorder R : PreOrder R -> PreOrder (net_rel R).
Proof.
  intros HR. split; [by intros n|]. intros a b c (H1 & H2 & H3) (H4 & H5 & H6).
  split; [congruence|]. split; [congruence|]. intros j. by transitivity (sock b j).
Qed.

Lemma set_sock_rel R `{!Reflexive R} i f (n : net) : (forall s, R s (f s)) -> net_rel R n (set_sock i f n).
Proof.
  intros Hf. split; [done|]. split; [apply length_set_sock|]. intros j. destruct (decide (j = i)) as [->|Hj].
  - destruct (decide (i < length (sockets n))%nat); [by rewrite sock_set_same|].
    unfold sock. rewrite !list_lookup_total_alt, !lookup_ge_None_2 by (rewrite ?length_set_sock; lia). done.
  - by rewrite sock_set_other.
Qed.

(** Found by the same addresses. *)
Lemma find_tcp_rel R lip lport rip rport (n n' : net) : (forall s s', R s s' -> same_conn s s') -> net_rel R n n' ->
  net_find_tcp_socket lip lport rip rport n' = net_find_tcp_socket lip lport rip rport n.
Proof.
  intros HR (Hu & _ & Hs). apply find_index_ext. intros k.
  destruct (HR _ _ (Hs k)) as (-> & _ & -> & -> & -> & ->). unfold used. by rewrite Hu.
Qed.

Section Card.
Context (send_eth : list Z -> Z -> net -> net).
(** Transmission through the card does not touch the sockets. *)
Hypothesis send_card : forall p d n, sockets (send_eth p d n) = sockets n /\ socket_used (send_eth p d n) = socket_used n.

Lemma send_rel p d (n : net) : net_rel same_rx n (send_eth p d n).
Proof.
  destruct (send_card p d n) as [E1 E2]. split; [done|]. split; [by rewrite E1|]. intros j. unfold sock. by rewrite E1.
Qed.

Lemma unacked_add_rel i seq data (n : net) : net_rel same_rx n (tcp_unacked_add i seq data n).
Proof.
  unfold tcp_unacked_add, kmalloc. destruct (kmalloc_ok _ _); simpl; [|by repeat split].
  destruct (kmalloc_ok _ _); simpl; [|by repeat split].
  match goal with |- net_rel _ _ (set_sock _ ?f ?m) => transitivity m; [by repeat split|] end.
  apply set_sock_rel; [apply _|]. intros s. by repeat split.
Qed.

Lemma tcp_send_rel i flags data (n : net) : net_rel same_rx n (net_tcp_send_packet send_eth i flags data n).
Proof.
  unfold net_tcp_send_packet. etransitivity; [|apply send_rel].
  set (n1 := if _ && _ then _ else n).
  transitivity n1.
  { unfold n1. destruct (_ && _); [|done]. etransitivity; [apply unacked_add_rel|].
    apply set_sock_rel; [apply _|]. intros s. by repeat split. }
  apply set_sock_rel; [apply _|]. intros s. destruct (unacked_list s); [|destruct (retransmit_timer s =? 0)];
    destruct (has flags TCP_FLAG_SYN), (has flags TCP_FLAG_FIN); by repeat split.
Qed.

Lemma tcp_update_rtt_rel t s : same_rx s (tcp_update_rtt t s).
Proof. unfold tcp_update_rtt. destruct (srtt s =? 0); by repeat split. Qed.

Lemma tcp_new_ack_rel ack t s : same_rx s (tcp_new_ack ack t s).
Proof.
  unfold tcp_new_ack. set (s1 := match unacked_list s with seg :: _ => _ | [] => s end).
  assert (H1 : same_rx s s1)
    by (unfold s1; destruct (unacked_list s); [done|]; destruct (_ <=? _); [apply tcp_update_rtt_rel|done]).
  clearbody s1. set (s2 := tcp_recalc_in_flight _). assert (H2 : same_rx s s2) by exact H1. clearbody s2.
  set (acked := u32 _). clearbody acked.
  set (s3 := if congestion_state s2 =? TCP_CC_SLOW_START then _ else _).
  assert (H3 : same_rx s s3) by (unfold s3; repeat case_match; exact H2). clearbody s3.
  destruct (unacked_list _); exact H3.
Qed.

Lemma tcp_dup_ack_rel i (n : net) : net_rel same_rx n (tcp_dup_ack send_eth i n).
Proof.
  unfold tcp_dup_ack. set (n1 := set_sock i _ n).
  transitivity n1; [apply set_sock_rel; [apply _|by repeat split]|]. clearbody n1.
  destruct (_ =? _); [apply set_sock_rel; [apply _|by repeat split]|]. destruct (_ <=? _); [|done].
  set (n2 := set_sock i _ n1). transitivity n2; [apply set_sock_rel; [apply _|by repeat split]|]. clearbody n2.
  destruct (unacked_list _); [done|].
  match goal with |- net_rel _ _ (set_sock _ ?f (net_tcp_send_packet _ _ _ _ ?m)) => transitivity m end;
    [apply set_sock_rel; [apply _|by repeat split]|].
  etransitivity; [apply tcp_send_rel|]. apply set_sock_rel; [apply _|by repeat split].
Qed.

(** The acknowledgement part of a segment. *)
Lemma ack_part_rel i flags ack (n : net) : net_rel same_rx n
  (if has flags TCP_FLAG_ACK then
     if ack_is_new ack (sock n i) then set_sock i (tcp_new_ack ack (now n)) n
     else if ack =? last_ack_sent (sock n i) then tcp_dup_ack send_eth i n else n
   else n).
Proof.
  destruct (has flags TCP_FLAG_ACK); [|done].
  destruct (ack_is_new _ _); [apply set_sock_rel; [apply _|intros; apply tcp_new_ack_rel]|].
  destruct (_ =? _); [apply tcp_dup_ack_rel|done].
Qed.

(** A segment with data and neither RST nor FIN on an established
    connection: accepted when it starts at the expected number. *)
Lemma established_segment i b flags seq ack data (n : net) :
  (i < length (sockets n))%nat -> ring_ok (rx (sock n i)) b ->
  has flags TCP_FLAG_RST = false -> has flags TCP_FLAG_FIN = false ->
  zlen data <= rsize (rx (sock n i)) - count (rx (sock n i)) ->
  let n' := tcp_rx_established send_eth i flags seq ack data (zlen data) n in
  net_rel same_conn n n' /\
  if (0 <? zlen data) && (seq =? remote_seq (sock n i)) then
    remote_seq (sock n' i) = u32 (seq + zlen data) /\
    contents (rx (sock n' i)) = contents (rx (sock n i)) ++ data /\
    exists b', ring_ok (rx (sock n' i)) b'
  else same_rx (sock n i) (sock n' i).
Proof.
  intros Hi Hok Hrst Hfin Hroom n'. unfold n', tcp_rx_established. rewrite Hrst, Hfin.
  pose proof (ack_part_rel i flags ack n) as Ha. set (n1 := if has flags TCP_FLAG_ACK then _ else n) in *.
  clearbody n1. destruct Ha as (Hu & Hl & Hs).
  assert (Hconn : net_rel same_conn n n1) by (split; [done|]; split; [done|]; intros j; apply (Hs j)).
  destruct (Hs i) as (_ & Erx & Eseq). unfold tcp_rx_data. rewrite Eseq.
  destruct (0 <? zlen data) eqn:El; simpl; [|split; [done|apply Hs]].
  destruct (Z.eqb_spec seq (remote_seq (sock n i))) as [->|Hne]; simpl.
  - rewrite <-Erx in Hok, Hroom.
    destruct (rx_write_spec i b data (zlen data) n1 ltac:(lia) Hok (zlen_nonneg _)) as (r' & b' & -> & Hok' & Hsz & Hc).
    rewrite Z.min_l, source_bytes_exact in Hc by lia. unfold expect. rewrite set_sock_twice.
    set (n2 := set_sock i _ n1). destruct (tcp_send_rel i TCP_FLAG_ACK [] n2) as (Hu2 & Hl2 & Hs2).
    destruct (Hs2 i) as (_ & Erx2 & Eseq2). unfold tcp_send_ack.
    assert (E2 : sock n2 i = (sock n1 i) <| rx := r' |> <| ack_num := u32 (remote_seq (sock n i) + zlen data) |>
                   <| remote_seq := u32 (remote_seq (sock n i) + zlen data) |>)
      by (unfold n2; by rewrite sock_set_same by lia).
    rewrite Erx2, Eseq2, E2. simpl. rewrite Hc, Erx. split; [|by eauto].
    etransitivity; [exact Hconn|]. transitivity n2; [apply set_sock_rel; [apply _|by repeat split]|].
    split; [done|]. split; [done|]. intros j. apply (Hs2 j).
  - destruct (remote_seq (sock n i) <? seq); [|split; [done|apply Hs]].
    destruct (tcp_send_rel i TCP_FLAG_ACK [] n1) as (Hu2 & Hl2 & Hs2). split.
    + transitivity n1; [done|]. split; [done|]. split; [done|]. intros j. apply (Hs2 j).
    + transitivity (sock n1 i); [apply Hs|apply Hs2].
Qed.

End Card.

(** ** Segments as packets *)

Definition segment_packet (src sp dst dp id seq ack flags window ck : Z) (data : list Z) : list Z :=
  ipv4_header (40 + zlen data) id IP_PROTO_TCP (htonl src) (htonl dst) ++ tcp_segment sp dp seq ack flags window ck data.

Lemma zlen_tcp_segment sp dp seq ack flags window ck data : zlen (tcp_segment sp dp seq ack flags window ck data) = 20 + zlen data.
Proof. unfold tcp_segment. rewrite !zlen_app, !zlen_le_bytes. simpl. rewrite !zlen_cons, zlen_nil. lia. Qed.

(** The sender's fields are the receiver's. *)
Lemma rx_segment send_eth src sp dst dp id seq ack flags window ck data (n : net) :
  0 <= src < 2 ^ 32 -> 0 <= dst < 2 ^ 32 -> 0 <= sp < 65536 -> 0 <= dp < 65536 -> 0 <= seq < 2 ^ 32 -> 0 <= ack < 2 ^ 32 ->
  40 + zlen data < 65536 ->
  net_rx_ipv4 send_eth (segment_packet src sp dst dp id seq ack flags window ck data) n =
  match net_find_tcp_socket dst dp src sp n with
  | Some i => tcp_rx_matched send_eth i flags seq ack data (zlen data) n
  | None =>
      match net_find_listening_socket dp n with
      | None => tcp_send_rst send_eth dst dp src sp ack n
      | Some l => if has flags TCP_FLAG_SYN then tcp_rx_listen send_eth l dst dp src sp seq n else n
      end
  end.
Proof.
  intros Hsrc Hdst Hsp Hdp Hseq Hack Hlen. pose proof (zlen_nonneg data). unfold segment_packet.
  set (seg := tcp_segment sp dp seq ack flags window ck data).
  assert (Hz : zlen seg = 20 + zlen data) by apply zlen_tcp_segment.
  assert (E : 40 + zlen data = 20 + zlen seg) by lia. rewrite E, net_rx_ipv4_header by lia.
  change (IP_PROTO_TCP =? IP_PROTO_TCP) with true. cbv zeta iota. unfold net_tcp_rx. rewrite header_src, header_dst, Hz.
  destruct (Z.ltb_spec (20 + zlen data) 20); [lia|].
  change (get16 seg 2) with (le_val (le_bytes 2 (htons dp))). change (get16 seg 0) with (le_val (le_bytes 2 (htons sp))).
  change (get32 seg 4) with (le_val (le_bytes 4 (htonl seq))). change (get32 seg 8) with (le_val (le_bytes 4 (htonl ack))).
  change (at_ seg 13) with flags. change (u8 (Z.shiftr (at_ seg 12) 4 * 4)) with 20.
  change (drop (Z.to_nat 20) seg) with data.
  rewrite !ntohs_field, !ntohl_field by lia. replace (20 + zlen data - 20) with (zlen data) by lia.
  by rewrite u64_small by lia.
Qed.

(** ** The receiver's stream *)

Section Stream.
Context (send_eth : list Z -> Z -> net -> net).
Hypothesis send_card : forall p d n, sockets (send_eth p d n) = sockets n /\ socket_used (send_eth p d n) = socket_used n.
(** The peer's bytes, the number of the first, and the connection. *)
Context (stream : list Z) (isn : Z) (i : nat) (lip lport rip rport : Z).

(** Bytes [off .. off + len) of the stream, as the peer sends them. *)
Definition stream_packet (off len : nat) (id ack flags window ck : Z) : list Z :=
  segment_packet rip rport lip lport id (u32 (isn + Z.of_nat off)) ack flags window ck (take len (drop off stream)).

(** What may happen: any segment of the stream arrives, in any order and any
    number of times, within the advertised window; or the application reads.
    [out] is everything read so far. *)
Inductive rx_trace (n0 : net) : list Z -> net -> Prop :=
| TraceStart : rx_trace n0 [] n0
| TraceSegment out n off len id ack flags window ck :
    rx_trace n0 out n -> (off + len <= length stream)%nat -> Z.of_nat len < 65496 -> 0 <= ack < 2 ^ 32 ->
    has flags TCP_FLAG_RST = false -> has flags TCP_FLAG_FIN = false ->
    Z.of_nat len <= tcp_advertised_window (sock n i) ->
    rx_trace n0 out (net_rx_ipv4 send_eth (stream_packet off len id ack flags window ck) n)
| TraceRead out n len r bytes n' :
    rx_trace n0 out n -> 0 <= len -> net_rx_buffer_read i len n = (r, bytes, n') -> rx_trace n0 (out ++ bytes) n'.

(** The connection is established and the first [k] bytes have arrived. *)
Record rx_at (k : nat) (out : list Z) (n : net) : Prop := {
  at_slot : (i < length (sockets n))%nat;
  at_find : net_find_tcp_socket lip lport rip rport n = Some i;
  at_state : sk_state (sock n i) = TCP_ESTABLISHED;
  at_ring : exists b, ring_ok (rx (sock n i)) b;
  at_seq : remote_seq (sock n i) = u32 (isn + Z.of_nat k);
  at_len : (k <= length stream)%nat;
  at_bytes : out ++ contents (rx (sock n i)) = take k stream
}.

Context (Hstream : Z.of_nat (length stream) < 2 ^ 32)
  (Haddr : 0 <= lip < 2 ^ 32 /\ 0 <= rip < 2 ^ 32) (Hport : 0 <= lport < 65536 /\ 0 <= rport < 65536).

Lemma seq_inj (a b : nat) : (a <= length stream)%nat -> (b <= length stream)%nat ->
  u32 (isn + Z.of_nat a) = u32 (isn + Z.of_nat b) -> a = b.
Proof.
  unfold u32. intros Ha Hb He. destruct (decide (length stream = 0)%nat) as [|Hn]; [lia|].
  apply Nat2Z.inj. apply (wrap_inj isn (Z.of_nat a) (Z.of_nat b) (2 ^ 32)); [lia..|done].
Qed.

Lemma rx_at_segment k out n off len id ack flags window ck :
  rx_at k out n -> (off + len <= length stream)%nat -> Z.of_nat len < 65496 -> 0 <= ack < 2 ^ 32 ->
  has flags TCP_FLAG_RST = false -> has flags TCP_FLAG_FIN = false ->
  Z.of_nat len <= tcp_advertised_window (sock n i) ->
  rx_at (if decide (off = k) then k + len else k)%nat out
    (net_rx_ipv4 send_eth (stream_packet off len id ack flags window ck) n).
Proof.
  intros [Hi Hf Hst (b & Hok) Hseq Hk Hbytes] Hoff Hlen Hack Hrst Hfin Hwin.
  set (data := take len (drop off stream)).
  assert (Hz : zlen data = Z.of_nat len) by (unfold data, zlen; rewrite length_take, length_drop; lia).
  pose proof Hok as [Hb Hbl Hsz Hcnt Hrd Hwr]. unfold tcp_advertised_window in Hwin.
  rewrite u32_small in Hwin by lia.
  assert (Hroom : zlen data <= rsize (rx (sock n i)) - count (rx (sock n i))) by (destruct (Z.ltb_spec 65535 (rsize (rx (sock n i)) - count (rx (sock n i)))); lia).
  unfold stream_packet. fold data. rewrite rx_segment by (try apply u32_bounds; lia). rewrite Hf.
  unfold tcp_rx_matched. rewrite Hst. change (TCP_ESTABLISHED =? TCP_SYN_SENT) with false.
  change (TCP_ESTABLISHED =? TCP_SYN_RECEIVED) with false. change (TCP_ESTABLISHED =? TCP_ESTABLISHED) with true. cbv iota.
  pose proof (established_segment send_eth send_card i b flags (u32 (isn + Z.of_nat off)) ack data n Hi Hok Hrst Hfin Hroom)
    as [Hrel Hcase].
  set (n' := tcp_rx_established _ _ _ _ _ _ _ _) in *. clearbody n'.
  assert (Hf' : net_find_tcp_socket lip lport rip rport n' = Some i) by (by rewrite (find_tcp_rel same_conn _ _ _ _ n n')).
  destruct Hrel as (_ & Hl' & Hs'). destruct (Hs' i) as (_ & Est & _). rewrite Hseq in Hcase.
  destruct (decide (off = k)) as [->|Hne].
  - rewrite Z.eqb_refl in Hcase. destruct (Z.ltb_spec 0 (zlen data)) as [Hpos|Hz0]; simpl in Hcase.
    + destruct Hcase as (Hs & Hc & Hb'). constructor; try done; [lia|congruence| |].
      * rewrite Hs. unfold u32. rewrite Z.add_mod_idemp_l by lia. f_equal. lia.
      * rewrite Hc, app_assoc, Hbytes. unfold data. by rewrite take_take_drop.
    + destruct Hcase as (_ & Erx & Eseq). assert (len = 0)%nat as -> by lia. rewrite Nat.add_0_r.
      constructor; rewrite ?Erx, ?Eseq; try done; [lia|congruence|by eauto].
  - rewrite (proj2 (Z.eqb_neq _ _)) in Hcase.
    2:{ intros He. apply seq_inj in He; lia. }
    rewrite andb_false_r in Hcase. destruct Hcase as (_ & Erx & Eseq).
    constructor; rewrite ?Erx, ?Eseq; try done; [lia|congruence|by eauto].
Qed.

Lemma rx_at_read k out n len r bytes n' : rx_at k out n -> 0 <= len ->
  net_rx_buffer_read i len n = (r, bytes, n') -> rx_at k (out ++ bytes) n'.
Proof.
  intros [Hi Hf Hst (b & Hok) Hseq Hk Hbytes] Hlen Hr.
  destruct (rx_read_spec i b len n Hi Hok Hlen) as (r' & Hr' & Hok' & _ & Hc). rewrite Hr' in Hr. simplify_eq.
  assert (Hrel : net_rel same_conn n (set_sock i (fun s => s <| rx := r' |>) n))
    by (apply set_sock_rel; [apply _|by repeat split]).
  set (n' := set_sock i _ n) in *.
  assert (E : sock n' i = (sock n i) <| rx := r' |>) by (unfold n'; by rewrite sock_set_same).
  assert (Hf' : net_find_tcp_socket lip lport rip rport n' = Some i) by (by rewrite (find_tcp_rel same_conn _ _ _ _ n n')).
  destruct Hrel as (_ & Hl & _). clearbody n'.
  constructor; rewrite ?E; [lia|done|done|by exists b|done|done|].
  simpl. by rewrite Hc, <-app_assoc, take_drop.
Qed.


End Stream.
End Tcp.

(** ** Resets that answer resets *)

Section Storm.
Context `{K : Os} (hal_io_wait : net -> net) (polls : nat).

(** Nobody has this port: no connection and no listener. *)
Definition nobody (ip port rip rport : Z) (n : net) : Prop :=
  net_find_tcp_socket ip port rip rport n = None /\ net_find_listening_socket port n = None.

(** A segment between two ports of the loopback network that nobody has. *)
Definition orphan (n : net) (packet : list Z) (dst_ip : Z) : Prop :=
  exists src sp dst dp id seq ack flags window ck,
    packet = segment_packet src sp dst dp id seq ack flags window ck [] /\ dst_ip = htonl dst /\
    0 <= src < 2 ^ 32 /\ 0 <= dst < 2 ^ 32 /\ 0 <= sp < 65536 /\ 0 <= dp < 65536 /\ 0 <= seq < 2 ^ 32 /\ 0 <= ack < 2 ^ 32 /\
    Z.shiftr src 24 = 127 /\ Z.shiftr dst 24 = 127 /\ nobody dst dp src sp n /\ nobody src sp dst dp n.


End Storm.

(** ** Slot numbers used as descriptors *)

(** [net_tcp_rx] looks the slot number of a new child up as a descriptor: a
    SYN for the listener [l] reinitialises the unrelated socket [j] when the
    first free slot has the number of a descriptor of [j]. *)
Theorem syn_reinitialises_other_socket `{K : Os} send_eth (n : net) l j dip dp sip sp seq fd n1 :
  (forall p d n, sockets (send_eth p d n) = sockets n /\ socket_used (send_eth p d n) = socket_used n) ->
  zlen (pending_conns (sock n l)) < NET_TCP_BACKLOG -> net_alloc_socket_slot n = (Some fd, n1) ->
  vfs_get_socket (Z.of_nat fd) (files n) = Some j -> (j < length (sockets n))%nat -> (forall k s, kmalloc_ok k s = true) ->
  let n' := tcp_rx_listen send_eth l dip dp sip sp seq n in
  sk_state (sock n' j) = TCP_SYN_RECEIVED /\ sk_local_port (sock n' j) = dp /\ sk_remote_port (sock n' j) = sp.
Proof.
  intros Hcard Hroom Ha Hv Hj Hk n'. unfold n', tcp_rx_listen.
  destruct (Z.leb_spec NET_TCP_BACKLOG (zlen (pending_conns (sock n l)))); [lia|]. rewrite Ha.
  unfold net_alloc_socket_slot in Ha. destruct (find_index _ _) in Ha; simplify_eq.
  unfold net_get_socket. simpl. rewrite Hv. unfold kmalloc. rewrite !Hk. cbv zeta. change (negb true || negb true) with false.
  cbv iota. set (n2 := set_sock j _ (_ : net)).
  assert (E : sk_state (sock n2 j) = TCP_SYN_RECEIVED /\ sk_local_port (sock n2 j) = dp /\ sk_remote_port (sock n2 j) = sp).
  { unfold n2. rewrite sock_set_same by (simpl; by rewrite length_alter). simpl.
    match goal with |- context [sock ?m j] => change (sock m j) with (sock (set_sock j (child_socket (Z.of_nat fd) dip dp sip sp seq
      (u32 (net_get_tcp_initial_seq n + net_random n)) l) n) j) end.
    by rewrite sock_set_same. }
  clearbody n2. set (n3 := set_sock l _ n2).
  assert (Hrel : net_rel same_conn n2 n3) by (apply set_sock_rel; [apply _|by repeat split]). destruct Hrel as (_ & _ & H3).
  destruct (tcp_send_rel send_eth Hcard j (Z.lor TCP_FLAG_SYN TCP_FLAG_ACK) [] n3) as (_ & _ & H4).
  destruct (H4 j) as ((_ & -> & _ & -> & _ & ->) & _). by destruct (H3 j) as (_ & -> & _ & -> & _ & ->).
Qed.

(** ** Concrete runs *)

Definition demo_conn : net_socket_t :=
  zero_socket <| sk_domain := AF_INET |> <| sk_type := SOCK_STREAM |> <| sk_state := TCP_ESTABLISHED |>
    <| sk_local_ip := 10 |> <| sk_local_port := 80 |> <| sk_remote_ip := 20 |> <| sk_remote_port := 999 |>
    <| remote_seq := 4294967294 |> <| rx := demo_ring |>.


