(* ===== verification/Kernel.v ===== *)
(** * Kernel state

    The data of [kernel/kernel.h] and the file-scope variables of the kernel's
    translation units, gathered in one record.  Physical memory is a function
    from byte addresses to bytes; addresses fixed by the linker are the fields
    of [Layout]; the processor's ports and memory-mapped registers are the
    operations of [Hardware]. *)

From S2P Require Import Prelude Bytes CMem Abi.

(** [&p[i]] for a table of 64-bit entries. *)
Definition slot64 (p i : Z) : Z := p + 8 * i.

(** ** Linker-assigned addresses *)

Class Layout := {
  pool : Z; kernel_pd : Z; mmio_pd : Z; mmio_pt : Z; device_pt : Z;
  dma : Z; guard : Z; vtd_tables : Z; kernel_end : Z
}.

(** ** The processor and the devices behind it *)

Class Hardware (H : Type) := {
  inb : H -> Z -> Z * H; inw : H -> Z -> Z * H; inl : H -> Z -> Z * H;
  outb : H -> Z -> Z -> H; outw : H -> Z -> Z -> H; outl : H -> Z -> Z -> H;
  mmio_read8 : H -> Z -> Z * H; mmio_write8 : H -> Z -> Z -> H;
  reg_read32 : H -> Z -> Z * H; reg_read64 : H -> Z -> Z * H;
  reg_write32 : H -> Z -> Z -> H; reg_write64 : H -> Z -> Z -> H;
  fx_save : H -> list Z; fx_restore : list Z -> H -> H; cpuid_edx : H -> Z
}.

(** ** Tasks *)

Record Frame := MkFrame {
  r15 : Z; r14 : Z; r13 : Z; r12 : Z; r11 : Z; r10 : Z; r9 : Z; r8 : Z; rdi : Z; rsi : Z;
  rbp : Z; rbx : Z; rdx : Z; rcx : Z; rax : Z; vector : Z; error : Z; rip : Z; cs : Z;
  rflags : Z; rsp : Z; ss : Z
}.
#[export] Instance Frame_settable : Settable Frame := fun f =>
  MkFrame (r15 f) (r14 f) (r13 f) (r12 f) (r11 f) (r10 f) (r9 f) (r8 f) (rdi f) (rsi f)
    (rbp f) (rbx f) (rdx f) (rcx f) (rax f) (vector f) (error f) (rip f) (cs f)
    (rflags f) (rsp f) (ss f).

Definition zero_frame : Frame := MkFrame 0 0 0 0 0 0 0 0 0 0 0 0 0 0 0 0 0 0 0 0 0 0.

Inductive task_state := T_EMPTY | T_READY | T_BLOCKED | T_DEAD.
#[export] Instance task_state_eq_dec : EqDecision task_state.
Proof. solve_decision. Defined.

Record Cap := MkCap { c_endpoint : Z; c_epoch : Z; c_rights : Z; c_generation : Z }.
#[export] Instance Cap_settable : Settable Cap := fun c =>
  MkCap (c_endpoint c) (c_epoch c) (c_rights c) (c_generation c).
Definition zero_cap : Cap := MkCap 0 0 0 0.
#[export] Instance Cap_inhabited : Inhabited Cap := populate zero_cap.

(** The kernel stack is represented by the frame saved at its top. *)
Record Task := MkTask {
  pid : Z; t_state : task_state; wait_endpoint : Z; exit_status : Z;
  cr3 : Z; recv_buffer : Z; wait_deadline : Z; frame : Frame;
  t_device_io : Z; device_bdf : Z; device_fault : Z; device_modern : Z;
  t_priority : Z; cap_limit : Z; page_limit : Z; page_count : Z; t_ready_since : Z;
  caps : list Cap; fxstate : list Z
}.
#[export] Instance Task_settable : Settable Task := fun t =>
  MkTask (pid t) (t_state t) (wait_endpoint t) (exit_status t) (cr3 t) (recv_buffer t)
    (wait_deadline t) (frame t) (t_device_io t) (device_bdf t) (device_fault t)
    (device_modern t) (t_priority t) (cap_limit t) (page_limit t) (page_count t)
    (t_ready_since t) (caps t) (fxstate t).

Definition CAPS : nat := 32.
#[export] Hint Unfold CAPS : sf.

Definition zero_task : Task :=
  MkTask 0 T_EMPTY 0 0 0 0 0 zero_frame 0 0 0 0 0 0 0 0 0 (replicate CAPS zero_cap) (fill 0 512).
#[export] Instance Task_inhabited : Inhabited Task := populate zero_task.

Definition in_tstate (t : Task) (s : task_state) : bool := bool_decide (t_state t = s).

Definition task_caps_used (t : Task) : Z :=
  loop CAPS (fun i count => if truthy (c_endpoint (caps t !!! i)) then count + 1 else count) 0.

(** ** Endpoints *)

Record Endpoint := MkEndpoint {
  e_owner : Z; e_epoch : Z; e_head : Z; e_count : Z; e_queue : list SfMessage
}.
#[export] Instance Endpoint_settable : Settable Endpoint := fun e =>
  MkEndpoint (e_owner e) (e_epoch e) (e_head e) (e_count e) (e_queue e).
Definition zero_endpoint : Endpoint := MkEndpoint 0 0 0 0 (replicate 8 zero_message).
#[export] Instance Endpoint_inhabited : Inhabited Endpoint := populate zero_endpoint.

Definition ENDPOINTS : nat := 64.
Definition POOL_PAGES : nat := 4096.
#[export] Hint Unfold ENDPOINTS POOL_PAGES : sf.

(** ** DMA remapping *)

Record SfDmaStatus := MkDmaStatus {
  ds_size : Z; ds_mode : Z; ds_owner : Z; ds_faults : Z; ds_last_address : Z;
  ds_probe_address : Z; ds_source : Z; ds_reason : Z; ds_guard_intact : Z; ds_active_mapping : Z
}.
#[export] Instance SfDmaStatus_settable : Settable SfDmaStatus := fun d =>
  MkDmaStatus (ds_size d) (ds_mode d) (ds_owner d) (ds_faults d) (ds_last_address d)
    (ds_probe_address d) (ds_source d) (ds_reason d) (ds_guard_intact d) (ds_active_mapping d).
Definition zero_dma_status : SfDmaStatus := MkDmaStatus 0 0 0 0 0 0 0 0 0 0.

Record SfDmarInfo := MkDmarInfo { dm_base : Z; covered : list Z }.
#[export] Instance SfDmarInfo_settable : Settable SfDmarInfo := fun d =>
  MkDmarInfo (dm_base d) (covered d).
Definition zero_dmar : SfDmarInfo := MkDmarInfo 0 (fill 0 256).

Record Iommu := MkIommu {
  mode : Z; iotlb_offset : Z; fault_offset : Z; fault_records : Z; capability : Z;
  coherent : Z; topology : SfDmarInfo; active_bdf : Z; registers : Z
}.
#[export] Instance Iommu_settable : Settable Iommu := fun i =>
  MkIommu (mode i) (iotlb_offset i) (fault_offset i) (fault_records i) (capability i)
    (coherent i) (topology i) (active_bdf i) (registers i).
Definition zero_iommu : Iommu := MkIommu 0 0 0 0 0 0 zero_dmar UINT32_MAX 0.

(** ** The console ring *)

Record Console := MkConsole {
  input : list Z; input_head : Z; input_count : Z; input_overflow : Z
}.
#[export] Instance Console_settable : Settable Console := fun c =>
  MkConsole (input c) (input_head c) (input_count c) (input_overflow c).
Definition zero_console : Console := MkConsole (fill 0 256) 0 0 0.

(** ** All of it *)

Record Kernel (H : Type) := MkKernel {
  tasks : list Task; current : Z; ticks : Z; next_pid : Z;
  bundle_phys : Z; bundle_bytes : Z; boot_cr3 : Z; live_cr3 : Z;
  endpoints : list Endpoint; send_bytes : Z; receive_bytes : Z;
  owner : list Z; memory : mem; mmio_ready : Z; boot_mmio_pd : Z;
  device_owner : Z; quarantined : Z; dma_status : SfDmaStatus; iommu : Iommu;
  console : Console; hw : H; seriallog : list (list Z)
}.
Arguments MkKernel {H}.
Arguments tasks {H}. Arguments current {H}. Arguments ticks {H}. Arguments next_pid {H}.
Arguments bundle_phys {H}. Arguments bundle_bytes {H}. Arguments boot_cr3 {H}. Arguments live_cr3 {H}.
Arguments endpoints {H}. Arguments send_bytes {H}. Arguments receive_bytes {H}.
Arguments owner {H}. Arguments memory {H}. Arguments mmio_ready {H}. Arguments boot_mmio_pd {H}.
Arguments device_owner {H}. Arguments quarantined {H}. Arguments dma_status {H}. Arguments iommu {H}.
Arguments console {H}. Arguments hw {H}. Arguments seriallog {H}.

#[export] Instance Kernel_settable H : Settable (Kernel H) := fun k =>
  MkKernel (tasks k) (current k) (ticks k) (next_pid k) (bundle_phys k) (bundle_bytes k)
    (boot_cr3 k) (live_cr3 k) (endpoints k) (send_bytes k) (receive_bytes k) (owner k)
    (memory k) (mmio_ready k) (boot_mmio_pd k) (device_owner k) (quarantined k)
    (dma_status k) (iommu k) (console k) (hw k) (seriallog k).

(** The [.bss] and [.data] values before [kernel_main]. *)
Definition boot_kernel {H} (m : mem) (h : H) : Kernel H :=
  MkKernel (replicate SF_MAX_TASKS zero_task) (-1) 0 1 0 0 0 0
    (replicate ENDPOINTS zero_endpoint) 0 0 (replicate POOL_PAGES 0) m 0 0 0 0
    zero_dma_status zero_iommu zero_console h [].

Definition task {H} (k : Kernel H) (i : nat) : Task := tasks k !!! i.
Definition set_task {H} (i : nat) (f : Task -> Task) (k : Kernel H) : Kernel H :=
  k <| tasks ::= alter f i |>.

(** [panic] stops the machine. *)
Inductive outcome (A : Type) := Ret (a : A) | Panic.
Arguments Ret {A} _.
Arguments Panic {A}.

Definition obind {A B} (o : outcome A) (f : A -> outcome B) : outcome B :=
  match o with Ret a => f a | Panic => Panic end.

Notation "'let*' p := e 'in' f" := (obind e (fun p => f))
  (at level 10, p strict pattern, e at level 100, f at level 200) : sf_scope.

(** [serial]: the text leaves through the UART; the model keeps it as a log. *)
Definition serial {H} (s : list Z) (k : Kernel H) : Kernel H :=
  k <| seriallog ::= fun l => s :: l |>.
