(* ===== verification/Memory.v ===== *)
(** * Kernel memory

    [kernel/memory.c]: the page pool with its owners and quotas, the
    three-level page tables of a task, the user-range check and the copies
    between kernel and user memory. *)

From S2P Require Import Prelude Bytes CMem Abi Kernel.

Definition NX : Z := 2 ^ 63.
Definition PTE_MMIO : Z := 2 ^ 9.
Definition ADDRESS_MASK : Z := 0x000ffffffffff000.
Definition USER_END : Z := 0x80000000.
#[export] Hint Unfold NX PTE_MMIO ADDRESS_MASK USER_END : sf.

(** [x & ~m] on 64-bit operands. *)
Definition clear_bits (x m : Z) : Z := Z.ldiff x m.

Section Memory.
Context {H : Type} `{L : Layout}.

Definition pool_page (i : nat) : Z := pool + 4096 * Z.of_nat i.

Definition memset_page (a v : Z) (m : mem) : mem := mwrite m a (fill v 4096).

(** ** Pages and quotas *)

Definition page_owner (k : Kernel H) (p : Z) : option nat :=
  if (p =? 0) || (INT32_MAX <? p) then None
  else find_index (fun i => (pid (task k i) =? p) &&
         (in_tstate (task k i) T_EMPTY || in_tstate (task k i) T_READY || in_tstate (task k i) T_BLOCKED))
         SF_MAX_TASKS.

(** The address of the page, or 0. *)
Definition page_alloc (p : Z) (k : Kernel H) : Z * Kernel H :=
  match page_owner k p with
  | None => (0, k)
  | Some ti =>
      if page_limit (task k ti) <=? page_count (task k ti) then (0, k)
      else match find_index (fun i => negb (truthy (nth i (owner k) 0))) POOL_PAGES with
           | None => (0, k)
           | Some i =>
               (pool_page i,
                (set_task ti (fun t => t <| page_count ::= fun n => u32 (n + 1) |>) k)
                  <| owner ::= fun o => <[i:=p]> o |>
                  <| memory ::= memset_page (pool_page i) 0 |>)
           end
  end.

Definition pages_free (p : Z) (k : Kernel H) : Kernel H :=
  if (p =? 0) || (INT32_MAX <? p) then k
  else
    let k := loop POOL_PAGES (fun i k =>
      if nth i (owner k) 0 =? p
      then k <| memory ::= memset_page (pool_page i) 0 |> <| owner ::= fun o => <[i:=0]> o |>
      else k) k in
    loop SF_MAX_TASKS (fun i k =>
      if pid (task k i) =? p then set_task i (fun t => t <| page_count := 0 |>) k else k) k.

(** ** Page tables *)

Definition store (a v : Z) (k : Kernel H) : Kernel H := k <| memory ::= fun m => store64 m a v |>.

(** [kernel_pd[i]=i*0x200000ull|0x83]. *)
Definition init_kernel_pd (k : Kernel H) : Kernel H :=
  loop 512 (fun i k => store (slot64 kernel_pd (Z.of_nat i)) (Z.lor (Z.of_nat i * 0x200000) 0x83) k) k.

Definition space_new (p : Z) (k : Kernel H) : Z * Kernel H :=
  let k := if load64 (memory k) (slot64 kernel_pd 0) =? 0 then init_kernel_pd k else k in
  let '(p4, k) := page_alloc p k in
  let '(p3, k) := page_alloc p k in
  if (p4 =? 0) || (p3 =? 0) then (0, k)
  else
    let k := store (slot64 p4 0) (Z.lor p3 7) k in
    let k := store (slot64 p3 0) (Z.lor kernel_pd 3) k in
    let k := if truthy (mmio_ready k) then store (slot64 p3 3) (Z.lor mmio_pd 3) k else k in
    (p4, k).

(** The table behind entry [e], allocated for task [t] when absent. *)
Definition next_table (t : nat) (e : Z) (create : bool) (k : Kernel H) : option Z * Kernel H :=
  if truthy (Z.land (load64 (memory k) e) 1) then (Some (Z.land (load64 (memory k) e) ADDRESS_MASK), k)
  else if negb create then (None, k)
  else
    let '(p, k) := page_alloc (pid (task k t)) k in
    if p =? 0 then (None, k)
    else let k := store e (Z.lor p 7) k in
         (Some (Z.land (load64 (memory k) e) ADDRESS_MASK), k).

(** The address of the leaf entry of [v], or 0. *)
Definition pte (t : nat) (v : Z) (create : bool) (k : Kernel H) : Z * Kernel H :=
  if (v <? SF_BASE) || (USER_END <=? v) then (0, k)
  else
    let p4 := cr3 (task k t) in
    let p3 := Z.land (load64 (memory k) (slot64 p4 0)) ADDRESS_MASK in
    let a := Z.shiftr v 30 in
    let b := Z.land (Z.shiftr v 21) 511 in
    let c := Z.land (Z.shiftr v 12) 511 in
    match next_table t (slot64 p3 a) create k with
    | (None, k) => (0, k)
    | (Some p2, k) =>
        match next_table t (slot64 p2 b) create k with
        | (None, k) => (0, k)
        | (Some p1, k) => (slot64 p1 c, k)
        end
    end.

Definition leaf (physical flags : Z) : Z :=
  Z.lor (Z.lor (Z.lor physical 5) (if truthy (Z.land flags 2) then 2 else 0))
        (if truthy (Z.land flags 4) then 0 else NX).

Definition space_map (t : nat) (v physical flags : Z) (k : Kernel H) : Z * Kernel H :=
  if truthy (Z.land (Z.lor v physical) 4095) || negb (truthy (Z.land flags 1)) || (Z.land flags 6 =? 6)
  then (SF_DENIED, k)
  else
    let '(p, k) := pte t v true k in
    if p =? 0 then (SF_NO_SPACE, k)
    else if truthy (Z.land (load64 (memory k) p) 1) then (SF_INVALID, k)
    else (SF_OK, store p (leaf physical flags) k).

Definition space_map_mmio (t : nat) (v physical : Z) (k : Kernel H) : Z * Kernel H :=
  let '(r, k) := space_map t v physical 3 k in
  if truthy r then (r, k)
  else let p := (pte t v false k).1 in
       (r, store p (Z.lor (load64 (memory k) p) (Z.lor 0x18 PTE_MMIO)) k).

(** ** User ranges and copies *)

Definition page_ok (t : nat) (write : bool) (a : Z) (k : Kernel H) : bool :=
  let p := (pte t a false k).1 in
  let e := load64 (memory k) p in
  negb ((p =? 0) || negb (truthy (Z.land e 1)) || negb (truthy (Z.land e 4))
        || truthy (Z.land e PTE_MMIO) || (write && negb (truthy (Z.land e 2)))).

(** The unbounded page loop; the caller passes one unit of fuel per page. *)
Fixpoint range_loop (fuel : nat) (t : nat) (write : bool) (a e : Z) (k : Kernel H) : bool :=
  match fuel with
  | O => false
  | S fuel =>
      if negb (page_ok t write a k) then false
      else if a =? e then true
      else range_loop fuel t write (a + 4096) e k
  end.

Definition user_range (t : nat) (v n : Z) (write : bool) (k : Kernel H) : bool :=
  if (v <? SF_BASE) || (USER_END <=? v) || (USER_END - v <? n) then false
  else if n =? 0 then true
  else
    let a := clear_bits v 4095 in
    let e := clear_bits (v + n - 1) 4095 in
    range_loop (Z.to_nat ((e - a) / 4096 + 1)) t write a e k.

Definition user_phys (t : nat) (v : Z) (k : Kernel H) : Z :=
  let p := (pte t v false k).1 in
  let e := load64 (memory k) p in
  if negb (p =? 0) && truthy (Z.land e 1) then Z.land e ADDRESS_MASK + Z.land v 4095 else 0.

Definition chunk (v n : Z) : Z := Z.min (4096 - Z.land v 4095) n.

(** Each turn copies at least one byte, so [n] turns are enough. *)
Fixpoint copy_in_loop (fuel : nat) (t : nat) (src n : Z) (k : Kernel H) : list Z :=
  match fuel with
  | O => []
  | S fuel =>
      if n =? 0 then []
      else let c := chunk src n in
           mread (memory k) (user_phys t src k) c ++ copy_in_loop fuel t (src + c) (n - c) k
  end.

Definition copy_in (t : nat) (src n : Z) (k : Kernel H) : Z * list Z :=
  if user_range t src n false k then (0, copy_in_loop (Z.to_nat n) t src n k) else (SF_DENIED, []).

Fixpoint copy_out_loop (fuel : nat) (t : nat) (dst : Z) (bs : list Z) (k : Kernel H) : Kernel H :=
  match fuel with
  | O => k
  | S fuel =>
      let n := zlen bs in
      if n =? 0 then k
      else let c := chunk dst n in
           let p := user_phys t dst k in
           copy_out_loop fuel t (dst + c) (drop (Z.to_nat c) bs)
             (k <| memory ::= fun m => mwrite m p (take (Z.to_nat c) bs) |>)
  end.

Definition copy_out (t : nat) (dst : Z) (bs : list Z) (k : Kernel H) : Z * Kernel H :=
  if user_range t dst (zlen bs) true k then (0, copy_out_loop (length bs) t dst bs k)
  else (SF_DENIED, k).

(** ** Device windows *)

Definition space_mmio_init (address : Z) (k : Kernel H) : Z * Kernel H :=
  if negb (address =? 0xfed90000) then (SF_DENIED, k)
  else
    let p4 := live_cr3 k in
    let p3 := Z.land (load64 (memory k) (slot64 p4 0)) ADDRESS_MASK in
    let e3 := load64 (memory k) (slot64 p3 3) in
    let p2 := Z.land e3 ADDRESS_MASK in
    let i2 := Z.land (Z.shiftr address 21) 511 in
    if negb (truthy (Z.land e3 1)) || negb (truthy (Z.land (load64 (memory k) (slot64 p2 i2)) 128))
    then (SF_BAD_FORMAT, k)
    else
      let k := store (slot64 p2 i2) (Z.lor (Z.lor (clear_bits address 0x1fffff) 0x9b) NX) k in
      let k := store (slot64 mmio_pd i2) (Z.lor mmio_pt 3) k in
      let k := store (slot64 mmio_pt (Z.land (Z.shiftr address 12) 511)) (Z.lor (Z.lor address 0x1b) NX) k in
      (0, k <| boot_mmio_pd := p2 |> <| mmio_ready := 1 |>).

Definition space_device_mmio (physical : Z) (k : Kernel H) : Z * Kernel H :=
  if negb (truthy (mmio_ready k)) || truthy (Z.land physical 4095) || (0x1000000000000 <=? physical)
  then (SF_DENIED, k)
  else
    let k := store (slot64 device_pt 0) (Z.lor (Z.lor physical 0x1b) NX) k in
    let k := store (slot64 mmio_pd 511) (Z.lor device_pt 3) k in
    let k := store (slot64 (boot_mmio_pd k) 511) (Z.lor device_pt 3) k in
    (0, k).

End Memory.
