(* ===== verification/Acpi.v ===== *)
(** * ACPI discovery and DMA-remapping tables

    [kernel/acpi.c], the bounded search for the DMAR table and its check, and
    [kernel/vtd_tables.c], the second-stage tables of the one device that may
    do DMA. *)

From stdpp Require Import strings.
From S2P Require Import Prelude Bytes CMem Abi Kernel.

(** The characters of a string literal. *)
Definition txt (s : string) : list Z := map (fun c => Z.of_nat (Ascii.nat_of_ascii c)) (String.list_ascii_of_string s).

Definition SF_VTD_MMIO : Z := 0xfed90000.
Definition SF_DMA_IOVA : Z := 0x01000000.
#[export] Hint Unfold SF_VTD_MMIO SF_DMA_IOVA : sf.

(** ** The DMAR table *)

Section Acpi.
(** [SfPhysRead]: firmware memory, where it may be read. *)
Variable read : Z -> Z -> option (list Z).

(** The 8-bit sum of [bytes] bytes, read in blocks of at most 256: one unit of
    fuel per block, and a block has at least one byte. *)
Fixpoint sum_blocks (fuel : nat) (address off bytes sum : Z) : option Z :=
  match fuel with
  | O => Some sum
  | S fuel =>
      if off <? bytes then
        let n := Z.min (bytes - off) 256 in
        match read (address + off) n with
        | None => None
        | Some block => sum_blocks fuel address (off + n) bytes (foldl (fun s b => u8 (s + b)) sum block)
        end
      else Some sum
  end.

Definition checksum (address bytes : Z) : bool :=
  if UINT64_MAX - bytes <? address then false
  else match sum_blocks (Z.to_nat bytes) address 0 bytes 0 with Some sum => sum =? 0 | None => false end.

(** The length of a good table with the signature. *)
Definition table (address : Z) (magic : list Z) : option Z :=
  match read address 36 with
  | None => None
  | Some h =>
      if negb (memeq h magic 4) then None
      else let bytes := get32 h 4 in
           if (36 <=? bytes) && (bytes <=? 4096) && checksum address bytes then Some bytes else None
  end.

(** The root table: address and entry size. *)
Definition find_root (rsdp : Z) : option (Z * Z) :=
  match read rsdp 20 with
  | None => None
  | Some r =>
      if negb (memeq r (txt "RSD PTR ") 8) || negb (checksum rsdp 20) then None
      else if 2 <=? at_ r 15 then
        match read rsdp 36 with
        | None => None
        | Some r =>
            if (get32 r 20 <? 36) || (4096 <? get32 r 20) || negb (checksum rsdp (get32 r 20)) then None
            else if truthy (get64 r 24) then Some (get64 r 24, 8) else Some (get32 r 16, 4)
        end
      else Some (get32 r 16, 4)
  end.

(** The entries of the root table from [off]: the DMAR address, 0 for none. *)
Fixpoint find_dmar (fuel : nat) (root stride off bytes dmar : Z) : option Z :=
  match fuel with
  | O => Some dmar
  | S fuel =>
      if off <? bytes then
        match read (root + off) stride with
        | None => None
        | Some e =>
            let address := if stride =? 8 then get64 e 0 else get32 e 0 in
            match read address 4 with
            | None => None
            | Some sig =>
                if memeq sig (txt "DMAR") 4 then
                  if truthy dmar then None else find_dmar fuel root stride (off + stride) bytes address
                else find_dmar fuel root stride (off + stride) bytes dmar
            end
        end
      else Some dmar
  end.

(** The device scopes of one unit, [n] bytes long at [base]. *)
Fixpoint scopes (fuel : nat) (base pos n : Z) (covered : list Z) : Z * list Z :=
  match fuel with
  | O => (0, covered)
  | S fuel =>
      if pos <? n then
        if n - pos <? 8 then (SF_BAD_FORMAT, covered)
        else match read (base + pos) 8 with
        | None => (SF_BAD_FORMAT, covered)
        | Some s =>
            let l := at_ s 1 in
            if (at_ s 0 =? 0) || (5 <? at_ s 0) || (l <? 8) || (n - pos <? l) || truthy (Z.land (l - 6) 1) ||
               truthy (at_ s 2) || truthy (at_ s 3) then (SF_BAD_FORMAT, covered)
            else if at_ s 0 =? 1 then
              if negb (l =? 8) || truthy (at_ s 5) || (31 <? at_ s 6) || (7 <? at_ s 7) then (SF_DENIED, covered)
              else scopes fuel base (pos + l) n (<[Z.to_nat (at_ s 6 * 8 + at_ s 7):=1]> covered)
            else scopes fuel base (pos + l) n covered
        end
      else (0, covered)
  end.

(** The remapping structures from [off]: the number of units and what they
    cover. *)
Fixpoint structures (fuel : nat) (dmar off bytes units : Z) (covered : list Z) : Z * Z * list Z :=
  match fuel with
  | O => (0, units, covered)
  | S fuel =>
      if off <? bytes then
        match (if bytes - off <? 4 then None else read (dmar + off) 4) with
        | None => (SF_BAD_FORMAT, units, covered)
        | Some e =>
            let type := get16 e 0 in
            let n := get16 e 2 in
            if (n <? 4) || (bytes - off <? n) then (SF_BAD_FORMAT, units, covered)
            else match (if negb (type =? 0) || (n <? 16) then None else read (dmar + off) 16) with
            | None => (SF_DENIED, units, covered)
            | Some e =>
                if (1 <? at_ e 4) || truthy (at_ e 5) || truthy (get16 e 6) || negb (get64 e 8 =? SF_VTD_MMIO) then (SF_DENIED, units, covered)
                else if negb (units + 1 =? 1) then (SF_DENIED, units + 1, covered)
                else
                  let covered := if truthy (at_ e 4) then fill 1 256 else covered in
                  let '(r, covered) := scopes (Z.to_nat n) (dmar + off) 16 n covered in
                  if truthy r then (r, units + 1, covered) else structures fuel dmar (off + n) bytes (units + 1) covered
            end
        end
      else (0, units, covered)
  end.

Definition sf_acpi_dmar (rsdp : Z) : Z * SfDmarInfo :=
  let out := zero_dmar in
  if rsdp =? 0 then (SF_NOT_FOUND, out)
  else
    match find_root rsdp with
    | None => (SF_BAD_FORMAT, out)
    | Some (root, stride) =>
        match table root (if stride =? 8 then txt "XSDT" else txt "RSDT") with
        | None => (SF_BAD_FORMAT, out)
        | Some bytes =>
            if truthy ((bytes - 36) mod stride) then (SF_BAD_FORMAT, out)
            else match find_dmar (Z.to_nat bytes) root stride 36 bytes 0 with
            | None => (SF_BAD_FORMAT, out)
            | Some dmar =>
                if dmar =? 0 then (SF_NOT_FOUND, out)
                else match table dmar (txt "DMAR") with
                | None => (SF_BAD_FORMAT, out)
                | Some bytes =>
                    match (if bytes <? 48 then None else read dmar 48) with
                    | None => (SF_BAD_FORMAT, out)
                    | Some h =>
                        if (at_ h 36 <? 38) || (63 <? at_ h 36) || negb (zero (slice 38 10 h) 10) then (SF_BAD_FORMAT, out)
                        else
                          let '(r, units, covered) := structures (Z.to_nat bytes) dmar 48 bytes 0 (covered out) in
                          let out := out <| Kernel.covered := covered |> in
                          if truthy r then (r, out)
                          else if negb (units =? 1) then (SF_BAD_FORMAT, out)
                          else (0, out <| dm_base := SF_VTD_MMIO |>)
                    end
                end
            end
        end
    end.

End Acpi.

(** ** Second-stage tables *)

(** Offsets in [SfVtdTables]: five tables of 512 entries. *)
Definition VTD_CONTEXT : Z := 4096.
Definition VTD_LEVEL3 : Z := 8192.
Definition VTD_LEVEL2 : Z := 12288.
Definition VTD_LEVEL1 : Z := 16384.
Definition sizeof_SfVtdTables : Z := 20480.
#[export] Hint Unfold VTD_CONTEXT VTD_LEVEL3 VTD_LEVEL2 VTD_LEVEL1 sizeof_SfVtdTables : sf.

(** [sf_vtd_tables] on the tables at [t]; [address] is what they say of
    themselves. *)
Definition sf_vtd_tables (t address bdf physical : Z) (m : mem) : Z * mem :=
  if truthy (Z.land (Z.lor address physical) 4095) || (0x40000000 <=? address) || (0x40000000 - address <? sizeof_SfVtdTables) ||
     (0x40000000 <=? physical) || (0x40000000 - physical <? SF_DMA_BYTES) || (256 <=? bdf)
  then (SF_INVALID, m)
  else
    let m := mwrite m t (fill 0 sizeof_SfVtdTables) in
    let m := store64 m (slot64 t 0) (Z.lor (address + VTD_CONTEXT) 1) in
    let m := store64 m (slot64 (t + VTD_CONTEXT) (bdf * 2)) (Z.lor (address + VTD_LEVEL3) 1) in
    let m := store64 m (slot64 (t + VTD_CONTEXT) (bdf * 2 + 1)) 0x101 in
    let m := store64 m (slot64 (t + VTD_LEVEL3) 0) (Z.lor (address + VTD_LEVEL2) 3) in
    let m := store64 m (slot64 (t + VTD_LEVEL2) (Z.shiftr SF_DMA_IOVA 21)) (Z.lor (address + VTD_LEVEL1) 3) in
    (0, loop (Z.to_nat (SF_DMA_BYTES / 4096)) (fun i m =>
          store64 m (slot64 (t + VTD_LEVEL1) (Z.of_nat i)) (Z.lor (physical + Z.of_nat i * 4096) 3)) m).
