(* ===== verification/Iommu.v ===== *)
(** * DMA remapping

    [kernel/iommu.c]: bringing up the remapping unit, granting its one DMA
    window, revoking it and reading its fault records.  Memory barriers and
    cache flushes order accesses that the model already orders.  Log lines are
    kept without the numbers they print. *)

From stdpp Require Import strings.
From S2P Require Import Prelude Bytes CMem Abi Kernel Memory Acpi.

(** Polls of a register before a timeout. *)
Definition WAIT_TRIES : nat := Z.to_nat 1000000.

(** The fields of [SfBootInfo] and its memory map, which stays in memory. *)
Record SfBootSegment := MkBootSegment {
  bs_physical : Z; bs_rva : Z; bs_file_bytes : Z; bs_memory_bytes : Z; bs_flags : Z; bs_reserved : Z }.
#[export] Instance SfBootSegment_inhabited : Inhabited SfBootSegment := populate (MkBootSegment 0 0 0 0 0 0).

Record SfBootInfo := MkBootInfo {
  bi_address : Z; bi_magic : Z; bi_boot_type : Z;
  bi_memory_map : Z; bi_memory_map_size : Z; bi_memory_map_descriptor_size : Z; bi_memory_map_entry_count : Z;
  bi_acpi_rsdp : Z; bi_size : Z; bi_version : Z; bi_init_segment_count : Z;
  bi_init_entry : Z; bi_bundle : Z; bi_bundle_bytes : Z; bi_init_segments : list SfBootSegment }.

Definition sizeof_BootMemory : Z := 40.

(** Entry [i] of the map: start, pages, type. *)
Definition map_physical (m : mem) (map : Z) (i : nat) : Z := load64 m (map + sizeof_BootMemory * Z.of_nat i).
Definition map_pages (m : mem) (map : Z) (i : nat) : Z := load64 m (map + sizeof_BootMemory * Z.of_nat i + 16).
Definition map_type (m : mem) (map : Z) (i : nat) : Z := load32 m (map + sizeof_BootMemory * Z.of_nat i + 32).

(** Entry [i] is of a wanted type and contains the range. *)
Definition map_covers (m : mem) (map : Z) (types : Z -> bool) (start bytes : Z) (i : nat) : bool :=
  if UINT64_MAX / 4096 <? map_pages m map i then false
  else
    let n := map_pages m map i * 4096 in
    let p := map_physical m map i in
    types (map_type m map i) && (p <=? start) && (start - p <=? n) && (bytes <=? n - (start - p)).

Section Iommu.
Context {H : Type} `{L : Layout} `{HW : Hardware H}.
Implicit Types (k : Kernel H).

(** ** Registers *)

Definition r32 (off : Z) k : Z * Kernel H := let '(v, h) := reg_read32 (hw k) (registers (iommu k) + off) in (v, k <| hw := h |>).
Definition r64 (off : Z) k : Z * Kernel H := let '(v, h) := reg_read64 (hw k) (registers (iommu k) + off) in (v, k <| hw := h |>).
Definition w32 (off n : Z) k : Kernel H := k <| hw ::= fun h => reg_write32 h (registers (iommu k) + off) n |>.
Definition w64 (off n : Z) k : Kernel H := k <| hw ::= fun h => reg_write64 h (registers (iommu k) + off) n |>.

Definition set_mode (m : Z) k : Kernel H := k <| iommu ::= fun i => i <| mode := m |> |>.

Fixpoint poll (n : nat) (test : Kernel H -> bool * Kernel H) k : Z * Kernel H :=
  match n with
  | O => (SF_TIMEOUT, k)
  | S n => let '(ok, k) := test k in if ok : bool then (0, k) else poll n test k
  end.

Definition wait32 (off mask value : Z) k : Z * Kernel H :=
  poll WAIT_TRIES (fun k => let '(v, k) := r32 off k in (Z.land v mask =? value, k)) k.
Definition wait64 (off mask : Z) k : Z * Kernel H :=
  poll WAIT_TRIES (fun k => let '(v, k) := r64 off k in (negb (truthy (Z.land v mask)), k)) k.

Definition bit (n : Z) : Z := Z.shiftl 1 n.

Definition invalidate_fail k : Z * Kernel H := (SF_DEVICE_GONE, set_mode 2 k).

(** [invalidate]: the context cache, then the translation cache. *)
Definition iommu_invalidate k : Z * Kernel H :=
  let k := w64 0x28 (Z.lor (bit 63) (bit 61)) k in
  let '(r, k) := wait64 0x28 (bit 63) k in
  if truthy r then invalidate_fail k
  else
    let '(v, k) := r64 0x28 k in
    if negb (Z.land (Z.shiftr v 59) 3 =? 1) then invalidate_fail k
    else
      let c := capability (iommu k) in
      let flags := Z.lor (Z.lor (Z.lor (bit 63) (bit 60)) (if truthy (Z.land c (bit 54)) then bit 48 else 0))
                         (if truthy (Z.land c (bit 55)) then bit 49 else 0) in
      let off := iotlb_offset (iommu k) in
      let k := w64 off flags k in
      let '(r, k) := wait64 off (bit 63) k in
      if truthy r then invalidate_fail k
      else
        let '(v, k) := r64 off k in
        if negb (Z.land (Z.shiftr v 57) 3 =? 1) then invalidate_fail k else (0, k).

(** ** Bringing the unit up *)

Definition firmware_read (b : SfBootInfo) k (address bytes : Z) : option (list Z) :=
  if (address <? 4096) || (0x40000000 <=? address) || (0x40000000 - address <? bytes) then None
  else
    match find_index (map_covers (memory k) (bi_memory_map b) (fun t => (t =? 9) || (t =? 10)) address bytes)
            (Z.to_nat (bi_memory_map_entry_count b)) with
    | Some _ => Some (mread (memory k) address bytes)
    | None => None
    end.

(** What the capability registers must say. *)
Definition unsupported (c iotlb fault records : Z) : bool :=
  negb (truthy (Z.land c (bit 9))) || (Z.land (Z.shiftr c 16) 63 <? 38) || (iotlb <? 0x88) || (4088 <? iotlb) ||
  (fault <? 0x100) || (u32 (4096 - records * 16) <? fault) || (64 <? records).

(** Remapping, interrupt remapping or queued invalidation already on. *)
Definition busy_status (status : Z) : bool := truthy (Z.land status (Z.lor (Z.lor (bit 31) (bit 26)) (bit 25))).

(** With its registers mapped at [base]: check the capabilities and turn on
    translation with empty tables. *)
Definition unit_busy (c iotlb fault records : Z) k : bool * Kernel H :=
  if unsupported c iotlb fault records then (true, k) else let '(status, k) := r32 0x1c k in (busy_status status, k).

Definition start_unit (base : Z) k : Kernel H :=
  let k := k <| iommu ::= fun i => i <| registers := base |> |> in
  let '(c, k) := r64 8 k in
  let '(extended, k) := r64 16 k in
  let iotlb := Z.land (Z.shiftr extended 8) 1023 * 16 + 8 in
  let fault := Z.land (Z.shiftr c 24) 1023 * 16 in
  let records := Z.land (Z.shiftr c 40) 255 + 1 in
  let k := k <| iommu ::= fun i => i <| capability := c |> <| coherent := Z.land extended 1 |> <| iotlb_offset := iotlb |>
                                     <| fault_offset := fault |> <| fault_records := records |> |> in
  let '(bad, k) := unit_busy c iotlb fault records k in
  if bad : bool
  then let '(_, k) := r32 0x1c k in serial (txt "[IOMMU] unsupported capabilities; device grants disabled") k
  else
    let k := k <| memory ::= fun m => mwrite m vtd_tables (fill 0 sizeof_SfVtdTables) |> in
    let k := w32 0x38 (bit 31) k in
    let k := w64 0x20 vtd_tables k in
    let k := w32 0x18 (bit 30) k in
    let '(r, k) := wait32 0x1c (bit 30) (bit 30) k in
    let '(r, k) := if truthy r then (r, k) else iommu_invalidate k in
    if truthy r then serial (txt "[IOMMU] root/invalidation failed") k
    else
      let '(r, k) := if truthy (Z.land c (bit 4)) then wait32 0x1c (bit 27) 0 (w32 0x18 (bit 27) k) else (0, k) in
      if truthy r then k
      else
        let '(r, k) := wait32 0x1c (bit 31) (bit 31) (w32 0x18 (bit 31) k) in
        if truthy r then k else serial (txt "[IOMMU] VT-d active; default deny, 39-bit tables") (set_mode 1 k).

Definition iommu_init (b : SfBootInfo) k : Kernel H :=
  let '(r, top) := sf_acpi_dmar (firmware_read b k) (bi_acpi_rsdp b) in
  let k := k <| iommu ::= fun i => i <| topology := top |> |> in
  if r =? SF_NOT_FOUND then serial (txt "[IOMMU] absent; trusted DMA mode") k
  else
    let k := set_mode 2 k in
    let '(e, k) := if truthy r then (r, k) else space_mmio_init (dm_base top) k in
    if truthy e then serial (txt "[IOMMU] unsupported DMAR; device grants disabled") k else start_unit (dm_base top) k.

(** ** The window *)

Definition iommu_mode k : Z := mode (iommu k).
Definition iommu_active k : Z := b2z (negb (active_bdf (iommu k) =? UINT32_MAX)).

(** The status and the bus address. *)
Definition iommu_grant (bdf physical : Z) k : Z * Z * Kernel H :=
  if iommu_mode k =? 0 then (0, physical, k)
  else if negb (iommu_mode k =? 1) || negb (active_bdf (iommu k) =? UINT32_MAX) then (SF_DEVICE_GONE, 0, k)
  else if (256 <=? bdf) || negb (truthy (at_ (covered (topology (iommu k))) bdf)) then (SF_DENIED, 0, k)
  else
    let '(r, m) := sf_vtd_tables vtd_tables vtd_tables bdf physical (memory k) in
    let k := k <| memory := m |> in
    let '(r, k) := if truthy r then (r, k) else iommu_invalidate k in
    if truthy r then (SF_DEVICE_GONE, 0, k)
    else (0, SF_DMA_IOVA, k <| iommu ::= fun i => i <| active_bdf := bdf |> |>).

Definition iommu_revoke (bdf : Z) k : Z * Kernel H :=
  if iommu_mode k =? 0 then (0, k)
  else if negb (iommu_mode k =? 1) then (SF_DEVICE_GONE, k)
  else if active_bdf (iommu k) =? UINT32_MAX then (0, k)
  else if negb (active_bdf (iommu k) =? bdf) then (SF_DENIED, k)
  else
    let k := k <| memory ::= fun m => store64 m (slot64 (vtd_tables + VTD_CONTEXT) (bdf * 2)) 0 |> in
    let '(r, k) := iommu_invalidate k in
    if truthy r then (SF_DEVICE_GONE, k)
    else (0, k <| memory ::= fun m => mwrite m vtd_tables (fill 0 sizeof_SfVtdTables) |>
               <| iommu ::= fun i => i <| active_bdf := UINT32_MAX |> |>).

(** ** Faults *)

(** The records from [i]: source, reason and address of the first that is set. *)
Fixpoint fault_scan (n i : nat) k : option (Z * Z * Z) * Kernel H :=
  match n with
  | O => (None, k)
  | S n =>
      let off := fault_offset (iommu k) + Z.of_nat i * 16 in
      let '(high, k) := r64 (off + 8) k in
      if negb (truthy (Z.land high (bit 63))) then fault_scan n (S i) k
      else
        let '(low, k) := r64 off k in
        let k := w64 (off + 8) (bit 63) k in
        let k := w32 0x34 1 k in
        (Some (Z.land high 65535, Z.land (Z.shiftr high 32) 255, clear_bits low 4095), k)
  end.

Definition iommu_fault k : option (Z * Z * Z) * Kernel H :=
  if negb (iommu_mode k =? 1) then (None, k) else fault_scan (Z.to_nat (fault_records (iommu k))) 0 k.

End Iommu.
