(* ===== verification/Space.v ===== *)
(** * Address spaces

    The page tables that [Memory] builds in pool pages, seen as a finite map
    from pages to entries, and the invariant that separates tasks: tables and
    private pages belong to their task, no table is mapped, no mapping is both
    writable and executable, and quotas count pages exactly. *)

From S2P Require Import Prelude Bytes CMem Abi Kernel Memory.

(** Laws of the linker's layout that the kernel relies on: the pool is page
    aligned inside the identity-mapped first gigabyte, away from address 0 and
    from the kernel's other objects, and inside the kernel image. *)
Definition apart (a n b m : Z) : Prop := a + n <= b \/ b + m <= a.

Definition POOL_BYTES : Z := 4096 * 4096.
#[export] Hint Unfold POOL_BYTES : sf.

Class LayoutOk `{L : Layout} : Prop := {
  pool_aligned : pool mod 4096 = 0;
  pool_positive : 0 < pool;
  pool_end : pool + POOL_BYTES <= kernel_end <= 0x40000000;
  kernel_pd_aligned : kernel_pd mod 4096 = 0;
  mmio_pd_aligned : mmio_pd mod 4096 = 0;
  dma_aligned : dma mod 4096 = 0;
  kernel_pd_bounds : 0 <= kernel_pd < 0x40000000;
  mmio_pd_bounds : 0 <= mmio_pd < 0x40000000;
  kernel_pd_apart : apart kernel_pd 4096 pool POOL_BYTES;
  mmio_pd_apart : apart mmio_pd 4096 pool POOL_BYTES;
  mmio_pt_apart : apart mmio_pt 4096 pool POOL_BYTES;
  device_pt_apart : apart device_pt 4096 pool POOL_BYTES;
  dma_bounds : 0 < dma /\ dma + SF_DMA_BYTES <= 0x40000000;
  dma_apart : apart dma SF_DMA_BYTES pool POOL_BYTES;
  guard_apart : apart guard 4096 pool POOL_BYTES;
  vtd_positive : 0 <= vtd_tables;
  vtd_apart : apart vtd_tables 20480 pool POOL_BYTES
}.

(** ** Entries *)

Lemma truthy_bit e n : 0 <= n -> truthy (Z.land e (2 ^ n)) = Z.testbit e n.
Proof.
  intros Hn. destruct (Z.testbit e n) eqn:Hb.
  - apply truthy_true. intros Hz. apply (f_equal (fun x => Z.testbit x n)) in Hz.
    rewrite Z.land_spec, Hb, Z.pow2_bits_true, Z.bits_0 in Hz by done. done.
  - apply truthy_false. apply Z.bits_inj'. intros i Hi. rewrite Z.land_spec, Z.bits_0, Z.pow2_bits_eqb by done.
    destruct (Z.eqb_spec n i) as [->|]; [by rewrite Hb|apply andb_false_r].
Qed.

Definition present (e : Z) : bool := Z.testbit e 0.
Definition writable (e : Z) : bool := Z.testbit e 1.
Definition executable (e : Z) : bool := negb (Z.testbit e 63).
Definition frame_of (e : Z) : Z := Z.land e ADDRESS_MASK.

Lemma frame_of_div e : frame_of e = (e / 4096) mod 2 ^ 40 * 4096.
Proof.
  unfold frame_of, ADDRESS_MASK. change 0x000ffffffffff000 with (Z.shiftl (Z.ones 40) 12).
  rewrite <-(Z.land_ones (e / 4096)) by lia. change 4096 with (2 ^ 12). rewrite <-Z.shiftr_div_pow2 by lia.
  rewrite <-Z.shiftl_mul_pow2 by lia. apply Z.bits_inj'. intros i Hi.
  rewrite Z.land_spec, !Z.shiftl_spec by lia. rewrite Z.land_spec.
  destruct (Z.ltb_spec i 12).
  - rewrite !(Z.testbit_neg_r _ (i - 12)) by lia. by rewrite !andb_false_r.
  - rewrite Z.shiftr_spec by lia. by replace (i - 12 + 12) with i by lia.
Qed.

Lemma frame_of_page p : p mod 4096 = 0 -> 0 <= p < 2 ^ 52 -> frame_of p = p.
Proof.
  intros Hp Hr. rewrite frame_of_div, Z.mod_small; [|split; [apply Z.div_pos; lia|apply Z.div_lt_upper_bound; lia]].
  rewrite (Z.div_mod p 4096) at 2 by lia. lia.
Qed.

Lemma frame_of_aligned e : frame_of e mod 4096 = 0.
Proof. rewrite frame_of_div. apply Z.mod_mul. lia. Qed.

Lemma frame_of_lor a b : frame_of (Z.lor a b) = Z.lor (frame_of a) (frame_of b).
Proof. apply Z.land_lor_distr_l. Qed.

Lemma table_entry p : p mod 4096 = 0 -> 0 <= p < 2 ^ 52 ->
  present (Z.lor p 7) = true /\ frame_of (Z.lor p 7) = p /\ 0 <= Z.lor p 7 <= UINT64_MAX.
Proof.
  intros Hp Hr. split; [|split].
  - unfold present. rewrite Z.lor_spec. by rewrite orb_true_r.
  - rewrite frame_of_lor, (frame_of_page p) by done. apply Z.lor_0_r.
  - rewrite (lor_disjoint 12) by (done || lia). sflia.
Qed.

(** What [space_map] stores. *)
Lemma leaf_entry physical flags : physical mod 4096 = 0 -> 0 <= physical < 2 ^ 52 ->
  let e := leaf physical flags in
  present e = true /\ frame_of e = physical /\ 0 <= e <= UINT64_MAX /\
  writable e = Z.testbit flags 1 /\ executable e = Z.testbit flags 2 /\
  Z.testbit e 2 = true /\ Z.testbit e 9 = false.
Proof.
  intros Hp Hr. unfold leaf, present, writable, executable. cbv zeta.
  replace (truthy (Z.land flags 2)) with (Z.testbit flags 1) by (symmetry; apply (truthy_bit flags 1); lia).
  replace (truthy (Z.land flags 4)) with (Z.testbit flags 2) by (symmetry; apply (truthy_bit flags 2); lia).
  assert (HB : forall n, 0 <= n < 12 -> Z.testbit physical n = false)
    by (intros n Hn; apply (testbit_aligned 12); [lia|exact Hp|lia]).
  assert (HT : Z.testbit physical 63 = false) by (apply (testbit_above 52); lia).
  set (w := if Z.testbit flags 1 then 2 else 0). set (x := if Z.testbit flags 2 then 0 else NX).
  assert (Hf : frame_of 5 = 0 /\ frame_of w = 0 /\ frame_of x = 0)
    by (unfold w, x; destruct (Z.testbit flags 1), (Z.testbit flags 2); done).
  destruct Hf as (F5 & Fw & Fx).
  assert (Hw : Z.testbit w 1 = Z.testbit flags 1 /\ Z.testbit w 9 = false /\ Z.testbit w 63 = false /\ 0 <= w <= 2)
    by (unfold w; destruct (Z.testbit flags 1); repeat split; done || lia).
  assert (Hx : Z.testbit x 1 = false /\ Z.testbit x 9 = false /\ Z.testbit x 63 = negb (Z.testbit flags 2) /\ 0 <= x <= NX)
    by (unfold x; destruct (Z.testbit flags 2); repeat split; done || sflia).
  destruct Hw as (W1 & W9 & W63 & Wr), Hx as (X1 & X9 & X63 & Xr).
  rewrite !Z.lor_spec, (HB 0), (HB 1), (HB 2), (HB 9), HT, W1, W9, W63, X1, X9, X63 by lia.
  refine (conj _ (conj _ (conj _ (conj _ (conj _ (conj _ _)))))).
  - done.
  - rewrite !frame_of_lor, F5, Fw, Fx, frame_of_page, !Z.lor_0_r by done. done.
  - assert (E : Z.lor (Z.lor (Z.lor physical 5) w) x < 2 ^ 64); [|split; [|sflia]].
    + destruct (decide (Z.lor (Z.lor (Z.lor physical 5) w) x = 0)) as [->|]; [lia|].
      apply Z.log2_lt_cancel. rewrite !Z.log2_lor by (rewrite ?Z.lor_nonneg; lia).
      assert (Z.log2 physical <= 52) by (apply Z.log2_le_mono with (b := 2 ^ 52); lia).
      assert (Z.log2 w <= 1) by (apply Z.log2_le_mono with (b := 2); lia).
      assert (Z.log2 x <= 63) by (apply Z.log2_le_mono with (b := NX); lia).
      change (Z.log2 (2 ^ 64)) with 64. change (Z.log2 5) with 2. lia.
    + rewrite !Z.lor_nonneg. lia.
  - by destruct (Z.testbit flags 1).
  - change (Z.testbit 5 63) with false. cbn [orb]. apply negb_involutive.
  - change (Z.testbit 5 2) with true. done.
  - done.
Qed.

(** ** The processor's page walk

    Four levels with large pages; the result is the physical address and the
    entries on the way. *)

Definition level (va n : Z) : Z := Z.land (Z.shiftr va (12 + 9 * n)) 511.
Definition large (e : Z) : bool := Z.testbit e 7.
Definition in_page (e va bits : Z) : Z := clear_bits (frame_of e) (Z.ones bits) + va mod 2 ^ bits.

Definition walk (m : mem) (root va : Z) : option (Z * list Z) :=
  let e4 := load64 m (slot64 root (level va 3)) in
  if negb (present e4) then None
  else
    let e3 := load64 m (slot64 (frame_of e4) (level va 2)) in
    if negb (present e3) then None
    else if large e3 then Some (in_page e3 va 30, [e4; e3])
    else
      let e2 := load64 m (slot64 (frame_of e3) (level va 1)) in
      if negb (present e2) then None
      else if large e2 then Some (in_page e2 va 21, [e4; e3; e2])
      else
        let e1 := load64 m (slot64 (frame_of e2) (level va 0)) in
        if negb (present e1) then None else Some (in_page e1 va 12, [e4; e3; e2; e1]).

(** User mode may access [va], write to it, execute it. *)
Definition user_bit (e : Z) : bool := Z.testbit e 2.
Definition user_reads (m : mem) (root va a : Z) : Prop := exists es, walk m root va = Some (a, es) /\ forallb user_bit es = true.
Definition user_writes (m : mem) (root va a : Z) : Prop :=
  exists es, walk m root va = Some (a, es) /\ forallb user_bit es = true /\ forallb writable es = true.
Definition user_executes (m : mem) (root va a : Z) : Prop :=
  exists es, walk m root va = Some (a, es) /\ forallb user_bit es = true /\ forallb executable es = true.

Section Space.
Context {H : Type} `{LO : LayoutOk}.
Implicit Types (k : Kernel H).

Lemma pool_page_bounds j : (j < POOL_PAGES)%nat -> 0 < pool_page j /\ pool_page j + 4096 <= 0x40000000.
Proof. intros Hj. unfold pool_page. pose proof pool_positive. pose proof pool_end. sflia. Qed.

Lemma pool_page_aligned j : pool_page j mod 4096 = 0.
Proof.
  unfold pool_page. rewrite Z.mul_comm, Z.mod_add by lia. apply pool_aligned.
Qed.

Lemma pool_page_inj i j : pool_page i = pool_page j -> i = j.
Proof. unfold pool_page. lia. Qed.

Lemma pool_page_apart i j : i <> j -> pool_page i + 4096 <= pool_page j \/ pool_page j + 4096 <= pool_page i.
Proof. unfold pool_page. lia. Qed.

(** The DMA arena. *)
Definition dma_byte (a : Z) : Prop := dma <= a < dma + SF_DMA_BYTES.

End Space.
