(* ===== verification/Ipc.v ===== *)
(** * Kernel IPC

    [kernel/ipc.c]: endpoints with their message rings, capabilities with
    generations and epochs, and the IPC system calls. *)

From S2P Require Import Prelude Bytes CMem Abi Kernel Memory.

(** [copied]: a counter that saturates. *)
Definition copied (count bytes : Z) : Z :=
  if UINT64_MAX - count <? bytes then UINT64_MAX else count + bytes.

Record SfIpcStats := MkIpcStats { is_size : Z; is_version : Z; is_send_bytes : Z; is_receive_bytes : Z }.

Definition CAP_GENERATIONS : Z := 0x7fffff.
#[export] Hint Unfold CAP_GENERATIONS : sf.

Section Ipc.
Context {H : Type} `{L : Layout}.
Implicit Types (k : Kernel H).

Definition endpoint k (i : nat) : Endpoint := endpoints k !!! i.
Definition set_endpoint (i : nat) (f : Endpoint -> Endpoint) k : Kernel H := k <| endpoints ::= alter f i |>.
Definition set_cap (ti slot : nat) (f : Cap -> Cap) k : Kernel H :=
  set_task ti (fun t => t <| caps ::= alter f slot |>) k.
Definition cap_of k (ti slot : nat) : Cap := caps (task k ti) !!! slot.

(** The endpoint index of a capability. *)
Definition ep_of (c : Cap) : nat := Z.to_nat (c_endpoint c - 1).

Definition ipc_stats_snapshot k : SfIpcStats := MkIpcStats 24 SF_IPC_STATS_VERSION (send_bytes k) (receive_bytes k).

(** The slot a handle names, if it is live and has the rights. *)
Definition cap k (ti : nat) (h rights : Z) : option nat :=
  if UINT32_MAX <? h then None
  else
    let i := Z.land h 255 in
    if (i =? 0) || (32 <? i) then None
    else
      let slot := Z.to_nat (i - 1) in
      let c := cap_of k ti slot in
      if negb (truthy (c_endpoint c)) || negb (c_generation c =? Z.shiftr h 8) ||
         negb (Z.land (c_rights c) rights =? rights) then None
      else
        let e := endpoint k (ep_of c) in
        if truthy (e_owner e) && (c_epoch c =? e_epoch e) then Some slot else None.

Definition cap_slot (t : Task) : option nat :=
  if (SF_CAP_LIMIT_MAX <? cap_limit t) || (cap_limit t <=? task_caps_used t) then None
  else find_index (fun i => negb (truthy (c_endpoint (caps t !!! i))) && (c_generation (caps t !!! i) <? CAP_GENERATIONS)) CAPS.

Definition handle_of (generation : Z) (slot : nat) : Z := Z.lor (Z.shiftl generation 8) (Z.of_nat slot + 1).

Definition install (ti ep : nat) (rights : Z) k : Z * Kernel H :=
  match cap_slot (task k ti) with
  | None => (SF_NO_SPACE, k)
  | Some slot =>
      let g := u32 (c_generation (cap_of k ti slot) + 1) in
      (s32 (handle_of g slot),
       set_cap ti slot (fun _ => MkCap (Z.of_nat ep + 1) (e_epoch (endpoint k ep)) rights g) k)
  end.

Definition ipc_grant (from to : nat) (handle rights : Z) k : Z * Kernel H :=
  match cap k from handle RIGHT_DELEGATE with
  | None => (SF_DENIED, k)
  | Some slot =>
      let c := cap_of k from slot in
      if negb (Z.land rights (c_rights c) =? rights) then (SF_DENIED, k)
      else install to (ep_of c) rights k
  end.

(** One task's part of [invalidate]: woken if it waits, capabilities cleared. *)
Definition invalidate_task (i : nat) (ticks : Z) (t : Task) : Task :=
  let t := if in_tstate t T_BLOCKED && (wait_endpoint t =? Z.of_nat i + 1)
           then t <| frame ::= fun f => f <| rax := u64 SF_REVOKED |> |> <| t_state := T_READY |> <| t_ready_since := ticks |>
           else t in
  t <| caps ::= map (fun c => if c_endpoint c =? Z.of_nat i + 1 then c <| c_endpoint := 0 |> else c) |>.

Definition invalidate (i : nat) k : Kernel H :=
  let k := set_endpoint i (fun e => e <| e_owner := 0 |> <| e_count := 0 |> <| e_epoch := u32 (e_epoch e + 1) |>) k in
  loop SF_MAX_TASKS (fun j k => set_task j (invalidate_task i (ticks k)) k) k.

(** Is endpoint [ep] named by any capability of any task? *)
Definition referenced k (ep : nat) : bool :=
  match find_index (fun j =>
    match find_index (fun s => c_endpoint (cap_of k j s) =? Z.of_nat ep + 1) CAPS with Some _ => true | None => false end)
    SF_MAX_TASKS with
  | Some _ => true
  | None => false
  end.

Definition close_cap (ti slot : nat) k : Kernel H :=
  let ep := ep_of (cap_of k ti slot) in
  let k := set_cap ti slot (fun c => c <| c_endpoint := 0 |>) k in
  if referenced k ep then k else invalidate ep k.

Definition ipc_cleanup (ti : nat) k : Kernel H :=
  let k := loop ENDPOINTS (fun i k => if e_owner (endpoint k i) =? pid (task k ti) then invalidate i k else k) k in
  loop CAPS (fun s k => if truthy (c_endpoint (cap_of k ti s)) then close_cap ti s k else k) k.

(** [ticks*10000000ull]: the clock in nanoseconds. *)
Definition now_ns k : Z := u64 (ticks k * 10000000).

Definition ipc_deadlines k : Kernel H :=
  loop SF_MAX_TASKS (fun i k =>
    let t := task k i in
    if in_tstate t T_BLOCKED && truthy (wait_deadline t) && (wait_deadline t <=? now_ns k)
    then set_task i (fun t => t <| frame ::= fun f => f <| rax := u64 SF_TIMEOUT |> |> <| t_state := T_READY |> <| t_ready_since := ticks k |>) k
    else k) k.

(** ** Message rings *)

Definition ring_at (e : Endpoint) (i : Z) : SfMessage := e_queue e !!! Z.to_nat ((e_head e + i) mod 8).
Definition ring_set (i : Z) (m : SfMessage) (e : Endpoint) : Endpoint :=
  e <| e_queue ::= fun q => <[Z.to_nat ((e_head e + i) mod 8):=m]> q |>.

(** The compaction loop of [SYS_SEND_CANCEL]: index [i], kept so far. *)
Definition cancel_step (pid request_id : Z) (i : nat) (s : Z * Endpoint) : Z * Endpoint :=
  let '(kept, e) := s in
  let m := ring_at e (Z.of_nat i) in
  if (h_flags (m_h m) =? pid) && (request_id =? Abi.request_id (m_h m)) then (kept, e)
  else (kept + 1, if kept =? Z.of_nat i then e else ring_set kept m e).

Definition cancel_queue (pid request_id : Z) (e : Endpoint) : Z * Endpoint :=
  let count := e_count e in
  let '(kept, e) := loop (Z.to_nat count) (cancel_step pid request_id) (0, e) in
  if kept =? count then (0, e)
  else
    let e := loop_from (Z.to_nat kept) (Z.to_nat (count - kept)) (fun i e => ring_set (Z.of_nat i) zero_message e) e in
    (count - kept, e <| e_count := kept |> <| e_head := if kept =? 0 then 0 else e_head e |>).

(** ** System calls *)

Definition sys_ep_create (ti : nat) k : Z * Kernel H :=
  match cap_slot (task k ti) with
  | None => (SF_NO_SPACE, k)
  | Some _ =>
      match find_index (fun i => negb (truthy (e_owner (endpoint k i)))) ENDPOINTS with
      | None => (SF_NO_SPACE, k)
      | Some i =>
          let k := set_endpoint i (fun e => e <| e_owner := pid (task k ti) |> <| e_epoch := u32 (e_epoch e + 1) |>
                                             <| e_head := 0 |> <| e_count := 0 |>) k in
          let '(h, k) := install ti i 7 k in
          (h, if h <? 0 then set_endpoint i (fun e => e <| e_owner := 0 |>) k else k)
      end
  end.

Definition sys_cap_close (ti : nat) (a : Z) k : Z * Kernel H :=
  match cap k ti a 0 with
  | None => (SF_STALE_HANDLE, k)
  | Some slot => (0, close_cap ti slot k)
  end.

Definition sys_cap_derive (ti : nat) (a b : Z) k : Z * Kernel H :=
  match cap k ti a RIGHT_DELEGATE with
  | None => (SF_DENIED, k)
  | Some slot =>
      let x := cap_of k ti slot in
      if truthy (clear_bits b 7) || negb (Z.land b (c_rights x) =? b) then (SF_DENIED, k)
      else install ti (ep_of x) b k
  end.

Definition sys_cap_revoke (ti : nat) (a : Z) k : Z * Kernel H :=
  match cap k ti a RIGHT_DELEGATE with
  | None => (SF_DENIED, k)
  | Some slot =>
      let ep := ep_of (cap_of k ti slot) in
      if negb (e_owner (endpoint k ep) =? pid (task k ti)) then (SF_DENIED, k) else (0, invalidate ep k)
  end.

Definition sys_send_cancel (ti : nat) (a b c : Z) k : Z * Kernel H :=
  match cap k ti a RIGHT_SEND with
  | None => (SF_STALE_HANDLE, k)
  | Some slot =>
      if truthy c then (SF_INVALID, k)
      else
        let ep := ep_of (cap_of k ti slot) in
        let e := endpoint k ep in
        if (8 <=? e_head e) || (8 <? e_count e) then (SF_BAD_FORMAT, k)
        else
          let '(r, e) := cancel_queue (pid (task k ti)) b e in
          (r, set_endpoint ep (fun _ => e) k)
  end.

Definition message_bad (m : SfMessage) : bool :=
  let h := m_h m in
  negb (h_size h =? 40) || negb (protocol_major h =? 1) || truthy (protocol_minor h) ||
  (sizeof_SfMessage - 40 <? payload_bytes h) || truthy (cap_count h) || (SF_MSG_BYTES <? m_length m).

(** Delivery of an accepted message to endpoint [ep]: to the first task
    blocked on it, or into its ring. *)
Definition deliver (sender : Z) (ep : nat) (m : SfMessage) k : outcome (Z * Kernel H) :=
  match find_index (fun j => in_tstate (task k j) T_BLOCKED && (wait_endpoint (task k j) =? Z.of_nat ep + 1)) SF_MAX_TASKS with
  | Some j =>
      let '(r, k) := copy_out j (recv_buffer (task k j)) (message_bytes m) k in
      if truthy r then Panic
      else
        let k := k <| receive_bytes ::= fun n => copied n sizeof_SfMessage |> in
        Ret (0, set_task j (fun t => t <| frame ::= fun f => f <| rax := sender |> |> <| t_state := T_READY |> <| t_ready_since := ticks k |>) k)
  | None =>
      let e := endpoint k ep in
      if e_count e =? 8 then Ret (SF_WOULD_BLOCK, k)
      else Ret (0, set_endpoint ep (fun e => ring_set (e_count e) m e <| e_count := e_count e + 1 |>) k)
  end.

Definition sys_send (ti : nat) (a b : Z) k : outcome (Z * Kernel H) :=
  match cap k ti a RIGHT_SEND with
  | None => Ret (SF_STALE_HANDLE, k)
  | Some slot =>
      let '(r, bytes) := copy_in ti b sizeof_SfMessage k in
      if truthy r then Ret (SF_DENIED, k)
      else
        let m := message_of_bytes bytes in
        let k := k <| send_bytes ::= fun n => copied n sizeof_SfMessage |> in
        if message_bad m then Ret (SF_INVALID, k)
        else if truthy (deadline_ns (m_h m)) && (deadline_ns (m_h m) <=? now_ns k) then Ret (SF_TIMEOUT, k)
        else
          let m := m <| m_h ::= fun h => h <| h_flags := pid (task k ti) |> |> in
          deliver (pid (task k ti)) (ep_of (cap_of k ti slot)) m k
  end.

Definition sys_recv (ti : nat) (a b c : Z) k : Z * Kernel H :=
  match cap k ti a RIGHT_RECV with
  | None => (SF_STALE_HANDLE, k)
  | Some slot =>
      if negb (user_range ti b sizeof_SfMessage true k) then (SF_DENIED, k)
      else
        let ep := ep_of (cap_of k ti slot) in
        let e := endpoint k ep in
        if truthy (e_count e) then
          let m := ring_at e 0 in
          let sender := h_flags (m_h m) in
          let '(r, k) := copy_out ti b (message_bytes m) k in
          if truthy r then (SF_DENIED, k)
          else
            let k := k <| receive_bytes ::= fun n => copied n sizeof_SfMessage |> in
            (sender, set_endpoint ep (fun e => e <| e_head := (e_head e + 1) mod 8 |> <| e_count := e_count e - 1 |>) k)
        else if truthy c && (c <=? now_ns k) then (SF_TIMEOUT, k)
        else (0, set_task ti (fun t => t <| t_state := T_BLOCKED |> <| wait_endpoint := Z.of_nat ep + 1 |>
                                         <| recv_buffer := b |> <| wait_deadline := c |>) k)
  end.

(** [ipc_syscall] on behalf of the current task. *)
Definition ipc_syscall (call a b c : Z) k : outcome (Z * Kernel H) :=
  let ti := Z.to_nat (current k) in
  if call =? SYS_EP_CREATE then Ret (sys_ep_create ti k)
  else if call =? SYS_CAP_CLOSE then Ret (sys_cap_close ti a k)
  else if call =? SYS_CAP_DERIVE then Ret (sys_cap_derive ti a b k)
  else if call =? SYS_CAP_REVOKE then Ret (sys_cap_revoke ti a k)
  else if call =? SYS_SEND_CANCEL then Ret (sys_send_cancel ti a b c k)
  else if call =? SYS_SEND then sys_send ti a b k
  else if call =? SYS_RECV then Ret (sys_recv ti a b c k)
  else Ret (SF_INVALID, k).

End Ipc.
