(* ===== verification/Device.v ===== *)
(** * Console and device authorization

    The console ring of [kernel/arch.c] and [kernel/device.c]: PCI
    configuration, the one device grant with its pinned DMA arena, port I/O on
    behalf of the driver, release, quarantine and fault handling.  Lines written
    to the serial log appear without the numbers some of them print. *)

From stdpp Require Import strings.
From S2P Require Import Prelude Bytes CMem Abi Kernel Memory Arguments Ipc Acpi Iommu.

Section Device.
Context {H : Type} `{L : Layout} `{HW : Hardware H}.
Implicit Types (k : Kernel H).

(** ** Ports *)

Definition outb_ (port v : Z) k : Kernel H := k <| hw ::= fun h => outb h (u16 port) (u8 v) |>.
Definition outw_ (port v : Z) k : Kernel H := k <| hw ::= fun h => outw h (u16 port) (u16 v) |>.
Definition outl_ (port v : Z) k : Kernel H := k <| hw ::= fun h => outl h (u16 port) (u32 v) |>.
Definition inb_ (port : Z) k : Z * Kernel H := let '(v, h) := inb (hw k) (u16 port) in (u8 v, k <| hw := h |>).
Definition inw_ (port : Z) k : Z * Kernel H := let '(v, h) := inw (hw k) (u16 port) in (u16 v, k <| hw := h |>).
Definition inl_ (port : Z) k : Z * Kernel H := let '(v, h) := inl (hw k) (u16 port) in (u32 v, k <| hw := h |>).

(** ** The console *)

Definition INPUT_BYTES : Z := 256.

(** [console_irq] while the receiver has bytes, at most [fuel] of them. *)
Fixpoint console_drain (fuel : nat) k : Kernel H :=
  match fuel with
  | O => k
  | S fuel =>
      let '(status, k) := inb_ 0x3fd k in
      if negb (truthy (Z.land status 1)) then k
      else
        let '(c, k) := inb_ 0x3f8 k in
        console_drain fuel (k <| console ::= fun s =>
          if input_count s <? INPUT_BYTES
          then s <| input ::= fun b => <[Z.to_nat ((input_head s + input_count s) mod INPUT_BYTES):=c]> b |>
                 <| input_count := input_count s + 1 |>
          else s <| input_overflow := 1 |> |>)
  end.

Definition console_irq (fuel : nat) k : Kernel H := outb_ 0x20 0x20 (console_drain fuel k).

Definition console_read k : Z * Kernel H :=
  let s := console k in
  if truthy (input_overflow s) then
    (SF_EVENT_OVERFLOW, k <| console := s <| input_overflow := 0 |> <| input_head := 0 |> <| input_count := 0 |> |>)
  else if input_count s =? 0 then (SF_WOULD_BLOCK, k)
  else (at_ (input s) (input_head s),
        k <| console := s <| input_head := (input_head s + 1) mod INPUT_BYTES |> <| input_count := input_count s - 1 |> |>).

(** ** PCI configuration *)

Definition config_read (bdf offset : Z) k : Z * Kernel H :=
  inl_ 0xcfc (outl_ 0xcf8 (Z.lor (Z.lor 0x80000000 (Z.shiftl bdf 8)) offset) k).
Definition config_write_command (bdf command : Z) k : Kernel H :=
  outw_ 0xcfc command (outl_ 0xcf8 (Z.lor 0x80000004 (Z.shiftl bdf 8)) k).

Definition pci_read (bdf offset : Z) k : Z * Kernel H :=
  if (65535 <? bdf) || (252 <? offset) || truthy (Z.land offset 3) then (SF_INVALID, k) else config_read bdf offset k.

(** No device of bus zero may start transfers. *)
Definition quiesce (bdf : nat) k : Kernel H :=
  let '(id, k) := config_read (Z.of_nat bdf) 0 k in
  if id =? UINT32_MAX then k
  else
    let '(v, k) := config_read (Z.of_nat bdf) 4 k in
    let command := u16 v in
    if truthy (Z.land command 4) then config_write_command (Z.of_nat bdf) (clear_bits command 4) k else k.

Definition device_init (b : SfBootInfo) k : Kernel H :=
  let k := k <| memory ::= fun m => mwrite m guard (fill 0xa5 4096) |> in
  iommu_init b (loop 256 quiesce k).

Definition guard_intact k : bool := forallb (fun b => b =? 0xa5) (mread (memory k) guard 4096).

Definition device_status k : SfDmaStatus * Kernel H :=
  let s := (dma_status k) <| ds_size := 48 |> <| ds_mode := iommu_mode k |> <| ds_owner := device_owner k |>
             <| ds_probe_address := guard |> <| ds_guard_intact := b2z (guard_intact k) |> <| ds_active_mapping := iommu_active k |> in
  (s, k <| dma_status := s |>).

(** ** Release *)

(** The device's status register: behind the MMIO window or a port. *)
Definition MODERN_STATUS : Z := 0xffe00014.

Definition reset_device (ti : nat) k : Kernel H :=
  let t := task k ti in
  if truthy (device_modern t) then k <| hw ::= fun h => mmio_write8 h MODERN_STATUS 0 |> else outb_ (t_device_io t + 18) 0 k.

Definition read_status (ti : nat) k : Z * Kernel H :=
  let t := task k ti in
  if truthy (device_modern t) then let '(v, h) := mmio_read8 (hw k) MODERN_STATUS in (v, k <| hw := h |>)
  else inb_ (t_device_io t + 18) k.

Fixpoint wait_reset (n : nat) (ti : nat) k : bool * Kernel H :=
  match n with
  | O => (false, k)
  | S n => let '(v, k) := read_status ti k in if v =? 0 then (true, k) else wait_reset n ti k
  end.

Definition RESET_TRIES : nat := Z.to_nat 10000.

Definition device_release (ti : nat) k : Z * Kernel H :=
  if t_device_io (task k ti) =? 0 then (if truthy (device_fault (task k ti)) then SF_DEVICE_GONE else 0, k)
  else
    let bdf := device_bdf (task k ti) in
    let k := reset_device ti k in
    let '(v, k) := config_read bdf 4 k in
    let k := config_write_command bdf (clear_bits (Z.land v 0xffff) 4) k in
    let '(reset, k) := wait_reset RESET_TRIES ti k in
    let '(invalidation, k) := iommu_revoke bdf k in
    let '(v, k) := config_read bdf 4 k in
    let k := if truthy (Z.land v 4) || negb reset || truthy invalidation
             then serial (txt "[CORE] DMA device quarantined; pinned pages retained") (k <| quarantined := 1 |>) else k in
    let q := quarantined k in
    (if truthy q then SF_DEVICE_GONE else 0, set_task ti (fun t => t <| device_fault := q |> <| t_device_io := 0 |>) k).

Definition device_forget (ti : nat) k : Kernel H :=
  if device_owner k =? pid (task k ti) then k <| device_owner := 0 |> else k.

(** [task_dead] of core.c, which the fault handler uses too. *)
Definition task_dead (ti : nat) (status : Z) k : Kernel H :=
  let '(_, k) := device_release ti k in
  let k := ipc_cleanup ti k in
  let k := set_task ti (fun t => t <| t_state := T_DEAD |> <| exit_status := s32 status |>) k in
  let k := if (0 <=? current k) && (Z.of_nat ti =? current k) then k <| live_cr3 := boot_cr3 k |> else k in
  let k := pages_free (pid (task k ti)) k in
  device_forget ti k.

(** ** Faults *)

(** The driver whose device caused the fault goes. *)
Definition fault_task (source : Z) k : Kernel H :=
  match find_index (fun i => (pid (task k i) =? device_owner k) && (device_bdf (task k i) =? source) &&
                             negb (in_tstate (task k i) T_DEAD)) SF_MAX_TASKS with
  | None => k
  | Some i =>
      let '(_, k) := device_release i k in
      let k := set_task i (fun t => t <| device_fault := 1 |>) (k <| quarantined := 1 |>) in
      serial (txt "[IOMMU] offending driver terminated and quarantined") (task_dead i SF_DEVICE_GONE k)
  end.

Fixpoint poll_faults (n : nat) k : Kernel H :=
  match n with
  | O => k
  | S n =>
      match iommu_fault k with
      | (None, k) => k
      | (Some (source, reason, address), k) =>
          let k := k <| dma_status ::= fun s => s <| ds_faults := u32 (ds_faults s + 1) |> <| ds_source := source |>
                                               <| ds_reason := reason |> <| ds_last_address := address |> |> in
          poll_faults n (fault_task source (serial (txt "[IOMMU] blocked DMA") k))
      end
  end.

Definition device_poll k : Kernel H := poll_faults 64 k.

(** ** Grants *)

(** The virtio capabilities of the modern profile: 1 common, 2 device, 4
    notify.  The status, the capabilities found and the pointer left over. *)
Fixpoint find_caps (n : nat) (bdf cap found : Z) k : Z * Z * Z * Kernel H :=
  match n with
  | O => (0, found, cap, k)
  | S n =>
      if cap =? 0 then (0, found, cap, k)
      else if (cap <? 0x40) || (0xfc <? cap) || truthy (Z.land cap 3) then (SF_BAD_FORMAT, found, cap, k)
      else
        let '(h, k) := config_read bdf cap k in
        let next := Z.land (Z.shiftr h 8) 255 in
        if negb (Z.land h 255 =? 9) then find_caps n bdf next found k
        else
          let kind := Z.shiftr h 24 in
          let len := Z.land (Z.shiftr h 16) 255 in
          if (len <? 16) || (240 <? cap) then (SF_BAD_FORMAT, found, cap, k)
          else
            let '(v, k) := config_read bdf (cap + 4) k in
            let id := Z.land v 255 in
            let '(off, k) := config_read bdf (cap + 8) k in
            let '(size, k) := config_read bdf (cap + 12) k in
            if ((kind =? 1) || (kind =? 2) || (kind =? 4)) && negb (id =? 4) then (SF_DENIED, found, cap, k)
            else
              let found := if (kind =? 1) && (off =? 0) && (56 <=? size) then Z.lor found 1 else found in
              let '(x, k) := if (kind =? 2) && (off =? 0x3000) && (2 <=? size) && (20 <=? len) && (cap <=? 236)
                             then config_read bdf (cap + 16) k else (0, k) in
              let found := if x =? 4 then Z.lor found 2 else found in
              let found := if (kind =? 4) && (off =? 0x2000) && (8 <=? size) then Z.lor found 4 else found in
              find_caps n bdf next found k
  end.

(** The register block of a modern device: status and physical address. *)
Definition modern_window (bdf bar : Z) k : Z * Z * Kernel H :=
  if negb (iommu_mode k =? 1) || negb (Z.land bar 7 =? 4) then (SF_DENIED, 0, k)
  else
    let '(high, k) := config_read bdf 36 k in
    let physical := Z.lor (Z.shiftl high 32) (clear_bits bar 15) in
    if truthy (Z.land physical 16383) || (physical <? 0xc0000000) || (0x1000000000000 - 16384 <=? physical) then (SF_DENIED, 0, k)
    else
      let '(v, k) := config_read bdf 0x34 k in
      let '(r, found, cap, k) := find_caps 48 bdf (Z.land v 255) 0 k in
      if truthy r then (r, 0, k)
      else if negb (found =? 7) || truthy cap then (SF_DENIED, 0, k)
      else
        let '(r, k) := space_device_mmio physical k in
        if truthy r then (SF_DENIED, 0, k) else (0, physical, k).

(** Map [n] pages, one at a time. *)
Fixpoint map_pages_from (n : nat) (i : nat) (map : Z -> Kernel H -> Z * Kernel H) k : bool * Kernel H :=
  match n with
  | O => (true, k)
  | S n => let '(r, k) := map (4096 * Z.of_nat i) k in if truthy r then (false, k) else map_pages_from n (S i) map k
  end.

Definition released (ti : nat) (r : Z) (args : SfBootArgs) k : Z * SfBootArgs * Kernel H := (r, args, (device_release ti k).2).

(** The window, the arena and bus mastering for a device that has been reset. *)
Definition grant_device (ti : nat) (bdf io physical rights : Z) (modern : bool) (args : SfBootArgs) k : Z * SfBootArgs * Kernel H :=
  let k := set_task ti (fun t => t <| t_device_io := io |>) k in
  let k := k <| device_owner := pid (task k ti) |> <| memory ::= fun m => mwrite m dma (fill 0 SF_DMA_BYTES) |> in
  let '(ok, k) := if modern then map_pages_from 4 0 (fun off => space_map_mmio ti (SF_DEVICE_MMIO + off) (physical + off)) k else (true, k) in
  if negb ok then released ti SF_NO_SPACE args k
  else
    let '(ok, k) := map_pages_from 16 0 (fun off => space_map ti (SF_DMA + off) (dma + off) 3) k in
    if negb ok then released ti SF_NO_SPACE args k
    else
      let '(mapped, bus_address, k) := iommu_grant bdf dma k in
      if truthy mapped then released ti mapped args k
      else
        let '(v, k) := config_read bdf 4 k in
        let enable := if modern then 6 else 5 in
        let k := config_write_command bdf (Z.lor (Z.land v 0xffff) enable) k in
        let '(v, k) := config_read bdf 4 k in
        if negb (Z.land v enable =? enable) then released ti SF_DEVICE_GONE args k
        else
          (0, args <| b_dma_virtual := SF_DMA |> <| b_dma_physical := bus_address |> <| b_device_io := t_device_io (task k ti) |>
                   <| b_device_bdf := bdf |>
                   <| b_device_rights := u16 (Z.lor (Z.lor rights (if iommu_mode k =? 1 then SF_DEVICE_ISOLATED else 0))
                                                    (if modern then SF_DEVICE_MODERN else 0)) |>, k).

Definition device_grant (ti : nat) (bdf_plus_one rights : Z) (args : SfBootArgs) k : Z * SfBootArgs * Kernel H :=
  if (bdf_plus_one =? 0) || (65536 <? bdf_plus_one) then (SF_INVALID, args, k)
  else if truthy (device_owner k) || truthy (quarantined k) then (SF_BUSY, args, k)
  else if iommu_mode k =? 2 then (SF_DEVICE_GONE, args, k)
  else
    let bdf := bdf_plus_one - 1 in
    let '(identity, k) := config_read bdf 0 k in
    let modern := identity =? 0x10421af4 in
    if negb (identity =? 0x10011af4) && negb (identity =? 0x10001af4) && negb modern then (SF_DENIED, args, k)
    else if (iommu_mode k =? 1) && negb modern then (SF_DENIED, args, k)
    else
      let '(bar, k) := config_read bdf (if modern then 32 else 16) k in
      let '(r, physical, k) :=
        if modern then modern_window bdf bar k
        else if negb (truthy (Z.land bar 1)) || (clear_bits bar 3 <? 0x1000) || (0xffc0 <? clear_bits bar 3) then (SF_DENIED, 0, k)
        else (0, 0, k) in
      if truthy r then (r, args, k)
      else
        let io := if modern then SF_DEVICE_MMIO else clear_bits bar 3 in
        let k := set_task ti (fun t => t <| t_device_io := io |> <| device_modern := (if modern then 1 else device_modern t) |>
                                         <| device_bdf := bdf |>) k in
        let '(r, k) := device_release ti k in
        if truthy r then (SF_DEVICE_GONE, args, k) else grant_device ti bdf io physical rights modern args k.

(** ** Port I/O for the driver *)

Definition device_io (ti : nat) (port operation value : Z) k : Z * Kernel H :=
  let width := Z.land operation 255 in
  let write := truthy (Z.land operation 256) in
  let t := task k ti in
  if truthy (clear_bits operation 0x1ff) || negb ((width =? 1) || (width =? 2) || (width =? 4)) then (SF_INVALID, k)
  else if truthy (device_modern t) || (t_device_io t =? 0) || negb (device_owner k =? pid t) || (port <? t_device_io t) ||
          (u32 (t_device_io t + 64 - width) <? port) then (SF_DENIED, k)
  else if write then (0, if width =? 1 then outb_ port value k else if width =? 2 then outw_ port value k else outl_ port value k)
  else if width =? 1 then inb_ port k else if width =? 2 then inw_ port k else inl_ port k.

End Device.
