(* ===== verification/Core.v ===== *)
(** * The kernel core

    [kernel/core.c]: load plans, task creation and death, the scheduler loop,
    the system calls, interrupt dispatch and boot.  Lines written to the serial
    log appear without the numbers some of them print. *)

From stdpp Require Import strings.
From S2P Require Import Prelude Bytes CMem Abi Sched Arguments Kernel Memory Ipc Acpi Iommu Device.

(** ** Load plans *)

Record SfLoadSegment := MkLoadSegment { ls_rva : Z; ls_bytes : Z; ls_data : Z; ls_flags : Z; ls_reserved : Z }.
#[export] Instance SfLoadSegment_inhabited : Inhabited SfLoadSegment := populate (MkLoadSegment 0 0 0 0 0).

Record SfLoadPlan := MkLoadPlan {
  lp_size : Z; lp_count : Z; lp_entry : Z; lp_image_base : Z;
  lp_grant_manager : Z; lp_grant_service : Z; lp_service_rights : Z; lp_grant_bundle : Z;
  lp_grant_device : Z; lp_device_rights : Z; lp_segments : list SfLoadSegment; lp_arguments : SfArguments }.

Definition sizeof_SfLoadPlan : Z := 832.
#[export] Hint Unfold sizeof_SfLoadPlan : sf.

(** The plan a system call copies from user memory. *)
Definition field32 (b : list Z) (off : Z) : Z := u32 (get32 b off).
Definition field64 (b : list Z) (off : Z) : Z := u64 (get64 b off).
Definition segment_of_bytes (b : list Z) (off : Z) : SfLoadSegment :=
  MkLoadSegment (field64 b off) (field64 b (off + 8)) (field64 b (off + 16)) (field32 b (off + 24)) (field32 b (off + 28)).
Definition plan_of_bytes (b : list Z) : SfLoadPlan :=
  MkLoadPlan (field32 b 0) (field32 b 4) (field64 b 8) (field64 b 16) (field32 b 24) (field32 b 28) (field32 b 32) (field32 b 36)
    (field32 b 40) (field32 b 44) (map (fun i => segment_of_bytes b (48 + 32 * Z.of_nat i)) (seq 0 8))
    (MkArguments (field32 b 304) (field32 b 308) (field32 b 312) (field32 b 316) (slice 320 512 b)).

Definition segment_end (s : SfLoadSegment) : Z := clear_bits (u64 (ls_rva s + ls_bytes s + 4095)) 4095.

Section Core.
Context {H : Type} `{L : Layout} `{HW : Hardware H}.
Implicit Types (k : Kernel H).

Definition boot_memory (b : SfBootInfo) (start bytes : Z) k : bool :=
  if (0x40000000 <=? start) || (bytes =? 0) || (0x40000000 - start <? bytes) then false
  else
    match find_index (map_covers (memory k) (bi_memory_map b) (fun t => (t =? 1) || (t =? 2)) start bytes)
            (Z.to_nat (bi_memory_map_entry_count b)) with
    | Some _ => true
    | None => false
    end.

(** Segment [i] of the plan is good, given the ones before it. *)
Definition segment_ok (p : SfLoadPlan) (parent : option nat) k (i : nat) : bool :=
  let s := lp_segments p !!! i in
  if truthy (Z.land (ls_rva s) 4095) || (UINT64_MAX - ls_bytes s <? ls_data s) || (ls_bytes s =? 0) ||
     (SF_IMAGE_MAX <? ls_bytes s) || truthy (ls_reserved s) then false
  else if (SF_IMAGE_MAX <=? ls_rva s) || (SF_IMAGE_MAX - ls_rva s <? ls_bytes s) ||
          negb ((ls_flags s =? 1) || (ls_flags s =? 3) || (ls_flags s =? 5)) then false
  else if negb (match parent with
                | Some t => user_range t (ls_data s) (ls_bytes s) false k
                | None => (ls_data s <=? 0x40000000) && (ls_bytes s <=? 0x40000000 - ls_data s) && (kernel_end <=? ls_data s)
                end) then false
  else
    match find_index (fun j => (ls_rva s <? segment_end (lp_segments p !!! j)) && (ls_rva (lp_segments p !!! j) <? segment_end s)) i with
    | Some _ => false
    | None => true
    end.

(** The entry point is in an executable segment. *)
Definition entry_in (p : SfLoadPlan) (i : nat) : bool :=
  let s := lp_segments p !!! i in
  (ls_flags s =? 5) && (ls_rva s <=? lp_entry p) && (lp_entry p - ls_rva s <? ls_bytes s).

Definition valid_plan (p : SfLoadPlan) (parent : option nat) k : bool :=
  if negb (lp_size p =? sizeof_SfLoadPlan) || (lp_count p =? 0) || (8 <? lp_count p) || negb (sf_image_base_valid (lp_image_base p)) ||
     truthy (sf_arguments_validate (lp_arguments p)) || (65536 <? lp_grant_device p) ||
     truthy (clear_bits (lp_device_rights p) SF_DEVICE_WRITE) || ((lp_grant_device p =? 0) && truthy (lp_device_rights p)) then false
  else if negb (all_below (segment_ok p parent k) (Z.to_nat (lp_count p))) then false
  else match find_index (entry_in p) (Z.to_nat (lp_count p)) with Some _ => true | None => false end.

(** ** Creating a task *)

(** A step of construction: [false] is [goto fail]. *)
Definition build : Type := Kernel H -> bool * Kernel H.
Definition then_ (f g : build) : build := fun k => let '(ok, k) := f k in if ok : bool then g k else (false, k).
Fixpoint repeat_ (n i : nat) (f : nat -> build) : build :=
  match n with O => fun k => (true, k) | S n => then_ (f i) (repeat_ n (S i) f) end.

(** A new page at [v]; its address goes to [next]. *)
Definition with_page (slot : nat) (v flags : Z) (next : Z -> build) : build := fun k =>
  let '(page, k) := page_alloc (pid (task k slot)) k in
  if page =? 0 then (false, k)
  else
    let '(r, k) := space_map slot v page flags k in
    if truthy r then (false, k) else next page k.

Definition fill_page (page : Z) (bytes : list Z) k : Kernel H := k <| memory ::= fun m => mwrite m page bytes |>.

(** Page [i] of a segment, filled from the parent or from boot memory. *)
Definition load_page (slot : nat) (parent : option nat) (base : Z) (s : SfLoadSegment) (i : nat) : build :=
  let off := 4096 * Z.of_nat i in
  let n := Z.min (ls_bytes s - off) 4096 in
  with_page slot (base + ls_rva s + off) (ls_flags s) (fun page k =>
    match parent with
    | Some t =>
        let '(r, bytes) := copy_in t (ls_data s + off) n k in
        if truthy r then (false, k) else (true, fill_page page bytes k)
    | None => (true, fill_page page (mread (memory k) (ls_data s + off) n) k)
    end).

Definition load_segment (slot : nat) (parent : option nat) (base : Z) (p : SfLoadPlan) (i : nat) : build :=
  let s := lp_segments p !!! i in
  repeat_ (Z.to_nat ((ls_bytes s + 4095) / 4096)) 0 (load_page slot parent base s).

(** Sixteen pages of stack, from the top down. *)
Definition stack_page (slot : nat) (i : nat) : build :=
  with_page slot (SF_STACK - 4096 * (Z.of_nat i + 1)) 3 (fun _ k => (true, k)).

Definition bundle_page (slot : nat) (i : nat) : build := fun k =>
  let off := 4096 * Z.of_nat i in
  let '(r, k) := space_map slot (SF_BUNDLE + off) (bundle_phys k + off) 1 k in (negb (truthy r), k).

(** One grant of the plan; 0 asks for none. *)
Definition plan_grant (parent slot : nat) (handle rights : Z) k : Z * Kernel H :=
  if handle =? 0 then (0, k) else ipc_grant parent slot handle rights k.

Definition plan_grants (parent slot : nat) (p : SfLoadPlan) (args : SfBootArgs) k : bool * SfBootArgs * Kernel H :=
  let '(h, k) := plan_grant parent slot (lp_grant_manager p) RIGHT_SEND k in
  if h <? 0 then (false, args, k)
  else
    let args := args <| b_manager := h |> in
    if truthy (lp_grant_service p) && truthy (clear_bits (lp_service_rights p) 7) then (false, args, k)
    else
      let '(h, k) := plan_grant parent slot (lp_grant_service p) (lp_service_rights p) k in
      if h <? 0 then (false, args, k) else (true, args <| b_service := h |>, k).

Definition fresh_fxstate : list Z := <[25%nat:=0x1f]> (<[24%nat:=0x80]> (<[1%nat:=3]> (<[0%nat:=0x7f]> (fill 0 512)))).

Definition start_frame (p : SfLoadPlan) (base size : Z) : Frame :=
  zero_frame <| rip := u64 (base + lp_entry p) |> <| cs := 0x1b |> <| ss := 0x23 |> <| rflags := 0x202 |>
             <| rsp := SF_STACK - 8 |> <| rdi := SF_ARGS |> <| rsi := size |>.

(** The fields of a slot that is taken for task [p]; generations are kept. *)
Definition take_slot (p pages now : Z) (t : Task) : Task :=
  t <| caps ::= map (fun c => c <| c_endpoint := 0 |>) |> <| pid := p |> <| t_state := T_EMPTY |>
    <| t_device_io := 0 |> <| device_bdf := 0 |> <| device_fault := 0 |> <| device_modern := 0 |>
    <| t_priority := SF_PRIORITY_DEFAULT |> <| cap_limit := SF_CAP_LIMIT_MAX |> <| page_limit := pages |>
    <| page_count := 0 |> <| t_ready_since := now |> <| fxstate := fresh_fxstate |>.

(** The image and the stack. *)
Definition build_image (slot : nat) (parent : option nat) (base : Z) (p : SfLoadPlan) : build :=
  then_ (repeat_ (Z.to_nat (lp_count p)) 0 (load_segment slot parent base p)) (repeat_ 16 0 (stack_page slot)).

(** The argument page: its address, or 0. *)
Definition arg_page (slot : nat) k : Z * Kernel H :=
  let '(page, k) := page_alloc (pid (task k slot)) k in
  if page =? 0 then (0, k)
  else let '(r, k) := space_map slot SF_ARGS page 1 k in (if truthy r then 0 else page, k).

Definition needs_bundle (bootstrap : bool) (p : SfLoadPlan) : bool := bootstrap || truthy (lp_grant_bundle p).

(** The rest: arguments, bundle, capabilities, device.  The status of a
    failure and the final arguments. *)
Definition equip (slot : nat) (bootstrap : bool) (p : SfLoadPlan) (page : Z) k : Z * SfBootArgs * Kernel H :=
  let a := lp_arguments p in
  let args := boot_args (pid (task k slot)) a in
  let k := fill_page page (boot_args_bytes args ++ take (Z.to_nat (a_bytes a)) (a_data a)) k in
  let '(ok, k) := if needs_bundle bootstrap p
                  then repeat_ (Z.to_nat ((bundle_bytes k + 4095) / 4096)) 0 (bundle_page slot) k else (true, k) in
  if negb ok then (SF_NO_SPACE, args, k)
  else
    let args := if needs_bundle bootstrap p then args <| b_bundle := SF_BUNDLE |> <| b_bundle_bytes := bundle_bytes k |> else args in
    let '(ok, args, k) := if bootstrap then (true, args, k) else plan_grants (Z.to_nat (current k)) slot p args k in
    if negb ok then (SF_NO_SPACE, args, k)
    else if lp_grant_device p =? 0 then (0, args, k)
    else device_grant slot (lp_grant_device p) (lp_device_rights p) args k.

(** The label [fail]. *)
Definition abandon (slot : nat) (result : Z) k : Z * Kernel H :=
  let '(_, k) := device_release slot k in
  let k := ipc_cleanup slot k in
  let k := pages_free (pid (task k slot)) k in
  let k := device_forget slot k in
  (result, set_task slot (fun t => t <| t_state := T_DEAD |> <| exit_status := result |>) k).

Definition launch (slot : nat) (p : SfLoadPlan) (base page : Z) (args : SfBootArgs) k : Z * Kernel H :=
  let k := fill_page page (boot_args_bytes args) k in
  (pid (task k slot),
   set_task slot (fun t => t <| frame := start_frame p base (b_size args) |> <| t_ready_since := ticks k |>
                             <| t_state := T_READY |> <| exit_status := 0 |>) k).

Definition construct (slot : nat) (bootstrap : bool) (base : Z) (p : SfLoadPlan) k : Z * Kernel H :=
  let parent := if bootstrap then None else Some (Z.to_nat (current k)) in
  let '(root, k) := space_new (pid (task k slot)) k in
  let k := set_task slot (fun t => t <| cr3 := root |>) k in
  if root =? 0 then abandon slot SF_NO_SPACE k
  else
    let '(ok, k) := build_image slot parent base p k in
    if negb ok then abandon slot SF_NO_SPACE k
    else
      let '(page, k) := arg_page slot k in
      if page =? 0 then abandon slot SF_NO_SPACE k
      else
        let '(r, args, k) := equip slot bootstrap p page k in
        if truthy r then abandon slot r k else launch slot p base page args k.

Definition task_new_limited (p : SfLoadPlan) (bootstrap : bool) (pages : Z) k : Z * Kernel H :=
  if SF_PAGE_LIMIT_MAX <? pages then (SF_INVALID, k)
  else if negb (valid_plan p (if bootstrap then None else Some (Z.to_nat (current k))) k) ||
          (bootstrap && truthy (lp_image_base p) && negb (lp_image_base p =? SF_BASE)) then (SF_INVALID, k)
  else
    let base := if truthy (lp_image_base p) then lp_image_base p else SF_BASE in
    match find_index (fun i => in_tstate (task k i) T_EMPTY || in_tstate (task k i) T_DEAD) SF_MAX_TASKS with
    | None => (SF_NO_SPACE, k)
    | Some slot =>
        let '(n, next) := sf_pid_take (Some (next_pid k)) in
        let k := k <| next_pid := default (next_pid k) next |> in
        if n <? 0 then (n, k)
        else construct slot bootstrap base p (set_task slot (take_slot n pages (ticks k)) k)
    end.

Definition task_new (p : SfLoadPlan) (bootstrap : bool) k : Z * Kernel H := task_new_limited p bootstrap SF_PAGE_LIMIT_MAX k.

(** ** The scheduler *)

Definition arch_save (ti : nat) k : Kernel H := set_task ti (fun t => t <| fxstate := fx_save (hw k) |>) k.
Definition arch_task (ti : nat) k : Kernel H :=
  k <| live_cr3 := cr3 (task k ti) |> <| hw ::= fx_restore (fxstate (task k ti)) |>.

Definition sched_entry (t : Task) : SfSchedEntry := MkEntry (t_ready_since t) (t_priority t) (in_tstate t T_READY).

Definition noncanonical (a : Z) : bool := (0x0000800000000000 <=? a) && (a <? 0xffff800000000000).

(** The loop of [schedule] up to the task that runs next, or [None] where it
    halts and waits for an interrupt.  Every turn but the last kills a task. *)
Fixpoint schedule_loop (fuel : nat) k : outcome (option nat * Kernel H) :=
  let i := sf_sched_pick (Some (map sched_entry (tasks k))) (Z.of_nat SF_MAX_TASKS) (current k) (ticks k) in
  if i <? 0 then Ret (None, k)
  else
    let ti := Z.to_nat i in
    let t := task k ti in
    if noncanonical (rsp (frame t)) then
      if pid t =? 1 then Panic
      else match fuel with O => Ret (None, k) | S fuel => schedule_loop fuel (task_dead ti (-113) k) end
    else
      let k := set_task ti (fun t => t <| t_ready_since := ticks k |>) (k <| current := i |>) in
      Ret (Some ti, arch_task ti k).

Definition schedule k : outcome (option nat * Kernel H) :=
  let ti := Z.to_nat (current k) in
  let k := if (0 <=? current k) && in_tstate (task k ti) T_READY then set_task ti (fun t => t <| t_ready_since := ticks k |>) k else k in
  schedule_loop SF_MAX_TASKS k.

(** ** System calls *)

Definition alive (t : Task) : bool := in_tstate t T_READY || in_tstate t T_BLOCKED.
Definition find_alive k (a : Z) : option nat := find_index (fun i => (pid (task k i) =? a) && alive (task k i)) SF_MAX_TASKS.

(** The argument checks the three limit calls share. *)
Definition limit_args_bad (a b c most : Z) : bool :=
  (a =? 0) || (INT32_MAX <? a) || negb ((c =? SF_LIMIT_QUERY) || (c =? SF_LIMIT_SET) || (c =? SF_LIMIT_USED)) ||
  (most <? b) || (negb (c =? SF_LIMIT_SET) && truthy b).

Definition sys_page_limit (a b c : Z) k : Z * Kernel H :=
  if limit_args_bad a b c SF_PAGE_LIMIT_MAX then (SF_INVALID, k)
  else match find_alive k a with
  | None => (SF_NOT_FOUND, k)
  | Some i =>
      let x := task k i in
      if c =? SF_LIMIT_USED then (page_count x, k)
      else if c =? SF_LIMIT_SET then
        if b <? page_count x then (SF_BUSY, k) else (b, set_task i (fun t => t <| page_limit := b |>) k)
      else (page_limit x, k)
  end.

Definition sys_cap_limit (a b c : Z) k : Z * Kernel H :=
  if limit_args_bad a b c SF_CAP_LIMIT_MAX then (SF_INVALID, k)
  else match find_alive k a with
  | None => (SF_NOT_FOUND, k)
  | Some i =>
      let x := task k i in
      if c =? SF_LIMIT_USED then (task_caps_used x, k)
      else if c =? SF_LIMIT_SET then
        if b <? task_caps_used x then (SF_BUSY, k) else (b, set_task i (fun t => t <| cap_limit := b |>) k)
      else (cap_limit x, k)
  end.

Definition sys_priority (a b c : Z) k : Z * Kernel H :=
  if (a =? 0) || (INT32_MAX <? a) || negb ((c =? SF_PRIORITY_QUERY) || (c =? SF_PRIORITY_SET)) || (SF_PRIORITY_MAX <? b) ||
     ((c =? SF_PRIORITY_QUERY) && truthy b) then (SF_INVALID, k)
  else match find_alive k a with
  | None => (SF_NOT_FOUND, k)
  | Some i =>
      if c =? SF_PRIORITY_SET then (b, set_task i (fun t => t <| t_priority := b |>) k) else (t_priority (task k i), k)
  end.

Definition sys_log (ti : nat) (a b : Z) k : Z * Kernel H :=
  if (512 <? b) || negb (user_range ti a b false k) then (SF_DENIED, k)
  else (b, serial (cstr ((copy_in ti a b k).2 ++ [0])) k).

Definition sys_spawn (ti : nat) (a pages : Z) k : Z * Kernel H :=
  let '(r, bytes) := copy_in ti a sizeof_SfLoadPlan k in
  if truthy r then (SF_DENIED, k) else task_new_limited (plan_of_bytes bytes) false pages k.

Definition sys_kill (a b : Z) k : Z * Kernel H :=
  match find_index (fun i => (pid (task k i) =? a) && negb (in_tstate (task k i) T_DEAD)) SF_MAX_TASKS with
  | Some i => (0, task_dead i b k)
  | None => (SF_NOT_FOUND, k)
  end.

Definition sys_task_status (a : Z) k : Z :=
  match find_index (fun i => (pid (task k i) =? a) && negb (in_tstate (task k i) T_EMPTY)) SF_MAX_TASKS with
  | Some i => if in_tstate (task k i) T_DEAD then exit_status (task k i) else SF_TASK_RUNNING
  | None => SF_NOT_FOUND
  end.

Definition sys_device_release (ti : nat) (a : Z) k : Z * Kernel H :=
  if a =? 0 then device_release ti k
  else if negb (pid (task k ti) =? 1) then (SF_DENIED, k)
  else match find_index (fun i => pid (task k i) =? a) SF_MAX_TASKS with
       | Some i => device_release i k
       | None => (SF_NOT_FOUND, k)
       end.

Definition ipc_stats_bytes (s : SfIpcStats) : list Z :=
  le_bytes 4 (is_size s) ++ le_bytes 4 (is_version s) ++ le_bytes 8 (is_send_bytes s) ++ le_bytes 8 (is_receive_bytes s).
Definition dma_status_bytes (s : SfDmaStatus) : list Z :=
  le_bytes 4 (ds_size s) ++ le_bytes 4 (ds_mode s) ++ le_bytes 4 (ds_owner s) ++ le_bytes 4 (ds_faults s) ++
  le_bytes 8 (ds_last_address s) ++ le_bytes 8 (ds_probe_address s) ++ le_bytes 4 (ds_source s) ++ le_bytes 4 (ds_reason s) ++
  le_bytes 4 (ds_guard_intact s) ++ le_bytes 4 (ds_active_mapping s).

(** The calls only the first task may use. *)
Definition init_only (ti : nat) k (f : Kernel H -> Z * Kernel H) : outcome (Z * Kernel H) :=
  if pid (task k ti) =? 1 then Ret (f k) else Ret (SF_DENIED, k).

Definition syscall (call a b c : Z) k : outcome (Z * Kernel H) :=
  let ti := Z.to_nat (current k) in
  if call =? SYS_EXIT then (if pid (task k ti) =? 1 then Panic else Ret (0, task_dead ti a k))
  else if call =? SYS_YIELD then Ret (0, k)
  else if call =? SYS_LOG then Ret (sys_log ti a b k)
  else if call =? SYS_TICKS then Ret (ticks k, k)
  else if call =? SYS_IPC_STATS then init_only ti k (fun k =>
    if negb (b =? 24) || truthy c then (SF_INVALID, k) else copy_out ti a (ipc_stats_bytes (ipc_stats_snapshot k)) k)
  else if call =? SYS_TASK_PAGE_LIMIT then init_only ti k (sys_page_limit a b c)
  else if call =? SYS_TASK_CAP_LIMIT then init_only ti k (sys_cap_limit a b c)
  else if call =? SYS_TASK_PRIORITY then init_only ti k (sys_priority a b c)
  else if call =? SYS_SPAWN_LIMITED then init_only ti k (fun k =>
    if (SF_PAGE_LIMIT_MAX <? b) || truthy c then (SF_INVALID, k) else sys_spawn ti a b k)
  else if call =? SYS_SPAWN then init_only ti k (sys_spawn ti a SF_PAGE_LIMIT_MAX)
  else if call =? SYS_KILL then init_only ti k (fun k => if a =? 1 then (SF_DENIED, k) else sys_kill a b k)
  else if call =? SYS_TASK_STATUS then init_only ti k (fun k => (sys_task_status a k, k))
  else if call =? SYS_CONSOLE_READ then init_only ti k console_read
  else if call =? SYS_SHUTDOWN then init_only ti k (fun k => (0, outb_ 0x604 0 (outl_ 0xf4 a k)))
  else if call =? SYS_MAP_TEST then Ret (SF_DENIED, k)
  else if call =? SYS_PCI_READ then init_only ti k (pci_read a b)
  else if call =? SYS_PORT_IO then Ret (device_io ti a b c k)
  else if call =? SYS_DEVICE_RELEASE then Ret (sys_device_release ti a k)
  else if call =? SYS_DMA_STATUS then init_only ti k (fun k =>
    if negb (b =? 48) then (SF_INVALID, k) else let '(s, k) := device_status k in copy_out ti a (dma_status_bytes s) k)
  else ipc_syscall call a b c k.

(** ** Interrupts *)

Inductive resume := Interrupted | Scheduled (next : option nat).

Definition scheduled (o : outcome (option nat * Kernel H)) : outcome (resume * Kernel H) :=
  let* r := o in Ret (Scheduled r.1, r.2).

(** The frame pushed by the processor and what the handler does with it;
    [fuel] bounds the bytes the UART delivers in one interrupt. *)
Definition interrupt_dispatch (fuel : nat) (f : Frame) k : outcome (resume * Kernel H) :=
  let k := if vector f =? 32 then ipc_deadlines (outb_ 0x20 0x20 (k <| ticks := u64 (ticks k + 1) |>)) else k in
  let k := if vector f =? 36 then console_irq fuel k else k in
  if Z.land (cs f) 3 =? 0 then (if vector f <? 32 then Panic else Ret (Interrupted, k))
  else
    let ti := Z.to_nat (current k) in
    let k := set_task ti (fun t => t <| frame := f |>) (arch_save ti k) in
    let k := device_poll k in
    if in_tstate (task k ti) T_DEAD then scheduled (schedule k)
    else if vector f =? 128 then
      let* rk := syscall (rax f) (rdi f) (rsi f) (rdx f) k in
      scheduled (schedule (set_task ti (fun t => t <| frame ::= fun f => f <| rax := u64 rk.1 |> |>) rk.2))
    else if vector f <? 32 then
      if pid (task k ti) =? 1 then Panic
      else scheduled (schedule (task_dead ti (-100 - vector f) (serial (txt "[CORE] isolated user fault") k)))
    else scheduled (schedule k).

(** While [schedule] halts, interrupts come from kernel mode; the loop then
    picks again. *)
Definition idle_interrupt (fuel : nat) (f : Frame) k : outcome (resume * Kernel H) :=
  let* rk := interrupt_dispatch fuel f k in scheduled (schedule_loop SF_MAX_TASKS rk.2).

(** ** Boot *)

(** The part of [arch_init] that can refuse the machine, and the one that
    programs the interrupt controllers, the UART and the timer; descriptor
    tables and control registers are not part of the model. *)
Definition require_features k : outcome (Kernel H) :=
  if Z.land (cpuid_edx (hw k)) 0x07000001 =? 0x07000001 then Ret k else Panic.
Definition program_pic k : Kernel H :=
  foldl (fun k pv => outb_ pv.1 pv.2 k) k
    [(0x20, 0x11); (0xa0, 0x11); (0x21, 32); (0xa1, 40); (0x21, 4); (0xa1, 2); (0x21, 1); (0xa1, 1); (0x21, 0xee); (0xa1, 0xff);
     (0x3f9, 1); (0x43, 0x36); (0x40, Z.land 11932 255); (0x40, Z.shiftr 11932 8)].

Definition sizeof_SfBootInfo : Z := 472.

Definition boot_info_ok (b : SfBootInfo) : bool :=
  (bi_address b <? 0x40000000) && (bi_magic b =? 0x5f1f0f05) && (bi_boot_type b =? 1) && (bi_size b =? sizeof_SfBootInfo) &&
  (bi_version b =? 1) && negb (bi_init_segment_count b =? 0) && (bi_init_segment_count b <=? 8).
Definition bundle_ok (b : SfBootInfo) : bool :=
  negb (truthy (Z.land (bi_bundle b) 4095)) && negb (bi_bundle_bytes b =? 0) && (bi_bundle_bytes b <=? 4 * 1024 * 1024) &&
  (bi_bundle b <? 0x40000000) && (bi_bundle_bytes b <=? 0x40000000 - bi_bundle b).
Definition map_ok (b : SfBootInfo) : bool :=
  (bi_memory_map_descriptor_size b =? sizeof_BootMemory) && negb (bi_memory_map_entry_count b =? 0) &&
  (bi_memory_map_entry_count b <=? 2048) && (bi_memory_map_size b =? bi_memory_map_entry_count b * sizeof_BootMemory) &&
  (bi_memory_map b <? 0x40000000) && (bi_memory_map_size b <=? 0x40000000 - bi_memory_map b).

(** Two physical ranges meet. *)
Definition overlaps (p n q m : Z) : bool := (p <? u64 (q + m)) && (q <? u64 (p + n)).

Definition boot_segment_ok (b : SfBootInfo) k (i : nat) : bool :=
  let s := bi_init_segments b !!! i in
  if truthy (bs_reserved s) || (bs_memory_bytes s <? bs_file_bytes s) || truthy (Z.land (bs_physical s) 4095) ||
     negb (boot_memory b (bs_physical s) (clear_bits (u64 (bs_memory_bytes s + 4095)) 4095) k) then false
  else if overlaps (bs_physical s) (bs_memory_bytes s) (bi_bundle b) (bi_bundle_bytes b) then false
  else match find_index (fun j => let t := bi_init_segments b !!! j in
         overlaps (bs_physical s) (bs_memory_bytes s) (bs_physical t) (bs_memory_bytes t)) i with
       | Some _ => false
       | None => true
       end.

Definition boot_plan (b : SfBootInfo) : SfLoadPlan :=
  let n := Z.to_nat (bi_init_segment_count b) in
  MkLoadPlan sizeof_SfLoadPlan (bi_init_segment_count b) (bi_init_entry b) 0 0 0 0 0 0 0
    (map (fun i => let s := bi_init_segments b !!! i in MkLoadSegment (bs_rva s) (bs_memory_bytes s) (bs_physical s) (bs_flags s) 0) (seq 0 n)
     ++ replicate (8 - n) (MkLoadSegment 0 0 0 0 0))
    (MkArguments 0 0 0 0 (fill 0 512)).

Definition kernel_main (b : SfBootInfo) k : outcome (resume * Kernel H) :=
  let k := serial (txt "SpiritFoxOS Core 0 / ABI 1") (k <| boot_cr3 := live_cr3 k |>) in
  if negb (boot_info_ok b && bundle_ok b && map_ok b) then Panic
  else if negb (boot_memory b (bi_address b) sizeof_SfBootInfo k && boot_memory b (bi_bundle b) (bi_bundle_bytes b) k) then Panic
  else
    let k := k <| bundle_phys := bi_bundle b |> <| bundle_bytes := bi_bundle_bytes b |> in
    let* k := require_features k in
    let k := device_init b (program_pic k) in
    if negb (all_below (boot_segment_ok b k) (Z.to_nat (bi_init_segment_count b))) then Panic
    else
      let '(r, k) := task_new (boot_plan b) true k in
      if negb (r =? 1) then Panic
      else scheduled (schedule (serial (txt "[CORE] entering isolated sf-init.sfmod, timer=100Hz") k)).

End Core.
