(* ===== verification/IpcInv.v ===== *)
(** * Capabilities and endpoints

    The invariant of [kernel/ipc.c]: every capability names a live endpoint
    of its epoch, every live endpoint is named by some capability, a blocked
    receiver has an empty queue, and generations stay below their limit. *)

From S2P Require Import Prelude Bytes CMem Abi Kernel Memory Ipc.

Section Lookup.
Context {H : Type}.
Implicit Types (k : Kernel H).

Lemma task_set_same i f k : (i < length (tasks k))%nat -> task (set_task i f k) i = f (task k i).
Proof. intros Hi. unfold task, set_task. simpl. rewrite alter_insert_total by done. by apply insert_lookup_total_eq. Qed.

Lemma task_set_other i j f k : i <> j -> task (set_task i f k) j = task k j.
Proof. intros Hij. unfold task, set_task. simpl. rewrite !list_lookup_total_alt. by rewrite list_lookup_alter_ne. Qed.

(** For updates that fix the default task, the slot need not be in range. *)
Lemma task_set i j f k : task (set_task i f k) j = if decide (i = j /\ (i < length (tasks k))%nat) then f (task k i) else task k j.
Proof.
  case_decide as Hd; [destruct Hd as [-> Hi]; by apply task_set_same|].
  destruct (decide (i = j)) as [->|]; [|by apply task_set_other].
  unfold task, set_task. simpl. rewrite !list_lookup_total_alt, list_lookup_alter_eq, lookup_ge_None_2 by lia. done.
Qed.

Lemma endpoint_set i j f k : endpoint (set_endpoint i f k) j =
  if decide (i = j /\ (i < length (endpoints k))%nat) then f (endpoint k i) else endpoint k j.
Proof.
  unfold endpoint, set_endpoint. simpl. case_decide as Hd.
  - destruct Hd as [-> Hi]. rewrite alter_insert_total by done. by apply insert_lookup_total_eq.
  - destruct (decide (i = j)) as [->|].
    + rewrite !list_lookup_total_alt, list_lookup_alter_eq, lookup_ge_None_2 by lia. done.
    + rewrite !list_lookup_total_alt. by rewrite list_lookup_alter_ne.
Qed.

Lemma length_set_task i f k : length (tasks (set_task i f k)) = length (tasks k).
Proof. apply length_alter. Qed.

Lemma length_set_endpoint i f k : length (endpoints (set_endpoint i f k)) = length (endpoints k).
Proof. apply length_alter. Qed.

Lemma alter_lookup_total {A} `{Inhabited A} (f : A -> A) i j (l : list A) :
  alter f i l !!! j = if decide (i = j /\ (i < length l)%nat) then f (l !!! i) else l !!! j.
Proof.
  case_decide as Hd.
  - destruct Hd as [-> Hi]. rewrite alter_insert_total by done. by apply insert_lookup_total_eq.
  - rewrite !list_lookup_total_alt. destruct (decide (i = j)) as [->|]; [|by rewrite list_lookup_alter_ne].
    rewrite list_lookup_alter_eq, lookup_ge_None_2 by lia. done.
Qed.

Lemma map_lookup_total {A} `{Inhabited A} (f : A -> A) j (l : list A) : f inhabitant = inhabitant -> map f l !!! j = f (l !!! j).
Proof.
  intros Hf. rewrite !list_lookup_total_alt, list_lookup_fmap. destruct (l !! j); simpl; [done|]. by rewrite Hf.
Qed.

Lemma cap_set ti s f k tj r : cap_of (set_cap ti s f k) tj r =
  if decide (ti = tj /\ (ti < length (tasks k))%nat /\ s = r /\ (s < length (caps (task k ti)))%nat)
  then f (cap_of k ti s) else cap_of k tj r.
Proof.
  unfold cap_of, set_cap. rewrite task_set. case_decide as Hd.
  - destruct Hd as [-> Hi]. simpl. rewrite alter_lookup_total. repeat case_decide; naive_solver.
  - case_decide; naive_solver.
Qed.

(** A capability update leaves everything else of the tasks alone. *)
Lemma set_cap_fields ti s f k tj :
  let t := task k tj in let t' := task (set_cap ti s f k) tj in
  pid t' = pid t /\ t_state t' = t_state t /\ wait_endpoint t' = wait_endpoint t /\ length (caps t') = length (caps t) /\
  cap_limit t' = cap_limit t.
Proof.
  simpl. unfold set_cap. rewrite task_set. case_decide as Hd; [|done]. destruct Hd as [-> _]. simpl.
  by rewrite length_alter.
Qed.

End Lookup.

(** ** The invariant *)

Definition ring_inv (e : Endpoint) : Prop := length (e_queue e) = 8%nat /\ 0 <= e_head e < 8 /\ 0 <= e_count e <= 8.

Section Invariant.
Context {H : Type} `{L : Layout}.
Implicit Types (k : Kernel H).

(** Capability [s] of task [ti] names endpoint [ep]. *)
Definition names k (ti s ep : nat) : Prop := c_endpoint (cap_of k ti s) = Z.of_nat ep + 1.

Record ipc_base k : Prop := {
  inv_tasks : length (tasks k) = SF_MAX_TASKS;
  inv_caps : forall ti, length (caps (task k ti)) = CAPS;
  inv_endpoints : length (endpoints k) = ENDPOINTS;
  inv_ring : forall i, ring_inv (endpoint k i);
  inv_generation : forall ti s, 0 <= c_generation (cap_of k ti s) <= CAP_GENERATIONS;
  inv_cap : forall ti s, c_endpoint (cap_of k ti s) <> 0 ->
    exists ep, (ep < ENDPOINTS)%nat /\ names k ti s ep /\ e_owner (endpoint k ep) <> 0 /\
      c_epoch (cap_of k ti s) = e_epoch (endpoint k ep);
  inv_wait : forall ti, t_state (task k ti) = T_BLOCKED ->
    exists ep, (ep < ENDPOINTS)%nat /\ wait_endpoint (task k ti) = Z.of_nat ep + 1 /\
      e_owner (endpoint k ep) <> 0 /\ e_count (endpoint k ep) = 0;
  inv_pid : forall ti, t_state (task k ti) = T_READY \/ t_state (task k ti) = T_BLOCKED -> pid (task k ti) <> 0
}.

(** Every live endpoint outside [X] is named. *)
Definition live_but (X : nat -> Prop) k : Prop :=
  forall ep, ~ X ep -> e_owner (endpoint k ep) <> 0 -> exists ti s, names k ti s ep.

(** A task that does not exist holds nothing. *)
Definition gone (t : Task) : Prop := t_state t = T_EMPTY \/ t_state t = T_DEAD.
Definition gone_but (Y : nat -> Prop) k : Prop :=
  forall ti s, ~ Y ti -> gone (task k ti) -> c_endpoint (cap_of k ti s) = 0.

(** [X] are endpoints that may be live without a name, [Y] tasks that may
    hold capabilities before they exist: both arise inside an operation. *)
Record ipc_ok (X Y : nat -> Prop) k : Prop := {
  ipc_is_base : ipc_base k;
  ipc_live : live_but X k;
  ipc_gone : gone_but Y k
}.

Definition none : nat -> Prop := fun _ => False.
Definition ipc_inv k : Prop := ipc_ok none none k.

Lemma zero_caps s : caps zero_task !!! s = zero_cap.
Proof.
  destruct (decide (s < CAPS)%nat); [by apply lookup_total_replicate_2|].
  rewrite list_lookup_total_alt, lookup_ge_None_2; [done|]. change (length (caps zero_task)) with CAPS. lia.
Qed.

(** Names in range. *)
Lemma names_range k ti s ep : ipc_base k -> names k ti s ep -> (ti < SF_MAX_TASKS)%nat /\ (s < CAPS)%nat.
Proof.
  intros Hinv Hn. unfold names, cap_of in Hn. split.
  - destruct (decide (ti < SF_MAX_TASKS)%nat) as [|Hge]; [done|]. unfold task in Hn.
    rewrite (list_lookup_total_alt (tasks k)), (lookup_ge_None_2 (tasks k)) in Hn by (rewrite (inv_tasks k Hinv); lia).
    change (c_endpoint (caps zero_task !!! s) = Z.of_nat ep + 1) in Hn. rewrite zero_caps in Hn. simpl in Hn. lia.
  - destruct (decide (s < CAPS)%nat) as [|Hge]; [done|].
    rewrite list_lookup_total_alt, lookup_ge_None_2 in Hn by (rewrite (inv_caps k Hinv); lia). simpl in Hn. lia.
Qed.

(** ** What depends on tasks and endpoints only *)

Lemma base_same k k' : tasks k' = tasks k -> endpoints k' = endpoints k -> ipc_base k -> ipc_base k'.
Proof.
  intros Et Ee [B1 B2 B3 B4 B5 B6 B7 B8].
  assert (T : forall i, task k' i = task k i) by (intros; unfold task; by rewrite Et).
  assert (E : forall i, endpoint k' i = endpoint k i) by (intros; unfold endpoint; by rewrite Ee).
  assert (C : forall i s, cap_of k' i s = cap_of k i s) by (intros; unfold cap_of; by rewrite T).
  constructor; try congruence; intros; unfold names in *; try setoid_rewrite E; rewrite ?T, ?E, ?C in *; auto.
Qed.

Lemma live_same X k k' : tasks k' = tasks k -> endpoints k' = endpoints k -> live_but X k -> live_but X k'.
Proof.
  intros Et Ee Hl ep Hx Ho. unfold live_but, names, cap_of, task, endpoint in *. rewrite Ee in Ho.
  destruct (Hl ep Hx Ho) as (ti & s & Hn). exists ti, s. by rewrite Et.
Qed.

Lemma gone_same Y k k' : tasks k' = tasks k -> gone_but Y k -> gone_but Y k'.
Proof. intros Et Hg ti s. unfold gone_but, cap_of, task in *. rewrite Et. apply Hg. Qed.

Lemma ok_same X Y k k' : tasks k' = tasks k -> endpoints k' = endpoints k -> ipc_ok X Y k -> ipc_ok X Y k'.
Proof.
  intros Et Ee [B Hl Hg]. constructor; [by apply base_same with k|by apply live_same with k|by apply gone_same with k].
Qed.

Lemma copy_out_loop_same fuel ti : forall dst bs k,
  let k' := copy_out_loop fuel ti dst bs k in
  tasks k' = tasks k /\ endpoints k' = endpoints k /\ ticks k' = ticks k /\ owner k' = owner k.
Proof.
  induction fuel as [|fuel IH]; intros dst bs k; simpl; [done|]. destruct (zlen bs =? 0); [done|].
  match goal with |- context [copy_out_loop fuel ti ?d ?b ?m] => destruct (IH d b m) as (-> & -> & -> & ->) end. done.
Qed.

Lemma copy_out_same ti dst bs k :
  let k' := (copy_out ti dst bs k).2 in
  tasks k' = tasks k /\ endpoints k' = endpoints k /\ ticks k' = ticks k /\ owner k' = owner k.
Proof. simpl. unfold copy_out. destruct (user_range _ _ _ _ _); simpl; [apply copy_out_loop_same|done]. Qed.

(** ** Updates of one task that keep its capabilities *)

Definition keeps_caps (t t' : Task) : Prop := caps t' = caps t /\ pid t' = pid t.

Lemma base_set_task i f k : (forall t, keeps_caps t (f t)) ->
  (t_state (f (task k i)) = T_BLOCKED -> exists ep, (ep < ENDPOINTS)%nat /\ wait_endpoint (f (task k i)) = Z.of_nat ep + 1 /\
      e_owner (endpoint k ep) <> 0 /\ e_count (endpoint k ep) = 0) ->
  (t_state (f (task k i)) = T_READY \/ t_state (f (task k i)) = T_BLOCKED -> pid (task k i) <> 0) ->
  ipc_base k -> ipc_base (set_task i f k).
Proof.
  intros Hf Hw Hp [B1 B2 B3 B4 B5 B6 B7 B8].
  assert (C : forall j s, cap_of (set_task i f k) j s = cap_of k j s).
  { intros j s. unfold cap_of. rewrite task_set. case_decide as Hd; [|done]. destruct Hd as [-> _]. by rewrite (proj1 (Hf _)). }
  constructor; [by rewrite length_set_task| |done|done| | | |].
  - intros j. rewrite task_set. case_decide; [|done]. by rewrite (proj1 (Hf _)).
  - intros j s. by rewrite C.
  - intros j s. unfold names. rewrite C. apply B6.
  - intros j. rewrite task_set. case_decide as Hd; [|apply B7]. apply Hw.
  - intros j. rewrite task_set. case_decide as Hd; [|apply B8]. rewrite (proj2 (Hf _)). apply Hp.
Qed.

Lemma live_set_task X i f k : (forall t, caps (f t) = caps t) -> live_but X k -> live_but X (set_task i f k).
Proof.
  intros Hf Hl ep Hx Ho. destruct (Hl ep Hx Ho) as (ti & s & Hn). exists ti, s. unfold names, cap_of in *.
  rewrite task_set. case_decide as Hd; [|done]. destruct Hd as [-> _]. by rewrite Hf.
Qed.

Lemma gone_set_task Y i f k : (forall t, caps (f t) = caps t) -> (gone (f (task k i)) -> gone (task k i)) ->
  gone_but Y k -> gone_but Y (set_task i f k).
Proof.
  intros Hf Hg Hc ti s. unfold cap_of. rewrite task_set. case_decide as Hd; [|apply Hc].
  destruct Hd as [-> _]. rewrite Hf. intros Hy Hgo. apply (Hc ti s Hy). by apply Hg.
Qed.

(** Waking a task. *)
Lemma ok_wake X Y i f k : (forall t, keeps_caps t (f t)) -> (forall t, t_state (f t) = T_READY) ->
  t_state (task k i) = T_BLOCKED -> ipc_ok X Y k -> ipc_ok X Y (set_task i f k).
Proof.
  intros Hf Hs Hb [B Hl Hg]. constructor.
  - apply base_set_task; [done|by rewrite Hs|intros _; apply (inv_pid k B); by right|done].
  - apply live_set_task; [intros t; apply Hf|done].
  - apply gone_set_task; [intros t; apply Hf| |done]. unfold gone. rewrite Hs. by intros [|].
Qed.

(** ** Updates of one endpoint *)

Lemma base_set_endpoint i f k : ipc_base k -> ring_inv (f (endpoint k i)) ->
  (e_owner (endpoint k i) <> 0 -> e_owner (f (endpoint k i)) <> 0 /\ e_epoch (f (endpoint k i)) = e_epoch (endpoint k i)) ->
  (e_owner (endpoint k i) <> 0 -> (exists ti, t_state (task k ti) = T_BLOCKED /\ wait_endpoint (task k ti) = Z.of_nat i + 1) ->
    e_count (f (endpoint k i)) = 0) ->
  ipc_base (set_endpoint i f k).
Proof.
  intros [B1 B2 B3 B4 B5 B6 B7 B8] Hr Ho Hc. constructor; [done|done|by rewrite length_set_endpoint| |done| | |done].
  - intros j. rewrite endpoint_set. by case_decide.
  - intros ti s Hne. destruct (B6 ti s Hne) as (ep & He & Hn & Hown & Hep). exists ep. rewrite endpoint_set.
    case_decide as Hd; [|done]. destruct Hd as [-> _]. destruct (Ho Hown) as [Ho1 Ho2]. rewrite Ho2. done.
  - intros ti Hb. destruct (B7 ti Hb) as (ep & He & Hn & Hown & Hcnt). exists ep. rewrite endpoint_set.
    case_decide as Hd; [|done]. destruct Hd as [-> _]. destruct (Ho Hown) as [Ho1 Ho2].
    split; [done|]. split; [done|]. split; [done|]. apply Hc; [done|]. by exists ti.
Qed.

Lemma ok_set_endpoint X Y i f k : ipc_ok X Y k -> ring_inv (f (endpoint k i)) ->
  e_owner (f (endpoint k i)) = e_owner (endpoint k i) -> e_epoch (f (endpoint k i)) = e_epoch (endpoint k i) ->
  ((exists ti, t_state (task k ti) = T_BLOCKED /\ wait_endpoint (task k ti) = Z.of_nat i + 1) -> e_count (f (endpoint k i)) = 0) ->
  ipc_ok X Y (set_endpoint i f k).
Proof.
  intros [B Hl Hg] Hr Ho He Hc. constructor.
  - apply base_set_endpoint; auto. intros. by rewrite Ho.
  - intros ep Hx Hown. apply (Hl ep Hx). rewrite endpoint_set in Hown. case_decide as Hd; [|done].
    destruct Hd as [-> _]. congruence.
  - exact Hg.
Qed.

(** ** [invalidate] *)

(** A loop that applies [f] to every task. *)
Lemma each_task (f : Z -> Task -> Task) k : length (tasks k) = SF_MAX_TASKS ->
  let k' := loop SF_MAX_TASKS (fun j k => set_task j (f (ticks k)) k) k in
  endpoints k' = endpoints k /\ length (tasks k') = SF_MAX_TASKS /\
  forall j, task k' j = if decide (j < SF_MAX_TASKS)%nat then f (ticks k) (task k j) else task k j.
Proof.
  intros Hl k'.
  pose (P := fun (n : nat) (k' : Kernel H) => endpoints k' = endpoints k /\ ticks k' = ticks k /\
    length (tasks k') = SF_MAX_TASKS /\ forall j, task k' j = if decide (j < n)%nat then f (ticks k) (task k j) else task k j).
  enough (HP : P SF_MAX_TASKS k') by (unfold P in HP; naive_solver).
  apply (loop_inv P); unfold P.
  - split; [done|]. split; [done|]. split; [done|]. intros j. by rewrite decide_False by lia.
  - intros n k1 Hn (E & T & Hl1 & Ht). split; [done|]. split; [done|]. split; [by rewrite length_set_task|].
    intros j. rewrite task_set, Hl1, T. case_decide as Hd.
    + destruct Hd as [-> _]. rewrite Ht, decide_False, decide_True by lia. done.
    + rewrite Ht. repeat case_decide; try done; lia.
Qed.

Definition cleared (i : nat) (c : Cap) : Cap := if c_endpoint c =? Z.of_nat i + 1 then c <| c_endpoint := 0 |> else c.

Lemma cleared_default i : cleared i zero_cap = zero_cap.
Proof. unfold cleared. destruct (Z.eqb_spec (c_endpoint zero_cap) (Z.of_nat i + 1)) as [E|]; [simpl in E; lia|done]. Qed.

Lemma invalidate_spec i k : length (tasks k) = SF_MAX_TASKS -> (i < length (endpoints k))%nat ->
  let k' := invalidate i k in
  length (endpoints k') = length (endpoints k) /\ length (tasks k') = SF_MAX_TASKS /\
  (forall j, endpoint k' j = if decide (i = j)
     then (endpoint k i) <| e_owner := 0 |> <| e_count := 0 |> <| e_epoch := u32 (e_epoch (endpoint k i) + 1) |>
     else endpoint k j) /\
  forall j, task k' j = if decide (j < SF_MAX_TASKS)%nat then invalidate_task i (ticks k) (task k j) else task k j.
Proof.
  intros Hl Hi k'. unfold k', invalidate. set (k1 := set_endpoint i _ k).
  destruct (each_task (invalidate_task i) k1 Hl) as (E & Hl' & Ht).
  split; [by rewrite E; unfold k1; rewrite length_set_endpoint|]. split; [done|]. split.
  - intros j. unfold endpoint at 1. rewrite E. change (endpoints k1 !!! j) with (endpoint k1 j). unfold k1.
    rewrite endpoint_set. repeat case_decide; naive_solver.
  - exact Ht.
Qed.

(** One task after [invalidate]. *)
Lemma invalidate_task_fields i t0 t :
  let t' := invalidate_task i t0 t in
  pid t' = pid t /\ wait_endpoint t' = wait_endpoint t /\ length (caps t') = length (caps t) /\
  (forall s, caps t' !!! s = cleared i (caps t !!! s)) /\
  t_state t' = (if in_tstate t T_BLOCKED && (wait_endpoint t =? Z.of_nat i + 1) then T_READY else t_state t).
Proof.
  simpl. unfold invalidate_task. destruct (_ && _); simpl; rewrite length_map;
    (split; [done|]; split; [done|]; split; [done|]; split; [|done]);
    intros s; apply (map_lookup_total (cleared i)); apply cleared_default.
Qed.

Lemma invalidate_cap i k ti s : length (tasks k) = SF_MAX_TASKS -> (i < length (endpoints k))%nat ->
  cap_of (invalidate i k) ti s = cleared i (cap_of k ti s).
Proof.
  intros Hl Hi. destruct (invalidate_spec i k Hl Hi) as (_ & _ & _ & Ht). unfold cap_of. rewrite Ht.
  case_decide as Hd; [apply invalidate_task_fields|].
  unfold task. rewrite (list_lookup_total_alt (tasks k)), (lookup_ge_None_2 (tasks k)) by lia.
  change (caps zero_task !!! s = cleared i (caps zero_task !!! s)). rewrite zero_caps. by rewrite cleared_default.
Qed.

Lemma cleared_zero i c : c_endpoint c = 0 -> c_endpoint (cleared i c) = 0.
Proof. unfold cleared. by destruct (_ =? _). Qed.

Lemma cleared_live i c : c_endpoint (cleared i c) <> 0 -> c_endpoint c <> Z.of_nat i + 1 /\ cleared i c = c.
Proof. unfold cleared. destruct (Z.eqb_spec (c_endpoint c) (Z.of_nat i + 1)); simpl; [done|]. auto. Qed.

Lemma ok_invalidate X Y i k : (i < ENDPOINTS)%nat -> (forall ep, X ep -> ep = i) -> ipc_ok X Y k -> ipc_ok none Y (invalidate i k).
Proof.
  intros Hi HX [B Hl Hg]. pose proof B as [B1 B2 B3 B4 B5 B6 B7 B8].
  assert (Hi' : (i < length (endpoints k))%nat) by (by rewrite B3).
  destruct (invalidate_spec i k B1 Hi') as (Le & Lt & He & Ht).
  assert (C : forall ti s, cap_of (invalidate i k) ti s = cleared i (cap_of k ti s)) by (intros; by apply invalidate_cap).
  set (k' := invalidate i k) in *. clearbody k'.
  assert (Hst : forall j, t_state (task k' j) = T_BLOCKED ->
    t_state (task k j) = T_BLOCKED /\ wait_endpoint (task k j) <> Z.of_nat i + 1 /\ wait_endpoint (task k' j) = wait_endpoint (task k j)).
  { intros j. rewrite Ht. case_decide as Hd.
    - destruct (invalidate_task_fields i (ticks k) (task k j)) as (_ & Ew & _ & _ & Es). rewrite Es, Ew. unfold in_tstate.
      destruct (bool_decide (t_state (task k j) = T_BLOCKED)) eqn:Eb; simpl.
      + destruct (Z.eqb_spec (wait_endpoint (task k j)) (Z.of_nat i + 1)); [done|]. auto.
      + apply bool_decide_eq_false in Eb. done.
    - intros Hb. destruct (B7 j Hb) as (ep & Hep & Hw & _). exfalso.
      unfold task in Hb. rewrite list_lookup_total_alt, lookup_ge_None_2 in Hb by lia. done. }
  constructor; [constructor| |].
  - done.
  - intros j. rewrite Ht. case_decide; [|done]. destruct (invalidate_task_fields i (ticks k) (task k j)) as (_ & _ & -> & _). done.
  - by rewrite Le.
  - intros j. rewrite He. case_decide; [|done]. destruct (B4 i) as (R1 & R2 & R3). split; [done|]. simpl. lia.
  - intros j s. rewrite C. unfold cleared. destruct (_ =? _); simpl; apply B5.
  - intros j s. rewrite C. intros Hne. destruct (cleared_live _ _ Hne) as [Hni Ec]. rewrite Ec in Hne |- *.
    destruct (B6 j s Hne) as (ep & Hep & Hn & Hown & Hepo). exists ep. unfold names in *.
    rewrite C, Ec, He, decide_False by (intros ->; congruence). done.
  - intros j Hb. destruct (Hst j Hb) as (Hb0 & Hw & Ew). destruct (B7 j Hb0) as (ep & Hep & Hwe & Hown & Hc).
    exists ep. rewrite He, decide_False, Ew by (intros ->; congruence). done.
  - intros j. rewrite Ht. case_decide as Hd; [|apply B8].
    destruct (invalidate_task_fields i (ticks k) (task k j)) as (-> & _ & _ & _ & ->). intros Hs. apply B8. unfold in_tstate in Hs.
    destruct (bool_decide (t_state (task k j) = T_BLOCKED)) eqn:Eb; simpl in Hs; [|done].
    apply bool_decide_eq_true in Eb. by right.
  - intros ep _ Hown. rewrite He in Hown. case_decide as Hd; [done|].
    destruct (Hl ep ltac:(intros Hx; apply Hd; symmetry; by apply HX) Hown) as (ti & s & Hn). exists ti, s.
    unfold names in *. rewrite C. unfold cleared. destruct (Z.eqb_spec (c_endpoint (cap_of k ti s)) (Z.of_nat i + 1)); [lia|done].
  - intros ti s Hy Hgo. rewrite C. apply cleared_zero. apply Hg; [done|]. unfold gone in *. revert Hgo. rewrite Ht.
    case_decide as Hd; [|done]. destruct (invalidate_task_fields i (ticks k) (task k ti)) as (_ & _ & _ & _ & ->).
    destruct (_ && _); [by intros [|]|done].
Qed.

(** ** Handles *)

Lemma handle_value g slot : 0 <= g -> (slot < CAPS)%nat -> handle_of g slot = g * 256 + Z.of_nat slot + 1.
Proof.
  intros Hg Hs. unfold handle_of, CAPS in *. rewrite Z.shiftl_mul_pow2 by lia. change (2 ^ 8) with 256.
  rewrite (lor_disjoint 8); [lia|lia|change (2 ^ 8) with 256; by rewrite Z.mod_mul by lia|change (2 ^ 8) with 256; lia].
Qed.

(** The slot [cap] returns is the one the handle names, live and with the rights. *)
Lemma cap_Some k ti h rights s : 0 <= h -> cap k ti h rights = Some s ->
  (s < CAPS)%nat /\ h mod 256 = Z.of_nat s + 1 /\ h <= UINT32_MAX /\ c_endpoint (cap_of k ti s) <> 0 /\
  c_generation (cap_of k ti s) = h / 256 /\ Z.land (c_rights (cap_of k ti s)) rights = rights /\
  e_owner (endpoint k (ep_of (cap_of k ti s))) <> 0 /\ c_epoch (cap_of k ti s) = e_epoch (endpoint k (ep_of (cap_of k ti s))).
Proof.
  intros Hh. unfold cap. destruct (Z.ltb_spec UINT32_MAX h); [done|].
  change 255 with (Z.ones 8). rewrite Z.land_ones, Z.shiftr_div_pow2 by lia. change (2 ^ 8) with 256.
  pose proof (Z.mod_pos_bound h 256 ltac:(lia)).
  destruct (Z.eqb_spec (h mod 256) 0); [done|]. destruct (Z.ltb_spec 32 (h mod 256)); [done|]. simpl.
  set (s' := Z.to_nat (h mod 256 - 1)). destruct (_ || _) eqn:E; [done|].
  apply orb_false_elim in E as [E E3]. apply orb_false_elim in E as [E1 E2].
  destruct (_ && _) eqn:F; [|done]. apply andb_prop in F as [F1 F2]. intros [= <-].
  apply negb_false_iff in E1, E2, E3. apply truthy_true in E1, F1. apply Z.eqb_eq in E2, E3, F2.
  unfold CAPS. repeat split; try done; unfold s'; lia.
Qed.

Lemma base_names k ti s : ipc_base k -> c_endpoint (cap_of k ti s) <> 0 ->
  names k ti s (ep_of (cap_of k ti s)) /\ (ep_of (cap_of k ti s) < ENDPOINTS)%nat /\
  e_owner (endpoint k (ep_of (cap_of k ti s))) <> 0 /\ (ti < SF_MAX_TASKS)%nat /\ (s < CAPS)%nat.
Proof.
  intros B Hne. destruct (inv_cap k B ti s Hne) as (ep & Hep & Hn & Ho & _).
  assert (E : ep_of (cap_of k ti s) = ep) by (unfold ep_of, names in *; lia). rewrite E.
  split; [done|]. split; [done|]. split; [done|]. by apply (names_range k ti s ep).
Qed.

(** ** [install] *)

Lemma cap_slot_Some t s : cap_slot t = Some s ->
  (s < CAPS)%nat /\ c_endpoint (caps t !!! s) = 0 /\ c_generation (caps t !!! s) < CAP_GENERATIONS /\
  task_caps_used t < cap_limit t <= SF_CAP_LIMIT_MAX.
Proof.
  unfold cap_slot. destruct (Z.ltb_spec SF_CAP_LIMIT_MAX (cap_limit t)); [done|].
  destruct (Z.leb_spec (cap_limit t) (task_caps_used t)); [done|]. simpl. intros (Hs & Hp & _)%find_index_Some.
  apply andb_prop in Hp as [Hp1 Hp2]. apply negb_true_iff, truthy_false in Hp1. apply Z.ltb_lt in Hp2. done.
Qed.

(** A successful [install] fills one empty slot with the next generation. *)
Lemma install_spec ti ep rights k h k' : ipc_base k -> (ti < SF_MAX_TASKS)%nat -> install ti ep rights k = (h, k') ->
  (h = SF_NO_SPACE /\ k' = k /\ cap_slot (task k ti) = None) \/
  exists s, cap_slot (task k ti) = Some s /\ 0 < h /\
    let g := c_generation (cap_of k ti s) + 1 in
    g <= CAP_GENERATIONS /\ h = g * 256 + Z.of_nat s + 1 /\
    k' = set_cap ti s (fun _ => MkCap (Z.of_nat ep + 1) (e_epoch (endpoint k ep)) rights g) k.
Proof.
  intros B Hti. unfold install. destruct (cap_slot (task k ti)) as [s|] eqn:Es; [|intros [= <- <-]; auto].
  destruct (cap_slot_Some _ _ Es) as (Hs & He & Hg & _). change (caps (task k ti) !!! s) with (cap_of k ti s) in *.
  pose proof (inv_generation k B ti s). unfold CAP_GENERATIONS, CAPS in *. intros [= <- <-]. right. exists s.
  rewrite u32_small, handle_value by (unfold CAPS; lia). unfold s32. rewrite Z.mod_small by lia.
  split; [done|]. split; [lia|]. split; [lia|]. split; [lia|done].
Qed.

Lemma ok_install X Y ti ep rights k : ipc_ok X Y k -> (ti < SF_MAX_TASKS)%nat -> (ep < ENDPOINTS)%nat ->
  e_owner (endpoint k ep) <> 0 -> (gone (task k ti) -> Y ti) ->
  ipc_ok X Y (install ti ep rights k).2 /\
  (cap_slot (task k ti) <> None -> ipc_ok (fun e => X e /\ e <> ep) Y (install ti ep rights k).2).
Proof.
  intros [B Hl Hg] Hti Hep Ho Hgo. destruct (install ti ep rights k) as [h k'] eqn:Ei. simpl.
  destruct (install_spec ti ep rights k h k' B Hti Ei) as [(-> & -> & Hn)|(s & Hs & Hh & Hgen & Hv & ->)].
  { split; [done|]. intros; congruence. }
  destruct (cap_slot_Some _ _ Hs) as (Hsl & Hse & _). change (caps (task k ti) !!! s) with (cap_of k ti s) in Hse.
  set (c := MkCap _ _ _ _). set (k' := set_cap ti s (fun _ => c) k).
  assert (C : forall tj r, cap_of k' tj r = if decide (ti = tj /\ s = r) then c else cap_of k tj r).
  { intros tj r. unfold k'. rewrite cap_set, (inv_tasks k B), (inv_caps k B). repeat case_decide; naive_solver. }
  assert (F : forall tj, pid (task k' tj) = pid (task k tj) /\ t_state (task k' tj) = t_state (task k tj) /\
    wait_endpoint (task k' tj) = wait_endpoint (task k tj) /\ length (caps (task k' tj)) = length (caps (task k tj)))
    by (intros tj; destruct (set_cap_fields ti s (fun _ => c) k tj) as (? & ? & ? & ? & ?); auto).
  assert (Hbase : ipc_base k').
  { pose proof B as [B1 B2 B3 B4 B5 B6 B7 B8]. constructor.
    - unfold k', set_cap. by rewrite length_set_task.
    - intros tj. destruct (F tj) as (_ & _ & _ & ->). done.
    - done.
    - done.
    - intros tj r. rewrite C. case_decide; [|done]. pose proof (B5 ti s). simpl. lia.
    - intros tj r. unfold names. rewrite C. case_decide; [|apply B6]. intros _. exists ep. done.
    - intros tj. destruct (F tj) as (_ & -> & -> & _). apply B7.
    - intros tj. destruct (F tj) as (-> & -> & _ & _). apply B8. }
  assert (Hnames : forall tj r e, names k tj r e -> names k' tj r e).
  { intros tj r e Hn. unfold names in *. rewrite C. case_decide as Hd; [|done]. destruct Hd as [<- <-]. lia. }
  assert (Hgone : gone_but Y k').
  { intros tj r Hy. unfold gone. destruct (F tj) as (_ & -> & _ & _). intros Hgj. rewrite C. case_decide as Hd.
    - destruct Hd as [<- <-]. by destruct Hy; apply Hgo.
    - by apply Hg. }
  split; [|intros _]; (constructor; [done| |done]); intros e Hx He.
  - destruct (Hl e Hx He) as (tj & r & Hn). exists tj, r. auto.
  - destruct (decide (e = ep)) as [->|Hne].
    + exists ti, s. unfold names. rewrite C, decide_True by done. done.
    + destruct (Hl e ltac:(tauto) He) as (tj & r & Hn). exists tj, r. auto.
Qed.

(** ** Losing capabilities *)

(** The same capability, or the same capability cleared. *)
Definition cap_le (c c' : Cap) : Prop := c' = c \/ c' = c <| c_endpoint := 0 |>.
Definition shrinks k k' : Prop := forall ti s, cap_le (cap_of k ti s) (cap_of k' ti s).

#[export] Instance shrinks_preorder : PreOrder shrinks.
Proof.
  split; [intros k ti s; by left|]. intros k1 k2 k3 H1 H2 ti s. unfold cap_le.
  destruct (H1 ti s) as [E1|E1], (H2 ti s) as [E2|E2]; rewrite E2, E1; auto.
Qed.

Lemma cleared_le i c : cap_le c (cleared i c).
Proof. unfold cleared, cap_le. destruct (_ =? _); auto. Qed.

Lemma shrinks_same k k' : tasks k' = tasks k -> shrinks k k'.
Proof. intros E ti s. left. unfold cap_of, task. by rewrite E. Qed.

Lemma shrinks_set_task i f k : (forall t, caps (f t) = caps t) -> shrinks k (set_task i f k).
Proof.
  intros Hf ti s. left. unfold cap_of. rewrite task_set. case_decide as Hd; [|done]. destruct Hd as [-> _]. by rewrite Hf.
Qed.

Lemma shrinks_invalidate i k : length (tasks k) = SF_MAX_TASKS -> (i < length (endpoints k))%nat -> shrinks k (invalidate i k).
Proof. intros Hl Hi ti s. rewrite invalidate_cap by done. apply cleared_le. Qed.

Lemma shrinks_zero k k' ti s : shrinks k k' -> c_endpoint (cap_of k ti s) = 0 -> c_endpoint (cap_of k' ti s) = 0.
Proof. intros Hs E. destruct (Hs ti s) as [-> | ->]; done. Qed.

(** ** Closing *)

Lemma referenced_true k ep : ipc_base k -> referenced k ep = true <-> exists ti s, names k ti s ep.
Proof.
  intros B. unfold referenced. destruct (find_index _ SF_MAX_TASKS) as [j|] eqn:Ef.
  - split; [intros _|done]. apply find_index_Some in Ef as (Hj & Hp & _).
    destruct (find_index _ CAPS) as [s|] eqn:Es; [|done]. apply find_index_Some in Es as (Hs & Hn & _).
    exists j, s. unfold names. by apply Z.eqb_eq in Hn.
  - split; [done|]. intros (ti & s & Hn). destruct (names_range k ti s ep B Hn) as [Hti Hs].
    rewrite find_index_None in Ef. specialize (Ef ti Hti). simpl in Ef.
    destruct (find_index _ CAPS) as [r|] eqn:Er; [done|]. rewrite find_index_None in Er. specialize (Er s Hs). simpl in Er.
    unfold names in Hn. rewrite Hn, Z.eqb_refl in Er. done.
Qed.

Lemma ok_close_cap Y ti s k : ipc_ok none Y k -> c_endpoint (cap_of k ti s) <> 0 ->
  ipc_ok none Y (close_cap ti s k) /\ shrinks k (close_cap ti s k) /\ c_endpoint (cap_of (close_cap ti s k) ti s) = 0.
Proof.
  intros [B Hl Hg] Hne. destruct (base_names k ti s B Hne) as (Hn & Hep & Ho & Hti & Hs).
  unfold close_cap. set (ep := ep_of (cap_of k ti s)) in *. set (k1 := set_cap ti s _ k).
  assert (C : forall tj r, cap_of k1 tj r = if decide (ti = tj /\ s = r) then (cap_of k ti s) <| c_endpoint := 0 |> else cap_of k tj r).
  { intros tj r. unfold k1. rewrite cap_set, (inv_tasks k B), (inv_caps k B). repeat case_decide; naive_solver. }
  assert (F : forall tj, pid (task k1 tj) = pid (task k tj) /\ t_state (task k1 tj) = t_state (task k tj) /\
    wait_endpoint (task k1 tj) = wait_endpoint (task k tj) /\ length (caps (task k1 tj)) = length (caps (task k tj)))
    by (intros tj; destruct (set_cap_fields ti s (fun c => c <| c_endpoint := 0 |>) k tj) as (? & ? & ? & ? & ?); auto).
  assert (Hshr : shrinks k k1).
  { intros tj r. rewrite C. case_decide as Hd; [destruct Hd as [<- <-]; by right|by left]. }
  assert (B' : ipc_base k1).
  { pose proof B as [B1 B2 B3 B4 B5 B6 B7 B8]. constructor.
    - unfold k1, set_cap. by rewrite length_set_task.
    - intros tj. destruct (F tj) as (_ & _ & _ & ->). done.
    - done.
    - done.
    - intros tj r. rewrite C. case_decide; [apply B5|done].
    - intros tj r. unfold names. rewrite C. case_decide; [done|apply B6].
    - intros tj. destruct (F tj) as (_ & -> & -> & _). apply B7.
    - intros tj. destruct (F tj) as (-> & -> & _ & _). apply B8. }
  assert (Hl' : live_but (fun e => e = ep) k1).
  { intros e Hx He. destruct (Hl e ltac:(intros []) He) as (tj & r & Hn'). exists tj, r. unfold names in *. rewrite C.
    case_decide as Hd; [|done]. destruct Hd as [<- <-]. destruct Hx. unfold ep, ep_of. lia. }
  assert (Hg' : gone_but Y k1).
  { intros tj r Hy. unfold gone. destruct (F tj) as (_ & -> & _ & _). intros Hgj. rewrite C. case_decide; [done|by apply Hg]. }
  assert (Hz : c_endpoint (cap_of k1 ti s) = 0) by (rewrite C, decide_True by done; done).
  destruct (referenced k1 ep) eqn:Er.
  - split; [|done]. constructor; [done| |done]. intros e _ He. destruct (decide (e = ep)) as [->|Hx]; [|by apply Hl'].
    by apply (referenced_true k1 ep B').
  - assert (Hlen : (ep < length (endpoints k1))%nat) by (by rewrite (inv_endpoints k1 B')).
    pose proof (shrinks_invalidate ep k1 (inv_tasks k1 B') Hlen) as Hs2.
    split; [by apply ok_invalidate with (fun e => e = ep)|]. split; [by transitivity k1|by apply (shrinks_zero k1)].
Qed.

(** After [ipc_cleanup] the task holds nothing. *)
Lemma ok_cleanup Y ti k : ipc_ok none Y k ->
  ipc_ok none Y (ipc_cleanup ti k) /\ shrinks k (ipc_cleanup ti k) /\ forall s, c_endpoint (cap_of (ipc_cleanup ti k) ti s) = 0.
Proof.
  intros Hok. unfold ipc_cleanup. set (k1 := loop ENDPOINTS _ k).
  assert (H1 : ipc_ok none Y k1 /\ shrinks k k1).
  { apply (loop_inv (fun _ k1 => ipc_ok none Y k1 /\ shrinks k k1)); [done|]. intros j k' Hj [Hk Hs].
    destruct (_ =? _); [|done]. split; [by apply ok_invalidate with none|]. transitivity k'; [done|].
    apply shrinks_invalidate; [apply (inv_tasks _ (ipc_is_base _ _ _ Hk))|]. by rewrite (inv_endpoints _ (ipc_is_base _ _ _ Hk)). }
  destruct H1 as [H1 S1]. clearbody k1.
  pose (P := fun (n : nat) k2 => ipc_ok none Y k2 /\ shrinks k k2 /\ forall s, (s < n)%nat -> c_endpoint (cap_of k2 ti s) = 0).
  assert (HP : P CAPS (loop CAPS (fun s k => if truthy (c_endpoint (cap_of k ti s)) then close_cap ti s k else k) k1)).
  { apply (loop_inv P); unfold P; [split; [done|]; split; [done|lia]|]. intros j k2 Hj (Hk & Hs & Hz).
    destruct (truthy _) eqn:E.
    - apply truthy_true in E. destruct (ok_close_cap Y ti j k2 Hk E) as (Hk' & Hs' & Hz'). split; [done|].
      split; [by transitivity k2|]. intros s Hs2. destruct (decide (s = j)) as [->|]; [done|].
      apply (shrinks_zero k2); [done|]. apply Hz. lia.
    - apply truthy_false in E. split; [done|]. split; [done|]. intros s Hs2. destruct (decide (s = j)) as [->|]; [done|]. apply Hz. lia. }
  destruct HP as (Hk & Hs & Hz). split; [done|]. split; [done|]. intros s. destruct (decide (s < CAPS)%nat); [by apply Hz|].
  unfold cap_of. rewrite list_lookup_total_alt, lookup_ge_None_2; [done|].
  rewrite (inv_caps _ (ipc_is_base _ _ _ Hk)). lia.
Qed.

End Invariant.
