(* ===== verification/SpaceInv.v ===== *)
(** * Page tables of a task

    The tables [Memory] builds for one task, as a tree of pool pages: what
    their entries hold, what they depend on, and what the kernel's lookups
    and the processor's walk read from them. *)

From S2P Require Import Prelude Bytes CMem Abi Kernel Memory Space IpcInv.

(** The pages of a tree, by their number in the pool: root, second level, the
    directory of the user gigabyte and its tables. *)
Record Tables := MkTables { t4 : nat; t3 : nat; t2 : option nat; t1 : nat -> option nat }.

Definition in_tables (T : Tables) (j : nat) : Prop :=
  j = t4 T \/ j = t3 T \/ t2 T = Some j \/ exists b, (b < 512)%nat /\ t1 T b = Some j.

(** The page [j] of the pool belongs to process [p]. *)
Definition owned {H} (k : Kernel H) (p : Z) (j : nat) : Prop := nth j (owner k) 0 = p.

Section Tree.
Context {H : Type} `{LO : LayoutOk}.
Implicit Types (k : Kernel H).

Definition opt_entry (o : option nat) : Z := match o with Some j => Z.lor (pool_page j) 7 | None => 0 end.

(** What a leaf entry may map for process [p]. *)
Inductive leaf_kind k (p : Z) (T : Tables) (e : Z) : Prop :=
| LeafPrivate j : (j < POOL_PAGES)%nat -> frame_of e = pool_page j -> owned k p j -> ~ in_tables T j -> leaf_kind k p T e
| LeafBundle : writable e = false -> bundle_phys k <= frame_of e < bundle_phys k + bundle_bytes k -> leaf_kind k p T e
| LeafDma : dma <= frame_of e < dma + SF_DMA_BYTES -> device_owner k = p -> leaf_kind k p T e
| LeafMmio : 0xc0000000 <= frame_of e -> device_owner k = p -> leaf_kind k p T e.

Record leaf_good k (p : Z) (T : Tables) (e : Z) : Prop := {
  lg_user : user_bit e = true;
  lg_wx : writable e = true -> executable e = true -> False;
  lg_kind : leaf_kind k p T e
}.

Definition leaf_ok k (p : Z) (T : Tables) (e : Z) : Prop := e = 0 \/ present e = true /\ leaf_good k p T e.

(** Entry [i] of the second level: the kernel's own gigabyte, the user's, and
    the window for registers. *)
Definition entry3 (T : Tables) (i e : Z) : Prop :=
  if i =? 0 then e = Z.lor kernel_pd 3
  else if i =? 1 then e = opt_entry (t2 T)
  else if i =? 3 then e = 0 \/ e = Z.lor mmio_pd 3
  else e = 0.

Record space k (p root : Z) (T : Tables) : Prop := {
  sp_root : root = pool_page (t4 T);
  sp_owned : forall j, in_tables T j -> (j < POOL_PAGES)%nat /\ owned k p j;
  sp_43 : t4 T <> t3 T;
  sp_2 : forall j, t2 T = Some j -> j <> t4 T /\ j <> t3 T;
  sp_1 : forall b j, (b < 512)%nat -> t1 T b = Some j -> j <> t4 T /\ j <> t3 T /\ t2 T <> Some j;
  sp_11 : forall b b' j, (b < 512)%nat -> (b' < 512)%nat -> t1 T b = Some j -> t1 T b' = Some j -> b = b';
  sp_none : t2 T = None -> forall b, t1 T b = None;
  sp_l4 : forall i, 0 <= i < 512 -> load64 (memory k) (slot64 (pool_page (t4 T)) i) = if i =? 0 then Z.lor (pool_page (t3 T)) 7 else 0;
  sp_l3 : forall i, 0 <= i < 512 -> entry3 T i (load64 (memory k) (slot64 (pool_page (t3 T)) i));
  sp_l2 : forall j b, t2 T = Some j -> (b < 512)%nat -> load64 (memory k) (slot64 (pool_page j) (Z.of_nat b)) = opt_entry (t1 T b);
  sp_l1 : forall b j c, (b < 512)%nat -> t1 T b = Some j -> 0 <= c < 512 -> leaf_ok k p T (load64 (memory k) (slot64 (pool_page j) c))
}.

(** ** Pages *)

Definition page_same k k' (j : nat) : Prop := forall a, pool_page j <= a < pool_page j + 4096 -> memory k' a = memory k a.

Lemma load_page_same k k' j i : page_same k k' j -> 0 <= i < 512 ->
  load64 (memory k') (slot64 (pool_page j) i) = load64 (memory k) (slot64 (pool_page j) i).
Proof. intros Hs Hi. apply load64_ext. intros x Hx. apply Hs. unfold slot64 in Hx. lia. Qed.

(** Every byte of the pool is in one page. *)
Lemma pool_byte a : pool <= a < pool + POOL_BYTES ->
  exists j, (j < POOL_PAGES)%nat /\ pool_page j <= a < pool_page j + 4096.
Proof.
  intros Ha. exists (Z.to_nat ((a - pool) / 4096)). unfold pool_page, POOL_PAGES, POOL_BYTES in *.
  pose proof (Z.div_mod (a - pool) 4096 ltac:(lia)). pose proof (Z.mod_pos_bound (a - pool) 4096 ltac:(lia)).
  assert (0 <= (a - pool) / 4096 < 4096) by (split; [apply Z.div_pos; lia|apply Z.div_lt_upper_bound; lia]). lia.
Qed.

Lemma page_in_pool j a : (j < POOL_PAGES)%nat -> pool_page j <= a < pool_page j + 4096 -> pool <= a < pool + POOL_BYTES.
Proof. unfold pool_page, POOL_PAGES, POOL_BYTES. lia. Qed.

(** A write inside one page leaves the others. *)
Lemma write_other_page m j j' a bs x : j <> j' -> pool_page j <= a -> a + zlen bs <= pool_page j + 4096 ->
  pool_page j' <= x < pool_page j' + 4096 -> mwrite m a bs x = m x.
Proof. intros Hj Ha Hb Hx. apply mwrite_out. destruct (pool_page_apart j j' Hj); lia. Qed.

Lemma slot_in_page j i : 0 <= i < 512 -> pool_page j <= slot64 (pool_page j) i /\ slot64 (pool_page j) i + 8 <= pool_page j + 4096.
Proof. unfold slot64. lia. Qed.

Lemma store_other_page m j j' i v x : j <> j' -> 0 <= i < 512 -> pool_page j' <= x < pool_page j' + 4096 ->
  store64 m (slot64 (pool_page j) i) v x = m x.
Proof.
  intros Hj Hi Hx. destruct (slot_in_page j i Hi). by apply (write_other_page m j j').
Qed.

Lemma store_same_page m j i i' v : 0 <= i < 512 -> 0 <= i' < 512 -> i <> i' ->
  load64 (store64 m (slot64 (pool_page j) i) v) (slot64 (pool_page j) i') = load64 m (slot64 (pool_page j) i').
Proof. intros. apply load64_store64_other. unfold slot64. lia. Qed.

(** ** What a tree depends on *)

Lemma leaf_ok_frame k k' p T e : (forall j, (j < POOL_PAGES)%nat -> owned k p j -> owned k' p j) ->
  (device_owner k = p -> device_owner k' = p) -> bundle_phys k' = bundle_phys k -> bundle_bytes k' = bundle_bytes k ->
  leaf_ok k p T e -> leaf_ok k' p T e.
Proof.
  intros Ho Hd E1 E2 [->|[Hp [Hu Hwx Hk]]]; [by left|]. right. split; [done|]. constructor; [done|done|].
  destruct Hk as [j Hj Hf Hown Ht|Hw Hb|Hdm Hown|Hb Hown].
  - by apply (LeafPrivate _ _ _ _ j); [| |apply Ho|].
  - apply LeafBundle; [done|]. by rewrite E1, E2.
  - apply LeafDma; auto.
  - apply LeafMmio; auto.
Qed.

Lemma space_frame k k' p root T : (forall j, in_tables T j -> page_same k k' j) ->
  (forall j, (j < POOL_PAGES)%nat -> owned k p j -> owned k' p j) -> (device_owner k = p -> device_owner k' = p) ->
  bundle_phys k' = bundle_phys k -> bundle_bytes k' = bundle_bytes k -> space k p root T -> space k' p root T.
Proof.
  intros Hs Ho Hd E1 E2 [S1 S2 S3 S4 S5 S6 S7 S8 S9 S10 S11].
  assert (Hl : forall j i, in_tables T j -> 0 <= i < 512 -> load64 (memory k') (slot64 (pool_page j) i) = load64 (memory k) (slot64 (pool_page j) i))
    by (intros; by apply load_page_same; [apply Hs|]).
  constructor; try done.
  - intros j Hj. destruct (S2 j Hj). auto.
  - intros i Hi. rewrite Hl; [by apply S8|by left|done].
  - intros i Hi. rewrite Hl; [by apply S9|by right; left|done].
  - intros j b Hj Hb. rewrite Hl; [by apply S10|by right; right; left|lia].
  - intros b j c Hb Hj Hc. rewrite Hl; [|right; right; right; by exists b|done]. apply (leaf_ok_frame k k'); try done. by apply (S11 b).
Qed.

(** ** Lookups *)

Lemma truthy_present e : truthy (Z.land e 1) = present e.
Proof. apply (truthy_bit e 0). lia. Qed.

Lemma pool_page_entry j : (j < POOL_PAGES)%nat -> present (opt_entry (Some j)) = true /\ frame_of (opt_entry (Some j)) = pool_page j /\
  0 <= opt_entry (Some j) <= UINT64_MAX.
Proof.
  intros Hj. destruct (pool_page_bounds j Hj). apply table_entry; [apply pool_page_aligned|lia].
Qed.

Lemma next_table_look t e k : next_table t e false k =
  (if present (load64 (memory k) e) then Some (frame_of (load64 (memory k) e)) else None, k).
Proof. unfold next_table. rewrite truthy_present. by destruct (present _). Qed.

Definition dir_index (v : Z) : nat := Z.to_nat (Z.land (Z.shiftr v 21) 511).
Definition tab_index (v : Z) : Z := Z.land (Z.shiftr v 12) 511.

Lemma land_511 x : 0 <= Z.land x 511 < 512.
Proof. change 511 with (Z.ones 9). rewrite Z.land_ones by lia. apply Z.mod_pos_bound. lia. Qed.

Lemma dir_index_lt v : (dir_index v < 512)%nat.
Proof. unfold dir_index. pose proof (land_511 (Z.shiftr v 21)). lia. Qed.

Lemma tab_index_lt v : 0 <= tab_index v < 512.
Proof. apply land_511. Qed.

Definition user_address (v : Z) : Prop := SF_BASE <= v < USER_END.
#[local] Instance user_address_dec v : Decision (user_address v).
Proof. unfold user_address. apply _. Defined.

Lemma user_gigabyte v : user_address v -> Z.shiftr v 30 = 1.
Proof. unfold user_address, SF_BASE, USER_END. intros Hv. rewrite Z.shiftr_div_pow2 by lia. symmetry. apply (Z.div_unique v (2 ^ 30) 1 (v - 2 ^ 30)); lia. Qed.

(** The address of the entry for [v], 0 where there is no table. *)
Definition entry_at (T : Tables) (v : Z) : Z :=
  match t1 T (dir_index v) with Some j => slot64 (pool_page j) (tab_index v) | None => 0 end.

Lemma space_root k p root T : space k p root T -> frame_of (load64 (memory k) (slot64 root 0)) = pool_page (t3 T) /\
  present (load64 (memory k) (slot64 root 0)) = true.
Proof.
  intros Hs. rewrite (sp_root _ _ _ _ Hs), (sp_l4 _ _ _ _ Hs) by lia. simpl.
  destruct (sp_owned _ _ _ _ Hs (t3 T)) as [Hj _]; [by right; left|]. by destruct (pool_page_entry _ Hj) as (? & ? & _).
Qed.

Lemma space_user_entry k p root T : space k p root T -> load64 (memory k) (slot64 (pool_page (t3 T)) 1) = opt_entry (t2 T).
Proof. intros Hs. apply (sp_l3 _ _ _ _ Hs 1). lia. Qed.

Lemma pte_look k p t T v : space k p (cr3 (task k t)) T -> user_address v -> pte t v false k = (entry_at T v, k).
Proof.
  intros Hs Hv. pose proof Hv as [Hv1 Hv2]. unfold pte. destruct (Z.ltb_spec v SF_BASE); [lia|]. destruct (Z.leb_spec USER_END v); [lia|].
  cbn [orb]. cbv zeta. destruct (space_root _ _ _ _ Hs) as [Er _]. unfold frame_of in Er. rewrite Er.
  rewrite user_gigabyte, next_table_look, (space_user_entry _ _ _ _ Hs) by done. unfold entry_at.
  destruct (t2 T) as [j2|] eqn:E2; [|rewrite (sp_none _ _ _ _ Hs E2); done].
  destruct (sp_owned _ _ _ _ Hs j2) as [Hj2 _]; [by right; right; left|]. destruct (pool_page_entry _ Hj2) as (-> & -> & _).
  rewrite next_table_look. replace (Z.land (Z.shiftr v 21) 511) with (Z.of_nat (dir_index v))
    by (unfold dir_index; pose proof (land_511 (Z.shiftr v 21)); lia).
  rewrite (sp_l2 _ _ _ _ Hs j2 (dir_index v) E2 (dir_index_lt v)).
  destruct (t1 T (dir_index v)) as [j1|] eqn:E1; [|done].
  destruct (sp_owned _ _ _ _ Hs j1) as [Hj1 _]; [right; right; right; exists (dir_index v); split; [apply dir_index_lt|done]|].
  by destruct (pool_page_entry _ Hj1) as (-> & -> & _).
Qed.

(** The leaf entry of [v]. *)
Definition leaf_at k (T : Tables) (v : Z) : Z := if entry_at T v =? 0 then 0 else load64 (memory k) (entry_at T v).

Lemma entry_at_nonzero k p root T v j : space k p root T -> t1 T (dir_index v) = Some j -> entry_at T v = slot64 (pool_page j) (tab_index v) /\ entry_at T v <> 0.
Proof.
  intros Hs E. unfold entry_at. rewrite E. split; [done|].
  destruct (sp_owned _ _ _ _ Hs j) as [Hj _]; [right; right; right; exists (dir_index v); split; [apply dir_index_lt|done]|].
  destruct (pool_page_bounds j Hj). destruct (slot_in_page j (tab_index v) (tab_index_lt v)). lia.
Qed.

Lemma leaf_at_ok k p root T v : space k p root T -> leaf_ok k p T (leaf_at k T v).
Proof.
  intros Hs. unfold leaf_at. destruct (t1 T (dir_index v)) as [j|] eqn:E.
  - destruct (entry_at_nonzero k p root T v j Hs E) as [Ee Hn]. rewrite (proj2 (Z.eqb_neq _ _) Hn), Ee.
    apply (sp_l1 _ _ _ _ Hs (dir_index v)); [apply dir_index_lt|done|apply tab_index_lt].
  - unfold entry_at. rewrite E. by left.
Qed.

(** ** The user-range check *)

Lemma page_ok_look k p t T w a : space k p (cr3 (task k t)) T -> user_address a ->
  page_ok t w a k = present (leaf_at k T a) && user_bit (leaf_at k T a) && negb (Z.testbit (leaf_at k T a) 9) && (negb w || writable (leaf_at k T a)).
Proof.
  intros Hs Ha. unfold page_ok. rewrite (pte_look k p t T a Hs Ha). cbn [fst]. unfold leaf_at.
  destruct (Z.eqb_spec (entry_at T a) 0) as [E|E]; cbn [orb negb]; [done|].
  rewrite truthy_present. rewrite (truthy_bit _ 2), (truthy_bit _ 9), (truthy_bit _ 1) by lia.
  unfold user_bit, writable. by destruct (present _), (Z.testbit _ 2), (Z.testbit _ 9), w, (Z.testbit _ 1).
Qed.

Lemma page_ok_user k t w a : page_ok t w a k = true -> user_address a.
Proof.
  unfold page_ok, pte, user_address. destruct (Z.ltb_spec a SF_BASE); [done|]. destruct (Z.leb_spec USER_END a); [done|]. lia.
Qed.

Lemma user_phys_look k p t T v : space k p (cr3 (task k t)) T -> user_address v ->
  user_phys t v k = if present (leaf_at k T v) then frame_of (leaf_at k T v) + Z.land v 4095 else 0.
Proof.
  intros Hs Hv. unfold user_phys. rewrite (pte_look k p t T v Hs Hv). cbn [fst]. unfold leaf_at.
  destruct (Z.eqb_spec (entry_at T v) 0) as [E|E]; cbn [negb andb]; [done|]. by rewrite truthy_present.
Qed.

(** Pages are what matters. *)
Lemma land_4095 v : Z.land v 4095 = v mod 4096.
Proof. change 4095 with (Z.ones 12). rewrite Z.land_ones by lia. done. Qed.

Lemma clear_4095 v : clear_bits v 4095 = v - v mod 4096.
Proof.
  unfold clear_bits. change 4095 with (Z.ones 12). rewrite Z.ldiff_ones_r by lia.
  rewrite Z.shiftr_div_pow2, Z.shiftl_mul_pow2 by lia. change (2 ^ 12) with 4096. pose proof (Z.div_mod v 4096 ltac:(lia)). lia.
Qed.

Lemma same_indices v x : 0 <= v -> x / 4096 = v / 4096 -> dir_index x = dir_index v /\ tab_index x = tab_index v.
Proof.
  intros Hv E. unfold dir_index, tab_index. rewrite !Z.shiftr_div_pow2 by lia. change (2 ^ 12) with 4096. rewrite E.
  replace (2 ^ 21) with (4096 * 512) by lia. rewrite <-!Z.div_div by lia. by rewrite E.
Qed.

Lemma leaf_at_page k T v x : 0 <= v -> x / 4096 = v / 4096 -> leaf_at k T x = leaf_at k T v.
Proof. intros Hv E. unfold leaf_at, entry_at. by destruct (same_indices v x Hv E) as [-> ->]. Qed.

Lemma range_loop_pages t w k n : forall a e, range_loop n t w a e k = true -> a <= e -> (e - a) mod 4096 = 0 ->
  forall i, 0 <= i -> a + 4096 * i <= e -> page_ok t w (a + 4096 * i) k = true.
Proof.
  induction n as [|n IH]; intros a e; cbn [range_loop]; [done|]. destruct (page_ok t w a k) eqn:Ep; [|done]. cbn [negb].
  destruct (Z.eqb_spec a e) as [->|Hne].
  - intros _ _ _ i Hi Hle. replace (e + 4096 * i) with e by lia. done.
  - intros Hl Hle Hm i Hi Hie. destruct (Z.eq_dec i 0) as [->|Hi0]; [by rewrite Z.add_0_r|].
    replace (a + 4096 * i) with (a + 4096 + 4096 * (i - 1)) by lia.
    assert (Hm' : (e - (a + 4096)) mod 4096 = 0) by (replace (e - (a + 4096)) with (e - a + -1 * 4096) by lia; by rewrite Z.mod_add).
    assert (a + 4096 <= e).
    { pose proof (Z.div_mod (e - a) 4096 ltac:(lia)). rewrite Hm in *. assert (0 < (e - a) / 4096) by lia. lia. }
    apply (IH _ e); [done|done|done|lia|lia].
Qed.

(** A leaf that user code may read, or write. *)
Definition good_leaf (w : bool) (e : Z) : Prop :=
  present e = true /\ user_bit e = true /\ Z.testbit e 9 = false /\ (w = true -> writable e = true).

Lemma page_ok_good k p t T w a : space k p (cr3 (task k t)) T -> page_ok t w a k = true -> good_leaf w (leaf_at k T a).
Proof.
  intros Hs Hp. rewrite (page_ok_look k p t T w a Hs (page_ok_user _ _ _ _ Hp)) in Hp.
  repeat (apply andb_prop in Hp as [Hp ?]). unfold good_leaf. apply negb_true_iff in H1. split; [done|]. split; [done|]. split; [done|].
  intros ->. done.
Qed.

Lemma user_range_good k p t T v n w : space k p (cr3 (task k t)) T -> user_range t v n w k = true ->
  forall x, v <= x < v + n -> user_address x /\ good_leaf w (leaf_at k T x).
Proof.
  intros Hs. unfold user_range. destruct (Z.ltb_spec v SF_BASE); [done|]. destruct (Z.leb_spec USER_END v); [done|].
  destruct (Z.ltb_spec (USER_END - v) n); [done|]. cbn [orb]. destruct (Z.eqb_spec n 0); [intros _ x Hx; lia|]. cbv zeta.
  rewrite !clear_4095. intros Hr x Hx. assert (Hu : user_address x) by (unfold user_address; lia). split; [done|].
  pose proof (Z.div_mod v 4096 ltac:(lia)) as Dv. pose proof (Z.div_mod (v + n - 1) 4096 ltac:(lia)) as De.
  pose proof (Z.div_mod x 4096 ltac:(lia)) as Dx. pose proof (Z.mod_pos_bound x 4096 ltac:(lia)).
  assert (v / 4096 <= x / 4096) by (apply Z.div_le_mono; lia). assert (x / 4096 <= (v + n - 1) / 4096) by (apply Z.div_le_mono; lia).
  set (y := (v - v mod 4096) + 4096 * (x / 4096 - v / 4096)). assert (Ey : y = 4096 * (x / 4096)) by (unfold y; lia).
  assert (Hy : page_ok t w y k = true).
  { apply (range_loop_pages t w k _ _ _ Hr); [lia| |lia|lia].
    replace (v + n - 1 - (v + n - 1) mod 4096 - (v - v mod 4096)) with (((v + n - 1) / 4096 - v / 4096) * 4096) by lia.
    apply Z.mod_mul. lia. }
  rewrite <-(leaf_at_page k T x y); [by apply (page_ok_good k p t)|unfold user_address, SF_BASE in Hu; lia|].
  rewrite Ey. rewrite Z.mul_comm. by apply Z.div_mul.
Qed.

(** A check that held still holds where the tables are the same. *)
Lemma user_range_ext k k' t v n w : (forall a, page_ok t w a k' = page_ok t w a k) -> user_range t v n w k' = user_range t v n w k.
Proof.
  intros E. unfold user_range. destruct (_ || _); [done|]. destruct (_ =? 0); [done|]. cbv zeta.
  generalize (Z.to_nat ((clear_bits (v + n - 1) 4095 - clear_bits v 4095) / 4096 + 1)) as f. generalize (clear_bits v 4095) as a.
  intros a f. revert a. induction f as [|f IH]; intros a; cbn [range_loop]; [done|].
  rewrite E. destruct (negb _); [done|]. destruct (_ =? _); [done|]. apply IH.
Qed.

Lemma leaf_at_same k k' p root T v : (forall j, in_tables T j -> page_same k k' j) -> space k p root T -> leaf_at k' T v = leaf_at k T v.
Proof.
  intros Hs Hsp. unfold leaf_at. destruct (t1 T (dir_index v)) as [j|] eqn:E; [|unfold entry_at; by rewrite E].
  destruct (entry_at_nonzero k p root T v j Hsp E) as [-> Hn].
  destruct (_ =? 0); [done|]. apply load_page_same; [|apply tab_index_lt]. apply Hs. right. right. right. exists (dir_index v).
  split; [apply dir_index_lt|done].
Qed.

Lemma user_range_frame k k' p t T v n w : (forall j, in_tables T j -> page_same k k' j) -> cr3 (task k' t) = cr3 (task k t) ->
  space k p (cr3 (task k t)) T -> space k' p (cr3 (task k t)) T -> user_range t v n w k' = user_range t v n w k.
Proof.
  intros Hs Ec S S'. apply user_range_ext. intros a. destruct (decide (user_address a)) as [Ha|Ha].
  - rewrite (page_ok_look k p t T), (page_ok_look k' p t T) by (done || by rewrite Ec). by rewrite (leaf_at_same k k' p _ T a Hs S).
  - destruct (page_ok t w a k) eqn:E1; [by apply page_ok_user in E1|]. destruct (page_ok t w a k') eqn:E2; [by apply page_ok_user in E2|done].
Qed.

(** ** Writes by a task or for it *)

(** A byte of a page that process [p] may fill. *)
Definition private_byte k (p : Z) (T : Tables) (a : Z) : Prop :=
  exists j, (j < POOL_PAGES)%nat /\ owned k p j /\ ~ in_tables T j /\ pool_page j <= a < pool_page j + 4096.

(** A byte of the device: the DMA arena or a register window. *)
Definition device_byte (a : Z) : Prop := dma_byte a \/ 0xc0000000 <= a.

Record wrote (p : Z) (T : Tables) k k' : Prop := {
  w_memory : forall a, memory k' a <> memory k a -> private_byte k p T a \/ device_byte a;
  w_owner : owner k' = owner k;
  w_device : device_owner k' = device_owner k;
  w_bundle : bundle_phys k' = bundle_phys k /\ bundle_bytes k' = bundle_bytes k
}.

Lemma wrote_refl p T k : wrote p T k k.
Proof. by constructor. Qed.

Lemma wrote_trans p T k1 k2 k3 : wrote p T k1 k2 -> wrote p T k2 k3 -> wrote p T k1 k3.
Proof.
  intros [A1 A2 A3 (A4 & A5)] [B1 B2 B3 (B4 & B5)]. constructor; try congruence; [|split; congruence]. intros a Ha.
  destruct (decide (memory k3 a = memory k2 a)) as [E|E]; [apply A1; congruence|].
  destruct (B1 a E) as [(j & Hj & Ho & Ht & Hx)|Hd]; [|by right]. left. exists j. unfold owned in *. by rewrite A2 in Ho.
Qed.

Lemma pool_page_unique i j a : pool_page i <= a < pool_page i + 4096 -> pool_page j <= a < pool_page j + 4096 -> i = j.
Proof. unfold pool_page. lia. Qed.

Lemma device_not_pool a : device_byte a -> pool <= a < pool + POOL_BYTES -> False.
Proof. unfold device_byte, dma_byte. intros Hd Hp. pose proof pool_end. destruct dma_apart; unfold POOL_BYTES in *; lia. Qed.

(** Pages of others and page tables are untouched. *)
Lemma wrote_pages p T k k' j : wrote p T k k' -> (j < POOL_PAGES)%nat -> (~ owned k p j \/ in_tables T j) -> page_same k k' j.
Proof.
  intros Hw Hj Hn a Ha. destruct (decide (memory k' a = memory k a)) as [|E]; [done|]. exfalso.
  destruct (w_memory _ _ _ _ Hw a E) as [(j' & Hj' & Ho & Ht & Hx)|Hd].
  - rewrite (pool_page_unique j' j a Hx Ha) in *. tauto.
  - by apply (device_not_pool a); [|apply (page_in_pool j)].
Qed.

Lemma wrote_space p T k k' root : wrote p T k k' -> space k p root T -> space k' p root T.
Proof.
  intros Hw Hs. pose proof Hw as [_ Eo Ed [E1 E2]]. apply (space_frame k); try done.
  - intros j Hj. apply (wrote_pages p T); [done|by apply (sp_owned _ _ _ _ Hs)|by right].
  - intros j _. unfold owned. by rewrite Eo.
  - by rewrite Ed.
Qed.

Lemma dma_page f a : dma <= f < dma + SF_DMA_BYTES -> f mod 4096 = 0 -> f <= a < f + 4096 -> dma_byte a.
Proof.
  intros Hf Hm Ha. unfold dma_byte, SF_DMA_BYTES in *. pose proof dma_aligned as Hd.
  pose proof (Z.div_mod f 4096 ltac:(lia)). pose proof (Z.div_mod dma 4096 ltac:(lia)). rewrite Hm, Hd in *. lia.
Qed.

(** A good writable leaf leads to private memory or the arena. *)
Lemma good_leaf_target k p T e a : leaf_ok k p T e -> good_leaf true e -> frame_of e <= a < frame_of e + 4096 -> private_byte k p T a \/ device_byte a.
Proof.
  intros [-> |[_ [_ _ Hk]]] (Hp & _ & Hm & Hw) Ha; [done|]. specialize (Hw eq_refl). destruct Hk as [j Hj Hf Ho Ht|Hb _|Hd _|Hx _].
  - left. exists j. rewrite Hf in Ha. done.
  - congruence.
  - right. left. apply (dma_page (frame_of e)); [done|apply frame_of_aligned|done].
  - right. right. lia.
Qed.

Lemma chunk_bounds v n : 0 < n -> 0 < chunk v n /\ chunk v n <= n /\ v mod 4096 + chunk v n <= 4096.
Proof. intros Hn. unfold chunk. rewrite land_4095. pose proof (Z.mod_pos_bound v 4096 ltac:(lia)). lia. Qed.

Lemma copy_out_loop_wrote p T t n : forall dst bs k, space k p (cr3 (task k t)) T ->
  (forall x, dst <= x < dst + zlen bs -> user_address x /\ good_leaf true (leaf_at k T x)) ->
  wrote p T k (copy_out_loop n t dst bs k).
Proof.
  induction n as [|n IH]; intros dst bs k Hs Hg; cbn [copy_out_loop]; cbv zeta; [apply wrote_refl|].
  destruct (Z.eqb_spec (zlen bs) 0) as [|Hz]; [apply wrote_refl|]. pose proof (zlen_nonneg bs).
  destruct (chunk_bounds dst (zlen bs) ltac:(lia)) as (Hc0 & Hc1 & Hc2). set (c := chunk dst (zlen bs)) in *.
  destruct (Hg dst ltac:(lia)) as [Hu Hgood]. rewrite (user_phys_look k p t T dst Hs Hu), (proj1 Hgood), land_4095.
  set (e := leaf_at k T dst) in *. pose proof (Z.mod_pos_bound dst 4096 ltac:(lia)).
  set (k1 := k <| memory ::= _ |>). assert (Hw : wrote p T k k1).
  { constructor; try done. intros a Ha. apply (good_leaf_target k p T e); [by apply (leaf_at_ok k p (cr3 (task k t)))|done|].
    assert (Hin : ~ (a < frame_of e + dst mod 4096 \/ frame_of e + dst mod 4096 + c <= a)).
    { intros Hout. apply Ha. apply mwrite_out. unfold zlen. rewrite length_take. lia. }
    lia. }
  apply (wrote_trans _ _ _ k1); [done|]. apply IH; [by apply (wrote_space p T k)|].
  intros x Hx. assert (Hx' : dst <= x < dst + zlen bs) by (unfold zlen in *; rewrite length_drop in Hx; lia).
  destruct (Hg x Hx') as [Hux Hgx]. split; [done|]. rewrite (leaf_at_same k k1 p (cr3 (task k t)) T x); [done| |done].
  intros j Hj. apply (wrote_pages p T); [done|by apply (sp_owned _ _ _ _ Hs)|by right].
Qed.

Lemma copy_out_wrote k p T t dst bs : space k p (cr3 (task k t)) T -> wrote p T k (copy_out t dst bs k).2.
Proof.
  intros Hs. unfold copy_out. destruct (user_range _ _ _ _ _) eqn:E; [|apply wrote_refl]. apply copy_out_loop_wrote; [done|].
  by apply (user_range_good k p t T).
Qed.

Lemma zlen_copy_in_loop t k n : forall src m, 0 <= m <= Z.of_nat n -> zlen (copy_in_loop n t src m k) = m.
Proof.
  induction n as [|n IH]; intros src m Hm; cbn [copy_in_loop]; [unfold zlen; simpl; lia|]. destruct (Z.eqb_spec m 0) as [->|Hz]; [done|]. cbv zeta.
  destruct (chunk_bounds src m ltac:(lia)) as (H0 & H1 & _). rewrite zlen_app, zlen_mread, IH by lia. lia.
Qed.

Lemma zlen_copy_in t src n k r bs : 0 <= n -> copy_in t src n k = (r, bs) -> truthy r = false -> zlen bs = n.
Proof.
  intros Hn. unfold copy_in. destruct (user_range _ _ _ _ _); intros [= <- <-]; [|done]. intros _. apply zlen_copy_in_loop. lia.
Qed.

(** ** The processor's view *)

Lemma aligned_low_bits p v n : p mod 4096 = 0 -> 0 <= n < 12 -> Z.testbit (Z.lor p v) n = Z.testbit v n.
Proof. intros Hp Hn. rewrite Z.lor_spec, (testbit_aligned 12 p n); [done|lia|exact Hp|lia]. Qed.

Lemma table_not_large j : large (opt_entry (Some j)) = false.
Proof. apply (aligned_low_bits (pool_page j) 7 7); [apply pool_page_aligned|lia]. Qed.

Lemma kernel_not_user : user_bit (Z.lor kernel_pd 3) = false /\ user_bit (Z.lor mmio_pd 3) = false.
Proof. split; apply aligned_low_bits; (apply kernel_pd_aligned || apply mmio_pd_aligned || lia). Qed.

Lemma in_page_small e va : in_page e va 12 = frame_of e + va mod 4096.
Proof.
  unfold in_page. change (Z.ones 12) with 4095. rewrite clear_4095, frame_of_aligned. change (2 ^ 12) with 4096. lia.
Qed.

(** A walk that user mode may use ends in a leaf of the tree. *)
Lemma walk_user k p root T va a es : space k p root T -> walk (memory k) root va = Some (a, es) -> forallb user_bit es = true ->
  exists e, leaf_ok k p T e /\ present e = true /\ a = frame_of e + va mod 4096 /\
    (forallb writable es = true -> writable e = true) /\ (forallb executable es = true -> executable e = true).
Proof.
  intros Hs. unfold walk, level. destruct (space_root _ _ _ _ Hs) as [Er Ep]. set (i4 := Z.land (Z.shiftr va (12 + 9 * 3)) 511).
  assert (H4 : 0 <= i4 < 512) by apply land_511. destruct (Z.eqb_spec i4 0) as [E4|E4].
  2: { rewrite (sp_root _ _ _ _ Hs), (sp_l4 _ _ _ _ Hs i4 H4), (proj2 (Z.eqb_neq _ _) E4). discriminate. }
  rewrite E4, Ep, Er. cbn [negb]. set (i3 := Z.land (Z.shiftr va (12 + 9 * 2)) 511). assert (H3 : 0 <= i3 < 512) by apply land_511.
  pose proof (sp_l3 _ _ _ _ Hs i3 H3) as E3. unfold entry3 in E3. destruct kernel_not_user as [N1 N2].
  set (e3 := load64 (memory k) (slot64 (pool_page (t3 T)) i3)) in *. clearbody e3.
  destruct (present e3) eqn:P3; cbn [negb]; [|discriminate].
  assert (Hnu : user_bit e3 = false -> forall rest a', Some (a', load64 (memory k) (slot64 root 0) :: e3 :: rest) = Some (a, es) -> forallb user_bit es = true -> False).
  { intros Hu rest a' [= _ <-] Hb. cbn [forallb] in Hb. rewrite Hu in Hb. apply andb_prop in Hb as [_ Hb]. discriminate. }
  destruct (Z.eqb_spec i3 1) as [E31|E31].
  2: { assert (Hu : user_bit e3 = false).
       { destruct (i3 =? 0); [by rewrite E3|]. destruct (i3 =? 3); [destruct E3 as [-> | ->]; done|by rewrite E3]. }
       intros Hw Hus. exfalso. destruct (large e3); [by apply (Hnu Hu [] _ Hw)|].
       destruct (negb _); [discriminate|]. destruct (large _); [by apply (Hnu Hu [_] _ Hw)|].
       destruct (negb _); [discriminate|]. by apply (Hnu Hu [_; _] _ Hw). }
  rewrite E31 in E3. simpl in E3. destruct (t2 T) as [j2|] eqn:E2; [|rewrite E3 in P3; done].
  destruct (sp_owned _ _ _ _ Hs j2) as [Hj2 _]; [by right; right; left|]. destruct (pool_page_entry _ Hj2) as (_ & F2 & _).
  rewrite E3, table_not_large, F2. set (i2 := Z.land (Z.shiftr va (12 + 9 * 1)) 511). assert (H2 : 0 <= i2 < 512) by apply land_511.
  rewrite <-(Z2Nat.id i2) by lia. rewrite (sp_l2 _ _ _ _ Hs j2 (Z.to_nat i2) E2 ltac:(lia)).
  destruct (t1 T (Z.to_nat i2)) as [j1|] eqn:E1; [|discriminate].
  destruct (sp_owned _ _ _ _ Hs j1) as [Hj1 _]; [right; right; right; exists (Z.to_nat i2); split; [lia|done]|].
  destruct (pool_page_entry _ Hj1) as (P1 & F1 & _). rewrite P1, table_not_large, F1. cbn [negb].
  set (i1 := Z.land (Z.shiftr va (12 + 9 * 0)) 511). assert (H1 : 0 <= i1 < 512) by apply land_511.
  pose proof (sp_l1 _ _ _ _ Hs (Z.to_nat i2) j1 i1 ltac:(lia) E1 H1) as Hleaf. set (e := load64 (memory k) (slot64 (pool_page j1) i1)) in *.
  clearbody e. destruct (present e) eqn:Pe; cbn [negb]; [|discriminate]. intros [= <- <-] _. exists e.
  split; [done|]. split; [done|]. split; [apply in_page_small|]. simpl. split; intros Hb; repeat (apply andb_prop in Hb as [? Hb]); done.
Qed.

(** Where a user program can read and write. *)
Lemma user_target k p root T va a : space k p root T -> user_reads (memory k) root va a ->
  private_byte k p T a \/ (device_owner k = p /\ device_byte a) \/
  (bundle_phys k <= a < bundle_phys k + bundle_bytes k + 4095 /\ ~ user_writes (memory k) root va a).
Proof.
  intros Hs (es & Hw & Hu). destruct (walk_user _ _ _ _ _ _ _ Hs Hw Hu) as (e & Hl & Hp & -> & Hwr & _).
  pose proof (Z.mod_pos_bound va 4096 ltac:(lia)). destruct Hl as [-> |[_ [_ _ [j Hj Hf Ho Ht|Hb Hr|Hd Hown|Hr Hown]]]]; [done| | | |].
  - left. exists j. rewrite Hf. split; [done|]. split; [done|]. split; [done|lia].
  - right. right. split; [lia|]. intros (es' & Hw' & _ & Hx). rewrite Hw in Hw'. injection Hw' as <-. rewrite (Hwr Hx) in Hb. done.
  - right. left. split; [done|]. left. apply (dma_page (frame_of e)); [done|apply frame_of_aligned|lia].
  - right. left. split; [done|]. right. lia.
Qed.

End Tree.
