(* ===== verification/IpcCalls.v ===== *)
(** * IPC system calls

    Message queues are first-in first-out, cancelling is filtering, no call
    gives a task more authority over an endpoint than it had, and a handle
    that has died stays dead. *)

From S2P Require Import Prelude Bytes CMem Abi Kernel Memory Ipc IpcInv.

(** ** Queues *)

(** The messages waiting at an endpoint, oldest first. *)
Definition queue (e : Endpoint) : list SfMessage := map (fun j => ring_at e (Z.of_nat j)) (seq 0 (Z.to_nat (e_count e))).

Lemma ring_at_set e a b m : length (e_queue e) = 8%nat -> 0 <= a < 8 -> 0 <= b < 8 ->
  ring_at (ring_set a m e) b = if a =? b then m else ring_at e b.
Proof.
  intros Hl Ha Hb. unfold ring_at, ring_set. simpl.
  pose proof (wrap_range (e_head e + a) 8 ltac:(lia)). pose proof (wrap_range (e_head e + b) 8 ltac:(lia)).
  destruct (Z.eqb_spec a b) as [->|Hn]; [apply insert_lookup_total_eq; lia|].
  apply insert_lookup_total_ne. intros He. apply Hn. apply (wrap_inj (e_head e) a b 8); lia.
Qed.

Lemma ring_set_fields a m e : e_head (ring_set a m e) = e_head e /\ e_count (ring_set a m e) = e_count e /\
  e_owner (ring_set a m e) = e_owner e /\ e_epoch (ring_set a m e) = e_epoch e /\
  length (e_queue (ring_set a m e)) = length (e_queue e).
Proof. unfold ring_set. simpl. rewrite length_insert. done. Qed.

Lemma length_queue e : 0 <= e_count e -> zlen (queue e) = e_count e.
Proof. intros. unfold queue, zlen. rewrite length_map, length_seq. lia. Qed.

Lemma queue_lookup e j : (j < Z.to_nat (e_count e))%nat -> queue e !!! j = ring_at e (Z.of_nat j).
Proof.
  intros Hj. unfold queue. rewrite list_lookup_total_alt, list_lookup_fmap, lookup_seq_lt by done. done.
Qed.

(** A queue given by its length and elements. *)
Lemma queue_eq e l : zlen l = e_count e -> (forall j, (j < length l)%nat -> ring_at e (Z.of_nat j) = l !!! j) -> queue e = l.
Proof.
  intros Hl He. unfold zlen in Hl. apply list_eq_total.
  - unfold queue. rewrite length_map, length_seq. lia.
  - unfold queue at 1. rewrite length_map, length_seq. intros j Hj. rewrite queue_lookup by done. apply He. lia.
Qed.

(** Pushing at the tail. *)
Lemma queue_push e m : ring_inv e -> e_count e < 8 ->
  let e' := ring_set (e_count e) m e <| e_count := e_count e + 1 |> in
  ring_inv e' /\ queue e' = queue e ++ [m].
Proof.
  intros (Hl & Hh & Hc) Hlt e'. destruct (ring_set_fields (e_count e) m e) as (F1 & F2 & F3 & F4 & F5).
  split; [unfold ring_inv, e'; simpl; rewrite length_insert; lia|].
  assert (Hz : zlen (queue e) = e_count e) by (apply length_queue; lia).
  apply queue_eq; [rewrite zlen_app, Hz, zlen_cons, zlen_nil; simpl; lia|].
  intros j Hj. rewrite length_app in Hj. simpl in Hj. unfold zlen in Hz.
  change (ring_at e' (Z.of_nat j)) with (ring_at (ring_set (e_count e) m e) (Z.of_nat j)).
  rewrite ring_at_set by lia. destruct (Z.eqb_spec (e_count e) (Z.of_nat j)) as [E|E].
  - rewrite lookup_total_app_r by lia. by replace (j - length (queue e))%nat with 0%nat by lia.
  - rewrite lookup_total_app_l by lia. by rewrite queue_lookup by lia.
Qed.

(** Popping at the head. *)
Lemma queue_pop e : ring_inv e -> 0 < e_count e ->
  let e' := e <| e_head := (e_head e + 1) mod 8 |> <| e_count := e_count e - 1 |> in
  ring_inv e' /\ queue e = ring_at e 0 :: queue e'.
Proof.
  intros (Hl & Hh & Hc) Hpos e'. split; [unfold ring_inv, e'; simpl; pose proof (wrap_range (e_head e + 1) 8 ltac:(lia)); lia|].
  apply queue_eq; [rewrite zlen_cons, length_queue by (simpl; lia); simpl; lia|].
  intros [|j] Hj; [done|]. simpl in Hj. assert (Hq : length (queue e') = Z.to_nat (e_count e - 1)).
  { pose proof (length_queue e' ltac:(simpl; lia)) as Hz. unfold zlen in Hz. simpl in Hz. lia. }
  simpl. rewrite queue_lookup by (simpl; lia). unfold ring_at, e'. simpl. do 2 f_equal.
  rewrite Z.add_mod_idemp_l by lia. f_equal. lia.
Qed.

(** ** Cancelling *)

Definition keeps (pid rid : Z) (m : SfMessage) : bool := negb ((h_flags (m_h m) =? pid) && (rid =? request_id (m_h m))).

(** The ring during compaction: [kept] survivors of the first [i] messages in
    front, the rest not yet touched. *)
Record compacting (pid rid : Z) (e0 : Endpoint) (i : nat) (s : Z * Endpoint) : Prop := {
  cp_fields : e_head s.2 = e_head e0 /\ e_count s.2 = e_count e0 /\ e_owner s.2 = e_owner e0 /\ e_epoch s.2 = e_epoch e0 /\
    length (e_queue s.2) = 8%nat;
  cp_kept : s.1 = zlen (List.filter (keeps pid rid) (take i (queue e0)));
  cp_front : forall j, Z.of_nat j < s.1 -> ring_at s.2 (Z.of_nat j) = List.filter (keeps pid rid) (take i (queue e0)) !!! j;
  cp_rest : forall j, (i <= j)%nat -> Z.of_nat j < e_count e0 -> ring_at s.2 (Z.of_nat j) = ring_at e0 (Z.of_nat j)
}.

Lemma length_filter_le {A} (p : A -> bool) l : (length (List.filter p l) <= length l)%nat.
Proof. induction l as [|x l IH]; simpl; [done|]. destruct (p x); simpl; lia. Qed.

Lemma cancel_step_ok pid rid e0 i s : ring_inv e0 -> Z.of_nat i < e_count e0 -> compacting pid rid e0 i s ->
  compacting pid rid e0 (S i) (cancel_step pid rid i s).
Proof.
  intros (Hl & Hh & Hc) Hi [(F1 & F2 & F3 & F4 & F5) Hk Hf Hr]. destruct s as [kept e]. simpl in *.
  assert (Hm : ring_at e (Z.of_nat i) = queue e0 !!! i) by (rewrite queue_lookup by lia; apply Hr; lia).
  assert (Hlen : (i < length (queue e0))%nat) by (unfold queue; rewrite length_map, length_seq; lia).
  assert (Hts : take (S i) (queue e0) = take i (queue e0) ++ [queue e0 !!! i]).
  { apply take_S_r. by apply list_lookup_lookup_total_lt. }
  set (l := List.filter (keeps pid rid) (take i (queue e0))) in *.
  assert (Hle : kept <= Z.of_nat i).
  { rewrite Hk. unfold l, zlen. pose proof (length_filter_le (keeps pid rid) (take i (queue e0))) as Hx. rewrite length_take in Hx. lia. }
  pose proof (zlen_nonneg l) as Hnn.
  unfold cancel_step. rewrite Hm. set (m := queue e0 !!! i) in *.
  assert (Hfil : List.filter (keeps pid rid) (take (S i) (queue e0)) = if keeps pid rid m then l ++ [m] else l).
  { rewrite Hts, List.filter_app. simpl. fold l. destruct (keeps pid rid m); [done|apply app_nil_r]. }
  unfold keeps in Hfil at 2. destruct (_ && _) eqn:E; simpl in Hfil.
  - constructor; simpl; [done|by rewrite Hfil|by rewrite Hfil|]. intros j Hj. apply Hr. lia.
  - set (e' := if kept =? Z.of_nat i then e else ring_set kept m e).
    assert (Hat : forall j, (j < 8)%nat -> ring_at e' (Z.of_nat j) = if Z.of_nat j =? kept then m else ring_at e (Z.of_nat j)).
    { intros j Hj. unfold e'. destruct (Z.eqb_spec kept (Z.of_nat i)) as [->|].
      - destruct (Z.eqb_spec (Z.of_nat j) (Z.of_nat i)) as [->|]; done.
      - rewrite ring_at_set by lia. by rewrite Z.eqb_sym. }
    constructor; simpl; rewrite ?Hfil.
    + unfold e'. destruct (kept =? Z.of_nat i); [done|]. destruct (ring_set_fields kept m e) as (-> & -> & -> & -> & ->). done.
    + rewrite zlen_app, zlen_cons, zlen_nil, Hk. lia.
    + intros j Hj. rewrite Hat by lia. unfold zlen in Hk. destruct (Z.eqb_spec (Z.of_nat j) kept).
      * rewrite lookup_total_app_r by lia. by replace (j - length l)%nat with 0%nat by lia.
      * rewrite lookup_total_app_l by lia. apply Hf. lia.
    + intros j Hij Hjc. rewrite Hat by lia. destruct (Z.eqb_spec (Z.of_nat j) kept); [lia|]. apply Hr; lia.
Qed.

Lemma cancel_queue_spec pid rid e : ring_inv e ->
  let '(r, e') := cancel_queue pid rid e in
  ring_inv e' /\ e_owner e' = e_owner e /\ e_epoch e' = e_epoch e /\ e_count e' <= e_count e /\
  queue e' = List.filter (keeps pid rid) (queue e) /\ r = zlen (queue e) - zlen (queue e').
Proof.
  intros Hinv. pose proof Hinv as (Hl & Hh & Hc). unfold cancel_queue.
  assert (Hcp : compacting pid rid e (Z.to_nat (e_count e)) (loop (Z.to_nat (e_count e)) (cancel_step pid rid) (0, e))).
  { apply (loop_inv (compacting pid rid e)).
    - constructor; simpl; [done|done|lia|done].
    - intros j s Hj. apply cancel_step_ok; [done|lia]. }
  destruct (loop _ _ _) as [kept e1]. destruct Hcp as [(F1 & F2 & F3 & F4 & F5) Hk Hf _]. simpl in *.
  assert (Hq : length (queue e) = Z.to_nat (e_count e)) by (unfold queue; by rewrite length_map, length_seq).
  rewrite take_ge in Hk, Hf by lia. set (l := List.filter (keeps pid rid) (queue e)) in *.
  pose proof (length_filter_le (keeps pid rid) (queue e)) as Hle. fold l in Hle. unfold zlen in Hk.
  assert (Hzq : zlen (queue e) = e_count e) by (apply length_queue; lia).
  destruct (Z.eqb_spec kept (e_count e)) as [E|E].
  - assert (Hqe : queue e1 = l) by (apply queue_eq; [unfold zlen; lia|intros j Hj; apply Hf; lia]).
    split; [unfold ring_inv; lia|]. split; [done|]. split; [done|]. split; [lia|]. split; [done|].
    rewrite Hqe, Hzq. unfold zlen. lia.
  - set (e2 := loop_from _ _ _ e1).
    assert (H2 : e_head e2 = e_head e /\ e_owner e2 = e_owner e /\ e_epoch e2 = e_epoch e /\ length (e_queue e2) = 8%nat /\
      forall j, Z.of_nat j < kept -> ring_at e2 (Z.of_nat j) = l !!! j).
    { unfold e2. apply (loop_from_inv (fun _ e2 => e_head e2 = e_head e /\ e_owner e2 = e_owner e /\ e_epoch e2 = e_epoch e /\
        length (e_queue e2) = 8%nat /\ forall j, Z.of_nat j < kept -> ring_at e2 (Z.of_nat j) = l !!! j)).
      - do 4 (split; [done|]). intros j Hj. by apply Hf.
      - intros i e' Hi (G1 & G2 & G3 & G4 & G5). destruct (ring_set_fields (Z.of_nat i) zero_message e') as (S1 & S2 & S3 & S4 & S5).
        rewrite S1, S3, S4, S5. do 4 (split; [done|]). intros j Hj. rewrite ring_at_set by lia.
        destruct (Z.eqb_spec (Z.of_nat i) (Z.of_nat j)); [lia|by apply G5]. }
    destruct H2 as (G1 & G2 & G3 & G4 & G5).
    set (e3 := e2 <| e_count := kept |> <| e_head := if kept =? 0 then 0 else e_head e2 |>).
    assert (Hqe : queue e3 = l).
    { apply queue_eq; [simpl; unfold zlen; lia|]. intros j Hj. rewrite <-G5 by lia. unfold ring_at, e3. simpl.
      destruct (Z.eqb_spec kept 0); [lia|done]. }
    split; [unfold ring_inv, e3; simpl; destruct (kept =? 0); lia|]. split; [done|]. split; [done|]. split; [simpl; lia|].
    split; [done|]. rewrite Hqe, Hzq. unfold zlen. lia.
Qed.

Section Calls.
Context {H : Type} `{L : Layout}.
Implicit Types (k : Kernel H).

(** ** What a call does to the capabilities *)

Definition unchanged_but k k' (ti s : nat) : Prop := forall tj r, (tj, r) <> (ti, s) -> cap_of k' tj r = cap_of k tj r.

(** Either capabilities are only lost, or [ti] gets one new capability in an
    empty slot: for an endpoint that was free, or with rights it already had
    on the endpoint. *)
Inductive cap_step (ti : nat) k k' : Prop :=
| CapShrink : shrinks k k' -> cap_step ti k k'
| CapNew s ep rights : (s < CAPS)%nat -> c_endpoint (cap_of k ti s) = 0 -> unchanged_but k k' ti s ->
    names k' ti s ep -> c_rights (cap_of k' ti s) = rights -> c_generation (cap_of k' ti s) = c_generation (cap_of k ti s) + 1 ->
    (e_owner (endpoint k ep) = 0 \/ exists s0, names k ti s0 ep /\ Z.land rights (c_rights (cap_of k ti s0)) = rights) ->
    cap_step ti k k'.

Lemma install_cap_step ti ep rights k0 k : ipc_base k -> (ti < SF_MAX_TASKS)%nat -> tasks k = tasks k0 ->
  (e_owner (endpoint k0 ep) = 0 \/ exists s0, names k0 ti s0 ep /\ Z.land rights (c_rights (cap_of k0 ti s0)) = rights) ->
  cap_step ti k0 (install ti ep rights k).2.
Proof.
  intros B Hti Et Hr. assert (C0 : forall i s, cap_of k i s = cap_of k0 i s) by (intros; unfold cap_of, task; by rewrite Et).
  destruct (install ti ep rights k) as [h k'] eqn:Ei.
  destruct (install_spec ti ep rights k h k' B Hti Ei) as [(-> & -> & Hn)|(s & Hs & Hh & Hgen & Hv & ->)]; simpl.
  { apply CapShrink. by apply shrinks_same. }
  destruct (cap_slot_Some _ _ Hs) as (Hsl & Hse & _). change (caps (task k ti) !!! s) with (cap_of k ti s) in Hse.
  set (c := MkCap _ _ _ _).
  assert (C : forall tj r, cap_of (set_cap ti s (fun _ => c) k) tj r = if decide (ti = tj /\ s = r) then c else cap_of k0 tj r).
  { intros tj r. rewrite cap_set, (inv_tasks k B), (inv_caps k B), C0. repeat case_decide; naive_solver. }
  apply (CapNew ti k0 _ s ep rights); [done|by rewrite <-C0| | | | |done].
  - intros tj r Hne. rewrite C, decide_False; [done|]. naive_solver.
  - unfold names. by rewrite C, decide_True.
  - by rewrite C, decide_True.
  - rewrite C, decide_True by done. unfold c. simpl. by rewrite C0.
Qed.

(** ** The calls keep the invariant *)

Definition keeps_inv (ti : nat) k k' : Prop := ipc_inv k' /\ cap_step ti k k'.

Lemma keeps_same ti k k' : tasks k' = tasks k -> endpoints k' = endpoints k -> ipc_inv k -> keeps_inv ti k k'.
Proof. intros Et Ee Hi. split; [by apply ok_same with k|]. apply CapShrink. by apply shrinks_same. Qed.

Lemma ok_ep_create ti k : ipc_inv k -> (ti < SF_MAX_TASKS)%nat -> t_state (task k ti) = T_READY ->
  keeps_inv ti k (sys_ep_create ti k).2.
Proof.
  intros Hi Hti Hst. pose proof Hi as [B Hl Hg]. unfold sys_ep_create.
  destruct (cap_slot (task k ti)) as [s0|] eqn:Es; [|by apply keeps_same].
  destruct (find_index _ ENDPOINTS) as [i|] eqn:Ef; [|by apply keeps_same].
  apply find_index_Some in Ef as (Hie & Hfree & _). apply negb_true_iff, truthy_false in Hfree.
  set (k1 := set_endpoint i _ k).
  assert (Hpid : pid (task k ti) <> 0) by (apply (inv_pid k B); auto).
  assert (Ho1 : e_owner (endpoint k1 i) <> 0).
  { unfold k1. rewrite endpoint_set, decide_True by (rewrite (inv_endpoints k B); done). done. }
  assert (H1 : ipc_ok (fun e => e = i) none k1).
  { constructor; [|intros e Hx He|exact Hg].
    - apply base_set_endpoint; [done| |done|done]. destruct (inv_ring k B i) as (R1 & R2 & R3). unfold ring_inv. simpl. lia.
    - unfold k1 in He. rewrite endpoint_set, decide_False in He by naive_solver. apply (Hl e); [intros []|done]. }
  assert (Hng : gone (task k1 ti) -> none ti).
  { intros [E|E]; change (task k1 ti) with (task k ti) in E; congruence. }
  destruct (ok_install _ _ ti i 7 k1 H1 Hti Hie Ho1 Hng) as [_ H2].
  specialize (H2 ltac:(change (task k1 ti) with (task k ti); congruence)).
  pose proof (install_cap_step ti i 7 k k1 (ipc_is_base _ _ _ H1) Hti eq_refl (or_introl Hfree)) as Hcs.
  destruct (install ti i 7 k1) as [h k2] eqn:Ei. simpl in *.
  destruct (install_spec ti i 7 k1 h k2 (ipc_is_base _ _ _ H1) Hti Ei) as [(_ & _ & Hn)|(s & _ & Hh & _)].
  { change (task k1 ti) with (task k ti) in Hn. congruence. }
  destruct (Z.ltb_spec h 0); [lia|]. split; [|done]. destruct H2 as [B2 L2 G2]. constructor; [done| |done].
  intros e _ He. apply (L2 e); [|done]. intros [-> ?]. done.
Qed.

Lemma ok_cap_close ti a k : 0 <= a -> ipc_inv k -> keeps_inv ti k (sys_cap_close ti a k).2.
Proof.
  intros Ha Hi. unfold sys_cap_close. destruct (cap k ti a 0) as [s|] eqn:Ec; [|by apply keeps_same].
  destruct (cap_Some k ti a 0 s Ha Ec) as (_ & _ & _ & Hne & _).
  destruct (ok_close_cap none ti s k Hi Hne) as (H1 & H2 & _). split; [done|by apply CapShrink].
Qed.

Lemma ok_cap_derive ti a b k : 0 <= a -> ipc_inv k -> (ti < SF_MAX_TASKS)%nat -> t_state (task k ti) = T_READY ->
  keeps_inv ti k (sys_cap_derive ti a b k).2.
Proof.
  intros Ha Hi Hti Hst. pose proof Hi as [B Hl Hg]. unfold sys_cap_derive.
  destruct (cap k ti a RIGHT_DELEGATE) as [s|] eqn:Ec; [|by apply keeps_same].
  destruct (cap_Some k ti a _ s Ha Ec) as (_ & _ & _ & Hne & _). destruct (base_names k ti s B Hne) as (Hn & Hep & Ho & _ & _).
  destruct (truthy (clear_bits b 7)); [by apply keeps_same|]. simpl.
  destruct (Z.eqb_spec (Z.land b (c_rights (cap_of k ti s))) b) as [Eb|]; [|by apply keeps_same]. simpl.
  split.
  - apply ok_install; [done|done|done|done|]. intros [E|E]; congruence.
  - apply install_cap_step; [done|done|done|]. right. by exists s.
Qed.

Lemma ok_cap_revoke ti a k : 0 <= a -> ipc_inv k -> keeps_inv ti k (sys_cap_revoke ti a k).2.
Proof.
  intros Ha Hi. pose proof Hi as [B Hl Hg]. unfold sys_cap_revoke.
  destruct (cap k ti a RIGHT_DELEGATE) as [s|] eqn:Ec; [|by apply keeps_same].
  destruct (cap_Some k ti a _ s Ha Ec) as (_ & _ & _ & Hne & _). destruct (base_names k ti s B Hne) as (Hn & Hep & Ho & _ & _).
  destruct (negb _); [by apply keeps_same|]. simpl. split; [by apply ok_invalidate with none|].
  apply CapShrink. apply shrinks_invalidate; [apply (inv_tasks k B)|by rewrite (inv_endpoints k B)].
Qed.

(** No receiver waits on an endpoint with messages. *)
Lemma waiting_empty k ep : ipc_base k ->
  (exists ti, t_state (task k ti) = T_BLOCKED /\ wait_endpoint (task k ti) = Z.of_nat ep + 1) -> e_count (endpoint k ep) = 0.
Proof.
  intros B (ti & Hb & Hw). destruct (inv_wait k B ti Hb) as (ep' & _ & Hw' & _ & Hc).
  by replace ep with ep' by lia.
Qed.

Lemma ok_send_cancel ti a b c k : ipc_inv k -> keeps_inv ti k (sys_send_cancel ti a b c k).2.
Proof.
  intros Hi. pose proof Hi as [B Hl Hg]. unfold sys_send_cancel.
  destruct (cap k ti a RIGHT_SEND) as [s|] eqn:Ec; [|by apply keeps_same].
  destruct (truthy c); [by apply keeps_same|]. set (ep := ep_of _). destruct (_ || _); [by apply keeps_same|].
  pose proof (cancel_queue_spec (pid (task k ti)) b (endpoint k ep) (inv_ring k B ep)) as Hq.
  destruct (cancel_queue _ _ _) as [r e']. destruct Hq as (Hr & Ho & He & Hc & _ & _). simpl.
  split; [|by apply CapShrink, shrinks_same]. apply ok_set_endpoint; [done|done|done|done|].
  intros Hw. pose proof (waiting_empty k ep B Hw). destruct Hr as (_ & _ & ?). lia.
Qed.

Lemma ok_deliver ti sender ep m k r k' : ipc_inv k -> deliver sender ep m k = Ret (r, k') -> keeps_inv ti k k'.
Proof.
  intros Hi. pose proof Hi as [B Hl Hg]. unfold deliver. destruct (find_index _ SF_MAX_TASKS) as [j|] eqn:Ef.
  - apply find_index_Some in Ef as (Hj & Hp & _). apply andb_prop in Hp as [Hp _]. unfold in_tstate in Hp.
    apply bool_decide_eq_true in Hp.
    pose proof (copy_out_same j (recv_buffer (task k j)) (message_bytes m) k) as (E1 & E2 & _).
    destruct (copy_out j _ _ k) as [c k1]. simpl in E1, E2. destruct (truthy c); [done|]. intros [= <- <-].
    set (k2 := k1 <| receive_bytes ::= _ |>).
    assert (H2 : keeps_inv ti k k2) by (by apply keeps_same). destruct H2 as [H2 _]. split.
    + apply ok_wake; [done|done| |done]. unfold task in *. change (tasks k2) with (tasks k1). by rewrite E1.
    + apply CapShrink. transitivity k2; [by apply shrinks_same|]. by apply shrinks_set_task.
  - destruct (Z.eqb_spec (e_count (endpoint k ep)) 8); intros [= <- <-]; [by apply keeps_same|].
    split; [|by apply CapShrink, shrinks_same]. pose proof (inv_ring k B ep) as Hr.
    destruct (queue_push (endpoint k ep) m Hr ltac:(destruct Hr as (_ & _ & ?); lia)) as [Hr' _].
    apply ok_set_endpoint; [done|done|done|done|]. intros (tj & Hb & Hw). exfalso.
    rewrite find_index_None in Ef. destruct (decide (tj < SF_MAX_TASKS)%nat) as [Htj|Htj].
    + specialize (Ef tj Htj). simpl in Ef. unfold in_tstate in Ef. rewrite bool_decide_eq_true_2, Hw, Z.eqb_refl in Ef by done. done.
    + unfold task in Hb. rewrite list_lookup_total_alt, lookup_ge_None_2 in Hb; [done|]. rewrite (inv_tasks k B). lia.
Qed.

Lemma ok_send ti a b k r k' : ipc_inv k -> sys_send ti a b k = Ret (r, k') -> keeps_inv ti k k'.
Proof.
  intros Hi. unfold sys_send. destruct (cap k ti a RIGHT_SEND) as [s|]; [|intros [= <- <-]; by apply keeps_same].
  destruct (copy_in _ _ _ _) as [c bytes]. destruct (truthy c); [intros [= <- <-]; by apply keeps_same|].
  set (k1 := k <| send_bytes ::= _ |>). assert (H1 : ipc_inv k1) by (by apply ok_same with k).
  destruct (message_bad _); [intros [= <- <-]; by apply keeps_same|].
  destruct (_ && _); [intros [= <- <-]; by apply keeps_same|]. intros Hd.
  destruct (ok_deliver ti _ _ _ k1 r k' H1 Hd) as [H2 Hc]. split; [done|]. destruct Hc as [Hs|s' ep rg Q1 Q2 Q3 Q4 Q5 Q6 Q7].
  - by apply CapShrink.
  - by apply (CapNew ti k k' s' ep rg).
Qed.

Lemma ok_recv ti a b c k : 0 <= a -> ipc_inv k -> t_state (task k ti) = T_READY -> keeps_inv ti k (sys_recv ti a b c k).2.
Proof.
  intros Ha Hi Hst. pose proof Hi as [B Hl Hg]. unfold sys_recv.
  destruct (cap k ti a RIGHT_RECV) as [s|] eqn:Ec; [|by apply keeps_same].
  destruct (cap_Some k ti a _ s Ha Ec) as (_ & _ & _ & Hne & _). destruct (base_names k ti s B Hne) as (Hn & Hep & Ho & Hti & _).
  destruct (negb _); [by apply keeps_same|]. set (ep := ep_of _) in *. destruct (truthy (e_count (endpoint k ep))) eqn:Et.
  - apply truthy_true in Et. pose proof (copy_out_same ti b (message_bytes (ring_at (endpoint k ep) 0)) k) as (E1 & E2 & _).
    destruct (copy_out ti b _ k) as [x k1]. simpl in E1, E2. destruct (truthy x); [by apply keeps_same|].
    set (k2 := k1 <| receive_bytes ::= _ |>). assert (H2 : ipc_inv k2) by (by apply ok_same with k).
    assert (Ee : endpoint k2 ep = endpoint k ep) by (unfold endpoint; change (endpoints k2) with (endpoints k1); by rewrite E2).
    pose proof (inv_ring k B ep) as Hr. destruct (queue_pop (endpoint k ep) Hr ltac:(destruct Hr as (_ & _ & ?); lia)) as [Hr' _].
    split; [|by apply CapShrink, shrinks_same].
    apply ok_set_endpoint; [done|by rewrite Ee|done|done|]. intros Hw.
    pose proof (waiting_empty k2 ep (ipc_is_base _ _ _ H2) Hw) as Hz. rewrite Ee in Hz. done.
  - apply truthy_false in Et. destruct (_ && _); [by apply keeps_same|]. simpl. split.
    + constructor.
      * apply base_set_task; [done| |intros _; apply (inv_pid k B); auto|done].
        intros _. exists ep. done.
      * by apply live_set_task.
      * apply gone_set_task; [done| |done]. unfold gone. simpl. by intros [|].
    + apply CapShrink. by apply shrinks_set_task.
Qed.

Lemma ok_syscall call a b c k r k' : ipc_inv k -> (Z.to_nat (current k) < SF_MAX_TASKS)%nat -> 0 <= a ->
  t_state (task k (Z.to_nat (current k))) = T_READY -> ipc_syscall call a b c k = Ret (r, k') ->
  keeps_inv (Z.to_nat (current k)) k k'.
Proof.
  intros Hi Hti Ha Hst. unfold ipc_syscall. set (ti := Z.to_nat (current k)) in *.
  destruct (_ =? SYS_EP_CREATE); [intros [= E]; pose proof (ok_ep_create ti k Hi Hti Hst) as Hk; by rewrite E in Hk|].
  destruct (_ =? SYS_CAP_CLOSE); [intros [= E]; pose proof (ok_cap_close ti a k Ha Hi) as Hk; by rewrite E in Hk|].
  destruct (_ =? SYS_CAP_DERIVE); [intros [= E]; pose proof (ok_cap_derive ti a b k Ha Hi Hti Hst) as Hk; by rewrite E in Hk|].
  destruct (_ =? SYS_CAP_REVOKE); [intros [= E]; pose proof (ok_cap_revoke ti a k Ha Hi) as Hk; by rewrite E in Hk|].
  destruct (_ =? SYS_SEND_CANCEL); [intros [= E]; pose proof (ok_send_cancel ti a b c k Hi) as Hk; by rewrite E in Hk|].
  destruct (_ =? SYS_SEND); [by apply ok_send|].
  destruct (_ =? SYS_RECV); [intros [= E]; pose proof (ok_recv ti a b c k Ha Hi Hst) as Hk; by rewrite E in Hk|].
  intros [= <- <-]. by apply keeps_same.
Qed.

End Calls.
