(* ===== verification/IpcSafe.v ===== *)
(** * IPC safety

    The events of the kernel that touch capabilities, endpoints or task
    states, the invariant in every state they reach from boot, and what that
    means for authority, handles and messages. *)

From S2P Require Import Prelude Bytes CMem Abi Kernel Memory Ipc IpcInv IpcCalls.

Section Safe.
Context {H : Type} `{L : Layout}.
Implicit Types (k : Kernel H).

(** ** Events *)

(** The fields of a task that IPC looks at. *)
Definition same_ipc (t t' : Task) : Prop :=
  caps t' = caps t /\ pid t' = pid t /\ t_state t' = t_state t /\ wait_endpoint t' = wait_endpoint t.

(** Anything else the kernel does: time, memory, devices, scheduling. *)
Definition env_step k k' : Prop :=
  length (tasks k') = length (tasks k) /\ endpoints k' = endpoints k /\ forall ti, same_ipc (task k ti) (task k' ti).

(** The slot of a new task: no capabilities, generations kept. *)
Definition new_task (p : Z) (t : Task) : Task :=
  t <| caps ::= map (fun c => c <| c_endpoint := 0 |>) |> <| pid := p |> <| t_state := T_EMPTY |> <| cap_limit := SF_CAP_LIMIT_MAX |>.

(** The grants of a new task, in order. *)
Definition grants (from slot : nat) (gs : list (Z * Z)) k : Kernel H :=
  foldl (fun k g => (ipc_grant from slot g.1 g.2 k).2) k gs.

(** Grants come from a running task; the first task gets none. *)
Definition creator k (from : nat) (gs : list (Z * Z)) : Prop :=
  (gs = [] \/ t_state (task k from) = T_READY) /\ Forall (fun g => 0 <= g.1) gs.

Definition finish (st : task_state) (t : Task) : Task := t <| t_state := st |>.

Inductive ipc_step k : Kernel H -> Prop :=
| StepCall call a b c r k' : (Z.to_nat (current k) < SF_MAX_TASKS)%nat -> t_state (task k (Z.to_nat (current k))) = T_READY ->
    0 <= a -> ipc_syscall call a b c k = Ret (r, k') -> ipc_step k k'
| StepDeadlines : ipc_step k (ipc_deadlines k)
| StepExit ti : ipc_step k (set_task ti (finish T_DEAD) (ipc_cleanup ti k))
| StepSpawn slot from p gs k1 : gone (task k slot) -> (slot < SF_MAX_TASKS)%nat -> creator k from gs -> p <> 0 ->
    env_step (grants from slot gs (set_task slot (new_task p) k)) k1 -> ipc_step k (set_task slot (finish T_READY) k1)
| StepSpawnFail slot from p gs k1 : gone (task k slot) -> (slot < SF_MAX_TASKS)%nat -> creator k from gs ->
    env_step (grants from slot gs (set_task slot (new_task p) k)) k1 ->
    ipc_step k (set_task slot (finish T_DEAD) (ipc_cleanup slot k1))
| StepEnv k' : env_step k k' -> ipc_step k k'.

Inductive ipc_steps k : Kernel H -> Prop :=
| StepsNil : ipc_steps k k
| StepsSnoc k1 k2 : ipc_steps k k1 -> ipc_step k1 k2 -> ipc_steps k k2.

(** ** The invariant holds everywhere *)

Lemma ok_env X Y k k' : env_step k k' -> ipc_ok X Y k -> ipc_ok X Y k'.
Proof.
  intros (Hl & He & Ht) [[B1 B2 B3 B4 B5 B6 B7 B8] Hlv Hg].
  assert (E : forall i, endpoint k' i = endpoint k i) by (intros; unfold endpoint; by rewrite He).
  assert (C : forall i s, cap_of k' i s = cap_of k i s) by (intros i s; unfold cap_of; by destruct (Ht i) as (-> & _)).
  constructor; [constructor| |].
  - congruence.
  - intros ti. destruct (Ht ti) as (-> & _). done.
  - congruence.
  - intros i. by rewrite E.
  - intros ti s. by rewrite C.
  - intros ti s. unfold names. rewrite C. setoid_rewrite E. apply B6.
  - intros ti. destruct (Ht ti) as (_ & _ & -> & ->). setoid_rewrite E. apply B7.
  - intros ti. destruct (Ht ti) as (_ & -> & -> & _). apply B8.
  - intros ep Hx. rewrite E. intros Ho. destruct (Hlv ep Hx Ho) as (ti & s & Hn). exists ti, s. unfold names. by rewrite C.
  - intros ti s Hy. unfold gone. destruct (Ht ti) as (_ & _ & -> & _). rewrite C. by apply Hg.
Qed.

Lemma ok_deadlines X Y k : ipc_ok X Y k -> ipc_ok X Y (ipc_deadlines k) /\ shrinks k (ipc_deadlines k).
Proof.
  intros Hi. unfold ipc_deadlines. apply (loop_inv (fun _ k' => ipc_ok X Y k' /\ shrinks k k')); [done|].
  intros j k' Hj [Hk Hs]. destruct (_ && _) eqn:E; [|done]. apply andb_prop in E as [E _]. apply andb_prop in E as [E _].
  unfold in_tstate in E. apply bool_decide_eq_true in E. split; [by apply ok_wake|].
  transitivity k'; [done|]. by apply shrinks_set_task.
Qed.

(** A task that holds nothing may go. *)
Lemma ok_finish_dead Y ti k : ipc_ok none Y k -> (forall s, c_endpoint (cap_of k ti s) = 0) ->
  ipc_ok none (fun i => Y i /\ i <> ti) (set_task ti (finish T_DEAD) k) /\ shrinks k (set_task ti (finish T_DEAD) k).
Proof.
  intros [B Hl Hg] Hz. split; [|by apply shrinks_set_task]. constructor.
  - apply base_set_task; [done|done|by intros [|]|done].
  - by apply live_set_task.
  - intros tj s Hy. unfold cap_of. rewrite task_set. case_decide as Hd.
    + destruct Hd as [<- _]. intros _. apply Hz.
    + intros Hgo. destruct (decide (tj = ti)) as [->|Hne]; [apply Hz|]. apply Hg; [|done]. tauto.
Qed.

Lemma ok_weaken X Y Y' k : (forall i, Y i -> Y' i) -> ipc_ok X Y k -> ipc_ok X Y' k.
Proof. intros Hy [B Hl Hg]. constructor; [done|done|]. intros ti s Hn. apply Hg. auto. Qed.

Lemma ok_exit k ti : ipc_inv k -> ipc_inv (set_task ti (finish T_DEAD) (ipc_cleanup ti k)) /\
  shrinks k (set_task ti (finish T_DEAD) (ipc_cleanup ti k)).
Proof.
  intros Hi. destruct (ok_cleanup none ti k Hi) as (H1 & Hs & Hz). destruct (ok_finish_dead none ti _ H1 Hz) as [H2 H3].
  split; [|by transitivity (ipc_cleanup ti k)]. revert H2. apply ok_weaken. intros i []. done.
Qed.

Lemma ok_grant X slot from h rights k : 0 <= h -> ipc_ok X (fun i => i = slot) k -> (slot < SF_MAX_TASKS)%nat ->
  ipc_ok X (fun i => i = slot) (ipc_grant from slot h rights k).2.
Proof.
  intros Hh Hi Hs. unfold ipc_grant. destruct (cap k from h RIGHT_DELEGATE) as [s|] eqn:Ec; [|done].
  destruct (cap_Some k from h _ s Hh Ec) as (_ & _ & _ & Hne & _).
  destruct (base_names k from s (ipc_is_base _ _ _ Hi) Hne) as (_ & Hep & Ho & _ & _).
  destruct (negb _); [done|]. by apply ok_install.
Qed.

Lemma ok_grants X slot from gs : forall k, Forall (fun g => 0 <= g.1) gs -> ipc_ok X (fun i => i = slot) k ->
  (slot < SF_MAX_TASKS)%nat -> ipc_ok X (fun i => i = slot) (grants from slot gs k).
Proof.
  induction gs as [|g gs IH]; intros k Hg Hi Hs; simpl; [done|]. apply Forall_cons_1 in Hg as [Hh Hg].
  apply IH; [done| |done]. by apply ok_grant.
Qed.

(** Admitting a task into a slot that holds nothing changes no capability. *)
Lemma new_task_caps slot p k : ipc_inv k -> gone (task k slot) -> forall ti s, cap_of (set_task slot (new_task p) k) ti s = cap_of k ti s.
Proof.
  intros Hi Hg ti s. unfold cap_of. rewrite task_set. case_decide as Hd; [|done]. destruct Hd as [<- _]. simpl.
  rewrite map_lookup_total by done. pose proof (ipc_gone _ _ _ Hi slot s ltac:(intros []) Hg) as Hz. unfold cap_of in Hz.
  destruct (caps (task k slot) !!! s) as [ep' epo rg gen]. simpl in *. by rewrite Hz.
Qed.

Lemma ok_new_task slot p k : ipc_inv k -> gone (task k slot) -> ipc_ok none (fun i => i = slot) (set_task slot (new_task p) k).
Proof.
  intros Hi Hg. pose proof (new_task_caps slot p k Hi Hg) as C. pose proof Hi as [[B1 B2 B3 B4 B5 B6 B7 B8] Hl Hgo].
  assert (T : forall ti, ti <> slot -> task (set_task slot (new_task p) k) ti = task k ti) by (intros; by apply task_set_other).
  assert (S0 : forall ti, t_state (task (set_task slot (new_task p) k) ti) = T_BLOCKED \/ t_state (task (set_task slot (new_task p) k) ti) = T_READY ->
    task (set_task slot (new_task p) k) ti = task k ti).
  { intros ti. rewrite task_set. case_decide; [|done]. simpl. by intros [|]. }
  constructor; [constructor| |].
  - by rewrite length_set_task.
  - intros ti. rewrite task_set. case_decide; [|done]. simpl. by rewrite length_map.
  - done.
  - done.
  - intros ti s. by rewrite C.
  - intros ti s. unfold names. rewrite C. apply B6.
  - intros ti Hb. rewrite (S0 ti) in * by auto. by apply B7.
  - intros ti Hb. rewrite (S0 ti) in * by tauto. by apply B8.
  - intros ep Hx Ho. destruct (Hl ep Hx Ho) as (ti & s & Hn). exists ti, s. unfold names. by rewrite C.
  - intros ti s Hy. rewrite C. rewrite T by done. intros Hg'. apply Hgo; [intros []|done].
Qed.

Lemma grant_pid slot from h rights k ti : pid (task (ipc_grant from slot h rights k).2 ti) = pid (task k ti).
Proof.
  unfold ipc_grant, install. destruct (cap _ _ _ _) as [s|]; [|done]. destruct (negb _); [done|].
  destruct (cap_slot _) as [s'|]; [|done]. simpl. apply set_cap_fields.
Qed.

Lemma grants_pid slot from gs ti : forall k, pid (task (grants from slot gs k) ti) = pid (task k ti).
Proof. induction gs as [|g gs IH]; intros k; simpl; [done|]. rewrite IH. apply grant_pid. Qed.

Lemma ok_granted slot from p gs k k1 : ipc_inv k -> gone (task k slot) -> (slot < SF_MAX_TASKS)%nat -> creator k from gs ->
  env_step (grants from slot gs (set_task slot (new_task p) k)) k1 ->
  ipc_ok none (fun i => i = slot) k1 /\ pid (task k1 slot) = p.
Proof.
  intros Hi Hg Hs [_ Hgs] He. split.
  - eapply ok_env; [exact He|]. apply ok_grants; [done|by apply ok_new_task|done].
  - destruct He as (_ & _ & Ht). destruct (Ht slot) as (_ & -> & _).
    rewrite grants_pid, task_set_same by (rewrite (inv_tasks k (ipc_is_base _ _ _ Hi)); done). done.
Qed.

Lemma ok_finish_ready slot k : ipc_ok none (fun i => i = slot) k -> pid (task k slot) <> 0 -> (slot < SF_MAX_TASKS)%nat ->
  ipc_inv (set_task slot (finish T_READY) k).
Proof.
  intros [B Hl Hgo] Hp Hs. constructor.
  - by apply base_set_task.
  - by apply live_set_task.
  - intros ti s _. unfold cap_of. rewrite task_set. case_decide as Hd.
    + destruct Hd as [<- _]. by intros [|].
    + intros Hg'. apply Hgo; [|done]. intros ->. apply Hd. by rewrite (inv_tasks k B).
Qed.

Lemma ok_step k k' : ipc_inv k -> ipc_step k k' -> ipc_inv k'.
Proof.
  intros Hi [call a b c r k1 Hc Hst Ha Hr| |ti|slot from p gs k1 Hg Hsl Hgs Hp He|slot from p gs k1 Hg Hsl Hgs He|k1 He].
  - by destruct (ok_syscall call a b c k r k1 Hi Hc Ha Hst Hr).
  - by destruct (ok_deadlines none none k Hi).
  - by destruct (ok_exit k ti Hi).
  - destruct (ok_granted slot from p gs k k1 Hi Hg Hsl Hgs He) as [H1 Hpid]. apply ok_finish_ready; [done|by rewrite Hpid|done].
  - destruct (ok_granted slot from p gs k k1 Hi Hg Hsl Hgs He) as [H1 _].
    destruct (ok_cleanup _ slot _ H1) as (H2 & _ & Hz). destruct (ok_finish_dead _ slot _ H2 Hz) as [H3 _].
    revert H3. apply ok_weaken. intros i []. done.
  - by apply ok_env with k.
Qed.

Lemma replicate_default {A} `{Inhabited A} n i : replicate n (inhabitant : A) !!! i = inhabitant.
Proof.
  destruct (decide (i < n)%nat); [by apply lookup_total_replicate_2|].
  rewrite list_lookup_total_alt, lookup_ge_None_2; [done|]. rewrite length_replicate. lia.
Qed.

Lemma boot_inv m (h : H) : ipc_inv (boot_kernel m h).
Proof.
  assert (T : forall ti, task (boot_kernel m h) ti = zero_task) by (intros ti; exact (replicate_default SF_MAX_TASKS ti)).
  assert (E : forall i, endpoint (boot_kernel m h) i = zero_endpoint) by (intros i; exact (replicate_default ENDPOINTS i)).
  assert (C : forall ti s, cap_of (boot_kernel m h) ti s = zero_cap) by (intros; unfold cap_of; rewrite T; apply zero_caps).
  constructor; [constructor| |].
  - done.
  - intros ti. by rewrite T.
  - done.
  - intros i. rewrite E. unfold ring_inv. simpl. lia.
  - intros ti s. rewrite C. simpl. sflia.
  - intros ti s. rewrite C. done.
  - intros ti. by rewrite T.
  - intros ti. rewrite T. by intros [|].
  - intros ep _. by rewrite E.
  - intros ti s _ _. by rewrite C.
Qed.

Lemma ok_steps k k' : ipc_inv k -> ipc_steps k k' -> ipc_inv k'.
Proof. intros Hi Hs. induction Hs as [|k1 k2 _ IH Hs]; [done|]. by apply ok_step with k1. Qed.

(** ** Capabilities over time *)

(** A slot later: the same, emptied, or reused under a higher generation. *)
Definition cap_after (c c' : Cap) : Prop := cap_le c c' \/ c_generation c < c_generation c'.
Definition ages k k' : Prop := forall ti s, cap_after (cap_of k ti s) (cap_of k' ti s).

Lemma cap_le_generation c c' : cap_le c c' -> c_generation c' = c_generation c.
Proof. by intros [-> | ->]. Qed.

#[export] Instance ages_preorder : PreOrder ages.
Proof.
  split; [intros k ti s; left; by left|]. intros k1 k2 k3 A1 A2 ti s. destruct (A1 ti s) as [L1|G1], (A2 ti s) as [L2|G2].
  - left. destruct L1 as [E1 | E1], L2 as [E2 | E2]; rewrite E2, E1; [by left|by right|by right|by right].
  - right. apply cap_le_generation in L1. lia.
  - right. apply cap_le_generation in L2. lia.
  - right. lia.
Qed.

Lemma ages_shrinks k k' : shrinks k k' -> ages k k'.
Proof. intros Hs ti s. by left. Qed.

Lemma ages_cap_step ti k k' : cap_step ti k k' -> ages k k'.
Proof.
  intros [Hs|s ep rg _ _ Hu _ _ Hgen _]; [by apply ages_shrinks|]. intros tj r.
  destruct (decide ((tj, r) = (ti, s))) as [[= -> ->]|Hne]; [right; lia|]. left. left. by apply Hu.
Qed.

Lemma same_caps_ages k k' : (forall ti s, cap_of k' ti s = cap_of k ti s) -> ages k k'.
Proof. intros E ti s. left. left. apply E. Qed.

(** One grant: nothing, or one new capability in a slot of the new task with
    rights the giver holds together with the right to delegate. *)
Lemma grant_caps X slot from h rights k : 0 <= h -> ipc_ok X (fun i => i = slot) k -> (slot < SF_MAX_TASKS)%nat ->
  let k' := (ipc_grant from slot h rights k).2 in
  (forall ti s, cap_of k' ti s = cap_of k ti s) \/
  exists s s0, c_endpoint (cap_of k slot s) = 0 /\ unchanged_but k k' slot s /\
    c_generation (cap_of k' slot s) = c_generation (cap_of k slot s) + 1 /\
    c_endpoint (cap_of k from s0) <> 0 /\ c_endpoint (cap_of k' slot s) = c_endpoint (cap_of k from s0) /\
    Z.land (c_rights (cap_of k' slot s)) (c_rights (cap_of k from s0)) = c_rights (cap_of k' slot s) /\
    Z.land (c_rights (cap_of k from s0)) RIGHT_DELEGATE = RIGHT_DELEGATE.
Proof.
  intros Hh Hi Hs. pose proof (ipc_is_base _ _ _ Hi) as B. unfold ipc_grant.
  destruct (cap k from h RIGHT_DELEGATE) as [s0|] eqn:Ec; [|by left].
  destruct (cap_Some k from h _ s0 Hh Ec) as (_ & _ & _ & Hne & _ & Hd & _).
  destruct (base_names k from s0 B Hne) as (Hn & _). unfold names in Hn.
  destruct (Z.eqb_spec (Z.land rights (c_rights (cap_of k from s0))) rights) as [Er|]; [|by left]. simpl.
  destruct (install slot _ rights k) as [r k'] eqn:Ei. simpl.
  destruct (install_spec _ _ _ _ _ _ B Hs Ei) as [(_ & -> & _)|(s & Hsl & _ & _ & _ & ->)]; [by left|]. right.
  destruct (cap_slot_Some _ _ Hsl) as (Hsc & Hse & _). change (caps (task k slot) !!! s) with (cap_of k slot s) in Hse.
  exists s, s0. set (c := MkCap _ _ _ _).
  assert (C : forall tj q, cap_of (set_cap slot s (fun _ => c) k) tj q = if decide (slot = tj /\ s = q) then c else cap_of k tj q).
  { intros tj q. rewrite cap_set, (inv_tasks k B), (inv_caps k B). repeat case_decide; naive_solver. }
  rewrite C, decide_True by done. split; [done|]. split; [|done].
  intros tj q Hx. rewrite C, decide_False; [done|]. naive_solver.
Qed.

(** Task [ti] holds the rights [r] on endpoint [ep] in one capability. *)
Definition holds k (ti ep : nat) (r : Z) : Prop := exists s, names k ti s ep /\ Z.land r (c_rights (cap_of k ti s)) = r.

(** The same, in a capability that may be delegated. *)
Definition may_give k (ti ep : nat) (r : Z) : Prop :=
  exists s, names k ti s ep /\ Z.land r (c_rights (cap_of k ti s)) = r /\ Z.land (c_rights (cap_of k ti s)) RIGHT_DELEGATE = RIGHT_DELEGATE.

(** The capabilities while a new task in [slot] receives grants. *)
Record granted (slot from : nat) k0 k : Prop := {
  gr_ages : ages k0 k;
  gr_other : forall ti s, ti <> slot -> cap_of k ti s = cap_of k0 ti s;
  gr_new : forall ep r, holds k slot ep r -> may_give k0 from ep r
}.

Lemma land_sub_trans r a b : Z.land r a = r -> Z.land a b = a -> Z.land r b = r.
Proof. intros Hr Ha. rewrite <-Hr at 1. rewrite <-Z.land_assoc, Ha. exact Hr. Qed.

Lemma granted_step X slot from h rights k0 k : 0 <= h -> ipc_ok X (fun i => i = slot) k -> (slot < SF_MAX_TASKS)%nat -> from <> slot ->
  granted slot from k0 k -> granted slot from k0 (ipc_grant from slot h rights k).2.
Proof.
  intros Hh Hi Hs Hf [Ga Go Gn].
  destruct (grant_caps X slot from h rights k Hh Hi Hs) as [E|(s & s0 & Hse & Hu & Hg & Hne & Hep & Hr & Hd)];
    set (k' := (ipc_grant from slot h rights k).2) in *; clearbody k'.
  - constructor.
    + transitivity k; [done|by apply same_caps_ages].
    + intros ti s Hti. by rewrite E, Go.
    + intros ep r (s & Hn & Hl). apply Gn. exists s. unfold names in *. by rewrite E in Hn, Hl.
  - constructor.
    + transitivity k; [done|]. intros tj q. destruct (decide ((tj, q) = (slot, s))) as [[= -> ->]|Hx]; [right; lia|].
      left. left. by apply Hu.
    + intros ti q Hti. rewrite Hu by congruence. by apply Go.
    + intros ep r (q & Hn & Hl). destruct (decide (q = s)) as [->|Hq].
      * exists s0. unfold names in *. rewrite <-!(Go from) by done. split; [congruence|]. split; [|done].
        by apply land_sub_trans with (c_rights (cap_of k' slot s)).
      * apply Gn. exists q. unfold names in *. by rewrite (Hu slot q) in Hn, Hl by congruence.
Qed.

Lemma granted_grants slot from k0 gs : forall k, Forall (fun g => 0 <= g.1) gs -> ipc_ok none (fun i => i = slot) k ->
  (slot < SF_MAX_TASKS)%nat -> gs = [] \/ from <> slot -> granted slot from k0 k -> granted slot from k0 (grants from slot gs k).
Proof.
  induction gs as [|g gs IH]; intros k Hg Hi Hs Hf Hk; simpl; [done|]. apply Forall_cons_1 in Hg as [Hh Hg].
  destruct Hf as [?|Hf]; [done|]. apply IH; [done|by apply ok_grant|done|by right|]. by apply granted_step with none.
Qed.

Lemma env_caps k k' : env_step k k' -> forall ti s, cap_of k' ti s = cap_of k ti s.
Proof. intros (_ & _ & Ht) ti s. unfold cap_of. by destruct (Ht ti) as (-> & _). Qed.

Lemma granted_env slot from k0 k k' : env_step k k' -> granted slot from k0 k -> granted slot from k0 k'.
Proof.
  intros He [Ga Go Gn]. pose proof (env_caps _ _ He) as C. constructor.
  - transitivity k; [done|by apply same_caps_ages].
  - intros ti s Hti. by rewrite C, Go.
  - intros ep r (s & Hn & Hl). apply Gn. exists s. unfold names in *. by rewrite C in Hn, Hl.
Qed.

Lemma granted_spawn slot from p gs k k1 : ipc_inv k -> gone (task k slot) -> (slot < SF_MAX_TASKS)%nat -> creator k from gs ->
  env_step (grants from slot gs (set_task slot (new_task p) k)) k1 -> granted slot from k k1.
Proof.
  intros Hi Hg Hs [Hc Hgs] He. pose proof (new_task_caps slot p k Hi Hg) as C. eapply granted_env; [exact He|].
  apply granted_grants; [done|by apply ok_new_task|done| |].
  - destruct Hc as [->|Hc]; [by left|]. right. intros ->. destruct Hg; congruence.
  - constructor; [by apply same_caps_ages|intros; apply C|].
    intros ep r (s & Hn & _). unfold names in Hn. rewrite C in Hn.
    rewrite (ipc_gone _ _ _ Hi slot s ltac:(intros []) Hg) in Hn. lia.
Qed.

Lemma ages_step k k' : ipc_inv k -> ipc_step k k' -> ages k k'.
Proof.
  intros Hi [call a b c r k1 Hc Hst Ha Hr| |ti|slot from p gs k1 Hg Hsl Hgs Hp He|slot from p gs k1 Hg Hsl Hgs He|k1 He].
  - apply (ages_cap_step (Z.to_nat (current k))). by destruct (ok_syscall call a b c k r k1 Hi Hc Ha Hst Hr).
  - apply ages_shrinks. by destruct (ok_deadlines none none k Hi).
  - apply ages_shrinks. by destruct (ok_exit k ti Hi).
  - destruct (granted_spawn slot from p gs k k1 Hi Hg Hsl Hgs He) as [Ga _ _]. etransitivity; [exact Ga|].
    apply ages_shrinks. by apply shrinks_set_task.
  - destruct (granted_spawn slot from p gs k k1 Hi Hg Hsl Hgs He) as [Ga _ _]. etransitivity; [exact Ga|].
    destruct (ok_granted slot from p gs k k1 Hi Hg Hsl Hgs He) as [H1 _]. destruct (ok_cleanup _ slot _ H1) as (_ & Hs & _).
    apply ages_shrinks. etransitivity; [exact Hs|]. by apply shrinks_set_task.
  - by apply same_caps_ages, env_caps.
Qed.

Lemma ages_steps k k' : ipc_inv k -> ipc_steps k k' -> ages k k'.
Proof.
  intros Hi Hs. induction Hs as [|k1 k2 Hs1 IH Hs]; [done|]. transitivity k1; [done|].
  apply ages_step; [by apply ok_steps with k|done].
Qed.

(** ** Authority *)

Lemma shrinks_holds k k' ti ep r : shrinks k k' -> holds k' ti ep r -> holds k ti ep r.
Proof.
  intros Hs (s & Hn & Hl). exists s. unfold names in *. destruct (Hs ti s) as [E | E]; rewrite E in Hn, Hl; [done|]. simpl in Hn. lia.
Qed.

Lemma cap_step_holds tc k k' ti ep r : cap_step tc k k' -> holds k' ti ep r ->
  holds k ti ep r \/ (ti = tc /\ e_owner (endpoint k ep) = 0).
Proof.
  intros [Hs|s ep' rg _ _ Hu Hn' Hrg _ Hor] Hh; [left; by apply shrinks_holds with k'|].
  destruct Hh as (q & Hn & Hl). destruct (decide ((ti, q) = (tc, s))) as [[= -> ->]|Hx].
  - unfold names in *. assert (ep' = ep) as -> by lia. destruct Hor as [Ho|(s0 & Hn0 & Hl0)]; [by right|].
    left. exists s0. split; [done|]. rewrite Hrg in Hl. by apply land_sub_trans with rg.
  - left. exists q. unfold names in *. by rewrite (Hu ti q Hx) in Hn, Hl.
Qed.

(** ** Handles *)

(** A handle that names a live capability resolves. *)
Lemma cap_resolves k ti h s : ipc_base k -> 0 <= h <= UINT32_MAX -> (s < CAPS)%nat -> h mod 256 = Z.of_nat s + 1 ->
  c_generation (cap_of k ti s) = h / 256 -> c_endpoint (cap_of k ti s) <> 0 -> cap k ti h 0 = Some s.
Proof.
  intros B Hh Hs Hm Hg Hne. destruct (inv_cap k B ti s Hne) as (ep & _ & Hn & Ho & He). unfold names in Hn. unfold CAPS in Hs.
  unfold cap. destruct (Z.ltb_spec UINT32_MAX h); [lia|]. change 255 with (Z.ones 8).
  rewrite Z.land_ones, Z.shiftr_div_pow2 by lia. change (2 ^ 8) with 256. rewrite Hm.
  destruct (Z.eqb_spec (Z.of_nat s + 1) 0); [lia|]. destruct (Z.ltb_spec 32 (Z.of_nat s + 1)); [lia|]. simpl.
  replace (Z.to_nat (Z.of_nat s + 1 - 1)) with s by lia. rewrite Hg, Z.eqb_refl, Z.land_0_r. simpl.
  rewrite (proj2 (truthy_true _) Hne). simpl. assert (ep_of (cap_of k ti s) = ep) as -> by (unfold ep_of; lia).
  rewrite He, Z.eqb_refl. by rewrite (proj2 (truthy_true _) Ho).
Qed.

(** The generation in the handle is over: past, or current and emptied. *)
Definition over k (ti : nat) (h : Z) : Prop :=
  exists s, (s < CAPS)%nat /\ h mod 256 = Z.of_nat s + 1 /\
    (h / 256 < c_generation (cap_of k ti s) \/ c_generation (cap_of k ti s) = h / 256 /\ c_endpoint (cap_of k ti s) = 0).

Lemma over_none k ti h r : 0 <= h -> over k ti h -> cap k ti h r = None.
Proof.
  intros Hh (s & Hs & Hm & Ho). destruct (cap k ti h r) as [s'|] eqn:E; [|done].
  destruct (cap_Some k ti h r s' Hh E) as (_ & Hm' & _ & Hne & Hg & _). assert (s' = s) as -> by lia. destruct Ho; [lia|tauto].
Qed.

Lemma over_ages k k' ti h : ages k k' -> over k ti h -> over k' ti h.
Proof.
  intros Ha (s & Hs & Hm & Ho). exists s. split; [done|]. split; [done|].
  destruct (Ha ti s) as [[E | E]|Hg]; [by rewrite E|rewrite E; simpl; tauto|left; lia].
Qed.

Lemma lost_over k k' ti h s : ipc_base k' -> 0 <= h -> cap k ti h 0 = Some s -> ages k k' -> cap k' ti h 0 = None -> over k' ti h.
Proof.
  intros B Hh Hc Ha Hn. destruct (cap_Some k ti h 0 s Hh Hc) as (Hs & Hm & Hmax & Hne & Hg & _). exists s. split; [done|]. split; [done|].
  destruct (Ha ti s) as [[E | E]|Hlt]; [|right; by rewrite E|left; lia].
  rewrite (cap_resolves k' ti h s) in Hn; [done|done|lia|done|done|by rewrite E|by rewrite E].
Qed.

(** Sound IPC state.  In every state the kernel reaches from boot by system
    calls, deadlines, task creation (successful or not), exit and any other
    activity: a capability in use names a live endpoint and carries its epoch;
    a live endpoint is named by some capability, so none leaks; a task that
    does not exist holds no capability; a blocked receiver waits on a live
    endpoint whose queue is empty; and generations stay within the 23 bits
    that keep a handle a positive int. *)
Theorem reachable_ipc_sound m (h0 : H) k : ipc_steps (boot_kernel m h0) k ->
  (forall ti s, c_endpoint (cap_of k ti s) <> 0 ->
     (ep_of (cap_of k ti s) < ENDPOINTS)%nat /\ e_owner (endpoint k (ep_of (cap_of k ti s))) <> 0 /\
     c_epoch (cap_of k ti s) = e_epoch (endpoint k (ep_of (cap_of k ti s)))) /\
  (forall ep, e_owner (endpoint k ep) <> 0 -> exists ti s, names k ti s ep) /\
  (forall ti s, gone (task k ti) -> c_endpoint (cap_of k ti s) = 0) /\
  (forall ti, t_state (task k ti) = T_BLOCKED -> exists ep, wait_endpoint (task k ti) = Z.of_nat ep + 1 /\
     e_owner (endpoint k ep) <> 0 /\ queue (endpoint k ep) = []) /\
  (forall ti s, 0 <= c_generation (cap_of k ti s) <= CAP_GENERATIONS).
Proof.
  intros Hr. pose proof (ok_steps _ _ (boot_inv m h0) Hr) as [B Hl Hg]. split; [|split; [|split; [|split]]].
  - intros ti s Hne. destruct (inv_cap k B ti s Hne) as (ep & Hep & Hn & Ho & He).
    assert (ep_of (cap_of k ti s) = ep) as -> by (unfold ep_of, names in *; lia). done.
  - intros ep. apply Hl. intros [].
  - intros ti s. apply Hg. intros [].
  - intros ti Hb. destruct (inv_wait k B ti Hb) as (ep & _ & Hw & Ho & Hc). exists ep. split; [done|]. split; [done|].
    unfold queue. by rewrite Hc.
  - apply (inv_generation k B).
Qed.


(** Stale handles stay stale.  A handle that once worked and then stopped
    working (closed, revoked, its task gone) is refused in every later state,
    whatever rights are asked of it, even after its capability slot and its
    task slot have been reused. *)
Theorem stale_handle_stays_stale m (h0 : H) k k1 k2 ti h s r : ipc_steps (boot_kernel m h0) k -> 0 <= h ->
  cap k ti h 0 = Some s -> ipc_steps k k1 -> cap k1 ti h 0 = None -> ipc_steps k1 k2 -> cap k2 ti h r = None.
Proof.
  intros Hr Hh Hc Hs1 Hn Hs2. pose proof (ok_steps _ _ (boot_inv m h0) Hr) as Hi. pose proof (ok_steps _ _ Hi Hs1) as Hi1.
  apply over_none; [done|]. apply (over_ages k1 k2); [by apply ages_steps|].
  apply (lost_over k k1 ti h s); [by destruct Hi1|done|done|by apply ages_steps|done].
Qed.

End Safe.
