(* ===== verification/KernelFrame.v ===== *)
(** * What the kernel's parts leave alone

    Frames for the operations of [Memory], [Iommu] and [Device]: which fields
    of the kernel and which physical memory they can change. *)

From S2P Require Import Prelude Bytes CMem Abi Kernel Memory Space Arguments Ipc Acpi Iommu Device Core IpcInv.

Section Frame.
Context {H : Type} `{LO : LayoutOk} `{HW : Hardware H}.
Implicit Types (k : Kernel H).

(** ** Device operations *)

(** A task but for what it knows of its device. *)
Definition dev_task (t t' : Task) : Prop :=
  exists io bdf fault modern, t' = t <| t_device_io := io |> <| device_bdf := bdf |> <| device_fault := fault |> <| device_modern := modern |>.

(** No byte of the page pool changed. *)
Definition same_pool k k' : Prop := forall a, pool <= a < pool + POOL_BYTES -> memory k' a = memory k a.

(** What the device code relies on: the active function is on bus zero, the
    firmware's page directory is not in the pool. *)
Definition fixed k : Prop :=
  (active_bdf (iommu k) = UINT32_MAX \/ 0 <= active_bdf (iommu k) < 256) /\
  (truthy (mmio_ready k) = true -> apart (boot_mmio_pd k) 4096 pool POOL_BYTES).

Record framed k k' : Prop := {
  fr_tasks : length (tasks k') = length (tasks k);
  fr_task : forall ti, dev_task (task k ti) (task k' ti);
  fr_endpoints : endpoints k' = endpoints k;
  fr_owner : owner k' = owner k;
  fr_current : current k' = current k /\ ticks k' = ticks k /\ next_pid k' = next_pid k;
  fr_boot : boot_cr3 k' = boot_cr3 k /\ live_cr3 k' = live_cr3 k /\ bundle_phys k' = bundle_phys k /\ bundle_bytes k' = bundle_bytes k;
  fr_mmio : mmio_ready k' = mmio_ready k /\ boot_mmio_pd k' = boot_mmio_pd k;
  fr_device : device_owner k' = device_owner k;
  fr_pool : same_pool k k'
}.

Definition dev_step k k' : Prop := fixed k -> framed k k' /\ fixed k'.

Lemma dev_task_refl t : dev_task t t.
Proof. by exists (t_device_io t), (device_bdf t), (device_fault t), (device_modern t); destruct t. Qed.

Lemma dev_task_trans t1 t2 t3 : dev_task t1 t2 -> dev_task t2 t3 -> dev_task t1 t3.
Proof. intros (?&?&?&?&->) (a&b&c&d&->). by exists a, b, c, d. Qed.

#[export] Instance framed_preorder : PreOrder framed.
Proof.
  split; [intros k; constructor; try done; intros; apply dev_task_refl|].
  intros k1 k2 k3 [A1 A2 A3 A4 (A51 & A52 & A53) (A61 & A62 & A63 & A64) (A71 & A72) A8 A9]
    [B1 B2 B3 B4 (B51 & B52 & B53) (B61 & B62 & B63 & B64) (B71 & B72) B8 B9].
  constructor; try (repeat split; congruence).
  - intros ti. by apply dev_task_trans with (task k2 ti).
  - intros a Ha. by rewrite B9, A9.
Qed.

#[export] Instance dev_step_preorder : PreOrder dev_step.
Proof.
  split; [intros k Hf; done|]. intros k1 k2 k3 A B Hf. destruct (A Hf) as [F1 Hf2]. destruct (B Hf2) as [F2 Hf3].
  split; [by transitivity k2|done].
Qed.

(** *** Automation: lemmas say that an operation extends a device step, and
    [dev_run] follows the code with them. *)

Lemma dev_field k0 k k' : tasks k' = tasks k -> endpoints k' = endpoints k -> owner k' = owner k -> current k' = current k ->
  ticks k' = ticks k -> next_pid k' = next_pid k -> boot_cr3 k' = boot_cr3 k -> live_cr3 k' = live_cr3 k ->
  bundle_phys k' = bundle_phys k -> bundle_bytes k' = bundle_bytes k -> mmio_ready k' = mmio_ready k ->
  boot_mmio_pd k' = boot_mmio_pd k -> device_owner k' = device_owner k -> same_pool k k' ->
  (fixed k -> active_bdf (iommu k') = UINT32_MAX \/ 0 <= active_bdf (iommu k') < 256) ->
  dev_step k0 k -> dev_step k0 k'.
Proof.
  intros E1 E2 E3 E4 E5 E6 E7 E8 E9 E10 E11 E12 E13 Hp Ha Hs. transitivity k; [done|]. intros Hf. split.
  - constructor; try done; try congruence. intros ti. unfold task. rewrite E1. apply dev_task_refl.
  - split; [by apply Ha|]. rewrite E11, E12. apply Hf.
Qed.

Lemma dev_if k0 (b : bool) k k' : dev_step k0 k -> dev_step k0 k' -> dev_step k0 (if b then k else k').
Proof. by destruct b. Qed.

Lemma dev_if2 {A} k0 (b : bool) (x y : A * Kernel H) : dev_step k0 x.2 -> dev_step k0 y.2 -> dev_step k0 (if b then x else y).2.
Proof. by destruct b. Qed.

Lemma dev_set_task k0 k ti f : (forall t, dev_task t (f t)) -> dev_step k0 k -> dev_step k0 (set_task ti f k).
Proof.
  intros Hf Hs. transitivity k; [done|]. intros Hx. split; [|done]. constructor; try done; [apply length_set_task|].
  intros tj. rewrite task_set. case_decide as Hd; [destruct Hd as [-> _]; apply Hf|apply dev_task_refl].
Qed.

End Frame.

Create HintDb dev discriminated.
#[export] Hint Constants Opaque : dev.
#[export] Hint Resolve dev_if dev_if2 : dev.
#[export] Hint Extern 1 (dev_step _ (snd (_, _))) => cbn [snd] : dev.
#[export] Hint Extern 1 (dev_step ?k ?k) => reflexivity : dev.

Ltac dev_plain := intros; eapply dev_field; [..|eassumption]; try done; by intros [].

(** Follow lets and tests from the outside in. *)
Ltac dev_run :=
  repeat (cbn [fst snd];
    match goal with
    | |- _ _ (snd (if ?b then _ else _)) => destruct b
    | |- _ _ (if ?b then _ else _) => destruct b
    | |- _ _ (snd (match ?e with (_, _) => _ end)) => is_var e; destruct e
    | |- ?R ?k0 (snd (match ?e with (_, _) => _ end)) =>
        let Hs := fresh "Hs" in
        assert (Hs : R k0 (snd e)) by eauto 8 with dev;
        destruct e as [? ?]; cbn [snd] in Hs
    | |- ?R ?k0 (match ?e with (_, _) => _ end) =>
        let Hs := fresh "Hs" in
        assert (Hs : R k0 (snd e)) by eauto 8 with dev;
        destruct e as [? ?]; cbn [snd] in Hs
    end); cbn [fst snd]; eauto 12 with dev.

Section Devices.
Context {H : Type} `{LO : LayoutOk} `{HW : Hardware H}.
Implicit Types (k : Kernel H).

Lemma dev_outb k0 k p v : dev_step k0 k -> dev_step k0 (outb_ p v k).
Proof. dev_plain. Qed.
Lemma dev_outw k0 k p v : dev_step k0 k -> dev_step k0 (outw_ p v k).
Proof. dev_plain. Qed.
Lemma dev_outl k0 k p v : dev_step k0 k -> dev_step k0 (outl_ p v k).
Proof. dev_plain. Qed.
Lemma dev_w32 k0 k p v : dev_step k0 k -> dev_step k0 (w32 p v k).
Proof. dev_plain. Qed.
Lemma dev_w64 k0 k p v : dev_step k0 k -> dev_step k0 (w64 p v k).
Proof. dev_plain. Qed.
Lemma dev_serial k0 k s : dev_step k0 k -> dev_step k0 (serial s k).
Proof. dev_plain. Qed.
Lemma dev_set_mode k0 k m : dev_step k0 k -> dev_step k0 (set_mode m k).
Proof. dev_plain. Qed.

#[local] Hint Resolve dev_outb dev_outw dev_outl dev_w32 dev_w64 dev_serial dev_set_mode : dev.

Ltac dev_read := intros; cbn; match goal with |- context [let (_, _) := ?e in _] => destruct e end; dev_plain.

Lemma dev_inb k0 k p : dev_step k0 k -> dev_step k0 (inb_ p k).2.
Proof. unfold inb_. dev_read. Qed.
Lemma dev_inw k0 k p : dev_step k0 k -> dev_step k0 (inw_ p k).2.
Proof. unfold inw_. dev_read. Qed.
Lemma dev_inl k0 k p : dev_step k0 k -> dev_step k0 (inl_ p k).2.
Proof. unfold inl_. dev_read. Qed.
Lemma dev_r32 k0 k p : dev_step k0 k -> dev_step k0 (r32 p k).2.
Proof. unfold r32. dev_read. Qed.
Lemma dev_r64 k0 k p : dev_step k0 k -> dev_step k0 (r64 p k).2.
Proof. unfold r64. dev_read. Qed.
#[local] Hint Resolve dev_inb dev_inw dev_inl dev_r32 dev_r64 : dev.

Lemma dev_poll n test k0 : (forall k, dev_step k0 k -> dev_step k0 (test k).2) -> forall k, dev_step k0 k -> dev_step k0 (poll n test k).2.
Proof.
  intros Ht. induction n as [|n IH]; intros k Hs; simpl; [done|]. specialize (Ht k Hs). destruct (test k) as [[] k1]; [done|]. by apply IH.
Qed.
Lemma dev_wait32 k0 k off mask v : dev_step k0 k -> dev_step k0 (wait32 off mask v k).2.
Proof. intros. apply dev_poll; [|done]. intros. dev_run. Qed.
Lemma dev_wait64 k0 k off mask : dev_step k0 k -> dev_step k0 (wait64 off mask k).2.
Proof. intros. apply dev_poll; [|done]. intros. dev_run. Qed.
#[local] Hint Resolve dev_wait32 dev_wait64 : dev.

Lemma dev_invalidate k0 k : dev_step k0 k -> dev_step k0 (iommu_invalidate k).2.
Proof. intros. unfold iommu_invalidate, invalidate_fail. dev_run. Qed.
#[local] Hint Resolve dev_invalidate : dev.

(** *** Writes outside the pool *)

Lemma write_apart m a bs x : apart a (zlen bs) pool POOL_BYTES -> pool <= x < pool + POOL_BYTES -> mwrite m a bs x = m x.
Proof. unfold apart. intros Ha Hx. apply mwrite_out. lia. Qed.

Lemma store_apart m t i v x : apart t 4096 pool POOL_BYTES -> 0 <= i < 512 -> pool <= x < pool + POOL_BYTES ->
  store64 m (slot64 t i) v x = m x.
Proof. unfold apart, slot64. intros Ha Hi Hx. apply mwrite_out. rewrite zlen_le_bytes. lia. Qed.

Lemma dev_memory k0 k f : (forall a, pool <= a < pool + POOL_BYTES -> f (memory k) a = memory k a) ->
  dev_step k0 k -> dev_step k0 (k <| memory ::= f |>).
Proof. intros Hf Hs. eapply dev_field; [..|exact Hs]; try done. by intros []. Qed.

Lemma dev_store k0 k t i v : apart t 4096 pool POOL_BYTES -> 0 <= i < 512 -> dev_step k0 k -> dev_step k0 (store (slot64 t i) v k).
Proof. intros Ht Hi. apply (dev_memory k0 k (fun m => store64 m (slot64 t i) v)). intros. by apply store_apart. Qed.

Lemma sf_vtd_tables_apart m bdf physical x : 0 <= bdf -> pool <= x < pool + POOL_BYTES ->
  (sf_vtd_tables vtd_tables vtd_tables bdf physical m).2 x = m x.
Proof.
  intros Hb Hx. pose proof vtd_apart as Hv. unfold sf_vtd_tables. destruct (_ || _) eqn:Hc; [done|]. cbn [snd].
  apply orb_false_elim in Hc as [_ Hc]. apply Z.leb_gt in Hc.
  assert (A : forall off, 0 <= off <= 16384 -> apart (vtd_tables + off) 4096 pool POOL_BYTES) by (unfold apart in *; lia).
  match goal with |- loop _ _ ?m1 _ = _ => assert (E : m1 x = m x) end.
  { unfold VTD_CONTEXT, VTD_LEVEL3, VTD_LEVEL2, VTD_LEVEL1. rewrite !store_apart; try (apply A; lia); try done; try lia.
    - rewrite write_apart; [done| |done]. by rewrite zlen_fill by done.
    - replace vtd_tables with (vtd_tables + 0) by lia. apply A. lia. }
  apply (loop_inv (fun _ m' => m' x = m x)); [done|]. intros i m' Hi IH. rewrite store_apart; [done|apply A; sflia| |done].
  change (Z.to_nat (SF_DMA_BYTES / 4096)) with 16%nat in Hi. lia.
Qed.

Lemma dev_iommu_grant k0 k bdf physical : 0 <= bdf -> dev_step k0 k -> dev_step k0 (iommu_grant bdf physical k).2.
Proof.
  intros Hb Hs. unfold iommu_grant. destruct (_ =? 0); [done|]. destruct (_ || _); [done|].
  destruct (Z.leb_spec 256 bdf); [done|]. cbn [orb]. destruct (negb _); [done|].
  pose proof (sf_vtd_tables_apart (memory k) bdf physical) as Hm. destruct (sf_vtd_tables _ _ _ _ _) as [r m].
  assert (Hs1 : dev_step k0 (k <| memory := m |>)) by (apply (dev_memory k0 k (fun _ => m)); auto).
  dev_run. eapply dev_field; [..|eassumption]; try done. intros _. right. simpl. lia.
Qed.

Lemma dev_iommu_revoke k0 k bdf : dev_step k0 k -> dev_step k0 (iommu_revoke bdf k).2.
Proof.
  intros Hs. unfold iommu_revoke. destruct (_ =? 0); [done|]. destruct (negb _); [done|]. destruct (Z.eqb_spec (active_bdf (iommu k)) UINT32_MAX); [done|].
  destruct (Z.eqb_spec (active_bdf (iommu k)) bdf) as [<-|]; [|done]. cbn [negb].
  pose proof vtd_apart as Hv. transitivity k; [done|]. intros Hf. pose proof Hf as [[Ha|Ha] _]; [done|]. revert Hf.
  set (k1 := k <| memory ::= _ |>). assert (Hs1 : dev_step k k1).
  { apply dev_memory; [|done]. intros a Hx. apply store_apart; [unfold apart in *; sflia|lia|done]. }
  change (dev_step k (let '(r, k2) := iommu_invalidate k1 in if truthy r then (SF_DEVICE_GONE, k2)
    else (0, k2 <| memory ::= fun m => mwrite m vtd_tables (fill 0 sizeof_SfVtdTables) |>
               <| iommu ::= fun i => i <| active_bdf := UINT32_MAX |> |>)).2).
  dev_run. eapply dev_field; [..|eassumption]; try done; [|by left].
  intros a Hx. apply write_apart; [by rewrite zlen_fill by done|done].
Qed.
#[local] Hint Resolve dev_iommu_grant dev_iommu_revoke : dev.

(** *** [device.c] *)

Lemma dev_config_read k0 k bdf off : dev_step k0 k -> dev_step k0 (config_read bdf off k).2.
Proof. intros. unfold config_read. eauto with dev. Qed.
Lemma dev_config_write k0 k bdf c : dev_step k0 k -> dev_step k0 (config_write_command bdf c k).
Proof. intros. unfold config_write_command. eauto with dev. Qed.
#[local] Hint Resolve dev_config_read dev_config_write : dev.

Lemma dev_pci_read k0 k bdf off : dev_step k0 k -> dev_step k0 (pci_read bdf off k).2.
Proof. intros. unfold pci_read. dev_run. Qed.

Lemma dev_mmio8 k0 k a v : dev_step k0 k -> dev_step k0 (k <| hw ::= fun h => mmio_write8 h a v |>).
Proof. dev_plain. Qed.
Lemma dev_reset_device k0 k ti : dev_step k0 k -> dev_step k0 (reset_device ti k).
Proof. intros. unfold reset_device. apply dev_if; [by apply dev_mmio8|by apply dev_outb]. Qed.
Lemma dev_read_status k0 k ti : dev_step k0 k -> dev_step k0 (read_status ti k).2.
Proof. intros. unfold read_status. apply dev_if2; [|by apply dev_inb]. destruct (mmio_read8 _ _). dev_plain. Qed.
#[local] Hint Resolve dev_reset_device dev_read_status : dev.

Lemma dev_wait_reset n ti k0 : forall k, dev_step k0 k -> dev_step k0 (wait_reset n ti k).2.
Proof. induction n as [|n IH]; intros k Hs; simpl; [done|]. dev_run. Qed.
#[local] Hint Resolve dev_wait_reset : dev.

Lemma dev_quarantine k0 k q : dev_step k0 k -> dev_step k0 (k <| quarantined := q |>).
Proof. dev_plain. Qed.
#[local] Hint Resolve dev_quarantine : dev.

Lemma dev_release k0 k ti : dev_step k0 k -> dev_step k0 (device_release ti k).2.
Proof.
  intros Hs. unfold device_release. dev_run. apply dev_set_task; [|eauto 8 with dev].
  intros t. exists 0, (device_bdf t). eexists _, (device_modern t). by destruct t.
Qed.

Lemma dev_status k0 k : dev_step k0 k -> dev_step k0 (device_status k).2.
Proof. dev_plain. Qed.

Lemma dev_io k0 k ti port op v : dev_step k0 k -> dev_step k0 (device_io ti port op v k).2.
Proof. intros. unfold device_io. dev_run. Qed.

Lemma dev_console_drain n k0 : forall k, dev_step k0 k -> dev_step k0 (console_drain n k).
Proof.
  induction n as [|n IH]; intros k Hs; simpl; [done|]. dev_run. apply IH. dev_plain.
Qed.
Lemma dev_console_irq n k0 k : dev_step k0 k -> dev_step k0 (console_irq n k).
Proof. intros. unfold console_irq. by apply dev_outb, dev_console_drain. Qed.
Lemma dev_console_read k0 k : dev_step k0 k -> dev_step k0 (console_read k).2.
Proof. intros. unfold console_read. repeat apply dev_if2; dev_plain. Qed.

Lemma dev_fault_scan n k0 : forall i k, dev_step k0 k -> dev_step k0 (fault_scan n i k).2.
Proof. induction n as [|n IH]; intros i k Hs; simpl; [done|]. dev_run. Qed.
Lemma dev_iommu_fault k0 k : dev_step k0 k -> dev_step k0 (iommu_fault k).2.
Proof. intros. unfold iommu_fault. dev_run. by apply dev_fault_scan. Qed.

Lemma dev_find_caps n bdf k0 : forall cap found k, dev_step k0 k -> dev_step k0 (find_caps n bdf cap found k).2.
Proof. induction n as [|n IH]; intros cap found k Hs; cbn [find_caps]; [done|]. dev_run. Qed.
#[local] Hint Resolve dev_find_caps : dev.

Lemma dev_space_mmio k0 k physical : dev_step k0 k -> dev_step k0 (space_device_mmio physical k).2.
Proof.
  intros Hs. transitivity k; [done|]. clear Hs. intros Hf. pose proof Hf as [_ Hp]. revert Hf. unfold space_device_mmio.
  pose proof device_pt_apart. pose proof mmio_pd_apart. destruct (truthy (mmio_ready k)); [|done]. destruct (_ || _); [done|]. cbn [snd].
  apply dev_store; [by apply Hp|lia|]. apply dev_store; [done|lia|]. apply dev_store; [done|lia|done].
Qed.
#[local] Hint Resolve dev_space_mmio : dev.

Lemma dev_modern_window k0 k bdf bar : dev_step k0 k -> dev_step k0 (modern_window bdf bar k).2.
Proof. intros. unfold modern_window. dev_run. Qed.

End Devices.

#[export] Hint Resolve dev_outb dev_outw dev_outl dev_w32 dev_w64 dev_serial dev_set_mode dev_inb dev_inw dev_inl dev_r32 dev_r64
  dev_wait32 dev_wait64 dev_invalidate dev_iommu_grant dev_iommu_revoke dev_config_read dev_config_write dev_pci_read
  dev_reset_device dev_quarantine dev_release dev_status dev_io dev_console_irq dev_console_read dev_iommu_fault
  dev_space_mmio dev_modern_window : dev.

(** ** IPC operations *)

(** A task but for its capabilities and whether it waits. *)
Definition woken (s s' : task_state) : Prop := s' = s \/ s = T_BLOCKED /\ s' = T_READY.
Record ipc_task (t t' : Task) : Prop := {
  it_pid : pid t' = pid t; it_state : woken (t_state t) (t_state t');
  it_cr3 : cr3 t' = cr3 t; it_buffer : recv_buffer t' = recv_buffer t;
  it_count : page_count t' = page_count t; it_limit : page_limit t' = page_limit t;
  it_stack : rsp (frame t') = rsp (frame t)
}.

Section IpcFrame.
Context {H : Type} `{L : Layout}.
Implicit Types (k : Kernel H).

Record ipc_frame k k' : Prop := {
  if_tasks : length (tasks k') = length (tasks k);
  if_task : forall ti, ipc_task (task k ti) (task k' ti);
  if_memory : memory k' = memory k /\ owner k' = owner k;
  if_devices : iommu k' = iommu k /\ mmio_ready k' = mmio_ready k /\ boot_mmio_pd k' = boot_mmio_pd k /\ device_owner k' = device_owner k;
  if_boot : bundle_phys k' = bundle_phys k /\ bundle_bytes k' = bundle_bytes k /\ boot_cr3 k' = boot_cr3 k;
  if_current : current k' = current k /\ ticks k' = ticks k /\ next_pid k' = next_pid k /\ live_cr3 k' = live_cr3 k
}.

Lemma ipc_task_refl t : ipc_task t t.
Proof. constructor; try done. by left. Qed.

#[export] Instance ipc_frame_preorder : PreOrder ipc_frame.
Proof.
  split; [intros k; constructor; try done; intros; apply ipc_task_refl|].
  intros k1 k2 k3 [A1 A2 (A3 & A4) (A5 & A6 & A7 & A8) (A9 & A10 & A11) (A12 & A13 & A14 & A15)]
    [B1 B2 (B3 & B4) (B5 & B6 & B7 & B8) (B9 & B10 & B11) (B12 & B13 & B14 & B15)].
  constructor; try (repeat split; congruence). intros ti. destruct (A2 ti) as [P1 P2 P3 P4 P5 P6 P7], (B2 ti) as [Q1 Q2 Q3 Q4 Q5 Q6 Q7].
  constructor; try congruence. destruct P2 as [P2|[P2 P2']], Q2 as [Q2|[Q2 Q2']]; unfold woken; try (left; congruence); try (right; split; congruence).
Qed.

Lemma ipcf_set_task k ti f : (forall t, ipc_task t (f t)) -> ipc_frame k (set_task ti f k).
Proof.
  intros Hf. constructor; try done; [apply length_set_task|]. intros tj. rewrite task_set.
  case_decide as Hd; [destruct Hd as [-> _]; apply Hf|apply ipc_task_refl].
Qed.

Lemma ipcf_endpoint k i f : ipc_frame k (set_endpoint i f k).
Proof. constructor; try done. intros. apply ipc_task_refl. Qed.

Lemma ipcf_loop n f k : (forall i k, ipc_frame k (f i k)) -> ipc_frame k (loop n f k).
Proof. intros Hf. apply (loop_inv (fun _ k' => ipc_frame k k')); [done|]. intros i k' _ IH. by transitivity k'. Qed.

Lemma ipcf_invalidate i k : ipc_frame k (invalidate i k).
Proof.
  unfold invalidate. etransitivity; [apply ipcf_endpoint|]. apply ipcf_loop. intros j k'. apply ipcf_set_task. intros t.
  unfold invalidate_task, in_tstate. destruct (bool_decide (t_state t = T_BLOCKED)) eqn:E; [|apply ipc_task_refl || (constructor; try done; by left)].
  apply bool_decide_eq_true in E. destruct (_ =? _); (constructor; try done); [by right|by left].
Qed.

Lemma ipcf_set_cap ti s f k : ipc_frame k (set_cap ti s f k).
Proof. apply ipcf_set_task. intros t. constructor; try done. by left. Qed.

Lemma ipcf_close_cap ti s k : ipc_frame k (close_cap ti s k).
Proof.
  unfold close_cap. destruct (referenced _ _); [apply ipcf_set_cap|]. etransitivity; [apply ipcf_set_cap|apply ipcf_invalidate].
Qed.

Lemma ipcf_cleanup ti k : ipc_frame k (ipc_cleanup ti k).
Proof.
  unfold ipc_cleanup. etransitivity; apply ipcf_loop; intros i k'; cbv beta.
  - destruct (_ =? _); [apply ipcf_invalidate|done].
  - destruct (truthy _); [apply ipcf_close_cap|done].
Qed.

Lemma ipcf_deadlines k : ipc_frame k (ipc_deadlines k).
Proof.
  unfold ipc_deadlines. apply (loop_inv (fun _ k' => ipc_frame k k')); [done|]. intros i k' _ IH. transitivity k'; [done|].
  cbv zeta. destruct (_ && _) eqn:E; [|done]. apply andb_prop in E as [E _]. apply andb_prop in E as [E _].
  unfold in_tstate in E. apply bool_decide_eq_true in E.
  constructor; try done; [apply length_set_task|]. intros tj. rewrite task_set.
  case_decide as Hd; [|apply ipc_task_refl]. destruct Hd as [<- _]. constructor; try done. by right.
Qed.

Lemma ipcf_install ti ep r k : ipc_frame k (install ti ep r k).2.
Proof. unfold install. destruct (cap_slot _); [|done]. apply ipcf_set_cap. Qed.

Lemma ipcf_grant from to h r k : ipc_frame k (ipc_grant from to h r k).2.
Proof. unfold ipc_grant. destruct (cap _ _ _ _); [|done]. destruct (negb _); [done|]. apply ipcf_install. Qed.

End IpcFrame.

(** The IPC calls: memory may change too, and the caller [ti] may block. *)
Record kept_task (t t' : Task) : Prop := {
  kt_pid : pid t' = pid t; kt_cr3 : cr3 t' = cr3 t; kt_count : page_count t' = page_count t; kt_limit : page_limit t' = page_limit t;
  kt_stack : rsp (frame t') = rsp (frame t)
}.

Section CallFrame.
Context {H : Type} `{L : Layout}.
Implicit Types (k : Kernel H).

Record call_frame (ti : nat) k k' : Prop := {
  cf_tasks : length (tasks k') = length (tasks k);
  cf_task : forall tj, tj <> ti -> ipc_task (task k tj) (task k' tj);
  cf_self : kept_task (task k ti) (task k' ti);
  cf_owner : owner k' = owner k;
  cf_devices : iommu k' = iommu k /\ mmio_ready k' = mmio_ready k /\ boot_mmio_pd k' = boot_mmio_pd k /\ device_owner k' = device_owner k;
  cf_boot : bundle_phys k' = bundle_phys k /\ bundle_bytes k' = bundle_bytes k /\ boot_cr3 k' = boot_cr3 k;
  cf_current : current k' = current k /\ ticks k' = ticks k /\ next_pid k' = next_pid k /\ live_cr3 k' = live_cr3 k
}.

Lemma ipc_kept t t' : ipc_task t t' -> kept_task t t'.
Proof. by intros []. Qed.

Lemma call_ipc ti k k' : ipc_frame k k' -> call_frame ti k k'.
Proof. intros [A1 A2 [A3 A4] A5 A6 A7]. constructor; try done. by apply ipc_kept. Qed.

Lemma call_trans ti k1 k2 k3 : call_frame ti k1 k2 -> call_frame ti k2 k3 -> call_frame ti k1 k3.
Proof.
  intros [A1 A2 [P1 P2 P3 P4 P5] A4 (A5 & A6 & A7 & A8) (A9 & A10 & A11) (A12 & A13 & A14 & A15)]
    [B1 B2 [Q1 Q2 Q3 Q4 Q5] B4 (B5 & B6 & B7 & B8) (B9 & B10 & B11) (B12 & B13 & B14 & B15)].
  constructor; try (repeat split; congruence). intros tj Hj. destruct (A2 tj Hj) as [R1 R2 R3 R4 R5 R6 R7], (B2 tj Hj) as [S1 S2 S3 S4 S5 S6 S7].
  constructor; try congruence. destruct R2 as [R2|[R2 R2']], S2 as [S2|[S2 S2']]; unfold woken; try (left; congruence); right; split; congruence.
Qed.

Lemma call_field ti k k' : tasks k' = tasks k -> owner k' = owner k -> iommu k' = iommu k -> mmio_ready k' = mmio_ready k ->
  boot_mmio_pd k' = boot_mmio_pd k -> device_owner k' = device_owner k -> bundle_phys k' = bundle_phys k ->
  bundle_bytes k' = bundle_bytes k -> boot_cr3 k' = boot_cr3 k -> current k' = current k -> ticks k' = ticks k ->
  next_pid k' = next_pid k -> live_cr3 k' = live_cr3 k -> call_frame ti k k'.
Proof.
  intros Et. intros. constructor; try done; [by rewrite Et|intros tj _|]; unfold task; rewrite Et; [apply ipc_task_refl|done].
Qed.

Lemma call_copy_out_loop n ti tj : forall dst bs k, call_frame ti k (copy_out_loop n tj dst bs k).
Proof.
  induction n as [|n IH]; intros dst bs k; cbn [copy_out_loop]; [by apply call_field|]. destruct (_ =? 0); [by apply call_field|].
  eapply call_trans; [|apply IH]. by apply call_field.
Qed.
Lemma call_copy_out ti tj dst bs k : call_frame ti k (copy_out tj dst bs k).2.
Proof. unfold copy_out. destruct (user_range _ _ _ _ _); [apply call_copy_out_loop|by apply call_field]. Qed.

Lemma call_set_self ti f k : (forall t, kept_task t (f t)) -> call_frame ti k (set_task ti f k).
Proof.
  intros Hf. constructor; try done; [apply length_set_task| |].
  - intros tj Hj. rewrite task_set_other by done. apply ipc_task_refl.
  - rewrite task_set. case_decide; [apply Hf|done].
Qed.

Lemma call_wake ti tj f k : (forall t, ipc_task (t <| t_state := T_BLOCKED |>) (f t)) -> t_state (task k tj) = T_BLOCKED ->
  call_frame ti k (set_task tj f k).
Proof.
  intros Hf Hb. apply call_ipc. constructor; try done; [apply length_set_task|]. intros tm. rewrite task_set.
  case_decide as Hd; [|apply ipc_task_refl]. destruct Hd as [<- _]. destruct (Hf (task k tj)) as [E1 E2 E3 E4 E5 E6 E7].
  constructor; try done. by rewrite Hb.
Qed.

Lemma call_deliver ti sender ep m k r k' : deliver sender ep m k = Ret (r, k') -> call_frame ti k k'.
Proof.
  unfold deliver. destruct (find_index _ _) as [j|] eqn:Ef.
  - apply find_index_Some in Ef as (_ & Hp & _). apply andb_prop in Hp as [Hp _]. unfold in_tstate in Hp. apply bool_decide_eq_true in Hp.
    pose proof (call_copy_out ti j (recv_buffer (task k j)) (message_bytes m) k) as Hc.
    pose proof (copy_out_same j (recv_buffer (task k j)) (message_bytes m) k) as (Et & _).
    destruct (copy_out _ _ _ _) as [x k1]. cbn [snd] in Hc, Et. destruct (truthy x); [done|]. intros [= <- <-].
    eapply call_trans; [exact Hc|]. eapply call_trans; [by apply (call_field ti k1 (k1 <| receive_bytes ::= fun n => copied n sizeof_SfMessage |>))|].
    apply call_wake; [|unfold task; simpl; by rewrite Et]. intros t. constructor; try done. by right.
  - destruct (_ =? 8); intros [= <- <-]; [by apply call_field|]. apply call_ipc, ipcf_endpoint.
Qed.

Lemma call_send ti a b k r k' : sys_send ti a b k = Ret (r, k') -> call_frame ti k k'.
Proof.
  unfold sys_send. destruct (cap _ _ _ _); [|intros [= <- <-]; by apply call_field].
  destruct (copy_in _ _ _ _) as [x bytes]. destruct (truthy x); [intros [= <- <-]; by apply call_field|]. cbv zeta.
  set (k1 := k <| send_bytes ::= _ |>). assert (H1 : call_frame ti k k1) by (by apply call_field).
  destruct (message_bad _); [intros [= <- <-]; done|]. destruct (_ && _); [intros [= <- <-]; done|].
  intros Hd. eapply call_trans; [exact H1|]. by eapply call_deliver.
Qed.

Lemma call_recv ti a b c k : call_frame ti k (sys_recv ti a b c k).2.
Proof.
  unfold sys_recv. destruct (cap _ _ _ _) as [s|]; [|by apply call_field]. destruct (negb _); [by apply call_field|]. cbv zeta.
  destruct (truthy _).
  - pose proof (call_copy_out ti ti b (message_bytes (ring_at (endpoint k (ep_of (cap_of k ti s))) 0)) k) as Hc.
    destruct (copy_out _ _ _ _) as [x k1]. cbn [snd] in Hc. destruct (truthy x); [done|]. cbn [snd].
    eapply call_trans; [exact Hc|]. eapply call_trans; [|apply call_ipc, ipcf_endpoint]. by apply call_field.
  - destruct (_ && _); [by apply call_field|]. by apply call_set_self.
Qed.

Lemma ipcf_ep_create ti k : ipc_frame k (sys_ep_create ti k).2.
Proof.
  unfold sys_ep_create. destruct (cap_slot _); [|done]. destruct (find_index _ _) as [i|]; [|done]. cbv zeta.
  set (k1 := set_endpoint i _ k). pose proof (ipcf_install ti i 7 k1) as Hi. destruct (install ti i 7 k1) as [h k2]. cbn [snd] in *.
  transitivity k1; [apply ipcf_endpoint|]. transitivity k2; [done|]. destruct (_ <? 0); [apply ipcf_endpoint|done].
Qed.

Lemma call_syscall call a b c k r k' : ipc_syscall call a b c k = Ret (r, k') -> call_frame (Z.to_nat (current k)) k k'.
Proof.
  unfold ipc_syscall. set (ti := Z.to_nat (current k)).
  destruct (_ =? SYS_EP_CREATE); [intros [= E]; pose proof (ipcf_ep_create ti k) as Hk; rewrite E in Hk; by apply call_ipc|].
  destruct (_ =? SYS_CAP_CLOSE).
  { intros [= E]. apply call_ipc. unfold sys_cap_close in E. destruct (cap _ _ _ _); injection E as <- <-; [apply ipcf_close_cap|done]. }
  destruct (_ =? SYS_CAP_DERIVE).
  { intros [= E]. apply call_ipc. unfold sys_cap_derive in E. destruct (cap _ _ _ _) as [s|]; [|by injection E as <- <-].
    destruct (_ || _); [by injection E as <- <-|]. pose proof (ipcf_install ti (ep_of (cap_of k ti s)) b k) as Hk. by rewrite E in Hk. }
  destruct (_ =? SYS_CAP_REVOKE).
  { intros [= E]. apply call_ipc. unfold sys_cap_revoke in E. destruct (cap _ _ _ _) as [s|]; [|by injection E as <- <-].
    destruct (negb _); injection E as <- <-; [done|apply ipcf_invalidate]. }
  destruct (_ =? SYS_SEND_CANCEL).
  { intros [= E]. apply call_ipc. unfold sys_send_cancel in E. destruct (cap _ _ _ _) as [s|]; [|by injection E as <- <-].
    destruct (truthy c); [by injection E as <- <-|]. destruct (_ || _); [by injection E as <- <-|].
    destruct (cancel_queue _ _ _) as [x e]. injection E as <- <-. apply ipcf_endpoint. }
  destruct (_ =? SYS_SEND); [by apply call_send|].
  destruct (_ =? SYS_RECV); [intros [= E]; pose proof (call_recv ti a b c k) as Hk; by rewrite E in Hk|].
  intros [= <- <-]. by apply call_field.
Qed.

End CallFrame.
