(* ===== verification/SpaceKernel.v ===== *)
(** * Memory of all tasks

    The invariant that keeps tasks apart: who owns the pages of the pool, exact
    quotas, a tree of page tables for every task that exists, the receive
    buffer of a blocked task, and the one owner of the DMA arena.  Here it is
    shown to survive everything but the creation of tasks. *)

From S2P Require Import Prelude Bytes CMem Abi Sched Kernel Memory Space Ipc Acpi Iommu Device Core IpcInv SpaceInv KernelFrame.

Section Inv.
Context {H : Type} `{LO : LayoutOk} `{HW : Hardware H}.
Implicit Types (k : Kernel H) (Y : nat -> Prop).

(** A task with its page tables, and a buffer it can still be sent to. *)
Definition task_space k (ti : nat) : Prop :=
  exists T, space k (pid (task k ti)) (cr3 (task k ti)) T /\
    (t_state (task k ti) = T_BLOCKED -> user_range ti (recv_buffer (task k ti)) sizeof_SfMessage true k = true).

(** [Y] are slots being filled or cleared, which may own pages too. *)
Definition here Y k (ti : nat) : Prop := alive (task k ti) = true \/ Y ti.

Definition pages_of k (p : Z) : Z := countn (fun j => nth j (owner k) 0 =? p) POOL_PAGES.

Record space_inv Y k : Prop := {
  si_tasks : length (tasks k) = SF_MAX_TASKS;
  si_pages : length (owner k) = POOL_PAGES;
  si_next : 0 < next_pid k <= SF_PID_MAX + 1;
  si_pid : forall ti, 0 <= pid (task k ti) < next_pid k;
  si_unique : forall ti tj, pid (task k ti) = pid (task k tj) -> pid (task k ti) <> 0 -> ti = tj;
  si_exists : forall ti, here Y k ti -> pid (task k ti) <> 0;
  si_empty : forall ti, t_state (task k ti) = T_EMPTY -> pid (task k ti) = 0 \/ Y ti;
  si_owner : forall j, nth j (owner k) 0 = 0 \/ exists ti, here Y k ti /\ owned k (pid (task k ti)) j;
  si_count : forall ti, here Y k ti -> page_count (task k ti) = pages_of k (pid (task k ti)) /\
    page_count (task k ti) <= page_limit (task k ti) <= SF_PAGE_LIMIT_MAX;
  si_space : forall ti, alive (task k ti) = true -> task_space k ti;
  si_device : device_owner k = 0 \/ exists ti, here Y k ti /\ device_owner k = pid (task k ti);
  si_bundle : 0 <= bundle_bytes k /\ 0 <= bundle_phys k /\ bundle_phys k + bundle_bytes k <= 0x40000000 /\
    apart (bundle_phys k) (bundle_bytes k + 4095) pool POOL_BYTES /\ apart (bundle_phys k) (bundle_bytes k + 4095) dma SF_DMA_BYTES
}.

Lemma alive_state_ready t : t_state t = T_READY -> alive t = true.
Proof. unfold alive, in_tstate. by intros ->. Qed.
Lemma alive_state_blocked t : t_state t = T_BLOCKED -> alive t = true.
Proof. unfold alive, in_tstate. by intros ->. Qed.

(** ** Steps that memory does not see *)

Record still_task (t t' : Task) : Prop := {
  sk_pid : pid t' = pid t; sk_cr3 : cr3 t' = cr3 t; sk_count : page_count t' = page_count t; sk_limit : page_limit t' = page_limit t;
  sk_alive : alive t' = alive t; sk_empty : t_state t' = T_EMPTY <-> t_state t = T_EMPTY; sk_blocked : t_state t' = T_BLOCKED -> t_state t = T_BLOCKED /\ recv_buffer t' = recv_buffer t
}.

Record still k k' : Prop := {
  sl_tasks : length (tasks k') = length (tasks k);
  sl_task : forall ti, still_task (task k ti) (task k' ti);
  sl_owner : owner k' = owner k;
  sl_next : next_pid k' = next_pid k;
  sl_device : device_owner k' = device_owner k;
  sl_bundle : bundle_phys k' = bundle_phys k /\ bundle_bytes k' = bundle_bytes k;
  sl_pool : same_pool k k'
}.

Lemma still_task_refl t : still_task t t.
Proof. by constructor. Qed.

Lemma pool_same_page k k' j : same_pool k k' -> (j < POOL_PAGES)%nat -> page_same k k' j.
Proof. intros Hs Hj a Ha. apply Hs. by apply (page_in_pool j). Qed.

(** One task whose pages are as before. *)
Lemma task_space_frame k k' ti : still_task (task k ti) (task k' ti) ->
  (forall j, (j < POOL_PAGES)%nat -> owned k (pid (task k ti)) j -> owned k' (pid (task k ti)) j /\ page_same k k' j) ->
  (device_owner k = pid (task k ti) -> device_owner k' = pid (task k ti)) ->
  bundle_phys k' = bundle_phys k -> bundle_bytes k' = bundle_bytes k -> task_space k ti -> task_space k' ti.
Proof.
  intros [E1 E2 _ _ _ _ Eb] Ho Hd B1 B2 (T & Hs & Hr). exists T. rewrite E1, E2.
  assert (Hp : forall j, in_tables T j -> page_same k k' j).
  { intros j Hj. destruct (sp_owned _ _ _ _ Hs j Hj). by apply Ho. }
  assert (Hs' : space k' (pid (task k ti)) (cr3 (task k ti)) T).
  { apply (space_frame k); try done. intros j Hj Hown. by apply Ho. }
  split; [done|]. intros Hb. destruct (Eb Hb) as [Hb0 ->]. rewrite (user_range_frame k k' (pid (task k ti)) ti T); auto.
Qed.

(** All of it but the page tables. *)
Lemma inv_transfer Y k k' : length (tasks k') = length (tasks k) -> owner k' = owner k -> next_pid k' = next_pid k ->
  device_owner k' = device_owner k -> bundle_phys k' = bundle_phys k -> bundle_bytes k' = bundle_bytes k ->
  (forall ti, still_task (task k ti) (task k' ti)) -> (forall ti, alive (task k ti) = true -> task_space k ti -> task_space k' ti) ->
  space_inv Y k -> space_inv Y k'.
Proof.
  intros E1 Eo En Ed B1 B2 Et Hsp [I1 I2 I3 I4 I5 I6 I0 I7 I8 I9 I10 I11].
  assert (Hh : forall ti, here Y k' ti <-> here Y k ti) by (intros ti; unfold here; by rewrite (sk_alive _ _ (Et ti))).
  assert (Hp : forall ti, pid (task k' ti) = pid (task k ti)) by (intros; apply (sk_pid _ _ (Et ti))).
  constructor.
  - congruence.
  - congruence.
  - by rewrite En.
  - intros ti. by rewrite Hp, En.
  - intros ti tj. rewrite !Hp. apply I5.
  - intros ti Hti. rewrite Hp. apply I6. by apply Hh.
  - intros ti Hti. rewrite Hp. apply I0. by apply (sk_empty _ _ (Et ti)).
  - intros j. unfold owned. rewrite Eo. destruct (I7 j) as [|(ti & Hti & Ho)]; [by left|]. right. exists ti. rewrite Hp. by rewrite Hh.
  - intros ti Hti. unfold pages_of. destruct (Et ti) as [-> _ -> -> _ _ _]. rewrite Eo. apply I8. by apply Hh.
  - intros ti Ha. rewrite (sk_alive _ _ (Et ti)) in Ha. by apply Hsp, I9.
  - rewrite Ed. destruct I10 as [|(ti & Hti & E)]; [by left|]. right. exists ti. rewrite Hp. by rewrite Hh.
  - by rewrite B1, B2.
Qed.

Lemma inv_still Y k k' : still k k' -> space_inv Y k -> space_inv Y k'.
Proof.
  intros [E1 Et Eo En Ed [B1 B2] Ep]. apply inv_transfer; try done. intros ti _ Hs. apply (task_space_frame k); try done; [|by rewrite Ed].
  intros j Hj Ho. split; [unfold owned; by rewrite Eo|by apply pool_same_page].
Qed.

Lemma still_framed k k' : framed k k' -> still k k'.
Proof.
  intros [F1 F2 F3 F4 (_ & _ & F5) (_ & _ & F6) _ F8 F9]. constructor; try done. intros ti.
  destruct (F2 ti) as (? & ? & ? & ? & ->). by constructor.
Qed.

Lemma still_ipc k k' : ipc_frame k k' -> still k k'.
Proof.
  intros [F1 F2 [F3 F4] (_ & _ & _ & F5) (F6 & F7 & _) (_ & _ & F8 & _)]. constructor; try done; [|intros a _; by rewrite F3].
  intros ti. destruct (F2 ti) as [G1 G2 G3 G4 G5 G6 _]. constructor; try done; unfold alive, in_tstate.
  - destruct G2 as [-> |[-> ->]]; done.
  - destruct G2 as [-> |[-> ->]]; done.
  - intros Hb. destruct G2 as [E|[_ E]]; [|congruence]. split; [congruence|done].
Qed.

Lemma still_set_task k i f : (forall t, still_task t (f t)) -> still k (set_task i f k).
Proof.
  intros Hf. constructor; try done; [apply length_set_task|]. intros ti. rewrite task_set.
  case_decide as Hd; [destruct Hd as [-> _]; apply Hf|apply still_task_refl].
Qed.

Lemma still_field k k' : tasks k' = tasks k -> owner k' = owner k -> next_pid k' = next_pid k -> device_owner k' = device_owner k ->
  bundle_phys k' = bundle_phys k -> bundle_bytes k' = bundle_bytes k -> memory k' = memory k -> still k k'.
Proof.
  intros Et. intros. constructor; try done; [by rewrite Et|intros ti; unfold task; rewrite Et; apply still_task_refl|]. intros a _. congruence.
Qed.

(** ** Writes to a task's own pages *)

Lemma inv_wrote Y k k' p T : p <> 0 -> wrote p T k k' -> tasks k' = tasks k -> next_pid k' = next_pid k ->
  (forall ti, alive (task k ti) = true -> pid (task k ti) = p -> space k p (cr3 (task k ti)) T) -> space_inv Y k -> space_inv Y k'.
Proof.
  intros Hp Hw Et En Hself. pose proof Hw as [_ Eo Ed [B1 B2]].
  assert (Ht : forall ti, task k' ti = task k ti) by (intros; unfold task; by rewrite Et).
  apply inv_transfer; try done; [by rewrite Et|intros ti; rewrite Ht; apply still_task_refl|]. intros ti Ha Hts.
  destruct (decide (pid (task k ti) = p)) as [E|E].
  - pose proof (Hself ti Ha E) as Hs. destruct Hts as (T' & _ & Hr). exists T. rewrite !Ht, E.
    split; [by apply (wrote_space p T k)|]. intros Hb.
    rewrite (user_range_frame k k' p ti T); [by apply Hr| |by rewrite Ht|done|by apply (wrote_space p T k)].
    intros j Hj. apply (wrote_pages p T); [done|by apply (sp_owned _ _ _ _ Hs)|by right].
  - apply (task_space_frame k); [rewrite Ht; apply still_task_refl| |by rewrite Ed|done|done|done].
    intros j Hj Ho. split; [unfold owned; by rewrite Eo|]. apply (wrote_pages p T); [done|done|]. left. unfold owned in *. congruence.
Qed.

(** Copies to a task that exists. *)
Lemma inv_copy_out Y k t dst bs : alive (task k t) = true -> space_inv Y k -> space_inv Y (copy_out t dst bs k).2.
Proof.
  intros Ha Hi. destruct (si_space Y k Hi t Ha) as (T & Hs & _). destruct (call_copy_out t t dst bs k) as [_ _ _ _ _ _ (_ & _ & En & _)].
  destruct (copy_out_same t dst bs k) as (Et & _). apply (inv_wrote Y k _ (pid (task k t)) T); try done.
  - apply (si_exists Y k Hi). by left.
  - by apply copy_out_wrote.
  - intros ti Hti E. by rewrite (si_unique Y k Hi ti t E) by (apply (si_exists Y k Hi); by left).
Qed.

(** A blocked task can always be written to. *)
Lemma inv_receiver Y k t : space_inv Y k -> t_state (task k t) = T_BLOCKED ->
  user_range t (recv_buffer (task k t)) sizeof_SfMessage true k = true.
Proof.
  intros Hi Hb. destruct (si_space Y k Hi t) as (T & _ & Hr); [by apply alive_state_blocked|]. by apply Hr.
Qed.

(** ** IPC calls *)

Lemma still_wake k j f : (forall t, ipc_task (t <| t_state := T_BLOCKED |>) (f t)) -> t_state (task k j) = T_BLOCKED -> still k (set_task j f k).
Proof.
  intros Hf Hb. apply still_ipc. constructor; try done; [apply length_set_task|]. intros tm. rewrite task_set.
  case_decide as Hd; [|apply ipc_task_refl]. destruct Hd as [<- _]. destruct (Hf (task k j)) as [E1 E2 E3 E4 E5 E6 E7].
  constructor; try done. by rewrite Hb.
Qed.

(** Delivery never fails: the receiver's buffer is still there. *)
Lemma inv_deliver Y sender ep m k : zlen (m_data m) = 256 -> space_inv Y k -> exists r k', deliver sender ep m k = Ret (r, k') /\ space_inv Y k'.
Proof.
  intros Hm Hi. unfold deliver. destruct (find_index _ _) as [j|] eqn:Ef.
  - apply find_index_Some in Ef as (_ & Hp & _). apply andb_prop in Hp as [Hp _]. unfold in_tstate in Hp. apply bool_decide_eq_true in Hp.
    pose proof (inv_receiver Y k j Hi Hp) as Hr. pose proof (inv_copy_out Y k j (recv_buffer (task k j)) (message_bytes m) (alive_state_blocked _ Hp) Hi) as Hc.
    pose proof (copy_out_same j (recv_buffer (task k j)) (message_bytes m) k) as (Et & _).
    assert (E0 : (copy_out j (recv_buffer (task k j)) (message_bytes m) k).1 = 0).
    { unfold copy_out. rewrite zlen_message_bytes by done. by rewrite Hr. }
    destruct (copy_out _ _ _ _) as [x k1]. cbn [fst snd] in *. subst x. cbn [truthy Z.eqb negb]. eexists _, _. split; [done|].
    eapply inv_still; [|eapply inv_still; [|exact Hc]]; [|by apply (still_field k1 (k1 <| receive_bytes ::= fun n => copied n sizeof_SfMessage |>))].
    apply still_wake; [|unfold task; simpl; by rewrite Et]. intros t. constructor; try done. by right.
  - destruct (_ =? 8); eexists _, _; (split; [done|]); [done|]. eapply inv_still; [apply still_ipc, ipcf_endpoint|done].
Qed.

Lemma inv_send Y ti a b k : space_inv Y k -> exists r k', sys_send ti a b k = Ret (r, k') /\ space_inv Y k'.
Proof.
  intros Hi. unfold sys_send. destruct (cap _ _ _ _); [|by eexists _, _]. destruct (copy_in _ _ _ _) as [x bytes] eqn:Ec.
  destruct (truthy x) eqn:Ex; [by eexists _, _|]. cbv zeta. set (k1 := k <| send_bytes ::= _ |>).
  assert (H1 : space_inv Y k1) by (eapply inv_still; [by apply (still_field k k1)|done]).
  destruct (message_bad _); [by eexists _, _|]. destruct (_ && _); [by eexists _, _|].
  apply inv_deliver; [|done]. simpl. rewrite zlen_slice; try done. by rewrite (zlen_copy_in ti b sizeof_SfMessage k x bytes ltac:(done) Ec Ex).
Qed.

(** Blocking on a checked buffer. *)
Lemma inv_block Y ti b w c k : t_state (task k ti) = T_READY -> user_range ti b sizeof_SfMessage true k = true -> space_inv Y k ->
  space_inv Y (set_task ti (fun t => t <| t_state := T_BLOCKED |> <| wait_endpoint := w |> <| recv_buffer := b |> <| wait_deadline := c |>) k).
Proof.
  intros Hr Hu Hi. set (f := fun t => _). assert (Hl : (ti < length (tasks k))%nat).
  { destruct (decide (ti < length (tasks k))%nat); [done|]. unfold task in Hr. rewrite list_lookup_total_alt, lookup_ge_None_2 in Hr by lia. done. }
  assert (Et : forall tj, task (set_task ti f k) tj = if decide (ti = tj) then f (task k ti) else task k tj).
  { intros tj. rewrite task_set. repeat case_decide; naive_solver. }
  assert (Ea : forall tj, alive (task (set_task ti f k) tj) = alive (task k tj)).
  { intros tj. rewrite Et. case_decide as Hd; [|done]. subst tj. by rewrite (alive_state_ready _ Hr). }
  destruct Hi as [I1 I2 I3 I4 I5 I6 I0 I7 I8 I9 I10 I11].
  assert (Hh : forall tj, here Y (set_task ti f k) tj <-> here Y k tj) by (intros tj; unfold here; by rewrite Ea).
  assert (Hp : forall tj, pid (task (set_task ti f k) tj) = pid (task k tj)) by (intros tj; rewrite Et; case_decide; by subst).
  constructor; try done.
  - by rewrite length_set_task.
  - intros tj. rewrite Hp. apply I4.
  - intros t1 t2. rewrite !Hp. apply I5.
  - intros tj. rewrite Hp, Hh. apply I6.
  - intros tj. rewrite Hp, Et. case_decide; [done|apply I0].
  - intros j. setoid_rewrite Hh. setoid_rewrite Hp. apply I7.
  - intros tj. rewrite Hp, Hh. intros Hj. rewrite Et. case_decide; [subst tj|]; by apply I8.
  - intros tj. rewrite Ea. intros Ha. destruct (I9 tj Ha) as (T & Hs & Hb). exists T.
    assert (Hc : cr3 (task (set_task ti f k) tj) = cr3 (task k tj)) by (rewrite Et; case_decide; by subst).
    assert (Hs' : space (set_task ti f k) (pid (task k tj)) (cr3 (task k tj)) T) by (by apply (space_frame k)).
    rewrite Hp, Hc. split; [done|]. rewrite (user_range_frame k (set_task ti f k) (pid (task k tj)) tj T) by done.
    rewrite Et. case_decide; [by subst tj|done].
  - setoid_rewrite Hh. setoid_rewrite Hp. apply I10.
Qed.

Lemma inv_recv Y ti a b c k : t_state (task k ti) = T_READY -> space_inv Y k -> space_inv Y (sys_recv ti a b c k).2.
Proof.
  intros Hr Hi. unfold sys_recv. destruct (cap _ _ _ _) as [s|]; [|done]. destruct (user_range ti b sizeof_SfMessage true k) eqn:Eu; [|done].
  cbn [negb]. cbv zeta. destruct (truthy _).
  - pose proof (inv_copy_out Y k ti b (message_bytes (ring_at (endpoint k (ep_of (cap_of k ti s))) 0)) (alive_state_ready _ Hr) Hi) as Hc.
    destruct (copy_out _ _ _ _) as [x k1]. cbn [snd] in Hc. destruct (truthy x); [done|]. cbn [snd].
    eapply inv_still; [apply still_ipc, ipcf_endpoint|]. eapply inv_still; [|exact Hc]. by apply still_field.
  - destruct (_ && _); [done|]. by apply inv_block.
Qed.

Lemma inv_ipc_syscall Y call a b c k : t_state (task k (Z.to_nat (current k))) = T_READY -> space_inv Y k ->
  exists r k', ipc_syscall call a b c k = Ret (r, k') /\ space_inv Y k'.
Proof.
  intros Hr Hi. unfold ipc_syscall. set (ti := Z.to_nat (current k)) in *.
  assert (Hx : forall x : Z * Kernel H, ipc_frame k x.2 -> exists r k', Ret x = Ret (r, k') /\ space_inv Y k').
  { intros [r k'] Hf. exists r, k'. split; [done|]. by eapply inv_still; [apply still_ipc|]. }
  destruct (_ =? SYS_EP_CREATE); [apply Hx, ipcf_ep_create|].
  destruct (_ =? SYS_CAP_CLOSE); [apply Hx; unfold sys_cap_close; destruct (cap _ _ _ _); [apply ipcf_close_cap|done]|].
  destruct (_ =? SYS_CAP_DERIVE).
  { apply Hx. unfold sys_cap_derive. destruct (cap _ _ _ _); [|done]. destruct (_ || _); [done|apply ipcf_install]. }
  destruct (_ =? SYS_CAP_REVOKE).
  { apply Hx. unfold sys_cap_revoke. destruct (cap _ _ _ _); [|done]. destruct (negb _); [done|apply ipcf_invalidate]. }
  destruct (_ =? SYS_SEND_CANCEL).
  { apply Hx. unfold sys_send_cancel. destruct (cap _ _ _ _); [|done]. destruct (truthy c); [done|]. destruct (_ || _); [done|].
    destruct (cancel_queue _ _ _). apply ipcf_endpoint. }
  destruct (_ =? SYS_SEND); [by apply inv_send|].
  destruct (_ =? SYS_RECV); [|by eexists _, _].
  pose proof (inv_recv Y ti a b c k Hr Hi) as Hk. destruct (sys_recv ti a b c k) as [r k']. by exists r, k'.
Qed.

(** ** Releasing pages *)

Lemma nth_insert (l : list Z) i j v : nth j (<[i:=v]> l) 0 = if decide (i = j /\ (i < length l)%nat) then v else nth j l 0.
Proof.
  rewrite !nth_lookup. case_decide as Hd.
  - destruct Hd as [-> Hl]. by rewrite list_lookup_insert_eq.
  - destruct (decide (i = j)) as [->|]; [|by rewrite list_lookup_insert_ne].
    rewrite list_insert_ge by lia. done.
Qed.

(** What [pages_free] leaves. *)
Record freed (p : Z) k k' : Prop := {
  fe_owner : forall j, nth j (owner k') 0 = if nth j (owner k) 0 =? p then 0 else nth j (owner k) 0;
  fe_pages : length (owner k') = length (owner k);
  fe_page : forall j, (j < POOL_PAGES)%nat -> ~ owned k p j -> page_same k k' j;
  fe_tasks : length (tasks k') = length (tasks k);
  fe_task : forall ti, task k' ti = if decide (pid (task k ti) = p /\ (ti < SF_MAX_TASKS)%nat /\ (ti < length (tasks k))%nat)
              then (task k ti) <| page_count := 0 |> else task k ti;
  fe_rest : next_pid k' = next_pid k /\ device_owner k' = device_owner k /\ bundle_phys k' = bundle_phys k /\ bundle_bytes k' = bundle_bytes k
}.

Definition release_page (p : Z) (i : nat) k : Kernel H :=
  if nth i (owner k) 0 =? p then k <| memory ::= memset_page (pool_page i) 0 |> <| owner ::= fun o => <[i:=0]> o |> else k.

Lemma release_pages p k : p <> 0 -> length (owner k) = POOL_PAGES ->
  let k' := loop POOL_PAGES (release_page p) k in
  (forall j, nth j (owner k') 0 = if nth j (owner k) 0 =? p then 0 else nth j (owner k) 0) /\
  length (owner k') = length (owner k) /\ (forall j, (j < POOL_PAGES)%nat -> ~ owned k p j -> page_same k k' j) /\
  tasks k' = tasks k /\ next_pid k' = next_pid k /\ device_owner k' = device_owner k /\ bundle_phys k' = bundle_phys k /\ bundle_bytes k' = bundle_bytes k.
Proof.
  intros Hp Hl.
  pose (P := fun (n : nat) k' => (forall j, nth j (owner k') 0 = if decide (j < n)%nat then (if nth j (owner k) 0 =? p then 0 else nth j (owner k) 0) else nth j (owner k) 0) /\
    length (owner k') = length (owner k) /\ (forall j, (j < POOL_PAGES)%nat -> ~ owned k p j -> page_same k k' j) /\
    tasks k' = tasks k /\ next_pid k' = next_pid k /\ device_owner k' = device_owner k /\ bundle_phys k' = bundle_phys k /\ bundle_bytes k' = bundle_bytes k).
  assert (HP : P POOL_PAGES (loop POOL_PAGES (release_page p) k)).
  { apply (loop_inv P).
    - split; [|done]. intros j. by rewrite decide_False by lia.
    - intros i k1 Hi (A1 & A2 & A3 & A4). unfold release_page. destruct (Z.eqb_spec (nth i (owner k1) 0) p) as [E|E].
      + split; [|split; [simpl; by rewrite length_insert|split; [|done]]].
        * intros j. simpl. rewrite nth_insert, A1, A2, Hl. rewrite (A1 i), decide_False in E by lia.
          destruct (decide (i = j /\ (i < POOL_PAGES)%nat)) as [[<- _]|Hne].
          -- rewrite decide_True by lia. by rewrite E, Z.eqb_refl.
          -- repeat case_decide; try done; lia.
        * intros j Hj Hn a Ha. simpl. unfold memset_page. rewrite (write_other_page (memory k1) i j); [exact (A3 j Hj Hn a Ha)| |lia| |done].
          -- intros ->. apply Hn. rewrite (A1 j), decide_False in E by lia. done.
          -- by rewrite zlen_fill by done.
      + split; [|done]. intros j. rewrite A1. repeat case_decide; try done; try lia. assert (j = i) as -> by lia.
        rewrite (A1 i), decide_False in E by lia. by rewrite (proj2 (Z.eqb_neq _ _) E). }
  cbv zeta. set (k' := loop POOL_PAGES (release_page p) k) in *. clearbody k'.
  destruct HP as (A1 & A2 & A3 & A4). split; [|done]. intros j. rewrite A1. case_decide as Hd; [done|].
  rewrite nth_overflow by lia. destruct (_ =? p); done.
Qed.

Lemma pages_free_spec p k : 0 < p <= SF_PID_MAX -> length (owner k) = POOL_PAGES -> freed p k (pages_free p k).
Proof.
  intros Hp Hl. unfold pages_free. destruct (Z.eqb_spec p 0); [lia|]. destruct (Z.ltb_spec INT32_MAX p); [unfold SF_PID_MAX in Hp; sflia|].
  cbn [orb]. cbv zeta. change (fun i k => if nth i (owner k) 0 =? p then _ else k) with (release_page p).
  destruct (release_pages p k ltac:(lia) Hl) as (A1 & A2 & A3 & A4 & A5 & A6 & A7 & A8).
  set (k1 := loop POOL_PAGES _ k) in *. clearbody k1.
  pose (f := fun t : Task => t <| page_count := 0 |>).
  pose (P := fun (n : nat) k' => owner k' = owner k1 /\ memory k' = memory k1 /\ length (tasks k') = length (tasks k) /\
    next_pid k' = next_pid k /\ device_owner k' = device_owner k /\ bundle_phys k' = bundle_phys k /\ bundle_bytes k' = bundle_bytes k /\
    forall ti, task k' ti = if decide (pid (task k ti) = p /\ (ti < n)%nat /\ (ti < length (tasks k))%nat) then f (task k ti) else task k ti).
  assert (HP : P SF_MAX_TASKS (loop SF_MAX_TASKS (fun i k => if pid (task k i) =? p then set_task i f k else k) k1)).
  { apply (loop_inv P); unfold P.
    - rewrite A4. repeat (split; [done|]). intros ti. rewrite decide_False by lia. unfold task. by rewrite A4.
    - intros i k2 Hi (B1 & B2 & B3 & B4 & B5 & B6 & B7 & B8).
      assert (Ei : task k2 i = task k i) by (rewrite B8, decide_False by lia; done). rewrite Ei.
      destruct (Z.eqb_spec (pid (task k i)) p) as [E|E].
      + repeat (split; [try done; by rewrite length_set_task|]). intros ti. rewrite task_set, B3, Ei, B8.
        destruct (decide (i = ti /\ (i < length (tasks k))%nat)) as [[<- ?]|Hne]; [by rewrite decide_True by (split; [done|lia])|].
        repeat case_decide; try done; naive_solver lia.
      + repeat (split; [done|]). intros ti. rewrite B8. destruct (decide (ti = i)) as [->|]; [by rewrite !decide_False by tauto|].
        repeat case_decide; try done; naive_solver lia. }
  set (k3 := loop SF_MAX_TASKS _ k1) in *. clearbody k3. destruct HP as (B1 & B2 & B3 & B4 & B5 & B6 & B7 & B8).
  constructor; rewrite ?B1; try done. intros j Hj Hn a Ha. rewrite B2. by apply (A3 j).
Qed.

Definition also Y (ti : nat) : nat -> Prop := fun i => Y i \/ i = ti.
Definition without Y (ti : nat) : nat -> Prop := fun i => Y i /\ i <> ti.

Lemma pages_of_none k p : (forall j, ~ owned k p j) -> pages_of k p = 0.
Proof. intros Hn. apply countn_all_false. intros j _. apply Z.eqb_neq. apply Hn. Qed.

(** Freeing the pages of a process that no longer runs. *)
Lemma inv_freed Y p k k' : p <> 0 -> freed p k k' -> (forall ti, alive (task k ti) = true -> pid (task k ti) <> p) -> space_inv Y k ->
  space_inv Y k' /\ forall j, ~ owned k' p j.
Proof.
  intros Hp [E1 E2 E3 E4 E5 (E6 & E7 & E8 & E9)] Hd [I1 I2 I3 I4 I5 I6 I0 I7 I8 I9 I10 I11].
  assert (Hno : forall j, ~ owned k' p j).
  { intros j. unfold owned. rewrite E1. destruct (Z.eqb_spec (nth j (owner k) 0) p); congruence. }
  assert (Hs : forall q j, q <> p -> q <> 0 -> owned k' q j <-> owned k q j).
  { intros q j Hq Hq0. unfold owned. rewrite E1. destruct (Z.eqb_spec (nth j (owner k) 0) p); split; congruence. }
  assert (Et : forall ti, let t := task k ti in let t' := task k' ti in pid t' = pid t /\ t_state t' = t_state t /\ cr3 t' = cr3 t /\
    recv_buffer t' = recv_buffer t /\ page_limit t' = page_limit t).
  { intros ti. cbv zeta. rewrite E5. by case_decide. }
  assert (Ep : forall ti, pid (task k' ti) = pid (task k ti)) by (intros; apply Et).
  assert (Es : forall ti, t_state (task k' ti) = t_state (task k ti)) by (intros; apply Et).
  assert (Ea : forall ti, alive (task k' ti) = alive (task k ti)) by (intros; unfold alive, in_tstate; by rewrite Es).
  assert (Hh : forall ti, here Y k' ti <-> here Y k ti) by (intros ti; unfold here; by rewrite Ea).
  split; [|done]. constructor; rewrite ?E2, ?E4, ?E6, ?E7, ?E8, ?E9; try done.
  - intros ti. rewrite Ep. apply I4.
  - intros ti tj. rewrite !Ep. apply I5.
  - intros ti. rewrite Ep, Hh. apply I6.
  - intros ti. rewrite Ep, Es. apply I0.
  - intros j. setoid_rewrite Hh. setoid_rewrite Ep. destruct (decide (nth j (owner k') 0 = 0)) as [|Hn]; [by left|]. right.
    rewrite E1 in Hn. destruct (Z.eqb_spec (nth j (owner k) 0) p) as [|Hne]; [done|]. destruct (I7 j) as [|(ti & Hti & Ho)]; [done|].
    exists ti. split; [done|]. unfold owned in *. rewrite E1, (proj2 (Z.eqb_neq _ _) Hne). done.
  - intros ti. rewrite Hh. intros Hti. destruct (I8 ti Hti) as [Hc Hl]. destruct (Et ti) as (-> & _ & _ & _ & ->).
    destruct (decide (pid (task k ti) = p)) as [E|E].
    + rewrite E5, decide_True, E; [rewrite (pages_of_none k' p Hno); split; [done|]|].
      * pose proof (countn_nonneg (fun j => nth j (owner k) 0 =? pid (task k ti)) POOL_PAGES). unfold pages_of in Hc. simpl. lia.
      * assert (ti < length (tasks k))%nat; [|by rewrite I1 in *].
        destruct (decide (ti < length (tasks k))%nat); [done|]. exfalso. apply Hp. rewrite <-E. unfold task.
        by rewrite list_lookup_total_alt, lookup_ge_None_2 by lia.
    + rewrite E5, decide_False by tauto. split; [|done]. rewrite Hc. apply countn_ext. intros j _.
      apply eq_true_iff_eq. rewrite !Z.eqb_eq. symmetry. apply (Hs (pid (task k ti)) j E). by apply I6.
  - intros ti. rewrite Ea. intros Ha. pose proof (Hd ti Ha) as Hne. pose proof (I6 ti (or_introl Ha)) as Hn0.
    apply (task_space_frame k); try done; [|intros j Hj Ho|by rewrite E7|by apply I9].
    + rewrite E5. case_decide; apply still_task_refl || tauto.
    + split; [by apply Hs|]. apply E3; [done|]. unfold owned in *. congruence.
  - setoid_rewrite Hh. setoid_rewrite Ep. done.
Qed.

(** A slot that owns nothing leaves the set. *)
Lemma inv_drop Y ti k : (forall j, ~ owned k (pid (task k ti)) j) -> device_owner k <> pid (task k ti) -> alive (task k ti) = false ->
  t_state (task k ti) <> T_EMPTY -> space_inv Y k -> space_inv (without Y ti) k.
Proof.
  intros Hno Hdo Ha He [I1 I2 I3 I4 I5 I6 I0 I7 I8 I9 I10 I11].
  assert (Hh : forall tj, here (without Y ti) k tj -> here Y k tj) by (intros tj [|[]]; [by left|by right]).
  constructor; try done.
  - intros tj Hj. by apply I6, Hh.
  - intros tj Hj. destruct (I0 tj Hj) as [|Hy]; [by left|]. right. split; [done|congruence].
  - intros j. destruct (I7 j) as [|(tj & Hj & Ho)]; [by left|]. right. exists tj. split; [|done].
    destruct Hj as [|Hy]; [by left|]. right. split; [done|]. intros ->. by apply (Hno j).
  - intros tj Hj. by apply I8, Hh.
  - destruct I10 as [|(tj & Hj & E)]; [by left|]. right. exists tj. split; [|done].
    destruct Hj as [|Hy]; [by left|]. right. split; [done|]. by intros ->.
Qed.

(** Marking a task dead, whatever it was. *)
Lemma inv_mark Y ti f k : (forall t, pid (f t) = pid t /\ cr3 (f t) = cr3 t /\ page_count (f t) = page_count t /\ page_limit (f t) = page_limit t /\
    t_state (f t) = T_DEAD) -> space_inv Y k -> space_inv (if alive (task k ti) then also Y ti else Y) (set_task ti f k).
Proof.
  intros Hf [I1 I2 I3 I4 I5 I6 I0 I7 I8 I9 I10 I11]. set (Y' := if alive (task k ti) then also Y ti else Y).
  assert (Et : forall tj, task (set_task ti f k) tj = task k tj \/ tj = ti /\ task (set_task ti f k) tj = f (task k ti)).
  { intros tj. rewrite task_set. case_decide; [right; naive_solver|by left]. }
  assert (Ep : forall tj, pid (task (set_task ti f k) tj) = pid (task k tj) /\ cr3 (task (set_task ti f k) tj) = cr3 (task k tj) /\
    page_count (task (set_task ti f k) tj) = page_count (task k tj) /\ page_limit (task (set_task ti f k) tj) = page_limit (task k tj)).
  { intros tj. destruct (Et tj) as [->|[-> ->]]; [done|]. destruct (Hf (task k ti)) as (? & ? & ? & ? & ?). done. }
  assert (Hdead : alive (f (task k ti)) = false).
  { unfold alive, in_tstate. destruct (Hf (task k ti)) as (_ & _ & _ & _ & ->). done. }
  assert (Hh1 : forall tj, here Y' (set_task ti f k) tj -> here Y k tj).
  { intros tj Hh. destruct (Et tj) as [E|[-> E]]; unfold here, Y' in *; rewrite E in Hh.
    - destruct (alive (task k ti)) eqn:Ea; [|done]. destruct Hh as [|[| ->]]; auto.
    - rewrite Hdead in Hh. destruct (alive (task k ti)) eqn:Ea; [by left|]. destruct Hh; [done|by right]. }
  assert (Hh2 : forall tj, here Y k tj -> here Y' (set_task ti f k) tj).
  { intros tj Hh. unfold here, Y' in *. destruct (Et tj) as [-> |[-> ->]].
    - destruct (alive (task k ti)); [|done]. destruct Hh; [by left|by right; left].
    - rewrite Hdead. destruct (alive (task k ti)) eqn:Ea; [right; by right|]. destruct Hh; [done|by right]. }
  constructor; try done; [by rewrite length_set_task|..].
  - intros tj. destruct (Ep tj) as (-> & _). apply I4.
  - intros tj tm. destruct (Ep tj) as (-> & _), (Ep tm) as (-> & _). apply I5.
  - intros tj Hj. destruct (Ep tj) as (-> & _). auto.
  - intros tj. destruct (Et tj) as [->|[-> ->]]; [|destruct (Hf (task k ti)) as (_ & _ & _ & _ & ->); done].
    intros He. destruct (I0 tj He) as [|Hy]; [by left|right]. unfold Y'. destruct (alive (task k ti)); [by left|done].
  - intros j. destruct (I7 j) as [|(tj & Hj & Ho)]; [by left|]. right. exists tj. destruct (Ep tj) as (-> & _). auto.
  - intros tj Hj. destruct (Ep tj) as (-> & _ & -> & ->). auto.
  - intros tj Ha. destruct (Et tj) as [E|[-> E]]; [|rewrite E, Hdead in Ha; done]. rewrite E in Ha.
    apply (task_space_frame k); try done; [rewrite E; apply still_task_refl|by apply I9].
  - destruct I10 as [|(tj & Hj & E)]; [by left|]. right. exists tj. destruct (Ep tj) as (-> & _). auto.
Qed.

Lemma inv_ext Y Y' k : (forall i, Y i <-> Y' i) -> space_inv Y k -> space_inv Y' k.
Proof.
  intros E [I1 I2 I3 I4 I5 I6 I0 I7 I8 I9 I10 I11]. assert (Hh : forall ti, here Y' k ti <-> here Y k ti) by (intros; unfold here; by rewrite E).
  constructor; try done.
  - intros ti. rewrite Hh. apply I6.
  - intros ti. rewrite <-E. apply I0.
  - intros j. setoid_rewrite Hh. apply I7.
  - intros ti. rewrite Hh. apply I8.
  - setoid_rewrite Hh. apply I10.
Qed.

(** The device of a process that no longer runs. *)
Lemma inv_forget Y k ti : alive (task k ti) = false -> space_inv Y k -> space_inv Y (device_forget ti k) /\
  (pid (task k ti) <> 0 -> device_owner (device_forget ti k) <> pid (task k ti)).
Proof.
  intros Ha Hi. unfold device_forget. destruct (Z.eqb_spec (device_owner k) (pid (task k ti))) as [E|E]; [|done].
  split; [|simpl; congruence]. destruct (decide (pid (task k ti) = 0)) as [Hz|Hz].
  { eapply inv_still; [|exact Hi]. apply still_field; try done. simpl. congruence. }
  pose proof Hi as [I1 I2 I3 I4 I5 I6 I0 I7 I8 I9 I10 I11]. constructor; try done; [|by left]. intros tj Hj.
  apply (task_space_frame k); [apply still_task_refl|done| |done|done|by apply I9]. intros Ed. exfalso.
  assert (Et : pid (task k tj) = pid (task k ti)) by (etransitivity; [symmetry; exact Ed|exact E]).
  assert (tj = ti) as -> by (apply I5; [done|by rewrite Et]). change (alive (task k ti) = true) in Hj. congruence.
Qed.

End Inv.
