(* ===== verification/KernelSteps.v ===== *)
(** * The kernel as a sequence of IPC events

    Task creation, death, system calls, scheduling and interrupts of
    [kernel/core.c], each shown to be a sequence of the events of [IpcSafe]. *)

From S2P Require Import Prelude Bytes CMem Abi Sched Arguments Kernel Memory Space Ipc Acpi Iommu Device Core IpcInv IpcCalls IpcSafe KernelFrame.

Section Steps.
Context {H : Type} `{LO : LayoutOk} `{HW : Hardware H}.
Implicit Types (k : Kernel H).

(** ** Steps that IPC does not see *)

Lemma same_ipc_trans t1 t2 t3 : same_ipc t1 t2 -> same_ipc t2 t3 -> same_ipc t1 t3.
Proof. unfold same_ipc. intros (? & ? & ? & ?) (? & ? & ? & ?). repeat split; congruence. Qed.

#[export] Instance env_preorder : PreOrder (env_step (H:=H)).
Proof.
  split; [by repeat split|]. intros k1 k2 k3 (L1 & E1 & T1) (L2 & E2 & T2). split; [congruence|]. split; [congruence|].
  intros ti. by apply same_ipc_trans with (task k2 ti).
Qed.

(** Invisible to IPC, with the same capability limits and current task. *)
Record quiet k k' : Prop := {
  q_env : env_step k k';
  q_limit : forall ti, cap_limit (task k' ti) = cap_limit (task k ti);
  q_current : current k' = current k /\ next_pid k' = next_pid k;
  q_frame : forall ti, frame (task k' ti) = frame (task k ti)
}.

#[export] Instance quiet_preorder : PreOrder quiet.
Proof.
  split; [intros k; by constructor|]. intros k1 k2 k3 [E1 L1 [C1 N1] F1] [E2 L2 [C2 N2] F2]. constructor; [by transitivity k2| |split; congruence|].
  - intros ti. by rewrite L2, L1.
  - intros ti. by rewrite F2, F1.
Qed.

Definition calm k k' : Prop := fixed k -> quiet k k' /\ fixed k'.

#[export] Instance calm_preorder : PreOrder calm.
Proof.
  split; [intros k Hf; done|]. intros k1 k2 k3 A B Hf. destruct (A Hf) as [Q1 Hf2]. destruct (B Hf2) as [Q2 Hf3].
  split; [by transitivity k2|done].
Qed.

Lemma framed_quiet k k' : framed k k' -> quiet k k'.
Proof.
  intros [F1 F2 F3 F4 (F5 & _ & F6) _ _ _ _]. constructor; [|intros ti|done|intros ti].
  - split; [done|]. split; [done|]. intros ti. destruct (F2 ti) as (? & ? & ? & ? & ->). done.
  - destruct (F2 ti) as (? & ? & ? & ? & ->). done.
  - destruct (F2 ti) as (? & ? & ? & ? & ->). done.
Qed.

Lemma calm_dev k k' : dev_step k k' -> calm k k'.
Proof. intros Hd Hf. destruct (Hd Hf) as [F Hf']. split; [by apply framed_quiet|done]. Qed.

(** A device operation extends a calm run. *)
Lemma calm_then k0 k k' : calm k0 k -> dev_step k k' -> calm k0 k'.
Proof. intros Hc Hd. transitivity k; [done|by apply calm_dev]. Qed.

Lemma calm_field k0 k k' : tasks k' = tasks k -> endpoints k' = endpoints k -> current k' = current k -> next_pid k' = next_pid k ->
  iommu k' = iommu k -> mmio_ready k' = mmio_ready k -> boot_mmio_pd k' = boot_mmio_pd k -> calm k0 k -> calm k0 k'.
Proof.
  intros E1 E2 E3 En E4 E5 E6 Hc. transitivity k; [done|]. intros Hf. split.
  - constructor; [|intros ti; unfold task; by rewrite E1|done|intros ti; unfold task; by rewrite E1]. split; [by rewrite E1|]. split; [done|]. intros ti. unfold task. by rewrite E1.
  - unfold fixed. rewrite E4, E5, E6. apply Hf.
Qed.

Lemma calm_set_task k0 k ti f : (forall t, same_ipc t (f t) /\ cap_limit (f t) = cap_limit t /\ frame (f t) = frame t) -> calm k0 k -> calm k0 (set_task ti f k).
Proof.
  intros Ht Hc. transitivity k; [done|]. intros Hf. split; [|done]. constructor; [|intros tj|done|intros tj].
  - split; [apply length_set_task|]. split; [done|]. intros tj. rewrite task_set. case_decide as Hd; [destruct Hd as [-> _]; apply Ht|done].
  - rewrite task_set. case_decide as Hd; [destruct Hd as [-> _]; apply Ht|done].
  - rewrite task_set. case_decide as Hd; [destruct Hd as [-> _]; apply Ht|done].
Qed.

Lemma calm_if k0 (b : bool) k k' : calm k0 k -> calm k0 k' -> calm k0 (if b then k else k').
Proof. by destruct b. Qed.
Lemma calm_if2 {A} k0 (b : bool) (x y : A * Kernel H) : calm k0 x.2 -> calm k0 y.2 -> calm k0 (if b then x else y).2.
Proof. by destruct b. Qed.
Lemma calm_loop k0 n f : (forall i k, calm k0 k -> calm k0 (f i k)) -> forall k, calm k0 k -> calm k0 (loop n f k).
Proof. intros Hf k Hk. apply (loop_inv (fun _ k' => calm k0 k')); [done|]. intros. by apply Hf. Qed.

End Steps.

#[export] Hint Resolve calm_if calm_if2 : dev.
#[export] Hint Extern 1 (calm ?k ?k) => reflexivity : dev.
#[export] Hint Extern 1 (calm _ (snd (_, _))) => cbn [snd] : dev.
Ltac calm_plain := intros; eapply calm_field; [..|eassumption]; done.

Section Calm.
Context {H : Type} `{LO : LayoutOk} `{HW : Hardware H}.
Implicit Types (k : Kernel H).

(** *** [memory.c] *)

Lemma calm_store k0 k a v : calm k0 k -> calm k0 (store a v k).
Proof. calm_plain. Qed.
Lemma calm_fill_page k0 k a bs : calm k0 k -> calm k0 (fill_page a bs k).
Proof. calm_plain. Qed.
#[local] Hint Resolve calm_store calm_fill_page : dev.

Lemma calm_page_alloc k0 k p : calm k0 k -> calm k0 (page_alloc p k).2.
Proof.
  intros Hc. unfold page_alloc. destruct (page_owner k p) as [ti|]; [|done]. destruct (_ <=? _); [done|].
  destruct (find_index _ _) as [i|]; [|done]. cbn [snd].
  eapply calm_field; [..|apply (calm_set_task k0 k ti (fun t => t <| page_count ::= fun n => u32 (n + 1) |>)); [done|exact Hc]]; done.
Qed.
#[local] Hint Resolve calm_page_alloc : dev.

Lemma calm_space_new k0 k p : calm k0 k -> calm k0 (space_new p k).2.
Proof.
  intros Hc. unfold space_new. assert (Hk : calm k0 (init_kernel_pd k)) by (apply calm_loop; eauto with dev). dev_run.
Qed.

Lemma calm_next_table k0 k t e c : calm k0 k -> calm k0 (next_table t e c k).2.
Proof. intros Hc. unfold next_table. dev_run. Qed.
#[local] Hint Resolve calm_next_table : dev.

Lemma calm_pte k0 k t v c : calm k0 k -> calm k0 (pte t v c k).2.
Proof.
  intros Hc. unfold pte. destruct (_ || _); [done|]. cbv zeta.
  pose proof (calm_next_table k0 k t (slot64 (Z.land (load64 (memory k) (slot64 (cr3 (task k t)) 0)) ADDRESS_MASK) (Z.shiftr v 30)) c Hc) as H1.
  destruct (next_table _ _ _ _) as [[p2|] k1]; [|done]. cbn [snd] in H1.
  pose proof (calm_next_table k0 k1 t (slot64 p2 (Z.land (Z.shiftr v 21) 511)) c H1) as H2.
  destruct (next_table _ _ _ k1) as [[p1|] k2]; done.
Qed.
#[local] Hint Resolve calm_pte : dev.

Lemma calm_space_map k0 k t v p fl : calm k0 k -> calm k0 (space_map t v p fl k).2.
Proof. intros Hc. unfold space_map. dev_run. Qed.
#[local] Hint Resolve calm_space_map : dev.

Lemma calm_space_map_mmio k0 k t v p : calm k0 k -> calm k0 (space_map_mmio t v p k).2.
Proof. intros Hc. unfold space_map_mmio. dev_run. Qed.

Lemma calm_pages_free k0 k p : calm k0 k -> calm k0 (pages_free p k).
Proof.
  intros Hc. unfold pages_free. apply calm_if; [done|]. apply calm_loop.
  - intros i k1 H1. apply calm_if; [|done]. by apply calm_set_task.
  - apply calm_loop; [|done]. intros i k1 H1. apply calm_if; [|done]. calm_plain.
Qed.

Lemma calm_device_forget k0 k ti : calm k0 k -> calm k0 (device_forget ti k).
Proof. intros Hc. unfold device_forget. apply calm_if; [calm_plain|done]. Qed.

End Calm.

#[export] Hint Resolve calm_store calm_fill_page calm_page_alloc calm_space_new calm_next_table calm_pte calm_space_map
  calm_space_map_mmio calm_pages_free calm_device_forget : dev.

Section Events.
Context {H : Type} `{LO : LayoutOk} `{HW : Hardware H}.
Implicit Types (k : Kernel H).

(** ** Sequences of events *)

Lemma steps_trans k1 k2 k3 : ipc_steps k1 k2 -> ipc_steps k2 k3 -> ipc_steps k1 k3.
Proof. intros A B. induction B as [|k' k'' _ IH Hs]; [done|]. by apply StepsSnoc with k'. Qed.

Lemma steps_one k k' : ipc_step k k' -> ipc_steps k k'.
Proof. intros. eapply StepsSnoc; [apply StepsNil|done]. Qed.

Lemma steps_env k k' : env_step k k' -> ipc_steps k k'.
Proof. intros. by apply steps_one, StepEnv. Qed.

(** A part of the kernel that amounts to events and keeps what devices need. *)
Definition reaches k k' : Prop := fixed k -> ipc_steps k k' /\ fixed k'.

(** The same under the same current task. *)
Definition evolves k k' : Prop := fixed k -> ipc_steps k k' /\ fixed k' /\ current k' = current k.

#[export] Instance reaches_preorder : PreOrder reaches.
Proof.
  split; [intros k Hf; split; [apply StepsNil|done]|]. intros k1 k2 k3 A B Hf. destruct (A Hf) as [S1 Hf2]. destruct (B Hf2) as [S2 Hf3].
  split; [by apply steps_trans with k2|done].
Qed.

Lemma evolves_reaches k k' : evolves k k' -> reaches k k'.
Proof. intros He Hf. by destruct (He Hf) as (? & ? & _). Qed.

#[export] Instance evolves_preorder : PreOrder evolves.
Proof.
  split; [intros k Hf; split; [apply StepsNil|done]|]. intros k1 k2 k3 A B Hf.
  destruct (A Hf) as (S1 & Hf2 & C1). destruct (B Hf2) as (S2 & Hf3 & C2).
  split; [by apply steps_trans with k2|]. split; [done|congruence].
Qed.

Lemma evolves_calm k k' : calm k k' -> evolves k k'.
Proof. intros Hc Hf. destruct (Hc Hf) as [[He _ [Hcu _] _] Hf']. split; [by apply steps_env|done]. Qed.

Lemma fixed_ipc k k' : ipc_frame k k' -> fixed k -> fixed k'.
Proof. intros [_ _ _ (E1 & E2 & E3 & _) _ _]. unfold fixed. by rewrite E1, E2, E3. Qed.

Lemma fixed_set_task i f k : fixed k -> fixed (set_task i f k).
Proof. done. Qed.

(** Setting related tasks to a state on both sides. *)
Lemma env_set_task i f g k k' : env_step k k' -> (forall t t', same_ipc t t' -> same_ipc (f t) (g t')) ->
  env_step (set_task i f k) (set_task i g k').
Proof.
  intros (Hl & He & Ht) Hfg. split; [by rewrite !length_set_task|]. split; [done|]. intros tj. rewrite !task_set, Hl.
  case_decide as Hd; [|apply Ht]. destruct Hd as [-> _]. apply Hfg, Ht.
Qed.

Lemma same_ipc_finish st f t t' : (forall t, same_ipc (finish st t) (f t)) -> same_ipc t t' -> same_ipc (finish st t) (f t').
Proof. intros Hf (E1 & E2 & E3 & E4). destruct (Hf t') as (F1 & F2 & F3 & F4). unfold same_ipc in *. simpl in *. repeat split; congruence. Qed.

Lemma calm_release k0 k ti : calm k0 k -> calm k0 (device_release ti k).2.
Proof. intros. eapply calm_then; [eassumption|]. eauto with dev. Qed.

(** Death in three parts. *)
Definition dead_mark (ti : nat) (st : Z) k : Kernel H :=
  set_task ti (fun t => t <| t_state := T_DEAD |> <| exit_status := s32 st |>) (ipc_cleanup ti k).
Definition dead_free (ti : nat) k : Kernel H :=
  let k := if (0 <=? current k) && (Z.of_nat ti =? current k) then k <| live_cr3 := boot_cr3 k |> else k in
  device_forget ti (pages_free (pid (task k ti)) k).

Lemma task_dead_parts ti st k : task_dead ti st k = dead_free ti (dead_mark ti st (device_release ti k).2).
Proof. unfold task_dead, dead_free, dead_mark. destruct (device_release ti k). cbn [snd]. reflexivity. Qed.

Lemma calm_dead_free k0 k ti : calm k0 k -> calm k0 (dead_free ti k).
Proof.
  intros Hc. unfold dead_free. cbv zeta. apply calm_device_forget, calm_pages_free, calm_if; [|done]. by apply (calm_field k0 k).
Qed.

Lemma evolves_dead_mark ti st k : evolves k (dead_mark ti st k).
Proof.
  intros Hf. unfold dead_mark. pose proof (ipcf_cleanup ti k) as Hc. pose proof (StepExit k ti) as Hs.
  set (k1 := ipc_cleanup ti k) in *. clearbody k1. split; [|split; [by apply fixed_set_task, (fixed_ipc k)|by destruct Hc as [_ _ _ _ _ (? & _)]]].
  eapply StepsSnoc; [by apply steps_one|]. apply StepEnv, env_set_task; [done|]. intros t t'.
  by apply (same_ipc_finish T_DEAD (fun t => t <| t_state := T_DEAD |> <| exit_status := s32 st |>)).
Qed.

Lemma evolves_dead ti st k : evolves k (task_dead ti st k).
Proof.
  rewrite task_dead_parts. transitivity (device_release ti k).2; [by apply evolves_calm, calm_release|].
  etransitivity; [apply evolves_dead_mark|]. by apply evolves_calm, calm_dead_free.
Qed.

(** ** Device grants *)

Ltac calm_of := intros; eapply calm_then; [eassumption|]; eauto with dev.

Lemma calm_config_read k0 k bdf off : calm k0 k -> calm k0 (config_read bdf off k).2.
Proof. calm_of. Qed.
Lemma calm_config_write k0 k bdf c : calm k0 k -> calm k0 (config_write_command bdf c k).
Proof. calm_of. Qed.
Lemma calm_modern_window k0 k bdf bar : calm k0 k -> calm k0 (modern_window bdf bar k).2.
Proof. calm_of. Qed.
Lemma calm_iommu_grant k0 k bdf p : 0 <= bdf -> calm k0 k -> calm k0 (iommu_grant bdf p k).2.
Proof. calm_of. Qed.
#[local] Hint Resolve calm_config_read calm_config_write calm_modern_window calm_iommu_grant calm_release : dev.

Lemma calm_map_pages n f k0 : (forall off k, calm k0 k -> calm k0 (f off k).2) -> forall i k, calm k0 k -> calm k0 (map_pages_from n i f k).2.
Proof.
  intros Hf. induction n as [|n IH]; intros i k Hc; cbn [map_pages_from]; [done|]. pose proof (Hf (4096 * Z.of_nat i) k Hc) as H1.
  destruct (f _ k) as [r k1]. destruct (truthy r); [done|]. by apply IH.
Qed.

Lemma calm_grant_device k0 k ti bdf io physical rights modern args : 0 <= bdf -> calm k0 k ->
  calm k0 (grant_device ti bdf io physical rights modern args k).2.
Proof.
  intros Hb Hc. unfold grant_device, released.
  assert (H1 : calm k0 (set_task ti (fun t => t <| t_device_io := io |>) k)) by (by apply calm_set_task).
  set (k1 := set_task _ _ k) in *. clearbody k1.
  assert (H2 : calm k0 (k1 <| device_owner := pid (task k1 ti) |> <| memory ::= fun m => mwrite m dma (fill 0 SF_DMA_BYTES) |>)) by calm_plain.
  set (k2 := k1 <| device_owner := _ |> <| memory ::= _ |>) in *. clearbody k2. cbv zeta.
  set (first := if modern then _ else (true, k2)).
  assert (H4 : calm k0 first.2).
  { unfold first. apply calm_if2; [|done]. apply calm_map_pages; [|done]. eauto with dev. }
  destruct first as [ok k3]. cbn [snd] in H4. destruct (negb ok); [apply calm_release, H4|].
  pose proof (calm_map_pages 16 (fun off => space_map ti (SF_DMA + off) (dma + off) 3) k0 (fun off k => calm_space_map k0 k ti _ _ _) 0%nat k3 H4) as H5.
  destruct (map_pages_from 16 0 _ k3) as [ok2 k4]. cbn [snd] in H5. destruct (negb ok2); [apply calm_release, H5|]. dev_run.
Qed.

Lemma calm_device_grant k0 k ti b rights args : 0 <= b -> calm k0 k -> calm k0 (device_grant ti b rights args k).2.
Proof.
  intros Hb Hc. unfold device_grant. destruct (Z.eqb_spec b 0); [done|]. cbn [orb]. destruct (_ <? _); [done|].
  destruct (_ || _); [done|]. destruct (_ =? 2); [done|]. cbv zeta.
  pose proof (calm_config_read k0 k (b - 1) 0 Hc) as H1. destruct (config_read (b - 1) 0 k) as [identity k1]. cbn [snd] in H1.
  destruct (_ && _); [done|]. destruct (_ && _); [done|].
  pose proof (calm_config_read k0 k1 (b - 1) (if identity =? 0x10421af4 then 32 else 16) H1) as H2.
  destruct (config_read _ _ k1) as [bar k2]. cbn [snd] in H2.
  set (w := if identity =? _ then modern_window _ _ _ else _). assert (H3 : calm k0 w.2) by (unfold w; eauto with dev).
  destruct w as [[r physical] k3].
  cbn [snd] in H3. destruct (truthy r); [done|].
  match goal with |- context [device_release ti (set_task ti ?f k3)] =>
    pose proof (calm_release k0 (set_task ti f k3) ti (calm_set_task k0 k3 ti f ltac:(done) H3)) as H4; destruct (device_release ti (set_task ti f k3)) as [x k4] end.
  cbn [snd] in H4. destruct (truthy x); [done|]. apply calm_grant_device; [lia|done].
Qed.

(** ** Construction of a task *)

(** [gs] have been granted since the slot was taken in [k0]. *)
Definition built (from slot : nat) (gs : list (Z * Z)) k0 k : Prop :=
  quiet (grants from slot gs k0) k /\ fixed k /\ from = Z.to_nat (current k) /\ current k = current k0.

Lemma built_calm from slot gs k0 k k' : calm k k' -> built from slot gs k0 k -> built from slot gs k0 k'.
Proof.
  intros Hc (Hq & Hf & E). destruct (Hc Hf) as [Hq' Hf']. split; [by transitivity k|]. split; [done|]. by rewrite (proj1 (q_current _ _ Hq')).
Qed.

Lemma quiet_cap_of k k' ti s : quiet k k' -> cap_of k' ti s = cap_of k ti s.
Proof. intros [(_ & _ & Ht) _ _ _]. unfold cap_of. by destruct (Ht ti) as (-> & _). Qed.

Lemma quiet_endpoint k k' i : quiet k k' -> endpoint k' i = endpoint k i.
Proof. intros [(_ & E & _) _ _ _]. unfold endpoint. by rewrite E. Qed.

Lemma quiet_cap k k' ti h r : quiet k k' -> cap k' ti h r = cap k ti h r.
Proof. intros Hq. unfold cap. rewrite !(quiet_cap_of k k'), (quiet_endpoint k k') by done. done. Qed.

Lemma quiet_slot k k' ti : quiet k k' -> cap_slot (task k' ti) = cap_slot (task k ti).
Proof.
  intros [(_ & _ & Ht) Hl _ _]. unfold cap_slot, task_caps_used. by destruct (Ht ti) as (-> & _); rewrite Hl.
Qed.

(** A grant does the same in both. *)
Lemma quiet_install k k' ti ep r : quiet k k' ->
  (install ti ep r k').1 = (install ti ep r k).1 /\ quiet (install ti ep r k).2 (install ti ep r k').2.
Proof.
  intros Hq. unfold install. rewrite (quiet_slot k k') by done. destruct (cap_slot (task k ti)) as [s|]; [|done]. cbn [fst snd].
  rewrite (quiet_cap_of k k'), (quiet_endpoint k k') by done. split; [done|]. destruct Hq as [(Hl & He & Ht) Hm Hc Hfr].
  set (c := MkCap _ _ _ _). clearbody c. constructor; [|intros tj|done|intros tj].
  - apply (env_set_task ti); [done|]. intros t t' (E1 & E2 & E3 & E4). unfold same_ipc. simpl. by rewrite E1.
  - unfold set_cap. rewrite !task_set, Hl. case_decide; [|apply Hm]. simpl. apply Hm.
  - unfold set_cap. rewrite !task_set, Hl. case_decide; [|apply Hfr]. simpl. apply Hfr.
Qed.

Lemma quiet_grant k k' from to h r : quiet k k' ->
  (ipc_grant from to h r k').1 = (ipc_grant from to h r k).1 /\ quiet (ipc_grant from to h r k).2 (ipc_grant from to h r k').2.
Proof.
  intros Hq. unfold ipc_grant. rewrite (quiet_cap k k') by done. destruct (cap k from h RIGHT_DELEGATE) as [s|]; [|done].
  rewrite (quiet_cap_of k k') by done. destruct (negb _); [done|]. by apply quiet_install.
Qed.

Lemma built_grant from slot gs k0 k h r : built from slot gs k0 k -> built from slot (gs ++ [(h, r)]) k0 (ipc_grant from slot h r k).2.
Proof.
  intros (Hq & Hf & E). pose proof (ipcf_grant from slot h r k) as Hi. split; [|split; [by apply (fixed_ipc k)|]].
  - unfold grants. rewrite foldl_app. simpl. by apply quiet_grant.
  - destruct Hi as [_ _ _ _ _ (-> & _)]. done.
Qed.

(** *** The image *)

Definition calm_build (f : build) : Prop := forall k0 k, calm k0 k -> calm k0 (f k).2.

Lemma calm_nothing : calm_build (fun k => (true, k)).
Proof. by intros k0 k. Qed.

Lemma calm_then_ f g : calm_build f -> calm_build g -> calm_build (then_ f g).
Proof. intros Hf Hg k0 k Hc. unfold then_. specialize (Hf k0 k Hc). destruct (f k) as [[] k1]; [by apply Hg|done]. Qed.

Lemma calm_repeat n f : (forall i, calm_build (f i)) -> forall i, calm_build (repeat_ n i f).
Proof. intros Hf. induction n as [|n IH]; intros i; cbn [repeat_]; [apply calm_nothing|]. by apply calm_then_. Qed.

Lemma calm_with_page slot v fl next : (forall p, calm_build (next p)) -> calm_build (with_page slot v fl next).
Proof. intros Hn k0 k Hc. unfold with_page. dev_run. by apply Hn. Qed.

Lemma calm_build_image slot parent base p : calm_build (build_image slot parent base p).
Proof.
  apply calm_then_; apply calm_repeat; intros i.
  - unfold load_segment. cbv zeta. apply calm_repeat. intros j. apply calm_with_page. intros page k0 k Hc.
    destruct parent as [t|]; [|by apply calm_fill_page]. destruct (copy_in _ _ _ _) as [r bytes]. destruct (truthy r); [done|by apply calm_fill_page].
  - apply calm_with_page. intros page. apply calm_nothing.
Qed.

Lemma calm_bundle slot n : calm_build (repeat_ n 0 (bundle_page slot)).
Proof. apply calm_repeat. intros i k0 k Hc. unfold bundle_page. dev_run. Qed.

Lemma calm_arg_page k0 k slot : calm k0 k -> calm k0 (arg_page slot k).2.
Proof. intros Hc. unfold arg_page. dev_run. Qed.

(** *** Capabilities and the device *)

Record plan_typed (p : SfLoadPlan) : Prop := {
  pt_manager : 0 <= lp_grant_manager p; pt_service : 0 <= lp_grant_service p; pt_device : 0 <= lp_grant_device p
}.

(** Handles of grants. *)
Definition handles_ok (gs : list (Z * Z)) : Prop := Forall (fun g => 0 <= g.1) gs.

Lemma built_plan_grant from slot gs k0 k h r : 0 <= h -> built from slot gs k0 k -> handles_ok gs ->
  exists gs', handles_ok gs' /\ built from slot gs' k0 (plan_grant from slot h r k).2.
Proof.
  intros Hh Hb Hg. unfold plan_grant. destruct (h =? 0); [by exists gs|]. exists (gs ++ [(h, r)]).
  split; [by apply Forall_app; split; [|constructor]|by apply built_grant].
Qed.

Lemma built_plan_grants from slot p args gs k0 k : plan_typed p -> built from slot gs k0 k -> handles_ok gs ->
  exists gs', handles_ok gs' /\ built from slot gs' k0 (plan_grants from slot p args k).2.
Proof.
  intros [Hm Hs _] Hb Hg. unfold plan_grants.
  destruct (built_plan_grant from slot gs k0 k (lp_grant_manager p) RIGHT_SEND Hm Hb Hg) as (gs1 & Hg1 & Hb1).
  destruct (plan_grant from slot (lp_grant_manager p) RIGHT_SEND k) as [h k1]. cbn [snd] in Hb1. destruct (h <? 0); [by exists gs1|].
  destruct (_ && _); [by exists gs1|].
  destruct (built_plan_grant from slot gs1 k0 k1 (lp_grant_service p) (lp_service_rights p) Hs Hb1 Hg1) as (gs2 & Hg2 & Hb2).
  destruct (plan_grant from slot (lp_grant_service p) _ k1) as [h2 k2]. cbn [snd] in Hb2. exists gs2. by destruct (h2 <? 0).
Qed.

Lemma built_equip from slot bootstrap p page k0 k : plan_typed p -> built from slot [] k0 k ->
  exists gs, handles_ok gs /\ (bootstrap = true -> gs = []) /\ built from slot gs k0 (equip slot bootstrap p page k).2.
Proof.
  intros Hp Hb. unfold equip. cbv zeta. set (k1 := fill_page page _ k). assert (Hb1 : built from slot [] k0 k1).
  { apply (built_calm from slot [] k0 k); [|done]. by apply calm_fill_page. }
  clearbody k1. set (w := if needs_bundle bootstrap p then _ else _). assert (Hw : calm k1 w.2).
  { unfold w. apply calm_if2; [by apply calm_bundle|done]. }
  destruct w as [ok k2]. cbn [snd] in Hw. pose proof (built_calm _ _ _ _ _ _ Hw Hb1) as Hb2.
  destruct (negb ok); [exists []; by split; [constructor|]|].
  set (args := if needs_bundle bootstrap p then _ else _). clearbody args. destruct Hb2 as (Hq & Hf & E & Ec). rewrite <-E.
  set (g := if bootstrap then _ else _). assert (Hg : exists gs, handles_ok gs /\ (bootstrap = true -> gs = []) /\ built from slot gs k0 g.2).
  { unfold g. destruct bootstrap; [exists []; by split; [constructor|]|]. destruct (built_plan_grants from slot p args [] k0 k2 Hp) as (gs & Hg & Hb3);
      [done|constructor|]. by exists gs. }
  destruct g as [[ok3 args3] k3]. cbn [snd] in Hg. destruct Hg as (gs & Hg & He & Hb3). exists gs. split; [done|]. split; [done|].
  destruct (negb ok3); [done|]. destruct (_ =? 0); [done|]. apply (built_calm from slot gs k0 k3); [|done].
  apply calm_device_grant; [apply Hp|done].
Qed.

(** A slot that is being filled. *)
Record filling (slot from : nat) (n : Z) (gs : list (Z * Z)) kk k : Prop := {
  fl_gone : gone (task kk slot); fl_slot : (slot < SF_MAX_TASKS)%nat; fl_creator : creator kk from gs;
  fl_built : built from slot gs (set_task slot (new_task n) kk) k
}.

Lemma evolves_abandon slot from n gs kk k r : filling slot from n gs kk k ->
  let k' := (abandon slot r k).2 in ipc_steps kk k' /\ fixed k' /\ current k' = current kk.
Proof.
  intros [Hg Hs Hc Hb]. unfold abandon. pose proof (calm_release k k slot ltac:(done)) as Hr.
  pose proof (built_calm _ _ _ _ _ _ Hr Hb) as (Hq & Hf & _ & C1).
  destruct (device_release slot k) as [x k1]. cbn [snd] in Hq, Hf, C1. change (current (set_task slot (new_task n) kk)) with (current kk) in C1.
  pose proof (StepSpawnFail kk slot from n gs k1 Hg Hs Hc (q_env _ _ Hq)) as Hst. pose proof (ipcf_cleanup slot k1) as Hi.
  set (k2 := ipc_cleanup slot k1) in *. clearbody k2. cbv zeta. cbn [snd].
  assert (Hcm : calm k2 (device_forget slot (pages_free (pid (task k2 slot)) k2))) by eauto with dev.
  set (k3 := device_forget slot _) in *. clearbody k3. destruct (Hcm (fixed_ipc _ _ Hi Hf)) as [[He _ [C3 _] _] Hf3].
  split; [|split; [by apply fixed_set_task|destruct Hi as [_ _ _ _ _ (C2 & _)]; cbn; congruence]]. eapply StepsSnoc; [by apply steps_one|]. apply StepEnv, env_set_task; [done|].
  intros t t'. by apply (same_ipc_finish T_DEAD (fun t => t <| t_state := T_DEAD |> <| exit_status := r |>)).
Qed.

Lemma evolves_launch slot from n gs kk k p base page args : n <> 0 -> filling slot from n gs kk k ->
  let k' := (launch slot p base page args k).2 in ipc_steps kk k' /\ fixed k' /\ current k' = current kk.
Proof.
  intros Hn [Hg Hs Hc Hb]. unfold launch. pose proof (calm_fill_page k k page (boot_args_bytes args) ltac:(done)) as Hp.
  set (k1 := fill_page _ _ k) in *. clearbody k1. destruct (built_calm _ _ _ _ _ _ Hp Hb) as (Hq & Hf & _ & C1). cbv zeta. cbn [snd].
  split; [|split; [by apply fixed_set_task|done]].
  eapply StepsSnoc; [apply steps_one, (StepSpawn kk slot from n gs k1 Hg Hs Hc Hn (q_env _ _ Hq))|]. apply StepEnv, env_set_task; [done|].
  intros t t'. by apply (same_ipc_finish T_READY (fun t => t <| frame := _ |> <| t_ready_since := _ |> <| t_state := T_READY |> <| exit_status := 0 |>)).
Qed.

Lemma filling_calm slot from n gs kk k k' : calm k k' -> filling slot from n gs kk k -> filling slot from n gs kk k'.
Proof. intros Hc [Hg Hs Hr Hb]. constructor; try done. by apply (built_calm from slot gs _ k). Qed.

Lemma evolves_construct slot n bootstrap base p kk k : plan_typed p -> n <> 0 ->
  filling slot (Z.to_nat (current k)) n [] kk k -> (bootstrap = true \/ t_state (task kk (Z.to_nat (current k))) = T_READY) ->
  let k' := (construct slot bootstrap base p k).2 in ipc_steps kk k' /\ fixed k' /\ current k' = current kk.
Proof.
  intros Hp Hn Hfl Hr. set (from := Z.to_nat (current k)) in *. unfold construct. cbv zeta.
  pose proof (calm_space_new k k (pid (task k slot)) ltac:(done)) as H1.
  set (par := if bootstrap then None else _). clearbody par. destruct (space_new _ k) as [root k1]. cbn [snd] in H1.
  assert (H2 : calm k (set_task slot (fun t => t <| cr3 := root |>) k1)) by (by apply calm_set_task).
  set (k2 := set_task slot _ k1) in *. clearbody k2. pose proof (filling_calm _ _ _ _ _ _ _ H2 Hfl) as F2. clear H1 H2.
  destruct (root =? 0); [by eapply evolves_abandon|].
  pose proof (filling_calm _ _ _ _ _ _ _ (calm_build_image slot par base p k2 k2 ltac:(done)) F2) as F3.
  destruct (build_image slot par base p k2) as [ok k3]. cbn [snd] in F3. destruct (negb ok); [by eapply evolves_abandon|].
  pose proof (filling_calm _ _ _ _ _ _ _ (calm_arg_page k3 k3 slot ltac:(done)) F3) as F4.
  destruct (arg_page slot k3) as [page k4]. cbn [snd] in F4. destruct (page =? 0); [by eapply evolves_abandon|].
  destruct F4 as [Hg Hs _ Hb]. destruct (built_equip from slot bootstrap p page _ k4 Hp Hb) as (gs & Hgs & He & Hb5).
  destruct (equip slot bootstrap p page k4) as [[r args] k5]. cbn [snd] in Hb5.
  assert (F5 : filling slot from n gs kk k5).
  { constructor; try done. split; [|done]. destruct Hr as [Hr|Hr]; [left; by apply He|by right]. }
  destruct (truthy r); [by eapply evolves_abandon|]. by eapply evolves_launch.
Qed.

Lemma pid_take_nonzero n : (sf_pid_take (Some n)).1 <> 0.
Proof. unfold sf_pid_take. destruct (Z.eqb_spec n 0); [done|]. simpl. by destruct (_ <? _). Qed.

Lemma reaches_field k k' : tasks k' = tasks k -> endpoints k' = endpoints k ->
  iommu k' = iommu k -> mmio_ready k' = mmio_ready k -> boot_mmio_pd k' = boot_mmio_pd k -> reaches k k'.
Proof.
  intros Et Ee E1 E2 E3 Hf. split; [|unfold fixed; by rewrite E1, E2, E3]. apply steps_env.
  split; [by rewrite Et|]. split; [done|]. intros ti. unfold task. by rewrite Et.
Qed.

Lemma evolves_field k k' : tasks k' = tasks k -> endpoints k' = endpoints k -> iommu k' = iommu k -> mmio_ready k' = mmio_ready k ->
  boot_mmio_pd k' = boot_mmio_pd k -> current k' = current k -> evolves k k'.
Proof. intros E1 E2 E3 E4 E5 E6 Hf. destruct (reaches_field k k' E1 E2 E3 E4 E5 Hf). done. Qed.

Lemma evolves_task_new p bootstrap pages k : plan_typed p -> (bootstrap = true \/ t_state (task k (Z.to_nat (current k))) = T_READY) ->
  evolves k (task_new_limited p bootstrap pages k).2.
Proof.
  intros Hp Hr. unfold task_new_limited. destruct (_ <? _); [done|]. destruct (_ || _); [done|]. cbv zeta.
  destruct (find_index _ _) as [slot|] eqn:Ef; [|done]. apply find_index_Some in Ef as (Hs & Hst & _).
  assert (Hg : gone (task k slot)).
  { unfold gone. unfold in_tstate in Hst. apply orb_prop in Hst as [E|E]; apply bool_decide_eq_true in E; auto. }
  pose proof (pid_take_nonzero (next_pid k)) as Hn. destruct (sf_pid_take _) as [n next]. cbn [fst] in Hn.
  set (kk := k <| next_pid := default (next_pid k) next |>). assert (H1 : evolves k kk) by (by apply evolves_field).
  destruct (n <? 0); [done|]. transitivity kk; [done|].
  change (ticks kk) with (ticks k). intros Hf.
  apply (evolves_construct slot n); [done|done| |exact Hr]. constructor; [done|done|by split; [left|constructor]|].
  split; [|done]. change (grants ?a ?b [] ?k) with k. constructor; [|intros ti|done|intros ti].
  - apply env_set_task; [done|]. intros t t' (E1 & E2 & E3 & E4). unfold same_ipc. simpl. by rewrite E1.
  - rewrite !task_set. by case_decide.
  - rewrite !task_set. by case_decide.
Qed.

(** ** System calls *)

Lemma calm_copy_out_loop n ti k0 : forall dst bs k, calm k0 k -> calm k0 (copy_out_loop n ti dst bs k).
Proof.
  induction n as [|n IH]; intros dst bs k Hc; cbn [copy_out_loop]; [done|]. destruct (_ =? 0); [done|]. apply IH. calm_plain.
Qed.
Lemma calm_copy_out k0 k ti dst bs : calm k0 k -> calm k0 (copy_out ti dst bs k).2.
Proof. intros Hc. unfold copy_out. apply calm_if2; [by apply calm_copy_out_loop|done]. Qed.

(** Changes of one task that IPC does not see. *)
Lemma evolves_set_task k i f : (forall t, same_ipc t (f t)) -> evolves k (set_task i f k).
Proof.
  intros Ht Hf. split; [|done]. apply steps_env. split; [apply length_set_task|]. split; [done|]. intros tj. rewrite task_set.
  case_decide as Hd; [destruct Hd as [-> _]; apply Ht|done].
Qed.

Lemma plan_of_bytes_typed bs : plan_typed (plan_of_bytes bs).
Proof. constructor; apply u32_bounds. Qed.

Lemma evolves_dev k k' : dev_step k k' -> evolves k k'.
Proof. intros. by apply evolves_calm, calm_dev. Qed.

(** Relations that contain the operations the calls are made of contain every
    system call. *)
Section Calls.
Context (R : Kernel H -> Kernel H -> Prop) `{!PreOrder R}.
Hypothesis R_dev : forall k k', dev_step k k' -> R k k'.
Hypothesis R_dead : forall ti st k, (ti < SF_MAX_TASKS)%nat -> R k (task_dead ti st k).
Hypothesis R_limit : forall i b k, page_count (task k i) <= b <= SF_PAGE_LIMIT_MAX -> R k (set_task i (fun t => t <| page_limit := b |>) k).
Hypothesis R_caps : forall i b k, R k (set_task i (fun t => t <| cap_limit := b |>) k).
Hypothesis R_priority : forall i b k, R k (set_task i (fun t => t <| t_priority := b |>) k).
Hypothesis R_copy : forall k k1 ti dst bs, t_state (task k ti) = T_READY -> dev_step k k1 -> R k (copy_out ti dst bs k1).2.
Hypothesis R_new : forall p pages k, plan_typed p -> 0 <= pages -> t_state (task k (Z.to_nat (current k))) = T_READY ->
  R k (task_new_limited p false pages k).2.
Hypothesis R_ipc : forall call a b c k r k', (Z.to_nat (current k) < SF_MAX_TASKS)%nat -> 0 <= a ->
  t_state (task k (Z.to_nat (current k))) = T_READY -> ipc_syscall call a b c k = Ret (r, k') -> R k k'.

Lemma init_only_run ti k f r k' : R k (f k).2 -> init_only ti k f = Ret (r, k') -> R k k'.
Proof. intros Hf. unfold init_only. destruct (_ =? _); [|by intros [= _ <-]]. intros [= E]. by rewrite E in Hf. Qed.

Lemma page_limit_run a b c k : R k (sys_page_limit a b c k).2.
Proof.
  unfold sys_page_limit. destruct (limit_args_bad a b c SF_PAGE_LIMIT_MAX) eqn:El; [done|]. destruct (find_alive k a) as [i|]; [|done].
  destruct (_ =? SF_LIMIT_USED); [done|]. destruct (_ =? SF_LIMIT_SET); [|done]. destruct (Z.ltb_spec b (page_count (task k i))); [done|].
  apply R_limit. unfold limit_args_bad in El. repeat (apply orb_false_elim in El as [El ?]). lia.
Qed.

Lemma cap_limit_run a b c k : R k (sys_cap_limit a b c k).2.
Proof.
  unfold sys_cap_limit. destruct (limit_args_bad _ _ _ _); [done|]. destruct (find_alive k a) as [i|]; [|done].
  destruct (_ =? _); [done|]. destruct (_ =? _); [|done]. destruct (_ <? _); [done|]. apply R_caps.
Qed.

Lemma priority_run a b c k : R k (sys_priority a b c k).2.
Proof.
  unfold sys_priority. destruct (_ || _); [done|]. destruct (find_alive k a) as [i|]; [|done]. destruct (_ =? _); [|done]. apply R_priority.
Qed.

Lemma spawn_run ti a pages k : 0 <= pages -> t_state (task k (Z.to_nat (current k))) = T_READY -> R k (sys_spawn ti a pages k).2.
Proof.
  intros Hg Hr. unfold sys_spawn. destruct (copy_in _ _ _ _) as [x bs]. destruct (truthy x); [done|]. apply R_new; [apply plan_of_bytes_typed|done|done].
Qed.

Lemma kill_run a b k : R k (sys_kill a b k).2.
Proof. unfold sys_kill. destruct (find_index _ _) as [i|] eqn:Ef; [|done]. apply find_index_Some in Ef as (Hi & _). by apply R_dead. Qed.

Lemma syscall_run call a b c k r k' : (Z.to_nat (current k) < SF_MAX_TASKS)%nat -> 0 <= a -> 0 <= b ->
  t_state (task k (Z.to_nat (current k))) = T_READY -> syscall call a b c k = Ret (r, k') -> R k k'.
Proof.
  intros Hti Ha Hb Hst. unfold syscall. set (ti := Z.to_nat (current k)) in *.
  destruct (_ =? SYS_EXIT); [destruct (_ =? 1); [done|]; intros [= <- <-]; by apply R_dead|].
  destruct (_ =? SYS_YIELD); [by intros [= <- <-]|].
  destruct (_ =? SYS_LOG).
  { unfold sys_log. destruct (_ || _); intros [= <- <-]; [done|]. apply R_dev. eauto with dev. }
  destruct (_ =? SYS_TICKS); [by intros [= <- <-]|].
  destruct (_ =? SYS_IPC_STATS); [apply init_only_run; destruct (_ || _); [done|by apply R_copy]|].
  destruct (_ =? SYS_TASK_PAGE_LIMIT); [apply init_only_run, page_limit_run|].
  destruct (_ =? SYS_TASK_CAP_LIMIT); [apply init_only_run, cap_limit_run|].
  destruct (_ =? SYS_TASK_PRIORITY); [apply init_only_run, priority_run|].
  destruct (_ =? SYS_SPAWN_LIMITED); [apply init_only_run; destruct (_ || _); [done|by apply spawn_run]|].
  destruct (_ =? SYS_SPAWN); [by apply init_only_run, spawn_run|].
  destruct (_ =? SYS_KILL); [apply init_only_run; destruct (_ =? 1); [done|apply kill_run]|].
  destruct (_ =? SYS_TASK_STATUS); [by apply init_only_run|].
  destruct (_ =? SYS_CONSOLE_READ); [apply init_only_run, R_dev; eauto with dev|].
  destruct (_ =? SYS_SHUTDOWN); [apply init_only_run, R_dev; cbn [snd]; eauto with dev|].
  destruct (_ =? SYS_MAP_TEST); [by intros [= <- <-]|].
  destruct (_ =? SYS_PCI_READ); [apply init_only_run, R_dev; eauto with dev|].
  destruct (_ =? SYS_PORT_IO); [intros [= E]; pose proof (dev_io k k ti a b c ltac:(done)) as Hd; rewrite E in Hd; by apply R_dev|].
  destruct (_ =? SYS_DEVICE_RELEASE).
  { intros [= E]. apply R_dev. replace k' with (sys_device_release ti a k).2 by (by rewrite E). unfold sys_device_release.
    destruct (_ =? 0); [eauto with dev|]. destruct (negb _); [done|]. destruct (find_index _ _); [eauto with dev|done]. }
  destruct (_ =? SYS_DMA_STATUS); [|by apply R_ipc].
  apply init_only_run. destruct (negb _); [done|].
  pose proof (dev_status k k ltac:(done)) as Hd. destruct (device_status k) as [x k1]. by apply R_copy.
Qed.

End Calls.

Lemma evolves_ipc_syscall call a b c k r k' : (Z.to_nat (current k) < SF_MAX_TASKS)%nat -> 0 <= a ->
  t_state (task k (Z.to_nat (current k))) = T_READY -> ipc_syscall call a b c k = Ret (r, k') -> evolves k k'.
Proof.
  intros Hti Ha Hst E Hf. split; [by apply steps_one, (StepCall k call a b c r)|].
  destruct (call_syscall _ _ _ _ _ _ _ E) as [_ _ _ _ (E1 & E2 & E3 & _) _ (E4 & _)]. unfold fixed. by rewrite E1, E2, E3.
Qed.

Lemma evolves_syscall call a b c k r k' : (Z.to_nat (current k) < SF_MAX_TASKS)%nat -> 0 <= a -> 0 <= b ->
  t_state (task k (Z.to_nat (current k))) = T_READY -> syscall call a b c k = Ret (r, k') -> evolves k k'.
Proof.
  apply syscall_run; try (intros; by apply evolves_set_task).
  - apply _.
  - apply evolves_dev.
  - intros. apply evolves_dead.
  - intros k0 k1 ti dst bs _ Hd. by apply evolves_calm, calm_copy_out, calm_dev.
  - intros. by apply evolves_task_new; [|right].
  - apply evolves_ipc_syscall.
Qed.

(** ** Scheduling and interrupts *)

Lemma reaches_schedule_loop n : forall k r k', schedule_loop n k = Ret (r, k') -> reaches k k'.
Proof.
  induction n as [|n IH]; intros k r k'; cbn [schedule_loop]; cbv zeta; (destruct (_ <? 0); [by intros [= _ <-]|]);
    set (i := sf_sched_pick _ _ _ _); (destruct (noncanonical _); [destruct (_ =? 1); [done|]|]).
  1: by intros [= _ <-].
  2: { intros E. etransitivity; [apply evolves_reaches, evolves_dead|by eapply IH]. }
  all: intros [= _ <-]; etransitivity; [|by apply (reaches_field (set_task (Z.to_nat i) (fun t => t <| t_ready_since := ticks k |>) (k <| current := i |>)))];
    etransitivity; [|by apply evolves_reaches, evolves_set_task]; by apply reaches_field.
Qed.

Lemma reaches_schedule k r k' : schedule k = Ret (r, k') -> reaches k k'.
Proof.
  unfold schedule. cbv zeta. intros E. etransitivity; [|by eapply reaches_schedule_loop].
  destruct (_ && _); [by apply evolves_reaches, evolves_set_task|done].
Qed.

Lemma evolves_fault source k : evolves k (fault_task source k).
Proof.
  unfold fault_task. destruct (find_index _ _) as [i|]; [|done]. pose proof (dev_release k k i ltac:(done)) as Hd.
  destruct (device_release i k) as [x k1]. cbn [snd] in Hd. transitivity k1; [by apply evolves_dev|]. clear Hd.
  etransitivity; [|by apply evolves_dev, dev_serial]. etransitivity; [|apply evolves_dead].
  etransitivity; [|by apply evolves_set_task]. by apply evolves_field.
Qed.

Lemma evolves_poll_faults n : forall k, evolves k (poll_faults n k).
Proof.
  induction n as [|n IH]; intros k; cbn [poll_faults]; [done|]. pose proof (dev_iommu_fault k k ltac:(done)) as Hd.
  destruct (iommu_fault k) as [[[[source reason] address]|] k1]; cbn [snd] in Hd; [|by apply evolves_dev].
  transitivity k1; [by apply evolves_dev|]. etransitivity; [|apply IH]. etransitivity; [|apply evolves_fault].
  apply evolves_dev, dev_serial. by apply (dev_field k1 k1); try done; intros [].
Qed.

End Events.
