(* ===== verification/SpaceBuild.v ===== *)
(** * Memory through the life of a task

    The invariant of [SpaceKernel] across death and creation of tasks: freeing
    pages, taking pages from the pool, growing a tree of page tables and
    mapping pages in it. *)

From S2P Require Import Prelude Bytes CMem Abi Sched Arguments Kernel Memory Space Ipc Acpi Iommu Device Core IpcInv SpaceInv KernelFrame SpaceKernel KernelSteps.

Section Build.
Context {H : Type} `{LO : LayoutOk} `{HW : Hardware H}.
Implicit Types (k : Kernel H) (Y : nat -> Prop).

(** ** Death *)

Lemma inv_dev Y k k' : fixed k -> dev_step k k' -> space_inv Y k -> space_inv Y k'.
Proof. intros Hf Hd. destruct (Hd Hf) as [F _]. by apply inv_still, still_framed. Qed.

Lemma inv_ipc Y k k' : ipc_frame k k' -> space_inv Y k -> space_inv Y k'.
Proof. intros Hi. by apply inv_still, still_ipc. Qed.

Lemma pid_range Y k ti : space_inv Y k -> pid (task k ti) <> 0 -> 0 < pid (task k ti) <= SF_PID_MAX.
Proof. intros Hi Hn. pose proof (si_pid Y k Hi ti). pose proof (si_next Y k Hi). lia. Qed.

Lemma inv_pages_free Y ti k : alive (task k ti) = false -> space_inv Y k ->
  space_inv Y (pages_free (pid (task k ti)) k) /\
  (pid (task k ti) <> 0 -> forall j, ~ owned (pages_free (pid (task k ti)) k) (pid (task k ti)) j) /\
  pid (task (pages_free (pid (task k ti)) k) ti) = pid (task k ti) /\
  t_state (task (pages_free (pid (task k ti)) k) ti) = t_state (task k ti).
Proof.
  intros Ha Hi. destruct (decide (pid (task k ti) = 0)) as [E|E].
  { unfold pages_free. rewrite E. simpl. done. }
  pose proof (pages_free_spec (pid (task k ti)) k (pid_range Y k ti Hi E) (si_pages Y k Hi)) as Hfr.
  destruct (inv_freed Y _ _ _ E Hfr) as [H1 H2]; [|done|].
  - intros tj Hj Ep. rewrite (si_unique Y k Hi tj ti Ep) in Hj by congruence. congruence.
  - pose proof (fe_task _ _ _ Hfr ti) as Et. split; [done|]. split; [done|]. rewrite Et. by case_decide.
Qed.

(** The end of [task_dead] and of a failed creation. *)
Lemma inv_reclaim Y ti k : alive (task k ti) = false -> t_state (task k ti) <> T_EMPTY \/ pid (task k ti) = 0 -> space_inv Y k ->
  let k' := device_forget ti (pages_free (pid (task k ti)) k) in
  space_inv Y k' /\ (pid (task k ti) <> 0 -> space_inv (without Y ti) k').
Proof.
  intros Ha He Hi. destruct (inv_pages_free Y ti k Ha Hi) as (H1 & H2 & E1 & E2). set (k1 := pages_free _ k) in *. clearbody k1. cbv zeta.
  assert (Ha1 : alive (task k1 ti) = false) by (unfold alive, in_tstate in *; by rewrite E2).
  destruct (inv_forget Y k1 ti Ha1 H1) as [H3 H4]. split; [done|]. intros Hn.
  assert (Et : task (device_forget ti k1) ti = task k1 ti /\ owner (device_forget ti k1) = owner k1) by (unfold device_forget; by destruct (_ =? _)).
  destruct Et as [Et Eo]. apply inv_drop; [| | | |done]; rewrite ?Et, ?E1, ?E2; try done.
  - intros j. unfold owned. rewrite Eo. by apply H2.
  - rewrite <-E1. apply H4. by rewrite E1.
  - naive_solver.
Qed.

Lemma inv_dead_mark Y ti st k : space_inv Y k -> space_inv (if alive (task k ti) then also Y ti else Y) (dead_mark ti st k).
Proof.
  intros Hi. unfold dead_mark. pose proof (ipcf_cleanup ti k) as Hf. pose proof (inv_ipc Y _ _ Hf Hi) as H1.
  assert (Ea : alive (task k ti) = alive (task (ipc_cleanup ti k) ti)).
  { symmetry. apply (sk_alive _ _ (sl_task _ _ (still_ipc _ _ Hf) ti)). }
  rewrite Ea. set (k1 := ipc_cleanup ti k) in *. clearbody k1. apply inv_mark; [done|done].
Qed.

Lemma dead_mark_state ti st k : (ti < length (tasks k))%nat -> t_state (task (dead_mark ti st k) ti) = T_DEAD.
Proof.
  intros Hti. unfold dead_mark. pose proof (ipcf_cleanup ti k) as [Hl _ _ _ _ _]. set (k2 := ipc_cleanup ti k) in *. clearbody k2.
  rewrite task_set_same by congruence. done.
Qed.

Lemma inv_dead_free Y ti k : t_state (task k ti) = T_DEAD -> space_inv Y k ->
  space_inv Y (dead_free ti k) /\ (pid (task k ti) <> 0 -> space_inv (without Y ti) (dead_free ti k)).
Proof.
  intros Es Hi. unfold dead_free. cbv zeta. set (k3 := if _ : bool then _ else k).
  assert (E3 : task k3 ti = task k ti) by (unfold k3; by destruct (_ && _)).
  assert (H3 : space_inv Y k3) by (unfold k3; destruct (_ && _); [|done]; eapply inv_still; [|exact Hi]; by apply still_field).
  clearbody k3. rewrite <-E3 in *. assert (Ha3 : alive (task k3 ti) = false) by (unfold alive, in_tstate; by rewrite Es).
  exact (inv_reclaim Y ti k3 Ha3 ltac:(left; by rewrite Es) H3).
Qed.

Lemma inv_dead_marked Y ti st k : (ti < SF_MAX_TASKS)%nat -> ~ Y ti -> space_inv Y k -> space_inv Y (dead_free ti (dead_mark ti st k)).
Proof.
  intros Hti Hy Hi. pose proof (inv_dead_mark Y ti st k Hi) as H2.
  pose proof (dead_mark_state ti st k ltac:(by rewrite (si_tasks Y k Hi))) as Es. set (k2 := dead_mark ti st k) in *. clearbody k2.
  destruct (inv_dead_free _ ti k2 Es H2) as [H4 H5]. destruct (alive (task k ti)) eqn:Ha; [|exact H4].
  eapply inv_ext; [|apply H5].
  - intros i. unfold without, also. split; [by intros [[]]|]. intros Hx. split; [by left|]. intros ->. done.
  - apply (si_exists _ _ H2). right. by right.
Qed.

Lemma inv_task_dead Y ti st k : fixed k -> (ti < SF_MAX_TASKS)%nat -> ~ Y ti -> space_inv Y k -> space_inv Y (task_dead ti st k).
Proof.
  intros Hf Hti Hy Hi. rewrite task_dead_parts. apply inv_dead_marked; [done|done|].
  apply (inv_dev Y k); [done|by apply dev_release|done].
Qed.

(** ** A slot being filled *)

Definition only (slot : nat) : nat -> Prop := fun i => i = slot.

Record vacant (slot : nat) k : Prop := {
  va_inv : space_inv (only slot) k; va_state : t_state (task k slot) = T_EMPTY; va_slot : (slot < SF_MAX_TASKS)%nat
}.

Lemma vacant_pid slot k : vacant slot k -> 0 < pid (task k slot) <= SF_PID_MAX.
Proof. intros [Hi _ _]. apply (pid_range (only slot)); [done|]. apply (si_exists _ _ Hi). by right. Qed.

Lemma vacant_unique slot k tj : vacant slot k -> pid (task k tj) = pid (task k slot) -> tj = slot.
Proof. intros Hv E. pose proof (vacant_pid slot k Hv). apply (si_unique _ _ (va_inv _ _ Hv)); [done|lia]. Qed.

Lemma vacant_others slot k tj : vacant slot k -> alive (task k tj) = true -> pid (task k tj) <> pid (task k slot).
Proof.
  intros Hv Ha E. rewrite (vacant_unique slot k tj Hv E) in Ha. unfold alive, in_tstate in Ha. by rewrite (va_state _ _ Hv) in Ha.
Qed.

Lemma vacant_still slot k k' : still k k' -> vacant slot k -> vacant slot k'.
Proof.
  intros Hs [Hi He Hl]. constructor; [by apply (inv_still _ k)|by apply (sk_empty _ _ (sl_task _ _ Hs slot))|done].
Qed.

(** *** One page *)

Record took (slot j : nat) k k' : Prop := {
  tk_page : (j < POOL_PAGES)%nat; tk_free : nth j (owner k) 0 = 0;
  tk_owner : owner k' = <[j:=pid (task k slot)]> (owner k);
  tk_zero : forall a, pool_page j <= a < pool_page j + 4096 -> memory k' a = 0;
  tk_same : forall a, ~ (pool_page j <= a < pool_page j + 4096) -> memory k' a = memory k a;
  tk_tasks : tasks k' = alter (fun t => t <| page_count := page_count t + 1 |>) slot (tasks k);
  tk_rest : next_pid k' = next_pid k /\ device_owner k' = device_owner k /\ bundle_phys k' = bundle_phys k /\ bundle_bytes k' = bundle_bytes k;
  tk_room : page_count (task k slot) < page_limit (task k slot)
}.

Lemma page_owner_slot slot k : vacant slot k -> page_owner k (pid (task k slot)) = Some slot.
Proof.
  intros Hv. pose proof (vacant_pid slot k Hv) as Hp. unfold page_owner, SF_PID_MAX in *.
  destruct (Z.eqb_spec (pid (task k slot)) 0); [lia|]. destruct (Z.ltb_spec INT32_MAX (pid (task k slot))); [sflia|]. cbn [orb].
  destruct (find_index _ _) as [i|] eqn:Ef.
  - apply find_index_Some in Ef as (_ & Hc & _). apply andb_prop in Hc as [Hc _]. apply Z.eqb_eq in Hc.
    f_equal. by apply (vacant_unique slot k).
  - exfalso. pose proof (proj1 (find_index_None _ _) Ef slot (va_slot _ _ Hv)) as Hn. unfold in_tstate in Hn.
    rewrite Z.eqb_refl, (va_state _ _ Hv) in Hn. done.
Qed.

Lemma alloc_spec slot k : vacant slot k ->
  page_alloc (pid (task k slot)) k = (0, k) \/
  exists j, (page_alloc (pid (task k slot)) k).1 = pool_page j /\ took slot j k (page_alloc (pid (task k slot)) k).2.
Proof.
  intros Hv. unfold page_alloc. rewrite (page_owner_slot slot k Hv). destruct (Z.leb_spec (page_limit (task k slot)) (page_count (task k slot))); [by left|].
  destruct (find_index _ POOL_PAGES) as [j|] eqn:Ef; [|by left]. right. exists j. split; [done|]. cbn [snd].
  apply find_index_Some in Ef as (Hj & Hf & _). apply negb_true_iff, truthy_false in Hf.
  destruct (si_count _ _ (va_inv _ _ Hv) slot ltac:(by right)) as [Hc Hl].
  assert (Hb : 0 <= page_count (task k slot)) by (rewrite Hc; apply countn_nonneg). unfold SF_PAGE_LIMIT_MAX in Hl.
  constructor; try done.
  - intros a Ha. cbn. unfold memset_page, mwrite. rewrite zlen_fill by done.
    destruct (Z.leb_spec (pool_page j) a); [|lia]. destruct (Z.ltb_spec a (pool_page j + 4096)); [|lia]. cbn [andb].
    unfold at_, fill. rewrite lookup_replicate_2 by lia. done.
  - intros a Ha. cbn. unfold memset_page. apply mwrite_out. rewrite zlen_fill by done. lia.
  - change (alter (fun t => t <| page_count ::= fun n => u32 (n + 1) |>) slot (tasks k) = alter (fun t => t <| page_count := page_count t + 1 |>) slot (tasks k)).
    apply list_alter_ext; [|done]. intros t Ht. assert (task k slot = t) as <- by (unfold task; by apply list_lookup_total_correct).
    rewrite <-(u32_small (page_count (task k slot) + 1)) by lia. done.
Qed.

Lemma took_task slot j k k' ti : took slot j k k' -> (slot < length (tasks k))%nat ->
  task k' ti = if decide (ti = slot) then (task k slot) <| page_count := page_count (task k slot) + 1 |> else task k ti.
Proof.
  intros Ht Hs. transitivity (task (set_task slot (fun t => t <| page_count := page_count t + 1 |>) k) ti).
  - unfold task. by rewrite (tk_tasks _ _ _ _ Ht).
  - rewrite task_set. case_decide as Hd; [destruct Hd as [-> _]; by rewrite decide_True|]. rewrite decide_False; [done|naive_solver].
Qed.

(** The page taken was nobody's. *)
Lemma took_owned slot j k k' p i : took slot j k k' -> length (owner k) = POOL_PAGES -> p <> 0 -> p <> pid (task k slot) ->
  owned k' p i <-> owned k p i.
Proof.
  intros Ht Hl Hp Hne. unfold owned. rewrite (tk_owner _ _ _ _ Ht), nth_insert. case_decide as Hd; [|done]. destruct Hd as [<- _].
  rewrite (tk_free _ _ _ _ Ht). split; congruence.
Qed.

Lemma took_keeps slot j k k' p i : took slot j k k' -> p <> 0 -> owned k p i -> (i < POOL_PAGES)%nat -> owned k' p i /\ page_same k k' i.
Proof.
  intros Ht Hp Ho Hi. assert (i <> j) by (intros ->; unfold owned in Ho; rewrite (tk_free _ _ _ _ Ht) in Ho; congruence). split.
  - unfold owned in *. rewrite (tk_owner _ _ _ _ Ht), nth_insert. case_decide; [naive_solver|done].
  - intros a Ha. apply (tk_same _ _ _ _ Ht). intros Hx. apply H0. by apply (pool_page_unique i j a).
Qed.

Lemma took_pages_self slot j k k' : took slot j k k' -> length (owner k) = POOL_PAGES -> pid (task k slot) <> 0 ->
  pages_of k' (pid (task k slot)) = pages_of k (pid (task k slot)) + 1.
Proof.
  intros Ht Hl Hp. unfold pages_of. apply (countn_flip _ _ _ j); [apply (tk_page _ _ _ _ Ht)|rewrite (tk_free _ _ _ _ Ht); lia| |].
  - rewrite (tk_owner _ _ _ _ Ht), nth_insert. pose proof (tk_page _ _ _ _ Ht). rewrite decide_True by (by rewrite Hl). apply Z.eqb_refl.
  - intros i Hi' Hne. rewrite (tk_owner _ _ _ _ Ht), nth_insert, decide_False by naive_solver. done.
Qed.

Lemma took_pages_other slot j k k' p : took slot j k k' -> length (owner k) = POOL_PAGES -> p <> 0 -> p <> pid (task k slot) ->
  pages_of k' p = pages_of k p.
Proof.
  intros Ht Hl Hp Hne. apply countn_ext. intros i _. pose proof (took_owned slot j k k' p i Ht Hl Hp Hne) as Ho. unfold owned in Ho.
  destruct (Z.eqb_spec (nth i (owner k) 0) p); destruct (Z.eqb_spec (nth i (owner k') 0) p); tauto.
Qed.

Lemma vacant_took slot j k k' : vacant slot k -> took slot j k k' -> vacant slot k'.
Proof.
  intros Hv Ht. pose proof Hv as [Hi He Hl]. pose proof (vacant_pid slot k Hv) as Hp. pose proof Hi as [I1 I2 I3 I4 I5 I6 I0 I7 I8 I9 I10 I11].
  pose proof (tk_rest _ _ _ _ Ht) as (En & Ed & B1 & B2).
  assert (Hs : forall ti, task k' ti = if decide (ti = slot) then (task k slot) <| page_count := page_count (task k slot) + 1 |> else task k ti)
    by (intros; apply (took_task slot j); [done|by rewrite I1]).
  assert (Epid : forall ti, pid (task k' ti) = pid (task k ti)) by (intros ti; rewrite Hs; case_decide; [by subst|done]).
  assert (Est : forall ti, t_state (task k' ti) = t_state (task k ti)) by (intros ti; rewrite Hs; case_decide; [by subst|done]).
  assert (Ea : forall ti, alive (task k' ti) = alive (task k ti)) by (intros ti; unfold alive, in_tstate; by rewrite Est).
  assert (Eh : forall ti, here (only slot) k' ti <-> here (only slot) k ti) by (intros ti; unfold here; by rewrite Ea).
  split; [|by rewrite Est|done]. constructor.
  - rewrite (tk_tasks _ _ _ _ Ht), length_alter. done.
  - rewrite (tk_owner _ _ _ _ Ht), length_insert. done.
  - by rewrite En.
  - intros ti. by rewrite Epid, En.
  - intros ti tj. rewrite !Epid. apply I5.
  - intros ti. rewrite Epid, Eh. apply I6.
  - intros ti. rewrite Epid, Est. apply I0.
  - intros i. rewrite (tk_owner _ _ _ _ Ht), nth_insert. unfold owned. setoid_rewrite (tk_owner _ _ _ _ Ht). setoid_rewrite nth_insert.
    setoid_rewrite Eh. setoid_rewrite Epid. case_decide as Hd; [right; exists slot; split; [by right|done]|]. apply I7.
  - intros ti Hti. rewrite Eh in Hti. destruct (I8 ti Hti) as [C1 C2]. pose proof (I6 ti Hti) as Hnz. rewrite Epid, Hs. case_decide as Hd.
    + subst ti. rewrite (took_pages_self slot j k k'), <-C1 by done. pose proof (tk_room _ _ _ _ Ht).
      change (page_count (task k slot) + 1 = page_count (task k slot) + 1 /\ page_count (task k slot) + 1 <= page_limit (task k slot) <= SF_PAGE_LIMIT_MAX).
      lia.
    + rewrite (took_pages_other slot j k k'); [done|done|done|done|]. intros E. by apply Hd, (vacant_unique slot k).
  - intros ti Ha. rewrite Ea in Ha. pose proof (vacant_others slot k ti Hv Ha) as Hne.
    assert (Hti : ti <> slot) by (by intros ->). apply (task_space_frame k); [| |by rewrite Ed|done|done|by apply I9].
    + rewrite Hs, decide_False by done. apply still_task_refl.
    + intros i Hi' Ho. apply (took_keeps slot j); try done. apply I6. by left.
  - rewrite Ed. destruct I10 as [|(ti & Hti & E)]; [by left|]. right. exists ti. by rewrite Eh, Epid.
  - by rewrite B1, B2.
Qed.

(** A write to the slot's own pages, or outside the pool. *)
Lemma vacant_memory slot k k' : tasks k' = tasks k -> owner k' = owner k -> next_pid k' = next_pid k -> device_owner k' = device_owner k ->
  bundle_phys k' = bundle_phys k -> bundle_bytes k' = bundle_bytes k ->
  (forall i, (i < POOL_PAGES)%nat -> ~ owned k (pid (task k slot)) i -> page_same k k' i) -> vacant slot k -> vacant slot k'.
Proof.
  intros Et Eo En Ed B1 B2 Hm Hv. pose proof Hv as [Hi He Hl].
  assert (Es : forall ti, task k' ti = task k ti) by (intros; unfold task; by rewrite Et).
  split; [|by rewrite Es|done]. apply (inv_transfer _ k); try done; [by rewrite Et|intros; rewrite Es; apply still_task_refl|].
  intros ti Ha. apply task_space_frame; try done; [rewrite Es; apply still_task_refl| |by rewrite Ed].
  intros i Hi' Ho. split; [unfold owned; by rewrite Eo|]. apply Hm; [done|]. intros Ho'. unfold owned in *.
  apply (vacant_others slot k ti Hv Ha). congruence.
Qed.

(** ** Its page tables *)

(** A page of process [p] that is no page table. *)
Definition private k (p : Z) (T : Tables) (j : nat) : Prop := (j < POOL_PAGES)%nat /\ owned k p j /\ ~ in_tables T j.

Record building (slot : nat) (T : Tables) k : Prop := {
  bd_vacant : vacant slot k; bd_space : space k (pid (task k slot)) (cr3 (task k slot)) T
}.

(** The tree has grown; what was mapped stays what it was. *)
Record grew (slot : nat) (T : Tables) k (T' : Tables) k' : Prop := {
  gr_building : building slot T' k';
  gr_pid : pid (task k' slot) = pid (task k slot);
  gr_cr3 : cr3 (task k' slot) = cr3 (task k slot);
  gr_device : device_owner k' = device_owner k;
  gr_bundle : bundle_phys k' = bundle_phys k /\ bundle_bytes k' = bundle_bytes k;
  gr_private : forall j, private k (pid (task k slot)) T j -> private k' (pid (task k slot)) T' j
}.

Lemma grew_refl slot T k : building slot T k -> grew slot T k T k.
Proof. by constructor. Qed.

Lemma grew_trans slot T1 k1 T2 k2 T3 k3 : grew slot T1 k1 T2 k2 -> grew slot T2 k2 T3 k3 -> grew slot T1 k1 T3 k3.
Proof.
  intros [A1 A2 A3 A4 (A5 & A6) A7] [B1 B2 B3 B4 (B5 & B6) B7]. constructor; [done|congruence|congruence|congruence|split; congruence|].
  intros j Hj. rewrite <-A2. apply B7. rewrite A2. by apply A7.
Qed.

Lemma grew_took slot T j k k' : building slot T k -> took slot j k k' -> grew slot T k T k' /\ private k' (pid (task k' slot)) T j.
Proof.
  intros [Hv Hs] Ht. pose proof (vacant_pid slot k Hv) as Hp. pose proof (va_inv _ _ Hv) as Hi.
  pose proof (took_task slot j k k' slot Ht ltac:(rewrite (si_tasks _ _ Hi); apply Hv)) as Es. rewrite decide_True in Es by done.
  assert (Ep : pid (task k' slot) = pid (task k slot)) by (by rewrite Es).
  assert (Ec : cr3 (task k' slot) = cr3 (task k slot)) by (by rewrite Es).
  pose proof (tk_rest _ _ _ _ Ht) as (En & Ed & B1 & B2).
  assert (Hk : forall i, (i < POOL_PAGES)%nat -> owned k (pid (task k slot)) i -> owned k' (pid (task k slot)) i /\ page_same k k' i)
    by (intros; apply (took_keeps slot j); try done; lia).
  split.
  - constructor; try done.
    + split; [by apply (vacant_took slot j k)|]. rewrite Ep, Ec. apply (space_frame k); try done; [| |by rewrite Ed].
      * intros i Hi'. destruct (sp_owned _ _ _ _ Hs i Hi'). by apply Hk.
      * intros i Hi' Ho. by apply Hk.
    + intros i (H1 & H2 & H3). split; [done|]. split; [by apply Hk|done].
  - rewrite Ep. split; [apply (tk_page _ _ _ _ Ht)|]. split.
    + unfold owned. rewrite (tk_owner _ _ _ _ Ht), nth_insert. pose proof (tk_page _ _ _ _ Ht).
      rewrite decide_True by (by rewrite (si_pages _ _ Hi)). done.
    + intros Hin. destruct (sp_owned _ _ _ _ Hs j Hin) as [_ Ho]. unfold owned in Ho. rewrite (tk_free _ _ _ _ Ht) in Ho. lia.
Qed.

(** A step that changes only memory, inside the slot's pages. *)
Lemma grew_memory slot T T' k k' : tasks k' = tasks k -> owner k' = owner k -> next_pid k' = next_pid k -> device_owner k' = device_owner k ->
  bundle_phys k' = bundle_phys k -> bundle_bytes k' = bundle_bytes k ->
  (forall i, (i < POOL_PAGES)%nat -> ~ owned k (pid (task k slot)) i -> page_same k k' i) ->
  (forall j, private k (pid (task k slot)) T j -> ~ in_tables T' j) ->
  space k' (pid (task k slot)) (cr3 (task k slot)) T' -> vacant slot k -> grew slot T k T' k'.
Proof.
  intros Et Eo En Ed B1 B2 Hm Hp Hs Hv. assert (Es : task k' slot = task k slot) by (unfold task; by rewrite Et). constructor; try done.
  - split; [by apply (vacant_memory slot k)|by rewrite Es].
  - by rewrite Es.
  - by rewrite Es.
  - intros j Hj. pose proof (Hp j Hj). destruct Hj as (H1 & H2 & H3). split; [done|]. split; [unfold owned; by rewrite Eo|done].
Qed.

(** Filling a private page. *)
Lemma grew_fill slot T j bs k : building slot T k -> private k (pid (task k slot)) T j -> zlen bs <= 4096 ->
  grew slot T k T (fill_page (pool_page j) bs k).
Proof.
  intros [Hv Hs] (Hj & Ho & Ht) Hl.
  assert (Hsame : forall i, i <> j -> page_same k (fill_page (pool_page j) bs k) i).
  { intros i Hi a Ha. cbn. apply (write_other_page (memory k) j i (pool_page j) bs a); [done|lia|lia|done]. }
  apply grew_memory; try done.
  - intros i Hi Hn. apply Hsame. by intros ->.
  - by intros i (_ & _ & ?).
  - apply (space_frame k); try done. intros i Hi. apply Hsame. by intros ->.
Qed.

(** *** New tables *)

Lemma load_zero k j i : (forall a, pool_page j <= a < pool_page j + 4096 -> memory k a = 0) -> 0 <= i < 512 ->
  load64 (memory k) (slot64 (pool_page j) i) = 0.
Proof.
  intros Hz Hi. rewrite (load64_ext (memory k) (fun _ => 0)); [done|]. intros x Hx. apply Hz. unfold slot64 in Hx. lia.
Qed.

Lemma store_entry k j i i' v : 0 <= i < 512 -> 0 <= i' < 512 -> 0 <= v <= UINT64_MAX ->
  load64 (memory (store (slot64 (pool_page j) i) v k)) (slot64 (pool_page j) i') =
  if i =? i' then v else load64 (memory k) (slot64 (pool_page j) i').
Proof.
  intros Hi Hi' Hv. cbn. destruct (Z.eqb_spec i i') as [->|Hne]; [by apply load64_store64_same|]. by apply store_same_page.
Qed.

Lemma store_page_same k j i v j' : j <> j' -> 0 <= i < 512 -> page_same k (store (slot64 (pool_page j) i) v k) j'.
Proof. intros Hj Hi a Ha. by apply store_other_page with (j' := j'). Qed.

Definition with_t2 (T : Tables) (j : nat) : Tables := MkTables (t4 T) (t3 T) (Some j) (t1 T).
Definition with_t1 (T : Tables) (b j : nat) : Tables :=
  MkTables (t4 T) (t3 T) (t2 T) (fun b' => if decide (b' = b) then Some j else t1 T b').

Lemma in_with_t2 T j i : in_tables (with_t2 T j) i -> i = j \/ in_tables T i.
Proof. intros [?|[?|[[= ->]|?]]]; [right; by left|right; by right; left|by left|right; by right; right; right]. Qed.

Lemma in_with_t1 T b j i : in_tables (with_t1 T b j) i -> i = j \/ in_tables T i.
Proof.
  intros [?|[?|[?|(b' & Hb & E)]]]; [right; by left|right; by right; left|right; by right; right; left|].
  cbn in E. case_decide; [left; congruence|]. right. right. right. right. by exists b'.
Qed.

(** Entries of a tree that is as before but for page [j], which none of its
    leaves maps. *)
Lemma leaf_ok_table k p T T' e : (forall i, private k p T i -> ~ in_tables T' i) -> leaf_ok k p T e -> leaf_ok k p T' e.
Proof.
  intros Hp [->|[He [Hu Hwx Hk]]]; [by left|]. right. split; [done|]. constructor; [done|done|].
  destruct Hk as [i Hi Hf Ho Ht|Hw Hb|Hd Ho|Hx Ho].
  - apply (LeafPrivate _ _ _ _ i); try done. by apply Hp.
  - by apply LeafBundle.
  - by apply LeafDma.
  - by apply LeafMmio.
Qed.

(** The page taken becomes a table, linked from table [jt]. *)
Lemma grew_table slot T T' j jt i v k k1 : building slot T k -> took slot j k k1 -> in_tables T jt -> 0 <= i < 512 ->
  (forall x, in_tables T' x -> x = j \/ in_tables T x) ->
  space (store (slot64 (pool_page jt) i) v k1) (pid (task k slot)) (cr3 (task k slot)) T' ->
  grew slot T k T' (store (slot64 (pool_page jt) i) v k1).
Proof.
  intros Hb Ht Hjt Hi Hin Hs. destruct (grew_took slot T j k k1 Hb Ht) as [[[Hv1 Hs1] G2 G3 G4 G5 G6] Hj].
  assert (G : grew slot T k1 T k1) by (by apply grew_refl).
  assert (Hv2 : vacant slot (store (slot64 (pool_page jt) i) v k1)).
  { apply (vacant_memory slot k1); try done. intros x Hx Hn. apply store_page_same; [|done]. intros <-. apply Hn.
    by apply (sp_owned _ _ _ _ Hs1 jt). }
  constructor; try done.
  - split; [done|]. change (task (store (slot64 (pool_page jt) i) v k1) slot) with (task k1 slot). by rewrite G2, G3.
  - intros x Hx. destruct (G6 x Hx) as (A1 & A2 & A3). split; [done|]. split; [done|]. intros Hx'. destruct (Hin x Hx') as [->|]; [|done].
    destruct Hx as (_ & Ho & _). unfold owned in Ho. rewrite (tk_free _ _ _ _ Ht) in Ho. pose proof (vacant_pid slot k (bd_vacant _ _ _ Hb)). lia.
Qed.

Lemma space_add2 slot T j k k1 : building slot T k -> took slot j k k1 -> t2 T = None ->
  space (store (slot64 (pool_page (t3 T)) 1) (opt_entry (Some j)) k1) (pid (task k slot)) (cr3 (task k slot)) (with_t2 T j).
Proof.
  intros Hb Ht E2. destruct (grew_took slot T j k k1 Hb Ht) as [[[_ Hs] G2 G3 _ _ _] (Hj & Ho & Hn)]. rewrite G2, G3 in Hs. rewrite G2 in Ho.
  pose proof Hs as [S1 S2 S3 S4 S5 S6 S7 S8 S9 S10 S11]. set (k2 := store _ _ k1).
  assert (Hjn : j <> t4 T /\ j <> t3 T) by (split; intros ->; apply Hn; [by left|by right; left]).
  constructor; try done.
  - intros i Hi. destruct (in_with_t2 _ _ _ Hi) as [->|Hx]; [done|by apply S2].
  - by intros i [= <-].
  - intros b i Hb' E. cbn in E. by rewrite (S7 E2) in E.
  - intros i Hi. cbn [with_t2 t4 t3]. unfold k2. rewrite (load_page_same k1); [by apply S8|by apply store_page_same|done].
  - intros i Hi. cbn [with_t2 t4 t3]. unfold k2. rewrite store_entry; [|done|done|by apply pool_page_entry].
    specialize (S9 i Hi). unfold entry3 in *. cbn [with_t2 t2]. destruct (Z.eqb_spec 1 i) as [<-|]; [done|].
    destruct (i =? 0); [done|]. destruct (Z.eqb_spec i 1); [lia|done].
  - intros i b [= <-] Hb'. cbn [with_t2 t1]. rewrite (S7 E2). unfold k2. rewrite (load_page_same k1); [|apply store_page_same; [apply not_eq_sym, Hjn|lia]|lia].
    apply load_zero; [apply (tk_zero _ _ _ _ Ht)|lia].
  - intros b i c Hb' E. cbn in E. by rewrite (S7 E2) in E.
Qed.

Lemma space_add1 slot T j j2 b k k1 : building slot T k -> took slot j k k1 -> t2 T = Some j2 -> (b < 512)%nat -> t1 T b = None ->
  space (store (slot64 (pool_page j2) (Z.of_nat b)) (opt_entry (Some j)) k1) (pid (task k slot)) (cr3 (task k slot)) (with_t1 T b j).
Proof.
  intros Hb Ht E2 Hbb E1. destruct (grew_took slot T j k k1 Hb Ht) as [[[_ Hs] G2 G3 _ _ _] (Hj & Ho & Hn)]. rewrite G2, G3 in Hs. rewrite G2 in Ho.
  pose proof (vacant_pid slot k (bd_vacant _ _ _ Hb)) as Hpid.
  pose proof Hs as [S1 S2 S3 S4 S5 S6 S7 S8 S9 S10 S11]. pose proof (sp_l1 _ _ _ _ (bd_space _ _ _ Hb)) as O11. set (k2 := store _ _ k1).
  assert (Hjn : j <> t4 T /\ j <> t3 T /\ j <> j2) by (split; [|split]; intros ->; apply Hn; [by left|by right; left|by right; right; left]).
  assert (Hjb : forall b', (b' < 512)%nat -> t1 T b' <> Some j) by (intros b' Hb' E; apply Hn; right; right; right; by exists b').
  destruct (S4 j2 E2) as [N4 N3].
  constructor; try done.
  - intros i Hi. destruct (in_with_t1 _ _ _ _ Hi) as [->|Hx]; [done|by apply S2].
  - intros b' i Hb' E. cbn in *. case_decide; [|by apply (S5 b')]. injection E as <-. rewrite E2. destruct Hjn as (? & ? & ?). split; [done|]. split; [done|congruence].
  - intros b1 b2 i H1 H2. cbn. case_decide as D1; case_decide as D2; [congruence| | |by apply S6]; intros X1 X2; exfalso.
    + apply (Hjb b2 H2). congruence.
    + apply (Hjb b1 H1). congruence.
  - cbn. congruence.
  - intros i Hi. cbn [with_t1 t4 t3]. unfold k2. rewrite (load_page_same k1); [by apply S8|apply store_page_same; [done|lia]|done].
  - intros i Hi. cbn [with_t1 t4 t3]. unfold k2. rewrite (load_page_same k1); [by apply S9|apply store_page_same; [done|lia]|done].
  - intros i b' X Hb'. cbn [with_t1 t2] in X. assert (i = j2) as -> by congruence. unfold k2. rewrite store_entry; [|lia|lia|by apply pool_page_entry].
    cbn [with_t1 t1]. destruct (Z.eqb_spec (Z.of_nat b) (Z.of_nat b')) as [E|E].
    + rewrite decide_True by lia. done.
    + rewrite decide_False by lia. by apply S10.
  - intros b' i c Hb' E Hc. cbn [with_t1 t1] in E. case_decide as Hd.
    + injection E as <-. left. unfold k2. rewrite (load_page_same k1); [|apply store_page_same; [apply not_eq_sym, Hjn|lia]|done].
      apply load_zero; [apply (tk_zero _ _ _ _ Ht)|lia].
    + unfold k2. destruct (S5 b' i Hb' E) as (_ & _ & N2).
      rewrite (load_page_same k1); [|apply store_page_same; [congruence|lia]|done].
      assert (Hleaf : leaf_ok k (pid (task k slot)) T (load64 (memory k1) (slot64 (pool_page i) c))).
      { rewrite (load_page_same k k1); [by apply (O11 b')| |done]. apply (took_keeps slot j k k1 (pid (task k slot))); [done|lia| |].
        - apply (sp_owned _ _ _ _ (bd_space _ _ _ Hb)). right. right. right. by exists b'.
        - apply (sp_owned _ _ _ _ (bd_space _ _ _ Hb)). right. right. right. by exists b'. }
      apply (leaf_ok_frame k); try done.
      * intros x Hx Hox. by apply (took_keeps slot j k k1); [|lia| |].
      * pose proof (tk_rest _ _ _ _ Ht) as (_ & Ed & _). by cbn; rewrite Ed.
      * apply (tk_rest _ _ _ _ Ht).
      * apply (tk_rest _ _ _ _ Ht).
      * apply (leaf_ok_table _ _ T); [|done]. intros x (_ & Hox & Hx) Hin. destruct (in_with_t1 _ _ _ _ Hin) as [->|]; [|done].
        unfold owned in Hox. rewrite (tk_free _ _ _ _ Ht) in Hox. lia.
Qed.

End Build.
