(* ===== verification/SpaceMap.v ===== *)
(** * Mapping pages for a new task

    [pte], [space_map], [space_map_mmio] and the pages of a new task
    ([kernel/memory.c], [kernel/core.c]) keep the tree of a slot that is being
    filled, whatever step they fail at. *)

From S2P Require Import Prelude Bytes CMem Abi Sched Arguments Kernel Memory Space Ipc Acpi Iommu Device Core IpcInv SpaceInv KernelFrame SpaceKernel SpaceBuild.

Section Map.
Context {H : Type} `{LO : LayoutOk} `{HW : Hardware H}.
Implicit Types (k : Kernel H).

(** ** Leaves *)

Lemma grew_leaf slot T b j c e k : building slot T k -> (b < 512)%nat -> t1 T b = Some j -> 0 <= c < 512 -> 0 <= e <= UINT64_MAX ->
  leaf_ok k (pid (task k slot)) T e -> grew slot T k T (store (slot64 (pool_page j) c) e k).
Proof.
  intros [Hv Hs] Hb Ej Hc He Hl. pose proof Hs as [S1 S2 S3 S4 S5 S6 S7 S8 S9 S10 S11].
  assert (Hin : in_tables T j) by (right; right; right; by exists b). destruct (S5 b j Hb Ej) as (N4 & N3 & N2).
  apply grew_memory; try done.
  - intros i Hi Hn. apply store_page_same; [|done]. intros <-. by apply Hn, S2.
  - by intros i (_ & _ & ?).
  - constructor; try done.
    + intros i Hi. rewrite (load_page_same k); [by apply S8|by apply store_page_same|done].
    + intros i Hi. rewrite (load_page_same k); [by apply S9|by apply store_page_same|done].
    + intros i b' E Hb'. rewrite (load_page_same k); [by apply S10|apply store_page_same; [congruence|done]|lia].
    + intros b' i c' Hb' Ei Hc'. apply (leaf_ok_frame k); try done. destruct (decide (j = i)) as [<-|Hji].
      * rewrite store_entry by done. destruct (c =? c'); [done|by apply (S11 b')].
      * rewrite (load_page_same k); [by apply (S11 b')|by apply store_page_same|done].
Qed.

(** ** Walking with creation *)

(** The table behind an absent entry. *)
Lemma next_table_new slot e k : vacant slot k -> present (load64 (memory k) e) = false ->
  next_table slot e true k = (None, k) \/
  exists j k1, took slot j k k1 /\
    next_table slot e true k = (Some (frame_of (load64 (memory (store e (Z.lor (pool_page j) 7) k1)) e)), store e (Z.lor (pool_page j) 7) k1).
Proof.
  intros Hv Hp. unfold next_table. rewrite truthy_present, Hp. cbn [negb].
  destruct (alloc_spec slot k Hv) as [->|(j & E & Ht)]; [by left|]. right.
  destruct (page_alloc (pid (task k slot)) k) as [a k1]. cbn [fst snd] in E, Ht. subst a.
  destruct (Z.eqb_spec (pool_page j) 0) as [E0|_].
  - destruct (pool_page_bounds j (tk_page _ _ _ _ Ht)). lia.
  - by exists j, k1.
Qed.

Lemma next_table_dir slot T k : building slot T k ->
  let r := next_table slot (slot64 (pool_page (t3 T)) 1) true k in
  exists T', grew slot T k T' r.2 /\ forall a, r.1 = Some a -> exists j, t2 T' = Some j /\ a = pool_page j.
Proof.
  intros Hb r. pose proof (space_user_entry _ _ _ _ (bd_space _ _ _ Hb)) as Ee. destruct (t2 T) as [j2|] eqn:E2.
  - exists T. destruct (sp_owned _ _ _ _ (bd_space _ _ _ Hb) j2) as [Hj _]; [by right; right; left|].
    destruct (pool_page_entry j2 Hj) as (P & F & _). unfold r, next_table. rewrite truthy_present, Ee, P. cbn [fst snd].
    split; [by apply grew_refl|]. intros a [= <-]. by exists j2.
  - destruct (next_table_new slot (slot64 (pool_page (t3 T)) 1) k (bd_vacant _ _ _ Hb) ltac:(by rewrite Ee)) as [E|(j & k1 & Ht & E)].
    + exists T. unfold r. rewrite E. split; [by apply grew_refl|done].
    + exists (with_t2 T j). unfold r. rewrite E. cbn [fst snd]. pose proof (space_add2 slot T j k k1 Hb Ht E2) as Hs. cbn [opt_entry] in Hs. split.
      * apply (grew_table slot T _ j (t3 T) 1); try done; [by right; left|apply in_with_t2].
      * intros a Ha. apply (inj Some) in Ha as <-. exists j. split; [done|]. pose proof (space_user_entry _ _ _ _ Hs) as X. cbn [with_t2 t3 t2] in X. rewrite X.
        by apply pool_page_entry, (tk_page _ _ _ _ Ht).
Qed.

Lemma next_table_tab slot T j2 b k : building slot T k -> t2 T = Some j2 -> (b < 512)%nat ->
  let r := next_table slot (slot64 (pool_page j2) (Z.of_nat b)) true k in
  exists T', grew slot T k T' r.2 /\ forall a, r.1 = Some a -> exists j, t1 T' b = Some j /\ a = pool_page j.
Proof.
  intros Hb E2 Hbb r. pose proof (sp_l2 _ _ _ _ (bd_space _ _ _ Hb) j2 b E2 Hbb) as Ee. destruct (t1 T b) as [j1|] eqn:E1.
  - exists T. destruct (sp_owned _ _ _ _ (bd_space _ _ _ Hb) j1) as [Hj _]; [right; right; right; by exists b|].
    destruct (pool_page_entry j1 Hj) as (P & F & _). unfold r, next_table. rewrite truthy_present, Ee, P. cbn [fst snd].
    split; [by apply grew_refl|]. intros a [= <-]. by exists j1.
  - destruct (next_table_new slot (slot64 (pool_page j2) (Z.of_nat b)) k (bd_vacant _ _ _ Hb) ltac:(by rewrite Ee)) as [E|(j & k1 & Ht & E)].
    + exists T. unfold r. rewrite E. split; [by apply grew_refl|done].
    + exists (with_t1 T b j). unfold r. rewrite E. cbn [fst snd]. pose proof (space_add1 slot T j j2 b k k1 Hb Ht E2 Hbb E1) as Hs. cbn [opt_entry] in Hs. split.
      * apply (grew_table slot T _ j j2 (Z.of_nat b)); try done; [by right; right; left|lia|apply in_with_t1].
      * intros a Ha. apply (inj Some) in Ha as <-. exists j. cbn [with_t1 t1]. rewrite decide_True by done. split; [done|].
        pose proof (sp_l2 _ _ _ _ Hs j2 b E2 Hbb) as X. cbn [with_t1 t1] in X. rewrite decide_True in X by done. rewrite X.
        by apply pool_page_entry, (tk_page _ _ _ _ Ht).
Qed.

Lemma pte_grow slot T v k : building slot T k ->
  exists T', grew slot T k T' (pte slot v true k).2 /\
    ((pte slot v true k).1 = 0 \/ user_address v /\ exists j, t1 T' (dir_index v) = Some j /\ (pte slot v true k).1 = slot64 (pool_page j) (tab_index v)).
Proof.
  intros Hb. unfold pte. destruct (Z.ltb_spec v SF_BASE); [exists T; split; [by apply grew_refl|by left]|].
  destruct (Z.leb_spec USER_END v); [exists T; split; [by apply grew_refl|by left]|]. cbn [orb]. cbv zeta.
  assert (Hu : user_address v) by done. destruct (space_root _ _ _ _ (bd_space _ _ _ Hb)) as [Er _]. unfold frame_of in Er. rewrite Er.
  rewrite user_gigabyte by done. destruct (next_table_dir slot T k Hb) as (T1 & G1 & R1).
  destruct (next_table slot (slot64 (pool_page (t3 T)) 1) true k) as [[p2|] k1]; cbn [fst snd] in *; [|exists T1; split; [done|by left]].
  destruct (R1 p2 eq_refl) as (j2 & E2 & ->).
  replace (Z.land (Z.shiftr v 21) 511) with (Z.of_nat (dir_index v)) by (unfold dir_index; pose proof (land_511 (Z.shiftr v 21)); lia).
  destruct (next_table_tab slot T1 j2 (dir_index v) k1 (gr_building _ _ _ _ _ G1) E2 (dir_index_lt v)) as (T2 & G2 & R2).
  exists T2. destruct (next_table slot _ true k1) as [[p1|] k2]; cbn [fst snd] in *.
  - split; [by apply (grew_trans _ _ _ T1 k1)|]. right. split; [done|]. destruct (R2 p1 eq_refl) as (j1 & E1 & ->). by exists j1.
  - split; [by apply (grew_trans _ _ _ T1 k1)|by left].
Qed.

(** ** Mapping *)

(** What the caller promises about the page it maps. *)
Definition may_map (slot : nat) (T : Tables) (physical flags : Z) k : Prop :=
  physical mod 4096 = 0 -> forall T' k', grew slot T k T' k' -> leaf_kind k' (pid (task k slot)) T' (leaf physical flags).

Lemma flags_wx flags : (Z.land flags 6 =? 6) = false -> Z.testbit flags 1 = true -> Z.testbit flags 2 = true -> False.
Proof.
  intros Hf H1 H2. apply Z.eqb_neq in Hf. apply Hf. apply Z.bits_inj'. intros n Hn. rewrite Z.land_spec.
  destruct (Z.eq_dec n 1) as [->|]; [by rewrite H1|]. destruct (Z.eq_dec n 2) as [->|]; [by rewrite H2|].
  replace (Z.testbit 6 n) with false; [apply andb_false_r|]. destruct (Z.eq_dec n 0) as [->|]; [done|].
  symmetry. apply (testbit_above 3); lia.
Qed.

Lemma page_bits v p : truthy (Z.land (Z.lor v p) 4095) = false -> p mod 4096 = 0.
Proof.
  intros Hz. apply truthy_false in Hz. rewrite Z.land_lor_distr_l in Hz. apply Z.lor_eq_0_iff in Hz as [_ Hz]. by rewrite <-land_4095.
Qed.

Lemma map_grow slot T v physical flags k : building slot T k -> 0 <= physical < 2 ^ 52 -> may_map slot T physical flags k ->
  exists T', grew slot T k T' (space_map slot v physical flags k).2 /\
    (truthy (space_map slot v physical flags k).1 = false -> user_address v /\
     physical mod 4096 = 0 /\ leaf_at (space_map slot v physical flags k).2 T' v = leaf physical flags).
Proof.
  intros Hb Hr Hm. unfold space_map. destruct (truthy (Z.land (Z.lor v physical) 4095)) eqn:Ea; [exists T; split; [by apply grew_refl|done]|].
  destruct (truthy (Z.land flags 1)); [|exists T; split; [by apply grew_refl|done]].
  destruct (Z.land flags 6 =? 6) eqn:Ew; [exists T; split; [by apply grew_refl|done]|]. cbn [orb negb].
  apply page_bits in Ea. destruct (pte_grow slot T v k Hb) as (T1 & G1 & R1). destruct (pte slot v true k) as [a k1]. cbn [fst snd] in *.
  destruct (Z.eqb_spec a 0) as [|Ha]; [exists T1; split; [done|done]|]. destruct R1 as [|(Hu & j & Ej & ->)]; [done|].
  destruct (truthy _); [exists T1; split; [done|done]|]. destruct (leaf_entry physical flags Ea Hr) as (P & F & B & W & X & U & _).
  assert (G2 : grew slot T1 k1 T1 (store (slot64 (pool_page j) (tab_index v)) (leaf physical flags) k1)).
  { apply (grew_leaf slot T1 (dir_index v)); [apply G1|apply dir_index_lt|done|apply tab_index_lt|done|]. right. split; [done|]. rewrite (gr_pid _ _ _ _ _ G1).
    constructor; [done| |by apply Hm]. rewrite W, X. by apply flags_wx. }
  exists T1. split; [by apply (grew_trans _ _ _ T1 k1)|]. intros _. split; [done|]. split; [done|]. cbn [snd]. unfold leaf_at.
  destruct (entry_at_nonzero _ _ _ T1 v j (bd_space _ _ _ (gr_building _ _ _ _ _ G1)) Ej) as [-> Hn].
  rewrite (proj2 (Z.eqb_neq _ _) Ha). rewrite store_entry, Z.eqb_refl; [done|apply tab_index_lt|apply tab_index_lt|done].
Qed.

Lemma may_map_private slot T j flags k : private k (pid (task k slot)) T j -> may_map slot T (pool_page j) flags k.
Proof.
  intros Hp Ha T' k' G. pose proof Hp as (Hj & _). destruct (gr_private _ _ _ _ _ G j Hp) as (_ & Ho & Ht). destruct (pool_page_bounds j Hj).
  destruct (leaf_entry (pool_page j) flags Ha ltac:(lia)) as (_ & F & _). by apply (LeafPrivate _ _ _ _ j).
Qed.

(** ** Sequences of steps *)

Definition grows {A} (slot : nat) (f : Kernel H -> A * Kernel H) : Prop :=
  forall T k, building slot T k -> exists T', grew slot T k T' (f k).2.

Lemma grows_then slot f g : grows slot f -> grows slot g -> grows slot (then_ f g).
Proof.
  intros Hf Hg T k Hb. unfold then_. destruct (Hf T k Hb) as (T1 & G1). destruct (f k) as [ok k1]. cbn [snd] in G1.
  destruct ok; [|by exists T1]. destruct (Hg T1 k1 (gr_building _ _ _ _ _ G1)) as (T2 & G2). exists T2. by apply (grew_trans _ _ _ T1 k1).
Qed.

Lemma grows_repeat slot n f : forall i T k, building slot T k ->
  (forall j T1 k1, (i <= j < i + n)%nat -> grew slot T k T1 k1 -> exists T', grew slot T1 k1 T' (f j k1).2) ->
  exists T', grew slot T k T' (repeat_ n i f k).2.
Proof.
  induction n as [|n IH]; intros i T k Hb Hf; cbn [repeat_]; [exists T; by apply grew_refl|]. unfold then_.
  destruct (Hf i T k ltac:(lia) ltac:(by apply grew_refl)) as (T1 & G1). destruct (f i k) as [ok k1]. cbn [snd] in G1.
  destruct ok; [|by exists T1]. destruct (IH (S i) T1 k1 (gr_building _ _ _ _ _ G1)) as (T2 & G2).
  - intros j T' k' Hj G'. apply Hf; [lia|]. by apply (grew_trans _ _ _ T1 k1).
  - exists T2. by apply (grew_trans _ _ _ T1 k1).
Qed.

Lemma grows_repeat_all slot n i f : (forall j, grows slot (f j)) -> grows slot (repeat_ n i f).
Proof. intros Hf T k Hb. apply grows_repeat; [done|]. intros j T1 k1 _ G. apply Hf, G. Qed.

Lemma grew_still slot T k k' : building slot T k -> still k k' -> grew slot T k T k'.
Proof.
  intros [Hv Hs] Hst. pose proof Hst as [_ E2 Eo En Ed [B1 B2] Ep]. destruct (E2 slot) as [Epid Ecr _ _ _ _ _]. constructor; try done.
  - split; [by apply (vacant_still slot k)|]. rewrite Epid, Ecr. apply (space_frame k); try done; [| |by rewrite Ed].
    + intros j Hj. apply pool_same_page; [done|]. by apply (sp_owned _ _ _ _ Hs).
    + intros j _. unfold owned. by rewrite Eo.
  - intros j (H1 & H2 & H3). split; [done|]. split; [unfold owned; by rewrite Eo|done].
Qed.

(** A fresh page, mapped and filled. *)
Lemma grows_with_page slot v flags next :
  (forall j T k, building slot T k -> private k (pid (task k slot)) T j -> exists T', grew slot T k T' (next (pool_page j) k).2) ->
  grows slot (with_page slot v flags next).
Proof.
  intros Hn T k Hb. unfold with_page. destruct (alloc_spec slot k (bd_vacant _ _ _ Hb)) as [->|(j & E & Ht)]; [exists T; by apply grew_refl|].
  destruct (page_alloc (pid (task k slot)) k) as [a k1]. cbn [fst snd] in *. subst a. destruct (grew_took slot T j k k1 Hb Ht) as [G1 Hj].
  destruct (_ =? 0); [by exists T|]. assert (Hr : 0 <= pool_page j < 2 ^ 52) by (destruct (pool_page_bounds j (proj1 Hj)); lia).
  destruct (map_grow slot T v (pool_page j) flags k1 (gr_building _ _ _ _ _ G1) Hr (may_map_private _ _ _ _ _ Hj)) as (T2 & G2 & _).
  destruct (space_map slot v (pool_page j) flags k1) as [r k2]. cbn [fst snd] in *.
  destruct (truthy r); [exists T2; by apply (grew_trans _ _ _ T k1)|].
  assert (Hj2 : private k2 (pid (task k2 slot)) T2 j) by (rewrite (gr_pid _ _ _ _ _ G2); by apply (gr_private _ _ _ _ _ G2)).
  destruct (Hn j T2 k2 (gr_building _ _ _ _ _ G2) Hj2) as (T3 & G3).
  exists T3. apply (grew_trans _ _ _ T2 k2); [by apply (grew_trans _ _ _ T k1)|done].
Qed.

Lemma zlen_copy_in_le t src n k r bs : n <= 4096 -> copy_in t src n k = (r, bs) -> zlen bs <= 4096.
Proof.
  intros Hn E. destruct (Z.le_gt_cases 0 n).
  - destruct (truthy r) eqn:Er; [|rewrite (zlen_copy_in t src n k r bs); lia || done].
    unfold copy_in in E. destruct (user_range _ _ _ _ _); injection E as <- <-; done.
  - unfold copy_in in E. replace (Z.to_nat n) with O in E by lia. destruct (user_range _ _ _ _ _); injection E as <- <-; done.
Qed.

Lemma grows_load_page slot parent base s i : grows slot (load_page slot parent base s i).
Proof.
  apply grows_with_page. intros j T k Hb Hj. set (n := Z.min _ _). assert (Hn : n <= 4096) by lia. clearbody n. destruct parent as [t|].
  - destruct (copy_in t _ n k) as [r bs] eqn:E. destruct (truthy r); [exists T; by apply grew_refl|]. exists T. apply grew_fill; [done|done|].
    apply (zlen_copy_in_le _ _ _ _ _ _ Hn E).
  - exists T. apply grew_fill; [done|done|]. destruct (Z.le_gt_cases 0 n); [rewrite zlen_mread by done; lia|].
    unfold mread. replace (Z.to_nat n) with O by lia. done.
Qed.

Lemma grows_build_image slot parent base p : grows slot (build_image slot parent base p).
Proof.
  apply grows_then; apply grows_repeat_all; intros i.
  - apply grows_repeat_all. intros j. apply grows_load_page.
  - apply grows_with_page. intros j T k Hb _. exists T. by apply grew_refl.
Qed.

(** The argument page. *)
Lemma arg_page_grow slot T k : building slot T k -> exists T', grew slot T k T' (arg_page slot k).2 /\
  ((arg_page slot k).1 = 0 \/ exists j, (arg_page slot k).1 = pool_page j /\ private (arg_page slot k).2 (pid (task k slot)) T' j).
Proof.
  intros Hb. unfold arg_page. destruct (alloc_spec slot k (bd_vacant _ _ _ Hb)) as [->|(j & E & Ht)]; [exists T; split; [by apply grew_refl|by left]|].
  destruct (page_alloc (pid (task k slot)) k) as [a k1]. cbn [fst snd] in *. subst a. destruct (grew_took slot T j k k1 Hb Ht) as [G1 Hj].
  destruct (_ =? 0); [exists T; split; [done|by left]|]. assert (Hr : 0 <= pool_page j < 2 ^ 52) by (destruct (pool_page_bounds j (proj1 Hj)); lia).
  destruct (map_grow slot T SF_ARGS (pool_page j) 1 k1 (gr_building _ _ _ _ _ G1) Hr (may_map_private _ _ _ _ _ Hj)) as (T2 & G2 & _).
  destruct (space_map slot SF_ARGS (pool_page j) 1 k1) as [r k2]. cbn [fst snd] in *. exists T2. split; [by apply (grew_trans _ _ _ T k1)|].
  destruct (truthy r); [by left|]. right. exists j. split; [done|]. rewrite <-(gr_pid _ _ _ _ _ G1). by apply (gr_private _ _ _ _ _ G2).
Qed.

(** ** The bundle *)

Lemma grows_bundle slot T k : building slot T k ->
  exists T', grew slot T k T' (repeat_ (Z.to_nat ((bundle_bytes k + 4095) / 4096)) 0 (bundle_page slot) k).2.
Proof.
  intros Hb. apply grows_repeat; [done|]. intros i T1 k1 Hi G. unfold bundle_page. cbv zeta.
  pose proof (gr_bundle _ _ _ _ _ G) as [B1 B2]. pose proof (si_bundle _ _ (va_inv _ _ (bd_vacant _ _ _ Hb))) as (P1 & P2 & P3 & _).
  assert (Hoff : 0 <= 4096 * Z.of_nat i < bundle_bytes k).
  { pose proof (Z.div_mod (bundle_bytes k + 4095) 4096 ltac:(lia)). pose proof (Z.mod_pos_bound (bundle_bytes k + 4095) 4096 ltac:(lia)). lia. }
  set (off := 4096 * Z.of_nat i) in *. clearbody off.
  destruct (map_grow slot T1 (SF_BUNDLE + off) (bundle_phys k1 + off) 1 k1 (gr_building _ _ _ _ _ G) ltac:(rewrite B1; lia)) as (T2 & G2 & _).
  - intros Ha T' k' G'. destruct (leaf_entry (bundle_phys k1 + off) 1 Ha ltac:(rewrite B1; lia)) as (_ & F & _ & W & _).
    apply LeafBundle; [by rewrite W|]. rewrite F. destruct (gr_bundle _ _ _ _ _ G') as [-> ->]. rewrite B1, B2. lia.
  - exists T2. by destruct (space_map slot _ _ 1 k1).
Qed.

(** ** Registers and the arena *)

Lemma lor_u64 a b : 0 <= a <= UINT64_MAX -> 0 <= b <= UINT64_MAX -> 0 <= Z.lor a b <= UINT64_MAX.
Proof.
  intros Ha Hb. assert (Hx : forall x, 0 <= x <= UINT64_MAX <-> Z.land x (Z.ones 64) = x).
  { intros x. rewrite Z.land_ones by lia. change UINT64_MAX with (2 ^ 64 - 1). split; intros Hx; [apply Z.mod_small; lia|].
    pose proof (Z.mod_pos_bound x (2 ^ 64) ltac:(lia)). lia. }
  apply Hx. rewrite Z.land_lor_distr_l. f_equal; by apply Hx.
Qed.

Lemma leaf_ok_mmio k p T e : leaf_ok k p T e -> leaf_ok k p T (Z.lor e (Z.lor 0x18 PTE_MMIO)) \/ e = 0.
Proof.
  intros [->|[He [Hu Hwx Hk]]]; [by right|]. left. right. set (e' := Z.lor e _).
  assert (Hb : forall n, 0 <= n -> Z.testbit (Z.lor 0x18 PTE_MMIO) n = false -> Z.testbit e' n = Z.testbit e n).
  { intros n Hn E. unfold e'. rewrite Z.lor_spec, E. apply orb_false_r. }
  assert (Ef : frame_of e' = frame_of e) by (unfold e'; rewrite frame_of_lor; apply Z.lor_0_r).
  assert (Ew : writable e' = writable e) by (by apply Hb). assert (Ex : executable e' = executable e) by (unfold executable; by rewrite Hb).
  split; [unfold present; by rewrite Hb|]. constructor; [unfold user_bit; by rewrite Hb|by rewrite Ew, Ex|].
  destruct Hk as [j Hj Hf Ho Ht|Hw Hr|Hd Ho|Hr Ho].
  - apply (LeafPrivate _ _ _ _ j); congruence.
  - apply LeafBundle; congruence.
  - apply LeafDma; congruence.
  - apply LeafMmio; [by rewrite Ef|done].
Qed.

Lemma mmio_grow slot T v physical k : building slot T k -> 0xc0000000 <= physical < 2 ^ 52 -> device_owner k = pid (task k slot) ->
  exists T', grew slot T k T' (space_map_mmio slot v physical k).2.
Proof.
  intros Hb Hr Ho. unfold space_map_mmio.
  destruct (map_grow slot T v physical 3 k Hb ltac:(lia)) as (T1 & G1 & R1).
  { intros Ha T' k' G'. destruct (leaf_entry physical 3 Ha ltac:(lia)) as (_ & F & _).
    apply LeafMmio; [rewrite F; lia|]. by rewrite (gr_device _ _ _ _ _ G'). }
  destruct (space_map slot v physical 3 k) as [r k1]. cbn [fst snd] in *. destruct (truthy r) eqn:Er; [by exists T1|]. destruct (R1 eq_refl) as (Hu & Ha & El).
  destruct (leaf_entry physical 3 Ha ltac:(lia)) as (P & _ & B & _).
  pose proof (gr_building _ _ _ _ _ G1) as Hb1. rewrite (pte_look k1 _ slot T1 v (bd_space _ _ _ Hb1) Hu). cbn [fst].
  exists T1. apply (grew_trans _ _ _ T1 k1); [done|]. unfold leaf_at in El. destruct (Z.eqb_spec (entry_at T1 v) 0) as [|Hn]; [by rewrite <-El in P|].
  unfold entry_at in *. destruct (t1 T1 (dir_index v)) as [j|] eqn:Ej; [|done].
  pose proof (sp_l1 _ _ _ _ (bd_space _ _ _ Hb1) (dir_index v) j (tab_index v) (dir_index_lt v) Ej (tab_index_lt v)) as Hl. rewrite El in Hl |- *.
  apply (grew_leaf slot T1 (dir_index v)); [done|apply dir_index_lt|done|apply tab_index_lt|by apply lor_u64|].
  destruct (leaf_ok_mmio _ _ _ _ Hl) as [|E0]; [done|]. by rewrite E0 in P.
Qed.

End Map.
