(* ===== verification/SpaceTask.v ===== *)
(** * Creating a task

    [space_new], the device grant, the grants of a plan and [task_new_limited]
    ([kernel/core.c], [kernel/device.c]): a created task has its own tree of
    page tables, a failed creation leaves no page behind. *)

From S2P Require Import Prelude Bytes CMem Abi Sched Arguments Kernel Memory Space Ipc Acpi Iommu Device Core IpcInv SpaceInv KernelFrame SpaceKernel KernelSteps SpaceBuild SpaceMap.

Section Tasks.
Context {H : Type} `{LO : LayoutOk} `{HW : Hardware H}.
Implicit Types (k : Kernel H).

(** ** The device *)

(** As [grew], but the device may have changed hands. *)
Record kept (slot : nat) (T : Tables) k (T' : Tables) k' : Prop := {
  kp_building : building slot T' k';
  kp_fixed : fixed k';
  kp_pid : pid (task k' slot) = pid (task k slot);
  kp_private : forall j, private k (pid (task k slot)) T j -> private k' (pid (task k slot)) T' j
}.

Lemma kept_refl slot T k : building slot T k -> fixed k -> kept slot T k T k.
Proof. by constructor. Qed.

Lemma kept_trans slot T1 k1 T2 k2 T3 k3 : kept slot T1 k1 T2 k2 -> kept slot T2 k2 T3 k3 -> kept slot T1 k1 T3 k3.
Proof.
  intros [A1 A2 A3 A4] [B1 B2 B3 B4]. constructor; [done|done|congruence|]. intros j Hj. rewrite <-A3. apply B4. rewrite A3. by apply A4.
Qed.

Lemma kept_grew slot T k T' k' : grew slot T k T' k' -> fixed k' -> kept slot T k T' k'.
Proof. intros [G1 G2 _ _ _ G6] Hf. by constructor. Qed.

Lemma grew_dev slot T k k' : building slot T k -> fixed k -> dev_step k k' -> grew slot T k T k' /\ fixed k'.
Proof. intros Hb Hf Hd. destruct (Hd Hf) as [F Hf']. split; [|done]. by apply grew_still, still_framed. Qed.

Lemma kept_dev slot T k k' : building slot T k -> fixed k -> dev_step k k' -> kept slot T k T k'.
Proof. intros Hb Hf Hd. destruct (grew_dev slot T k k' Hb Hf Hd). by apply kept_grew. Qed.

(** The device of a slot that had none. *)
Lemma building_claim slot T k : building slot T k -> device_owner k = 0 -> building slot T (k <| device_owner := pid (task k slot) |>).
Proof.
  intros [[Hi He Hl] Hs] Ed. pose proof (vacant_pid slot k ltac:(by constructor)) as Hp. set (k' := k <| device_owner := _ |>).
  assert (Hsp : forall p root T', p <> 0 -> space k p root T' -> space k' p root T').
  { intros p root T' Hp'. apply space_frame; try done. rewrite Ed. congruence. }
  constructor; [|apply (Hsp (pid (task k slot)) (cr3 (task k slot))); [lia|done]]. constructor; [|done|done]. destruct Hi as [I1 I2 I3 I4 I5 I6 I0 I7 I8 I9 I10 I11]. constructor; try done.
  - intros ti Ha. destruct (I9 ti Ha) as (T' & Hs' & Hr). assert (Hn : pid (task k ti) <> 0) by (apply I6; by left).
    exists T'. split; [by apply Hsp|]. intros Hb. change (task k' ti) with (task k ti) in *.
    rewrite (user_range_frame k k' (pid (task k ti)) ti T'); [by apply Hr|done|done|done|by apply Hsp].
  - right. exists slot. split; [by right|done].
Qed.

Lemma grew_arena slot T k : building slot T k -> grew slot T k T (k <| memory ::= fun m => mwrite m dma (fill 0 SF_DMA_BYTES) |>).
Proof.
  intros Hb. apply grew_still; [done|]. constructor; try done; try (intros; apply still_task_refl). intros a Ha. cbn. apply write_apart; [|done].
  rewrite zlen_fill by done. apply dma_apart.
Qed.

Lemma grows_map_pages slot n f : forall i T k, building slot T k ->
  (forall j T1 k1, (i <= j < i + n)%nat -> grew slot T k T1 k1 -> exists T', grew slot T1 k1 T' (f (4096 * Z.of_nat j) k1).2) ->
  exists T', grew slot T k T' (map_pages_from n i f k).2.
Proof.
  induction n as [|n IH]; intros i T k Hb Hf; cbn [map_pages_from]; [exists T; by apply grew_refl|].
  destruct (Hf i T k ltac:(lia) ltac:(by apply grew_refl)) as (T1 & G1). destruct (f _ k) as [r k1]. cbn [snd] in G1.
  destruct (truthy r); [by exists T1|]. destruct (IH (S i) T1 k1 (gr_building _ _ _ _ _ G1)) as (T2 & G2).
  - intros j T' k' Hj G'. apply Hf; [lia|]. by apply (grew_trans _ _ _ T1 k1).
  - exists T2. by apply (grew_trans _ _ _ T1 k1).
Qed.

(** The register window of a modern device and the arena. *)
Lemma grows_registers slot T physical k : building slot T k -> 0xc0000000 <= physical < 2 ^ 48 -> device_owner k = pid (task k slot) ->
  exists T', grew slot T k T' (map_pages_from 4 0 (fun off => space_map_mmio slot (SF_DEVICE_MMIO + off) (physical + off)) k).2.
Proof.
  intros Hb Hp Hd. apply grows_map_pages; [done|]. intros j T1 k1 Hj G. apply mmio_grow; [apply G|lia|].
  by rewrite (gr_device _ _ _ _ _ G), (gr_pid _ _ _ _ _ G).
Qed.

Lemma grows_arena slot T k : building slot T k -> device_owner k = pid (task k slot) ->
  exists T', grew slot T k T' (map_pages_from 16 0 (fun off => space_map slot (SF_DMA + off) (dma + off) 3) k).2.
Proof.
  intros Hb Hd. pose proof dma_bounds as [D1 D2]. unfold SF_DMA_BYTES in D2. apply grows_map_pages; [done|]. intros j T1 k1 Hj G.
  destruct (map_grow slot T1 (SF_DMA + 4096 * Z.of_nat j) (dma + 4096 * Z.of_nat j) 3 k1 (gr_building _ _ _ _ _ G)) as (T2 & G2 & _); [lia| |by exists T2].
  intros Ha T' k' G'. destruct (leaf_entry (dma + 4096 * Z.of_nat j) 3 Ha) as (_ & F & _); [lia|].
  apply LeafDma; [rewrite F; unfold SF_DMA_BYTES; lia|]. by rewrite (gr_device _ _ _ _ _ G'), (gr_device _ _ _ _ _ G), (gr_pid _ _ _ _ _ G).
Qed.

Lemma grow_device slot T bdf io physical rights modern args k : building slot T k -> fixed k -> device_owner k = 0 -> 0 <= bdf ->
  (modern = true -> 0xc0000000 <= physical < 2 ^ 48) ->
  exists T', kept slot T k T' (grant_device slot bdf io physical rights modern args k).2.
Proof.
  intros Hb Hf Hd Hbdf Hr. unfold grant_device, released.
  destruct (grew_dev slot T k (set_task slot (fun t => t <| t_device_io := io |>) k) Hb Hf) as [G1 Hf1].
  { apply dev_set_task; [|done]. intros t. by exists io, (device_bdf t), (device_fault t), (device_modern t); destruct t. }
  set (k1 := set_task _ _ k) in *. assert (Ed1 : device_owner k1 = 0) by done. clearbody k1. cbv zeta.
  pose proof (building_claim slot T k1 (gr_building _ _ _ _ _ G1) Ed1) as Hb2. set (k2 := k1 <| device_owner := pid (task k1 slot) |>) in *.
  assert (Hk2 : kept slot T k T k2).
  { apply (kept_trans _ _ _ T k1); [by apply kept_grew|]. by constructor. }
  pose proof (grew_arena slot T k2 Hb2) as G3. set (k3 := k2 <| memory ::= _ |>) in *. assert (Hf3 : fixed k3) by done.
  assert (Ed3 : device_owner k3 = pid (task k3 slot)) by done. pose proof (kept_trans _ _ _ _ _ _ _ Hk2 (kept_grew _ _ _ _ _ G3 Hf3)) as Hk3.
  clearbody k3. clear Hk2 G3 Hb2. clearbody k2. set (first := if modern then _ else (true, k3)).
  assert (Hfirst : exists T', grew slot T k3 T' first.2 /\ calm k3 first.2).
  { unfold first. destruct modern; [|exists T; split; [by apply grew_refl, Hk3|done]].
    destruct (grows_registers slot T physical k3 (kp_building _ _ _ _ _ Hk3) (Hr eq_refl) Ed3) as (T' & G). exists T'. split; [done|].
    apply calm_map_pages; [|done]. intros. by apply calm_space_map_mmio. }
  destruct Hfirst as (T4 & G4 & C4). destruct first as [ok k4]. cbn [snd] in *. destruct (C4 (kp_fixed _ _ _ _ _ Hk3)) as [_ Hf4].
  pose proof (kept_trans _ _ _ _ _ _ _ Hk3 (kept_grew _ _ _ _ _ G4 Hf4)) as Hk4.
  assert (Hrel : forall T' k', kept slot T k T' k' -> forall k'', dev_step k' k'' -> exists T'', kept slot T k T'' k'').
  { intros T' k' Hk' k'' Hds. exists T'. apply (kept_trans _ _ _ T' k'); [done|]. by apply kept_dev; [apply Hk'|apply Hk'|]. }
  destruct (negb ok); [apply (Hrel _ _ Hk4); by apply dev_release|].
  destruct (grows_arena slot T4 k4 (gr_building _ _ _ _ _ G4)) as (T5 & G5).
  { by rewrite (gr_device _ _ _ _ _ G4), (gr_pid _ _ _ _ _ G4). }
  pose proof (calm_map_pages 16 (fun off => space_map slot (SF_DMA + off) (dma + off) 3) k4 (fun off k => calm_space_map k4 k slot _ _ _) 0%nat k4 ltac:(done)) as C5.
  destruct (map_pages_from 16 0 _ k4) as [ok2 k5]. cbn [snd] in *. destruct (C5 Hf4) as [_ Hf5].
  pose proof (kept_trans _ _ _ _ _ _ _ Hk4 (kept_grew _ _ _ _ _ G5 Hf5)) as Hk5.
  destruct (negb ok2); apply (Hrel _ _ Hk5); [by apply dev_release|]. assert (dev_step k5 k5) by done. dev_run.
Qed.

Lemma modern_window_range bdf bar k r physical k' : modern_window bdf bar k = (r, physical, k') -> truthy r = false -> 0xc0000000 <= physical < 2 ^ 48.
Proof.
  unfold modern_window. destruct (_ || _); [by intros [= <- <- <-]|]. destruct (config_read _ _ _) as [high k1].
  set (ph := Z.lor _ _). destruct (truthy (Z.land ph 16383)); [by intros [= <- <- <-]|]. cbn [orb]. destruct (Z.ltb_spec ph 0xc0000000); [by intros [= <- <- <-]|].
  cbn [orb]. destruct (Z.leb_spec (0x1000000000000 - 16384) ph); [by intros [= <- <- <-]|].
  destruct (config_read _ _ k1) as [v k2]. destruct (find_caps _ _ _ _ _) as [[[r3 found] cap] k3].
  destruct (truthy r3) eqn:E3; [intros [= <- <- <-]; congruence|]. destruct (_ || _); [by intros [= <- <- <-]|].
  destruct (space_device_mmio ph k3) as [r4 k4]. destruct (truthy r4); intros [= <- <- <-]; [done|]. lia.
Qed.

Lemma grow_device_grant slot T b rights args k : building slot T k -> fixed k -> 0 <= b ->
  exists T', kept slot T k T' (device_grant slot b rights args k).2.
Proof.
  intros Hb Hf Hb0. assert (H0 : dev_step k k) by done.
  assert (Hdev : forall k', dev_step k k' -> exists T', kept slot T k T' k') by (intros k' Hd; exists T; by apply kept_dev).
  unfold device_grant. destruct (Z.eqb_spec b 0); [by apply Hdev|]. cbn [orb]. destruct (_ <? _); [by apply Hdev|].
  destruct (truthy (device_owner k)) eqn:Ed; [by apply Hdev|]. apply truthy_false in Ed. destruct (truthy (quarantined k)); [by apply Hdev|].
  cbn [orb]. destruct (_ =? 2); [by apply Hdev|]. cbv zeta.
  pose proof (dev_config_read k k (b - 1) 0 H0) as H1. destruct (config_read (b - 1) 0 k) as [identity k1]. cbn [snd] in H1.
  destruct (_ && _); [by apply Hdev|]. destruct (_ && _); [by apply Hdev|].
  pose proof (dev_config_read k k1 (b - 1) (if identity =? 0x10421af4 then 32 else 16) H1) as H2.
  destruct (config_read _ _ k1) as [bar k2]. cbn [snd] in H2.
  set (w := if identity =? _ then modern_window _ _ _ else _). assert (H3 : dev_step k w.2) by (unfold w; eauto with dev).
  assert (Hw : identity =? 0x10421af4 = true -> truthy w.1.1 = false -> 0xc0000000 <= w.1.2 < 2 ^ 48).
  { intros E. unfold w. rewrite E. destruct (modern_window (b - 1) bar k2) as [[r ph] k3] eqn:Em. cbn [fst snd]. by apply (modern_window_range _ _ _ _ _ _ Em). }
  destruct w as [[r physical] k3]. cbn [fst snd] in *. destruct (truthy r); [by apply Hdev|].
  match goal with |- context [device_release slot (set_task slot ?f k3)] =>
    pose proof (dev_release k (set_task slot f k3) slot (dev_set_task k k3 slot f ltac:(intros t; eexists _, _, _, _; by destruct t) H3)) as H4; destruct (device_release slot (set_task slot f k3)) as [x k4] end.
  cbn [snd] in H4. destruct (truthy x); [by apply Hdev|]. destruct (grew_dev slot T k k4 Hb Hf H4) as [G4 Hf4].
  destruct (grow_device slot T (b - 1) (if identity =? 0x10421af4 then SF_DEVICE_MMIO else clear_bits bar 3) physical rights (identity =? 0x10421af4) args k4) as (T5 & K5).
  - apply G4.
  - done.
  - by rewrite (gr_device _ _ _ _ _ G4).
  - lia.
  - auto.
  - exists T5. apply (kept_trans _ _ _ T k4); [by apply kept_grew|done].
Qed.

(** ** The first tables *)

Definition roots (j4 j3 : nat) : Tables := MkTables j4 j3 None (fun _ => None).

Lemma in_roots j4 j3 i : in_tables (roots j4 j3) i <-> i = j4 \/ i = j3.
Proof. unfold in_tables. cbn. split; [intros [?|[?|[?|(? & _ & ?)]]]; auto; done|intros [?|?]; auto]. Qed.

Lemma dev_init_pd k : dev_step k (init_kernel_pd k).
Proof.
  unfold init_kernel_pd. apply (loop_inv (fun _ k' => dev_step k k')); [done|]. intros i k' Hi Hd. apply dev_store; [apply kernel_pd_apart|lia|done].
Qed.

Lemma table_entry3 p : p mod 4096 = 0 -> 0 <= p < 0x40000000 -> 0 <= Z.lor p 3 <= UINT64_MAX.
Proof. intros Hp Hr. rewrite (lor_disjoint 12) by (done || lia). sflia. Qed.

Definition link_roots (j4 j3 : nat) k : Kernel H :=
  let k := store (slot64 (pool_page j4) 0) (Z.lor (pool_page j3) 7) k in
  let k := store (slot64 (pool_page j3) 0) (Z.lor kernel_pd 3) k in
  if truthy (mmio_ready k) then store (slot64 (pool_page j3) 3) (Z.lor mmio_pd 3) k else k.

Lemma link_roots_other j4 j3 k i : i <> j4 -> i <> j3 -> page_same k (link_roots j4 j3 k) i.
Proof.
  intros H4 H3 a Ha. unfold link_roots. cbv zeta.
  transitivity (memory (store (slot64 (pool_page j3) 0) (Z.lor kernel_pd 3) (store (slot64 (pool_page j4) 0) (Z.lor (pool_page j3) 7) k)) a).
  - destruct (truthy _); [|done]. by apply (store_page_same _ j3 3 _ i).
  - etransitivity; [by apply (store_page_same _ j3 0 _ i)|]. by apply (store_page_same _ j4 0 _ i).
Qed.

Lemma link_roots_fields j4 j3 k : tasks (link_roots j4 j3 k) = tasks k /\ owner (link_roots j4 j3 k) = owner k /\
  next_pid (link_roots j4 j3 k) = next_pid k /\ device_owner (link_roots j4 j3 k) = device_owner k /\
  bundle_phys (link_roots j4 j3 k) = bundle_phys k /\ bundle_bytes (link_roots j4 j3 k) = bundle_bytes k.
Proof. unfold link_roots. cbv zeta. by destruct (truthy _). Qed.

Lemma space_roots k p j4 j3 : (j4 < POOL_PAGES)%nat -> (j3 < POOL_PAGES)%nat -> j4 <> j3 -> owned k p j4 -> owned k p j3 ->
  (forall j a, j = j4 \/ j = j3 -> pool_page j <= a < pool_page j + 4096 -> memory k a = 0) ->
  space (link_roots j4 j3 k) p (pool_page j4) (roots j4 j3).
Proof.
  intros H4 H3 Hne O4 O3 Hz. pose proof (link_roots_fields j4 j3 k) as (_ & Eo & _).
  assert (Z4 : forall i, 0 <= i < 512 -> load64 (memory k) (slot64 (pool_page j4) i) = 0) by (intros; apply load_zero; [by intros a; apply (Hz j4 a (or_introl eq_refl))|done]).
  assert (Z3 : forall i, 0 <= i < 512 -> load64 (memory k) (slot64 (pool_page j3) i) = 0) by (intros; apply load_zero; [by intros a; apply (Hz j3 a (or_intror eq_refl))|done]).
  pose proof (table_entry3 kernel_pd kernel_pd_aligned kernel_pd_bounds) as Bk. pose proof (table_entry3 mmio_pd mmio_pd_aligned mmio_pd_bounds) as Bm.
  constructor; try done.
  - intros j Hj. apply in_roots in Hj. unfold owned. rewrite Eo. by destruct Hj as [->| ->].
  - intros i Hi. cbn [roots t4 t3]. unfold link_roots. cbv zeta.
    set (k1 := store (slot64 (pool_page j4) 0) _ k). set (k2 := store (slot64 (pool_page j3) 0) _ k1).
    transitivity (load64 (memory k1) (slot64 (pool_page j4) i)).
    + destruct (truthy _); [rewrite (load_page_same k2); [|by apply store_page_same|done]|];
        (rewrite (load_page_same k1); [done|by apply store_page_same|done]).
    + unfold k1. rewrite store_entry, Z4; [|done|done|done|by apply pool_page_entry]. by rewrite Z.eqb_sym.
  - intros i Hi. cbn [roots t4 t3]. unfold link_roots. cbv zeta.
    set (k1 := store (slot64 (pool_page j4) 0) _ k). set (k2 := store (slot64 (pool_page j3) 0) _ k1).
    assert (E1 : load64 (memory k1) (slot64 (pool_page j3) i) = 0).
    { unfold k1. rewrite (load_page_same k); [by apply Z3|by apply store_page_same|done]. }
    assert (E2 : load64 (memory k2) (slot64 (pool_page j3) i) = if i =? 0 then Z.lor kernel_pd 3 else 0).
    { unfold k2. rewrite store_entry, E1, Z.eqb_sym by (done || lia). done. }
    unfold entry3. cbn [roots t2 opt_entry]. destruct (truthy _).
    + rewrite store_entry by (done || lia). rewrite E2. destruct (Z.eqb_spec 3 i) as [<-|]; [by right|].
      destruct (i =? 0); [done|]. destruct (i =? 1); [done|]. destruct (i =? 3); [by left|done].
    + rewrite E2. destruct (i =? 0); [done|]. destruct (i =? 1); [done|]. destruct (i =? 3); [by left|done].
Qed.

Lemma took_pid slot j k k' : vacant slot k -> took slot j k k' -> pid (task k' slot) = pid (task k slot) /\ owned k' (pid (task k slot)) j.
Proof.
  intros Hv Ht. pose proof (va_inv _ _ Hv) as Hi. split.
  - rewrite (took_task slot j k k' slot Ht) by (rewrite (si_tasks _ _ Hi); apply Hv). by rewrite decide_True.
  - unfold owned. rewrite (tk_owner _ _ _ _ Ht), nth_insert. pose proof (tk_page _ _ _ _ Ht). rewrite decide_True by (by rewrite (si_pages _ _ Hi)). done.
Qed.

(** Two fresh pages, linked. *)
Lemma roots_built slot j4 j3 k k1 k2 : vacant slot k -> took slot j4 k k1 -> took slot j3 k1 k2 ->
  vacant slot (link_roots j4 j3 k2) /\ pid (task (link_roots j4 j3 k2) slot) = pid (task k slot) /\
  space (link_roots j4 j3 k2) (pid (task k slot)) (pool_page j4) (roots j4 j3).
Proof.
  intros Hv T4 T3. pose proof (vacant_pid slot k Hv) as Hp. pose proof (vacant_took _ _ _ _ Hv T4) as Hv1. pose proof (vacant_took _ _ _ _ Hv1 T3) as Hv2.
  destruct (took_pid _ _ _ _ Hv T4) as [P1 O4]. destruct (took_pid _ _ _ _ Hv1 T3) as [P2 O3]. rewrite P1 in P2, O3.
  pose proof (tk_page _ _ _ _ T4) as H4. pose proof (tk_page _ _ _ _ T3) as H3.
  destruct (took_keeps slot j3 k1 k2 (pid (task k slot)) j4 T3 ltac:(lia) O4 H4) as [O4' S4].
  assert (Hne : j4 <> j3). { intros ->. unfold owned in O4. rewrite (tk_free _ _ _ _ T3) in O4. lia. }
  pose proof (link_roots_fields j4 j3 k2) as (F1 & F2 & F3 & F4 & F5 & F6).
  assert (Et : task (link_roots j4 j3 k2) slot = task k2 slot) by (unfold task; by rewrite F1).
  split; [|split; [by rewrite Et|]].
  - apply (vacant_memory slot k2); try done. intros i Hi Hn. rewrite P2 in Hn. apply link_roots_other; intros ->; done.
  - apply space_roots; try done. intros j a [->| ->] Ha; [rewrite S4 by done; by apply (tk_zero _ _ _ _ T4)|by apply (tk_zero _ _ _ _ T3)].
Qed.

Lemma space_new_spec slot k : vacant slot k -> fixed k ->
  let r := space_new (pid (task k slot)) k in
  vacant slot r.2 /\ fixed r.2 /\ pid (task r.2 slot) = pid (task k slot) /\
  (r.1 = 0 \/ r.1 <> 0 /\ exists T, space r.2 (pid (task k slot)) r.1 T).
Proof.
  intros Hv Hf. pose proof (calm_space_new k k (pid (task k slot)) ltac:(done)) as Hc. destruct (Hc Hf) as [_ Hf']. cbv zeta.
  enough (vacant slot (space_new (pid (task k slot)) k).2 /\ pid (task (space_new (pid (task k slot)) k).2 slot) = pid (task k slot) /\
    ((space_new (pid (task k slot)) k).1 = 0 \/ (space_new (pid (task k slot)) k).1 <> 0 /\
     exists T, space (space_new (pid (task k slot)) k).2 (pid (task k slot)) (space_new (pid (task k slot)) k).1 T)) by naive_solver.
  clear Hc Hf'. unfold space_new. set (k1 := if _ : bool then init_kernel_pd k else k).
  assert (S1 : still k k1).
  { unfold k1. destruct (_ =? 0); [|apply still_framed; reflexivity]. apply still_framed. by apply dev_init_pd. }
  assert (Ep : pid (task k1 slot) = pid (task k slot)) by apply (sl_task _ _ S1 slot). rewrite <-Ep. pose proof (vacant_still _ _ _ S1 Hv) as Hv1.
  clear Hv S1. clearbody k1. destruct (alloc_spec slot k1 Hv1) as [E|(j4 & E & T4)].
  - rewrite E. destruct (alloc_spec slot k1 Hv1) as [->|(j3 & E3 & T3)]; [by split; [|split; [|left]]|].
    destruct (page_alloc _ k1) as [p3 k2]. cbn [fst snd] in *. split; [by apply (vacant_took slot j3 k1)|]. split; [by apply (took_pid slot j3 k1)|by left].
  - destruct (page_alloc (pid (task k1 slot)) k1) as [p4 k2]. cbn [fst snd] in E, T4. subst p4. pose proof (vacant_took _ _ _ _ Hv1 T4) as Hv2.
    destruct (took_pid _ _ _ _ Hv1 T4) as [P2 _]. destruct (pool_page_bounds j4 (tk_page _ _ _ _ T4)) as [B4 _].
    destruct (Z.eqb_spec (pool_page j4) 0) as [|_]; [lia|]. cbn [orb]. rewrite <-P2. destruct (alloc_spec slot k2 Hv2) as [->|(j3 & E3 & T3)].
    + cbn [Z.eqb fst snd]. split; [done|]. split; [done|by left].
    + destruct (page_alloc (pid (task k2 slot)) k2) as [p3 k3]. cbn [fst snd] in E3, T3. subst p3.
      destruct (pool_page_bounds j3 (tk_page _ _ _ _ T3)) as [B3 _]. destruct (Z.eqb_spec (pool_page j3) 0) as [|_]; [lia|].
      destruct (roots_built slot j4 j3 k1 k2 k3 Hv1 T4 T3) as (V & P & S). rewrite <-P2 in P, S. cbv zeta. fold (link_roots j4 j3 k3). cbn [fst snd].
      split; [done|]. split; [done|]. right. split; [lia|by eexists].
Qed.

Lemma vacant_cr3 slot root k : vacant slot k -> vacant slot (set_task slot (fun t => t <| cr3 := root |>) k).
Proof.
  intros Hv. pose proof Hv as [Hi He Hl]. set (k' := set_task _ _ k). assert (Hlen : (slot < length (tasks k))%nat) by (by rewrite (si_tasks _ _ Hi)).
  assert (Hs : forall ti, ti <> slot -> task k' ti = task k ti) by (intros; by apply task_set_other).
  assert (Hself : task k' slot = (task k slot) <| cr3 := root |>) by (by apply task_set_same).
  assert (Epid : forall ti, pid (task k' ti) = pid (task k ti)) by (intros ti; destruct (decide (ti = slot)) as [->|]; [by rewrite Hself|by rewrite Hs]).
  assert (Est : forall ti, t_state (task k' ti) = t_state (task k ti)) by (intros ti; destruct (decide (ti = slot)) as [->|]; [by rewrite Hself|by rewrite Hs]).
  assert (Ea : forall ti, alive (task k' ti) = alive (task k ti)) by (intros ti; unfold alive, in_tstate; by rewrite Est).
  assert (Eh : forall ti, here (only slot) k' ti <-> here (only slot) k ti) by (intros ti; unfold here; by rewrite Ea).
  assert (Ec : forall ti, page_count (task k' ti) = page_count (task k ti) /\ page_limit (task k' ti) = page_limit (task k ti))
    by (intros ti; destruct (decide (ti = slot)) as [->|]; [by rewrite Hself|by rewrite Hs]).
  split; [|by rewrite Est|done]. destruct Hi as [I1 I2 I3 I4 I5 I6 I0 I7 I8 I9 I10 I11]. constructor; try done.
  - unfold k'. by rewrite length_set_task.
  - intros ti. rewrite Epid. apply I4.
  - intros ti tj. rewrite !Epid. apply I5.
  - intros ti. rewrite Epid, Eh. apply I6.
  - intros ti. rewrite Epid, Est. apply I0.
  - intros j. setoid_rewrite Eh. setoid_rewrite Epid. apply I7.
  - intros ti. rewrite Eh, Epid. destruct (Ec ti) as [-> ->]. apply I8.
  - intros ti Ha. rewrite Ea in Ha. pose proof (vacant_others slot k ti Hv Ha). assert (ti <> slot) by (by intros ->).
    apply (task_space_frame k); try done; [rewrite Hs by done; apply still_task_refl|by apply I9].
  - destruct I10 as [|(ti & Hti & E)]; [by left|]. right. exists ti. by rewrite Eh, Epid.
Qed.

(** ** Equipping and starting it *)

Lemma ipcf_plan_grant from slot h r k : ipc_frame k (plan_grant from slot h r k).2.
Proof. unfold plan_grant. destruct (h =? 0); [done|apply ipcf_grant]. Qed.

Lemma ipcf_plan_grants from slot p args k : ipc_frame k (plan_grants from slot p args k).2.
Proof.
  unfold plan_grants. pose proof (ipcf_plan_grant from slot (lp_grant_manager p) RIGHT_SEND k) as H1. destruct (plan_grant _ _ _ _ k) as [h k1].
  cbn [snd] in H1. destruct (h <? 0); [done|]. destruct (_ && _); [done|].
  pose proof (ipcf_plan_grant from slot (lp_grant_service p) (lp_service_rights p) k1) as H2. destruct (plan_grant _ _ _ _ k1) as [h2 k2].
  cbn [snd] in H2. destruct (h2 <? 0); by transitivity k1.
Qed.

(** Plans with few enough argument bytes. *)
Definition small_plan (p : SfLoadPlan) : Prop := a_bytes (lp_arguments p) <= SF_ARGUMENT_BYTES /\ 0 <= lp_grant_device p.

Lemma valid_plan_small p parent k : 0 <= lp_grant_device p -> valid_plan p parent k = true -> small_plan p.
Proof.
  intros Hd. unfold valid_plan. destruct (truthy (sf_arguments_validate (lp_arguments p))) eqn:E; [by rewrite !orb_true_r|]. intros _.
  split; [|done]. apply truthy_false in E. unfold sf_arguments_validate in E. destruct (_ || _); [done|]. unfold payload in E.
  destruct (_ <? _); [done|]. cbn [orb] in E. destruct (Z.ltb_spec SF_ARGUMENT_BYTES (a_bytes (lp_arguments p))); [done|lia].
Qed.

Lemma zlen_start args a : a_bytes a <= SF_ARGUMENT_BYTES -> zlen (boot_args_bytes args ++ take (Z.to_nat (a_bytes a)) (a_data a)) <= 4096.
Proof.
  intros Hb. rewrite zlen_app, zlen_boot_args. unfold zlen. rewrite length_take. unfold SF_ARGUMENT_BYTES, sizeof_SfBootArgs in *. lia.
Qed.

Lemma equip_keeps slot T bootstrap p j k : building slot T k -> fixed k -> private k (pid (task k slot)) T j -> small_plan p ->
  exists T', kept slot T k T' (equip slot bootstrap p (pool_page j) k).2.
Proof.
  intros Hb Hf Hj [Ha Hd]. unfold equip. cbv zeta. set (args := boot_args _ _). clearbody args.
  pose proof (grew_fill slot T j _ k Hb Hj (zlen_start args (lp_arguments p) Ha)) as G1. set (k1 := fill_page _ _ k) in *.
  assert (Hf1 : fixed k1) by done. pose proof (kept_grew _ _ _ _ _ G1 Hf1) as K1. clearbody k1. clear G1.
  set (w := if needs_bundle bootstrap p then _ else _). assert (Hw : exists T2, grew slot T k1 T2 w.2 /\ fixed w.2).
  { unfold w. destruct (needs_bundle bootstrap p); [|exists T; split; [by apply grew_refl, K1|done]].
    destruct (grows_bundle slot T k1 (kp_building _ _ _ _ _ K1)) as (T2 & G2). exists T2. split; [done|].
    destruct (calm_bundle slot (Z.to_nat ((bundle_bytes k1 + 4095) / 4096)) k1 k1 ltac:(done) Hf1) as [_ ?]. done. }
  destruct Hw as (T2 & G2 & Hf2). destruct w as [ok k2]. cbn [snd] in *. pose proof (kept_trans _ _ _ _ _ _ _ K1 (kept_grew _ _ _ _ _ G2 Hf2)) as K2.
  clear K1 G2 Hf1. destruct (negb ok); [by exists T2|]. set (args' := if needs_bundle bootstrap p then _ else args). clearbody args'.
  set (g := if bootstrap then _ else _). assert (Hg : ipc_frame k2 g.2) by (unfold g; destruct bootstrap; [done|apply ipcf_plan_grants]).
  destruct g as [[ok2 args2] k3]. cbn [snd] in Hg. pose proof (grew_still slot T2 k2 k3 (kp_building _ _ _ _ _ K2) (still_ipc _ _ Hg)) as G3.
  pose proof (kept_trans _ _ _ _ _ _ _ K2 (kept_grew _ _ _ _ _ G3 (fixed_ipc _ _ Hg Hf2))) as K3.
  destruct (negb ok2); [by exists T2|]. destruct (_ =? 0); [by exists T2|].
  destruct (grow_device_grant slot T2 (lp_grant_device p) (lp_device_rights p) args2 k3 (kp_building _ _ _ _ _ K3) (kp_fixed _ _ _ _ _ K3) Hd) as (T4 & K4).
  exists T4. by apply (kept_trans _ _ _ T2 k3).
Qed.

Definition nobody : nat -> Prop := fun _ => False.

(** The slot becomes a task. *)
Lemma inv_start slot T f k : building slot T k ->
  (forall t, pid (f t) = pid t /\ cr3 (f t) = cr3 t /\ page_count (f t) = page_count t /\ page_limit (f t) = page_limit t /\ t_state (f t) = T_READY) ->
  space_inv nobody (set_task slot f k).
Proof.
  intros [Hv Hsp] Hf. pose proof Hv as [Hi He Hl]. set (k' := set_task slot f k). assert (Hlen : (slot < length (tasks k))%nat) by (by rewrite (si_tasks _ _ Hi)).
  assert (Hs : forall ti, ti <> slot -> task k' ti = task k ti) by (intros; by apply task_set_other).
  assert (Hself : task k' slot = f (task k slot)) by (by apply task_set_same). destruct (Hf (task k slot)) as (F1 & F2 & F3 & F4 & F5).
  assert (Epid : forall ti, pid (task k' ti) = pid (task k ti)) by (intros ti; destruct (decide (ti = slot)) as [->|]; [by rewrite Hself|by rewrite Hs]).
  assert (Ec : forall ti, page_count (task k' ti) = page_count (task k ti) /\ page_limit (task k' ti) = page_limit (task k ti))
    by (intros ti; destruct (decide (ti = slot)) as [->|]; [by rewrite Hself|by rewrite Hs]).
  assert (Eh : forall ti, here nobody k' ti <-> here (only slot) k ti).
  { intros ti. unfold here, nobody, only. destruct (decide (ti = slot)) as [->|].
    - split; [by right|]. intros _. left. rewrite Hself. by apply alive_state_ready.
    - rewrite Hs by done. naive_solver. }
  pose proof Hi as [I1 I2 I3 I4 I5 I6 I0 I7 I8 I9 I10 I11]. constructor; try done.
  - unfold k'. by rewrite length_set_task.
  - intros ti. rewrite Epid. apply I4.
  - intros ti tj. rewrite !Epid. apply I5.
  - intros ti. rewrite Epid, Eh. apply I6.
  - intros ti Ht. destruct (decide (ti = slot)) as [->|Hne]; [rewrite Hself, F5 in Ht; done|]. rewrite Hs in * by done.
    destruct (I0 ti Ht); [by left|done].
  - intros j. setoid_rewrite Eh. setoid_rewrite Epid. apply I7.
  - intros ti. rewrite Eh, Epid. destruct (Ec ti) as [-> ->]. apply I8.
  - intros ti Ha. destruct (decide (ti = slot)) as [->|Hne].
    + exists T. rewrite Hself, F1, F2, F5. split; [|done]. by apply (space_frame k).
    + rewrite Hs in Ha by done. apply (task_space_frame k); try done; [rewrite Hs by done; apply still_task_refl|by apply I9].
  - destruct I10 as [|(ti & Hti & E)]; [by left|]. right. exists ti. by rewrite Eh, Epid.
Qed.

Lemma launch_inv slot T p base j args k : building slot T k -> private k (pid (task k slot)) T j -> space_inv nobody (launch slot p base (pool_page j) args k).2.
Proof.
  intros Hb Hj. unfold launch. cbn [snd]. apply (inv_start slot T); [|done]. apply (grew_fill slot T j); [done|done|].
  rewrite zlen_boot_args. unfold sizeof_SfBootArgs. lia.
Qed.

(** ** Giving up *)

Lemma inv_clear slot r k : vacant slot k ->
  space_inv nobody (set_task slot (fun t => t <| t_state := T_DEAD |> <| exit_status := r |>) (device_forget slot (pages_free (pid (task k slot)) k))).
Proof.
  intros Hv. pose proof Hv as [Hi He Hl]. pose proof (vacant_pid slot k Hv) as Hp.
  assert (Ha : alive (task k slot) = false) by (unfold alive, in_tstate; by rewrite He).
  destruct (inv_pages_free (only slot) slot k Ha Hi) as (H1 & H2 & E1 & E2). set (k1 := pages_free _ k) in *. clearbody k1.
  assert (Ha1 : alive (task k1 slot) = false) by (unfold alive, in_tstate; by rewrite E2, He).
  destruct (inv_forget (only slot) k1 slot Ha1 H1) as [H3 H4].
  assert (Et : task (device_forget slot k1) slot = task k1 slot /\ owner (device_forget slot k1) = owner k1) by (unfold device_forget; by destruct (_ =? _)).
  set (k2 := device_forget slot k1) in *. clearbody k2. destruct Et as [Et Eo].
  pose proof (inv_mark (only slot) slot (fun t => t <| t_state := T_DEAD |> <| exit_status := r |>) k2 ltac:(done) H3) as H5. rewrite Et, Ha1 in H5.
  assert (Hlen : (slot < length (tasks k2))%nat) by (by rewrite (si_tasks _ _ H3)).
  assert (Es : task (set_task slot (fun t => t <| t_state := T_DEAD |> <| exit_status := r |>) k2) slot =
    (task k2 slot) <| t_state := T_DEAD |> <| exit_status := r |>) by (by rewrite task_set_same).
  set (k3 := set_task slot _ k2) in *. assert (Eo3 : owner k3 = owner k2) by done. assert (Ed3 : device_owner k3 = device_owner k2) by done. clearbody k3.
  apply (inv_ext (without (only slot) slot)); [unfold without, only, nobody; naive_solver|].
  assert (Ep : pid (task k3 slot) = pid (task k slot)) by (rewrite Es, <-E1, <-Et; done).
  apply inv_drop; [| | | |done]; rewrite ?Ep.
  - intros j. unfold owned. rewrite Eo3, Eo. apply H2. lia.
  - rewrite Ed3, <-E1. apply H4. lia.
  - by rewrite Es.
  - by rewrite Es.
Qed.

Lemma abandon_inv slot r k : vacant slot k -> fixed k -> space_inv nobody (abandon slot r k).2.
Proof.
  intros Hv Hf. unfold abandon. assert (Hd : dev_step k (device_release slot k).2) by (by apply dev_release).
  destruct (device_release slot k) as [x k1]. cbn [snd] in Hd. destruct (Hd Hf) as [F _]. pose proof (vacant_still _ _ _ (still_framed _ _ F) Hv) as Hv1.
  pose proof (vacant_still _ _ _ (still_ipc _ _ (ipcf_cleanup slot k1)) Hv1) as Hv2. cbn [snd]. by apply inv_clear.
Qed.

(** ** [task_new_limited] *)

Lemma construct_inv slot bootstrap base p k : vacant slot k -> fixed k -> small_plan p -> space_inv nobody (construct slot bootstrap base p k).2.
Proof.
  intros Hv Hf Hp. unfold construct. cbv zeta. set (parent := if bootstrap then None else _). clearbody parent.
  destruct (space_new_spec slot k Hv Hf) as (V1 & F1 & P1 & R1). destruct (space_new (pid (task k slot)) k) as [root k1]. cbn [fst snd] in *.
  pose proof (vacant_cr3 slot root k1 V1) as V2.
  assert (Hlen : (slot < length (tasks k1))%nat) by (rewrite (si_tasks _ _ (va_inv _ _ V1)); apply V1).
  assert (Es : task (set_task slot (fun t => t <| cr3 := root |>) k1) slot = (task k1 slot) <| cr3 := root |>) by (by apply task_set_same).
  destruct (Z.eqb_spec root 0) as [|Hr]; [by apply abandon_inv|]. destruct R1 as [|(_ & T & Hs)]; [done|].
  assert (Hb : building slot T (set_task slot (fun t => t <| cr3 := root |>) k1)).
  { constructor; [done|]. rewrite Es. cbn. rewrite P1. by apply (space_frame k1). }
  assert (F2 : fixed (set_task slot (fun t => t <| cr3 := root |>) k1)) by done. set (k2 := set_task slot _ k1) in *. clearbody k2. clear Es V1 V2 F1 Hs Hlen.
  destruct (grows_build_image slot parent base p T k2 Hb) as (T3 & G3).
  destruct (calm_build_image slot parent base p k2 k2 ltac:(done) F2) as [_ F3]. destruct (build_image slot parent base p k2) as [ok k3]. cbn [snd] in *.
  pose proof (gr_building _ _ _ _ _ G3) as B3. destruct (negb ok); [by apply abandon_inv; [apply B3|]|].
  destruct (arg_page_grow slot T3 k3 B3) as (T4 & G4 & R4). destruct (calm_arg_page k3 k3 slot ltac:(done) F3) as [_ F4].
  destruct (arg_page slot k3) as [page k4]. cbn [fst snd] in *. pose proof (gr_building _ _ _ _ _ G4) as B4.
  destruct (Z.eqb_spec page 0) as [|Hpg]; [by apply abandon_inv; [apply B4|]|]. destruct R4 as [|(j & -> & Hj)]; [done|].
  rewrite <-(gr_pid _ _ _ _ _ G4) in Hj. destruct (equip_keeps slot T4 bootstrap p j k4 B4 F4 Hj Hp) as (T5 & K5).
  destruct (equip slot bootstrap p (pool_page j) k4) as [[r args] k5]. cbn [snd] in *. pose proof (kp_building _ _ _ _ _ K5) as B5.
  destruct (truthy r); [apply abandon_inv; [apply B5|apply K5]|]. apply (launch_inv slot T5); [done|]. rewrite (kp_pid _ _ _ _ _ K5). by apply (kp_private _ _ _ _ _ K5).
Qed.

(** A slot is taken under a new pid. *)
Lemma vacant_take slot pages now k : space_inv nobody k -> (slot < SF_MAX_TASKS)%nat -> alive (task k slot) = false ->
  0 < next_pid k <= SF_PID_MAX -> 0 <= pages <= SF_PAGE_LIMIT_MAX ->
  vacant slot (set_task slot (take_slot (next_pid k) pages now) (k <| next_pid := next_pid k + 1 |>)).
Proof.
  intros Hi Hl Ha Hn Hpg. set (k1 := k <| next_pid := next_pid k + 1 |>). set (f := take_slot (next_pid k) pages now). set (k' := set_task slot f k1).
  assert (Hlen : (slot < length (tasks k1))%nat) by (unfold k1; cbn; by rewrite (si_tasks _ _ Hi)).
  assert (Hs : forall ti, ti <> slot -> task k' ti = task k ti) by (intros; by apply (task_set_other slot ti f k1)).
  assert (Hself : task k' slot = f (task k slot)) by (by apply (task_set_same slot f k1)).
  pose proof Hi as [I1 I2 I3 I4 I5 I6 I0 I7 I8 I9 I10 I11].
  assert (Hown : forall j ti, here nobody k ti -> owned k (pid (task k ti)) j -> ti <> slot).
  { intros j ti [Hti|[]] _ ->. congruence. }
  assert (Hh : forall ti, ti <> slot -> here (only slot) k' ti <-> here nobody k ti).
  { intros ti Hne. unfold here, only, nobody. rewrite Hs by done. naive_solver. }
  split; [|by rewrite Hself|done]. constructor; try done.
  - unfold k'. by rewrite length_set_task.
  - change (next_pid k') with (next_pid k + 1). lia.
  - intros ti. change (next_pid k') with (next_pid k + 1). destruct (decide (ti = slot)) as [->|Hne].
    + rewrite Hself. change (pid (f (task k slot))) with (next_pid k). lia.
    + rewrite Hs by done. pose proof (I4 ti). lia.
  - intros ti tj. pose proof (I4 ti). pose proof (I4 tj). destruct (decide (ti = slot)) as [->|Hi1], (decide (tj = slot)) as [->|Hj1]; [done| | |].
    + rewrite Hself, Hs by done. change (pid (f (task k slot))) with (next_pid k). lia.
    + rewrite Hself, Hs by done. change (pid (f (task k slot))) with (next_pid k). lia.
    + rewrite !Hs by done. apply I5.
  - intros ti Hti. destruct (decide (ti = slot)) as [->|Hne]; [rewrite Hself; change (pid (f (task k slot))) with (next_pid k); lia|].
    rewrite Hs by done. apply I6. by apply Hh.
  - intros ti Hti. destruct (decide (ti = slot)) as [->|Hne]; [by right|]. rewrite Hs in * by done. destruct (I0 ti Hti); [by left|done].
  - intros j. destruct (I7 j) as [|(ti & Hti & Ho)]; [by left|]. right. exists ti. pose proof (Hown j ti Hti Ho). rewrite Hh, Hs by done. done.
  - intros ti Hti. destruct (decide (ti = slot)) as [->|Hne].
    + rewrite Hself. change (pid (f (task k slot))) with (next_pid k). change (page_count (f (task k slot))) with 0. change (page_limit (f (task k slot))) with pages.
      split; [|lia]. symmetry. apply pages_of_none. intros j Ho. change (owned k (next_pid k) j) in Ho. unfold owned in Ho.
      destruct (I7 j) as [E|(ti & _ & E)]; [lia|]. unfold owned in E. pose proof (I4 ti). lia.
    + rewrite Hs by done. apply (I8 ti). by apply Hh.
  - intros ti Hti. destruct (decide (ti = slot)) as [->|Hne]; [rewrite Hself in Hti; done|]. rewrite Hs in Hti by done.
    apply (task_space_frame k); try done; [rewrite Hs by done; apply still_task_refl|by apply I9].
  - destruct I10 as [|(ti & Hti & E)]; [by left|]. right. exists ti. assert (ti <> slot) by (intros ->; destruct Hti as [|[]]; congruence).
    rewrite Hh, Hs by done. done.
Qed.

Lemma task_new_inv p bootstrap pages k : space_inv nobody k -> fixed k -> 0 <= pages -> 0 <= lp_grant_device p ->
  space_inv nobody (task_new_limited p bootstrap pages k).2.
Proof.
  intros Hi Hf Hpg Hd. unfold task_new_limited. destruct (Z.ltb_spec SF_PAGE_LIMIT_MAX pages); [done|].
  destruct (valid_plan p _ k) eqn:Ev; [|done]. cbn [negb orb]. destruct (_ && _); [done|]. cbv zeta.
  destruct (find_index _ _) as [slot|] eqn:Ef; [|done]. apply find_index_Some in Ef as (Hs & Hst & _).
  assert (Ha : alive (task k slot) = false).
  { unfold alive, in_tstate in *. apply orb_prop in Hst as [E|E]; apply bool_decide_eq_true in E; by rewrite E. }
  pose proof (si_next _ _ Hi) as Hn. unfold sf_pid_take. destruct (Z.eqb_spec (next_pid k) 0); [lia|]. cbn [orb].
  destruct (Z.ltb_spec SF_PID_MAX (next_pid k)); [by apply (inv_still _ k); [by apply still_field|]|].
  destruct (Z.ltb_spec (next_pid k) 0); [lia|]. apply construct_inv; [|done|exact (valid_plan_small p _ k Hd Ev)].
  change (default (next_pid k) (Some (u32 (next_pid k + 1)))) with (u32 (next_pid k + 1)). rewrite u32_small by (unfold SF_PID_MAX in *; lia).
  apply vacant_take; [done|done|done|lia|lia].
Qed.

End Tasks.
