(* ===== verification/KernelRun.v ===== *)
(** * The running machine

    The kernel entered by boot and by interrupts, with user programs and DMA
    in between: its runs are runs of the IPC events, and the scheduler always
    comes to a decision. *)

From S2P Require Import Prelude Bytes CMem Abi Sched Arguments Kernel Memory Space Ipc Acpi Iommu Device Core IpcInv IpcCalls IpcSafe KernelFrame KernelSteps.

Section Run.
Context {H : Type} `{LO : LayoutOk} `{HW : Hardware H}.
Implicit Types (k : Kernel H).

(** ** Tasks only go *)

(** Inside the kernel a task may die or be woken. *)
Definition shift (s s' : task_state) : Prop := s' = s \/ s' = T_DEAD \/ s = T_BLOCKED /\ s' = T_READY.

Record faded k k' : Prop := {
  fd_tasks : length (tasks k') = length (tasks k);
  fd_task : forall ti, pid (task k' ti) = pid (task k ti) /\ rsp (frame (task k' ti)) = rsp (frame (task k ti)) /\
    shift (t_state (task k ti)) (t_state (task k' ti));
  fd_current : current k' = current k /\ next_pid k' = next_pid k
}.

Definition fades k k' : Prop := fixed k -> faded k k' /\ fixed k'.

Lemma shift_trans s1 s2 s3 : shift s1 s2 -> shift s2 s3 -> shift s1 s3.
Proof. unfold shift. intros. destruct s1, s2, s3; naive_solver. Qed.

#[export] Instance fades_preorder : PreOrder fades.
Proof.
  split; [intros k Hf; split; [|done]; constructor; try done; intros; split; [done|split; [done|by left]]|].
  intros k1 k2 k3 A B Hf. destruct (A Hf) as [[A1 A2 [A3 A4]] Hf2]. destruct (B Hf2) as [[B1 B2 [B3 B4]] Hf3]. split; [|done].
  constructor; [congruence| |split; congruence]. intros ti. destruct (A2 ti) as (P1 & P0 & P2), (B2 ti) as (Q1 & Q0 & Q2).
  split; [congruence|]. split; [congruence|].
  by apply shift_trans with (t_state (task k2 ti)).
Qed.

Lemma fades_dev k k' : dev_step k k' -> fades k k'.
Proof.
  intros Hd Hf. destruct (Hd Hf) as [[F1 F2 _ _ (F5 & _ & F6) _ _ _ _] Hf']. split; [|done]. constructor; try done. intros ti.
  destruct (F2 ti) as (? & ? & ? & ? & ->). split; [done|split; [done|by left]].
Qed.

Lemma fades_ipc k k' : ipc_frame k k' -> fades k k'.
Proof.
  intros Hi Hf. split; [|by apply (fixed_ipc k)]. destruct Hi as [A1 A2 _ _ _ (A3 & _ & A4 & _)]. constructor; try done. intros ti.
  destruct (A2 ti) as [P1 P2 _ _ _ _ P7]. split; [done|]. split; [done|]. destruct P2 as [P2|P2]; [by left|by right; right].
Qed.

Lemma fades_set_task k i f : (forall t, pid (f t) = pid t /\ rsp (frame (f t)) = rsp (frame t) /\ shift (t_state t) (t_state (f t))) -> fades k (set_task i f k).
Proof.
  intros Ht Hf. split; [|done]. constructor; [apply length_set_task| |done]. intros ti. rewrite task_set.
  case_decide as Hd; [destruct Hd as [-> _]; apply Ht|]. split; [done|split; [done|by left]].
Qed.

Lemma fades_calm k k' : calm k k' -> fades k k'.
Proof.
  intros Hc Hf. destruct (Hc Hf) as [[(E1 & _ & E3) _ E4 E5] Hf']. split; [|done]. constructor; try done. intros ti.
  rewrite E5. destruct (E3 ti) as (_ & -> & -> & _). split; [done|split; [done|by left]].
Qed.

Lemma fades_dead ti st k : fades k (task_dead ti st k).
Proof.
  rewrite task_dead_parts. transitivity (device_release ti k).2; [by apply fades_dev, dev_release|].
  transitivity (dead_mark ti st (device_release ti k).2); [|by apply fades_calm, calm_dead_free].
  unfold dead_mark. etransitivity; [apply fades_ipc, ipcf_cleanup|]. apply fades_set_task. intros t. split; [done|split; [done|by right; left]].
Qed.

(** The task that is killed is dead. *)
Lemma dead_is_dead ti st k : fixed k -> (ti < length (tasks k))%nat -> t_state (task (task_dead ti st k) ti) = T_DEAD.
Proof.
  intros Hf Hti. rewrite task_dead_parts. destruct (dev_release k k ti ltac:(done) Hf) as [[F1 _ _ _ _ _ _ _ _] Hf1].
  set (k1 := (device_release ti k).2) in *. clearbody k1. destruct (evolves_dead_mark ti st k1 Hf1) as (_ & Hf2 & _).
  assert (E : t_state (task (dead_mark ti st k1) ti) = T_DEAD).
  { unfold dead_mark. pose proof (ipcf_cleanup ti k1) as [Ht _ _ _ _ _]. set (k2 := ipc_cleanup ti k1) in *. clearbody k2.
    rewrite task_set_same by congruence. done. }
  set (k3 := dead_mark ti st k1) in *. clearbody k3. destruct (calm_dead_free k3 k3 ti ltac:(done) Hf2) as [[(_ & _ & T) _ _ _] _].
  destruct (T ti) as (_ & _ & -> & _). done.
Qed.

Lemma fades_fault source k : fades k (fault_task source k).
Proof.
  unfold fault_task. destruct (find_index _ _) as [i|]; [|done]. pose proof (dev_release k k i ltac:(done)) as Hd.
  destruct (device_release i k) as [x k1]. cbn [snd] in Hd. transitivity k1; [by apply fades_dev|]. clear Hd.
  etransitivity; [|by apply fades_dev, dev_serial]. etransitivity; [|apply fades_dead].
  etransitivity; [|apply fades_set_task; intros t; split; [done|split; [done|by left]]]. by apply fades_dev, dev_quarantine.
Qed.

Lemma fades_poll_faults n : forall k, fades k (poll_faults n k).
Proof.
  induction n as [|n IH]; intros k; cbn [poll_faults]; [done|]. pose proof (dev_iommu_fault k k ltac:(done)) as Hd.
  destruct (iommu_fault k) as [[[[source reason] address]|] k1]; cbn [snd] in Hd; [|by apply fades_dev].
  transitivity k1; [by apply fades_dev|]. etransitivity; [|apply IH]. etransitivity; [|apply fades_fault].
  apply fades_dev, dev_serial. by apply (dev_field k1 k1); try done; intros [].
Qed.

(** ** The scheduler decides *)

Definition live_count k : Z := countn (fun i => alive (task k i)) SF_MAX_TASKS.

Lemma alive_state t : alive t = true <-> t_state t = T_READY \/ t_state t = T_BLOCKED.
Proof. unfold alive, in_tstate. rewrite orb_true_iff, !bool_decide_eq_true. done. Qed.

Lemma live_count_dead ti st k : fixed k -> length (tasks k) = SF_MAX_TASKS -> (ti < SF_MAX_TASKS)%nat -> t_state (task k ti) = T_READY ->
  live_count (task_dead ti st k) < live_count k.
Proof.
  intros Hf Hl Hti Hr. destruct (fades_dead ti st k Hf) as [[_ F _] _]. apply (countn_lt _ _ _ ti); [done| | |].
  - destruct (alive _) eqn:E; [|done]. apply alive_state in E. rewrite (dead_is_dead ti st k) in E by (done || by rewrite Hl). naive_solver.
  - apply alive_state. by left.
  - intros j Hj. rewrite !alive_state. destruct (F j) as (_ & _ & [-> |[-> |[-> ->]]]); naive_solver.
Qed.

(** Nobody can run. *)
Definition none_ready k : Prop := forall i, (i < SF_MAX_TASKS)%nat -> t_state (task k i) = T_READY -> SF_PRIORITY_MAX < t_priority (task k i).

Lemma entry_task k i : length (tasks k) = SF_MAX_TASKS -> 0 <= i < Z.of_nat SF_MAX_TASKS ->
  entry (map sched_entry (tasks k)) i = sched_entry (task k (Z.to_nat i)).
Proof.
  intros Hl Hi. unfold entry, task. rewrite !list_lookup_total_alt, list_lookup_fmap.
  destruct (lookup_lt_is_Some_2 (tasks k) (Z.to_nat i)) as [t ->]; [lia|done].
Qed.

Lemma eligible_task t : sched_eligible (sched_entry t) = true <-> t_state t = T_READY /\ t_priority t <= SF_PRIORITY_MAX.
Proof. unfold sched_eligible, sched_entry, in_tstate. simpl. by rewrite andb_true_iff, bool_decide_eq_true, Z.leb_le. Qed.

(** What the scheduler needs of the state. *)
Record schedulable k : Prop := {
  sc_tasks : length (tasks k) = SF_MAX_TASKS; sc_current : -1 <= current k < Z.of_nat SF_MAX_TASKS; sc_fixed : fixed k
}.

Definition picked k : Z := sf_sched_pick (Some (map sched_entry (tasks k))) (Z.of_nat SF_MAX_TASKS) (current k) (ticks k).

Lemma picked_cases k : schedulable k ->
  (picked k = -1 /\ none_ready k) \/
  exists ti, (ti < SF_MAX_TASKS)%nat /\ picked k = Z.of_nat ti /\ t_state (task k ti) = T_READY.
Proof.
  intros [Hl Hc _]. destruct (sched_pick_cases (map sched_entry (tasks k)) (Z.of_nat SF_MAX_TASKS) (current k) (ticks k))
    as [[E Hn]|(Hr & He & _)]; [unfold SF_MAX_TASKS; lia|done| |]; fold (picked k) in *.
  - left. split; [done|]. intros i Hi Hs. specialize (Hn (Z.of_nat i) ltac:(lia)).
    rewrite entry_task, Nat2Z.id in Hn by (done || lia). destruct (Z.le_gt_cases (t_priority (task k i)) SF_PRIORITY_MAX); [|done].
    rewrite (proj2 (eligible_task (task k i))) in Hn by done. done.
  - right. exists (Z.to_nat (picked k)). rewrite entry_task in He by done. apply eligible_task in He as [Hs _].
    split; [lia|]. split; [lia|done].
Qed.

Lemma schedulable_dead ti st k : schedulable k -> schedulable (task_dead ti st k).
Proof. intros [Hl Hc Hf]. destruct (fades_dead ti st k Hf) as [[E1 _ [E3 _]] Hf']. constructor; [congruence|congruence|done]. Qed.

(** The state in which task [ti] gets the processor. *)
Record resumes k (ti : nat) : Prop := {
  re_slot : (ti < SF_MAX_TASKS)%nat; re_current : current k = Z.of_nat ti; re_ready : t_state (task k ti) = T_READY;
  re_stack : noncanonical (rsp (frame (task k ti))) = false; re_space : live_cr3 k = cr3 (task k ti)
}.

Lemma dispatch_resumes k ti : schedulable k -> (ti < SF_MAX_TASKS)%nat -> t_state (task k ti) = T_READY ->
  noncanonical (rsp (frame (task k ti))) = false ->
  let k' := arch_task ti (set_task ti (fun t => t <| t_ready_since := ticks k |>) (k <| current := Z.of_nat ti |>)) in
  schedulable k' /\ resumes k' ti.
Proof.
  intros [Hl Hc Hf] Hti Hr Hn. cbv zeta. set (k1 := set_task ti _ _).
  assert (E : task k1 ti = (task k ti) <| t_ready_since := ticks k |>) by (unfold k1; rewrite task_set_same by (simpl; lia); done).
  assert (E1 : current k1 = Z.of_nat ti) by done.
  assert (Hs : schedulable k1) by (constructor; [unfold k1; by rewrite length_set_task|lia|done]).
  clearbody k1. split; [by destruct Hs|]. constructor; try done; change (task (arch_task ti k1) ti) with (task k1 ti); by rewrite E.
Qed.

(** Task 1 asks to resume on an impossible stack. *)
Definition bad_first k : Prop :=
  exists ti, (ti < SF_MAX_TASKS)%nat /\ pid (task k ti) = 1 /\ noncanonical (rsp (frame (task k ti))) = true.

Lemma schedule_loop_decides n : forall k, schedulable k -> live_count k <= Z.of_nat n ->
  match schedule_loop n k with
  | Panic => bad_first k
  | Ret (Some ti, k') => schedulable k' /\ resumes k' ti
  | Ret (None, k') => schedulable k' /\ none_ready k'
  end.
Proof.
  induction n as [|n IH]; intros k Hk Hn; cbn [schedule_loop]; cbv zeta; fold (picked k).
  all: destruct (picked_cases k Hk) as [[-> Hno]|(ti & Hti & -> & Hr)]; [done|].
  all: destruct (Z.ltb_spec (Z.of_nat ti) 0); [lia|]; rewrite Nat2Z.id.
  all: destruct (noncanonical (rsp (frame (task k ti)))) eqn:Hc.
  all: pose proof Hk as [Hl Hcu Hf].
  1, 3: destruct (Z.eqb_spec (pid (task k ti)) 1); [by exists ti|].
  - pose proof (live_count_dead ti 0 k Hf Hl Hti Hr) as Hlt.
    pose proof (countn_nonneg (fun i => alive (task (task_dead ti 0 k) i)) SF_MAX_TASKS). unfold live_count in *. lia.
  - pose proof (live_count_dead ti (-113) k Hf Hl Hti Hr) as Hlt. specialize (IH _ (schedulable_dead ti (-113) k Hk) ltac:(lia)).
    destruct (fades_dead ti (-113) k Hf) as [[_ F _] _]. set (k1 := task_dead ti (-113) k) in *. clearbody k1.
    destruct (schedule_loop n k1) as [[[tj|] k2]|]; [done|done|]. destruct IH as (tj & Hj & Hp & Hb). destruct (F tj) as (E1 & E2 & _).
    exists tj. split; [done|]. by rewrite <-E1, <-E2.
  - by apply dispatch_resumes.
  - by apply dispatch_resumes.
Qed.

Lemma schedule_spec k : schedulable k ->
  match schedule k with
  | Panic => bad_first k
  | Ret (Some ti, k') => schedulable k' /\ resumes k' ti
  | Ret (None, k') => schedulable k' /\ none_ready k'
  end.
Proof.
  intros Hk. unfold schedule. cbv zeta. set (k1 := if _ : bool then _ else k).
  assert (H1 : schedulable k1 /\ forall ti, pid (task k1 ti) = pid (task k ti) /\ rsp (frame (task k1 ti)) = rsp (frame (task k ti))).
  { unfold k1. destruct (_ && _); [|done]. destruct Hk as [Hl Hc Hf]. split; [constructor; [by rewrite length_set_task|done|done]|].
    intros ti. rewrite task_set. case_decide as Hd; [|done]. by destruct Hd as [-> _]. }
  destruct H1 as [H1 E]. clearbody k1. pose proof (schedule_loop_decides SF_MAX_TASKS k1 H1 (countn_bound _ _)) as Hs.
  destruct (schedule_loop _ k1) as [[[ti|] k2]|]; [done|done|]. destruct Hs as (ti & Hti & Hp & Hb). exists ti.
  destruct (E ti) as [<- <-]. done.
Qed.


(** ** The machine *)

(** Registers that hold the arguments of a call. *)
Definition typed_frame (f : Frame) : Prop := 0 <= rax f /\ 0 <= rdi f /\ 0 <= rsi f /\ 0 <= rdx f.
Definition user_frame (f : Frame) : Prop := typed_frame f /\ Z.land (cs f) 3 <> 0.
Definition kernel_frame (f : Frame) : Prop := Z.land (cs f) 3 = 0.

(** While a program runs it writes where its page tables let it, and the
    device writes into the DMA arena. *)
Definition program_writes k (a : Z) : Prop := exists va, user_writes (memory k) (live_cr3 k) va a.

(** The task with the processor, or [None] while the kernel halts. *)
Definition state : Type := option nat * Kernel H.

Inductive machine_step : state -> state -> Prop :=
| MProgram ti k m h : (forall a, m a <> memory k a -> program_writes k a \/ dma_byte a) ->
    machine_step (Some ti, k) (Some ti, k <| memory := m |> <| hw := h |>)
| MDevice n k m h : (forall a, m a <> memory k a -> dma_byte a) -> machine_step (n, k) (n, k <| memory := m |> <| hw := h |>)
| MTrap ti k fuel f n k' : user_frame f -> interrupt_dispatch fuel f k = Ret (Scheduled n, k') -> machine_step (Some ti, k) (n, k')
| MWake k fuel f n k' : kernel_frame f -> idle_interrupt fuel f k = Ret (Scheduled n, k') -> machine_step (None, k) (n, k').

(** *** Interrupts *)

Definition ticked (f : Frame) k : Kernel H :=
  if vector f =? 32 then ipc_deadlines (outb_ 0x20 0x20 (k <| ticks := u64 (ticks k + 1) |>)) else k.
Definition received (fuel : nat) (f : Frame) k : Kernel H := if vector f =? 36 then console_irq fuel k else k.

Lemma evolves_ticked f k : evolves k (ticked f k).
Proof.
  unfold ticked. destruct (_ =? 32); [|done].
  transitivity (k <| ticks := u64 (ticks k + 1) |>); [by apply evolves_field|].
  set (k0 := k <| ticks := _ |>). clearbody k0.
  transitivity (outb_ 0x20 0x20 k0); [by apply evolves_dev, dev_outb|]. set (k1 := outb_ _ _ _). clearbody k1.
  intros Hf. split; [by apply steps_one, StepDeadlines|]. pose proof (ipcf_deadlines k1) as Hi. split; [by apply (fixed_ipc k1)|].
  by destruct Hi as [_ _ _ _ _ (? & _)].
Qed.

Lemma fades_ticked f k : fades k (ticked f k).
Proof.
  unfold ticked. destruct (_ =? 32); [|done].
  transitivity (k <| ticks := u64 (ticks k + 1) |>); [by apply fades_calm, (calm_field k k)|].
  set (k0 := k <| ticks := _ |>). clearbody k0.
  transitivity (outb_ 0x20 0x20 k0); [by apply fades_dev, dev_outb|]. apply fades_ipc, ipcf_deadlines.
Qed.

Lemma evolves_received fuel f k : evolves k (received fuel f k).
Proof. unfold received. destruct (_ =? 36); [by apply evolves_dev, dev_console_irq|done]. Qed.
Lemma fades_received fuel f k : fades k (received fuel f k).
Proof. unfold received. destruct (_ =? 36); [by apply fades_dev, dev_console_irq|done]. Qed.

Lemma evolves_schedulable k k' : ipc_inv k -> schedulable k -> evolves k k' -> schedulable k'.
Proof.
  intros Hi [Hl Hc Hf] He. destruct (He Hf) as (Hs & Hf' & Ec). constructor; [|by rewrite Ec|done].
  apply inv_tasks, (ipc_is_base none none), (ok_steps k k' Hi Hs).
Qed.

(** Where a run of the kernel ends up. *)
Record settled k (n : option nat) k' : Prop := {
  st_reaches : reaches k k'; st_schedulable : schedulable k'; st_resumes : forall ti, n = Some ti -> resumes k' ti
}.

Lemma settled_schedule k k1 r k' : ipc_inv k -> schedulable k -> evolves k k1 -> scheduled (schedule k1) = Ret (r, k') ->
  exists n, r = Scheduled n /\ settled k n k'.
Proof.
  intros Hi Hk He. pose proof (evolves_schedulable k k1 Hi Hk He) as H1. pose proof (schedule_spec k1 H1) as Hs.
  pose proof (reaches_schedule k1) as Hr. destruct (schedule k1) as [[n k2]|]; [|done]. intros [= <- <-]. exists n. split; [done|].
  assert (Hc : reaches k k2) by (etransitivity; [by apply evolves_reaches|by eapply Hr]).
  destruct n as [ti|]; destruct Hs as [Hs Hx]; constructor; try done. by intros ? [= <-].
Qed.

Lemma fades_state k k' ti : fades k k' -> fixed k -> t_state (task k ti) = T_READY \/ t_state (task k ti) = T_DEAD ->
  t_state (task k' ti) = T_READY \/ t_state (task k' ti) = T_DEAD.
Proof. intros Hs Hf Hr. destruct (Hs Hf) as [[_ F _] _]. destruct (F ti) as (_ & _ & [E|[E|[_ E]]]); rewrite E; auto. Qed.

(** The state in which a trap from user mode is handled. *)
Definition entered (fuel : nat) (f : Frame) (ti : nat) k : Kernel H :=
  device_poll (set_task ti (fun t => t <| frame := f |>) (arch_save ti (received fuel f (ticked f k)))).

Lemma evolves_entered fuel f ti k : evolves k (entered fuel f ti k).
Proof.
  unfold entered. transitivity (ticked f k); [apply evolves_ticked|]. transitivity (received fuel f (ticked f k)); [apply evolves_received|].
  set (k2 := received _ _ _). clearbody k2. transitivity (arch_save ti k2); [by apply evolves_set_task|].
  set (k3 := arch_save ti k2). clearbody k3. etransitivity; [|apply evolves_poll_faults]. by apply evolves_set_task.
Qed.

Lemma entered_state fuel f ti k : fixed k -> t_state (task k ti) = T_READY ->
  t_state (task (entered fuel f ti k) ti) = T_READY \/ t_state (task (entered fuel f ti k) ti) = T_DEAD.
Proof.
  intros Hf Hr. unfold entered. set (k1 := ticked f k). destruct (evolves_ticked f k Hf) as (_ & Hf1 & _). fold k1 in Hf1.
  destruct (evolves_received fuel f k1 Hf1) as (_ & Hf2 & _).
  pose proof (fades_state _ _ ti (fades_received fuel f k1) Hf1 (fades_state _ _ ti (fades_ticked f k) Hf (or_introl Hr))) as H2.
  set (k2 := received fuel f k1) in *. clearbody k2. apply (fades_state _ _ ti (fades_poll_faults 64 _)); [done|].
  unfold arch_save. rewrite !task_set. repeat case_decide; simpl; naive_solver.
Qed.

Lemma dispatch_settles fuel f k ti r k' : ipc_inv k -> schedulable k -> resumes k ti -> user_frame f ->
  interrupt_dispatch fuel f k = Ret (r, k') -> exists n, r = Scheduled n /\ settled k n k'.
Proof.
  intros Hi Hk [Hti Hc Hr _ _] [(_ & Ha & Hb & _) Hu]. unfold interrupt_dispatch. cbv zeta. fold (ticked f k). fold (received fuel f (ticked f k)).
  destruct (Z.eqb_spec (Z.land (cs f) 3) 0); [done|].
  assert (Ec : Z.to_nat (current (received fuel f (ticked f k))) = ti).
  { destruct (evolves_ticked f k (sc_fixed k Hk)) as (_ & Hf1 & E1). destruct (evolves_received fuel f _ Hf1) as (_ & _ & E2). rewrite E2, E1, Hc. lia. }
  rewrite Ec. fold (entered fuel f ti k). pose proof (evolves_entered fuel f ti k) as He.
  pose proof (entered_state fuel f ti k (sc_fixed k Hk) Hr) as Hst. pose proof (evolves_schedulable _ _ Hi Hk He) as Hk1.
  destruct (He (sc_fixed k Hk)) as (_ & _ & Ec1). set (k1 := entered fuel f ti k) in *. clearbody k1. rewrite Hc in Ec1.
  unfold in_tstate. case_bool_decide as Hd; [by apply settled_schedule|]. assert (Hr1 : t_state (task k1 ti) = T_READY) by tauto.
  destruct (vector f =? 128); [|destruct (vector f <? 32)].
  - destruct (syscall _ _ _ _ k1) as [[v k2]|] eqn:Es; [|done]. cbn [obind fst snd]. apply settled_schedule; [done|done|].
    etransitivity; [exact He|]. etransitivity; [|by apply evolves_set_task].
    apply (evolves_syscall _ _ _ _ _ _ _) in Es; [done| |done|done|]; rewrite Ec1, Nat2Z.id; done.
  - destruct (_ =? 1); [done|]. apply settled_schedule; [done|done|]. etransitivity; [exact He|]. etransitivity; [|apply evolves_dead].
    by apply evolves_dev, dev_serial.
  - by apply settled_schedule.
Qed.

Lemma wake_settles fuel f k r k' : ipc_inv k -> schedulable k -> kernel_frame f ->
  idle_interrupt fuel f k = Ret (r, k') -> exists n, r = Scheduled n /\ settled k n k'.
Proof.
  intros Hi Hk Hu. unfold idle_interrupt, interrupt_dispatch. cbv zeta. fold (ticked f k). fold (received fuel f (ticked f k)).
  rewrite (proj2 (Z.eqb_eq _ _) Hu). destruct (_ <? 32); [done|]. cbn [obind snd].
  assert (He : evolves k (received fuel f (ticked f k))) by (etransitivity; [apply evolves_ticked|apply evolves_received]).
  set (k1 := received _ _ _) in *. clearbody k1. pose proof (evolves_schedulable _ _ Hi Hk He) as H1.
  pose proof (schedule_loop_decides SF_MAX_TASKS k1 H1 (countn_bound _ _)) as Hs.
  pose proof (reaches_schedule_loop SF_MAX_TASKS k1) as Hr. destruct (schedule_loop _ k1) as [[n k2]|]; [|done].
  intros [= <- <-]. exists n. split; [done|].
  assert (Hc : reaches k k2) by (etransitivity; [by apply evolves_reaches|by eapply Hr]).
  destruct n as [ti|]; destruct Hs as [Hs Hx]; constructor; try done. by intros ? [= <-].
Qed.

(** *** Boot *)

(** The page tables the firmware leaves behind are outside the kernel. *)
Definition firmware_tables (m : mem) (root : Z) : Prop :=
  let p3 := frame_of (load64 m (slot64 root 0)) in
  let p2 := frame_of (load64 m (slot64 p3 3)) in
  apart (slot64 root 0) 8 guard 4096 /\ apart (slot64 p3 3) 8 guard 4096 /\ apart p2 4096 pool POOL_BYTES.

Lemma evolves_space_mmio_init base k : apart (frame_of (load64 (memory k) (slot64 (frame_of (load64 (memory k) (slot64 (live_cr3 k) 0))) 3))) 4096 pool POOL_BYTES ->
  evolves k (space_mmio_init base k).2.
Proof.
  intros Ha. unfold space_mmio_init. destruct (negb _); [done|]. cbv zeta. destruct (_ || _); [done|]. cbn [snd].
  intros [Hb _]. split; [|split; [split; [exact Hb|intros _; exact Ha]|done]]. by apply steps_env.
Qed.

Lemma dev_iommu_field k0 k f : (forall i, active_bdf (f i) = active_bdf i) -> dev_step k0 k -> dev_step k0 (k <| iommu ::= f |>).
Proof. intros Hf Hs. eapply dev_field; [..|exact Hs]; try done. intros [Ha _]. simpl. by rewrite Hf. Qed.

Lemma dev_start_unit base k : dev_step k (start_unit base k).
Proof.
  unfold start_unit. set (k1 := k <| iommu ::= _ |>). assert (H1 : dev_step k k1) by (by apply dev_iommu_field). clearbody k1. cbv zeta.
  pose proof (dev_r64 k k1 8 H1) as H2. destruct (r64 8 k1) as [c k2]. pose proof (dev_r64 k k2 16 H2) as H3. destruct (r64 16 k2) as [x k3].
  cbn [snd] in *. set (k4 := k3 <| iommu ::= _ |>). assert (H4 : dev_step k k4) by (by apply dev_iommu_field). clearbody k4.
  match goal with |- context [unit_busy c ?i ?f ?r k4] => assert (H5 : dev_step k (unit_busy c i f r k4).2) by (unfold unit_busy; dev_run);
    destruct (unit_busy c i f r k4) as [[] k5]; cbn [snd] in H5 end; [dev_run|].
  set (k6 := k5 <| memory ::= _ |>). assert (H6 : dev_step k k6).
  { apply dev_memory; [|done]. intros a Hx. apply write_apart; [|done]. rewrite zlen_fill by done. apply vtd_apart. }
  clearbody k6. dev_run.
Qed.

Lemma dev_quiesce k0 bdf k : dev_step k0 k -> dev_step k0 (quiesce bdf k).
Proof. intros Hs. unfold quiesce. dev_run. Qed.

Lemma config_read_same bdf off k : memory (config_read bdf off k).2 = memory k /\ live_cr3 (config_read bdf off k).2 = live_cr3 k.
Proof. unfold config_read, inl_. by destruct (inl _ _). Qed.

Lemma quiesce_same bdf k : memory (quiesce bdf k) = memory k /\ live_cr3 (quiesce bdf k) = live_cr3 k.
Proof.
  unfold quiesce. pose proof (config_read_same (Z.of_nat bdf) 0 k) as [E1 E2]. destruct (config_read _ 0 k) as [id k1]. cbn [snd] in *.
  destruct (_ =? UINT32_MAX); [done|]. pose proof (config_read_same (Z.of_nat bdf) 4 k1) as [E3 E4].
  destruct (config_read _ 4 k1) as [v k2]. cbn [snd] in *. rewrite <-E1, <-E2, <-E3, <-E4. by destruct (truthy _).
Qed.

(** Relations that contain device steps and the mapping of the unit's
    registers contain all of [device_init]. *)
Definition outside_pool k : Prop :=
  apart (frame_of (load64 (memory k) (slot64 (frame_of (load64 (memory k) (slot64 (live_cr3 k) 0))) 3))) 4096 pool POOL_BYTES.

Section Init.
Context (R : Kernel H -> Kernel H -> Prop) `{!PreOrder R}.
Hypothesis R_dev : forall k k', dev_step k k' -> R k k'.
Hypothesis R_mmio : forall base k, outside_pool k -> R k (space_mmio_init base k).2.

Lemma iommu_init_run b k : outside_pool k -> R k (iommu_init b k).
Proof.
  intros Ha. unfold iommu_init. destruct (sf_acpi_dmar _ _) as [r top].
  set (k1 := k <| iommu ::= _ |>). assert (H1 : R k k1) by (by apply R_dev, dev_iommu_field).
  destruct (_ =? SF_NOT_FOUND); [etransitivity; [exact H1|by apply R_dev, dev_serial]|]. cbv zeta.
  assert (H2 : R k (set_mode 2 k1)) by (etransitivity; [exact H1|by apply R_dev, dev_set_mode]).
  assert (Hx : outside_pool (set_mode 2 k1)) by exact Ha.
  set (k2 := set_mode 2 k1) in *. clearbody k2. clear k1 H1 Ha. set (w := if truthy r then _ else _).
  assert (H3 : R k w.2) by (unfold w; destruct (truthy r); [done|etransitivity; [exact H2|by apply R_mmio]]).
  clearbody w. destruct w as [e k3]. cbn [snd] in H3. etransitivity; [exact H3|]. apply R_dev.
  destruct (truthy e); [by apply dev_serial|apply dev_start_unit].
Qed.

Lemma device_init_run b k : firmware_tables (memory k) (live_cr3 k) -> R k (device_init b k).
Proof.
  intros (A1 & A2 & A3). unfold device_init. set (k1 := k <| memory ::= _ |>).
  assert (E : forall x, apart x 8 guard 4096 -> load64 (memory k1) x = load64 (memory k) x).
  { intros x Hx. apply load64_mwrite_other. rewrite zlen_fill by done. unfold apart in Hx. lia. }
  assert (H1 : R k k1).
  { apply R_dev, dev_memory; [|done]. intros a Ha. apply write_apart; [|done]. rewrite zlen_fill by done. apply guard_apart. }
  assert (El : live_cr3 k1 = live_cr3 k) by done. clearbody k1.
  assert (H2 : let k2 := loop 256 quiesce k1 in dev_step k1 k2 /\ memory k2 = memory k1 /\ live_cr3 k2 = live_cr3 k1).
  { cbv zeta. apply (loop_inv (fun _ k2 => dev_step k1 k2 /\ memory k2 = memory k1 /\ live_cr3 k2 = live_cr3 k1)); [done|].
    intros i k2 _ (D & <- & <-). destruct (quiesce_same i k2) as [-> ->]. split; [by apply dev_quiesce|done]. }
  destruct H2 as (D & E2 & E3). set (k2 := loop 256 quiesce k1) in *. clearbody k2.
  etransitivity; [exact H1|]. etransitivity; [by apply R_dev|]. apply iommu_init_run. unfold outside_pool.
  rewrite E2, E3, El, (E _ A1), (E _ A2). exact A3.
Qed.

End Init.

Lemma evolves_device_init b k : firmware_tables (memory k) (live_cr3 k) -> evolves k (device_init b k).
Proof. apply device_init_run; [apply _|apply evolves_dev|intros; by apply evolves_space_mmio_init]. Qed.

Lemma plan_typed_boot b : plan_typed (boot_plan b).
Proof. done. Qed.

Lemma dev_program_pic k : dev_step k (program_pic k).
Proof. unfold program_pic. cbn [foldl fst snd]. eauto 20 with dev. Qed.

(** The kernel starts on memory and hardware it knows nothing of, under the
    firmware's page tables. *)
Definition power_on (m : mem) (h : H) (root : Z) : Kernel H := (boot_kernel m h) <| live_cr3 := root |>.

Lemma boot_settles b m h root r k : firmware_tables m root -> kernel_main b (power_on m h root) = Ret (r, k) ->
  exists n, r = Scheduled n /\ ipc_steps (boot_kernel m h) k /\ schedulable k /\ forall ti, n = Some ti -> resumes k ti.
Proof.
  intros Hfw. unfold kernel_main. set (k1 := serial _ _). assert (Hi : ipc_inv (boot_kernel m h)) by apply boot_inv.
  assert (H0 : schedulable (boot_kernel m h)) by (constructor; [done|simpl; unfold SF_MAX_TASKS; lia|split; [by left|done]]).
  assert (H1 : evolves (boot_kernel m h) k1) by (by apply evolves_field).
  assert (Hfw1 : firmware_tables (memory k1) (live_cr3 k1)) by done. clearbody k1. cbv zeta.
  destruct (negb _); [done|]. destruct (negb _); [done|]. set (k2 := k1 <| bundle_phys := _ |> <| bundle_bytes := _ |>).
  assert (H2 : evolves (boot_kernel m h) k2) by (etransitivity; [exact H1|by apply evolves_field]).
  assert (Hfw2 : firmware_tables (memory k2) (live_cr3 k2)) by done. clearbody k2. clear H1 Hfw1.
  unfold require_features. destruct (_ =? _); [|done]. cbn [obind].
  assert (H3 : evolves (boot_kernel m h) (program_pic k2)) by (etransitivity; [exact H2|by apply evolves_dev, dev_program_pic]).
  assert (Hfw3 : firmware_tables (memory (program_pic k2)) (live_cr3 (program_pic k2))) by done.
  set (k3 := program_pic k2) in *. clearbody k3. clear H2 Hfw2.
  assert (H4 : evolves (boot_kernel m h) (device_init b k3)) by (etransitivity; [exact H3|by apply evolves_device_init]).
  set (k4 := device_init b k3) in *. clearbody k4. destruct (negb _); [done|]. unfold task_new.
  pose proof (evolves_task_new (boot_plan b) true SF_PAGE_LIMIT_MAX k4 (plan_typed_boot b) (or_introl eq_refl)) as H5.
  destruct (task_new_limited _ _ _ k4) as [x k5]. cbn [snd] in H5. destruct (negb _); [done|]. intros Hs.
  apply (settled_schedule (boot_kernel m h)) in Hs as (n & -> & [Hr Hk Hn]); [|done|done|].
  - exists n. split; [done|]. split; [|done]. by destruct (Hr (sc_fixed _ H0)).
  - etransitivity; [exact H4|]. etransitivity; [exact H5|]. by apply evolves_dev, dev_serial.
Qed.

(** ** Runs *)

(** The states of a machine that booted from [b]. *)
Inductive machine_runs (b : SfBootInfo) (m : mem) (h : H) (root : Z) : state -> Prop :=
| RunBoot n k : kernel_main b (power_on m h root) = Ret (Scheduled n, k) -> machine_runs b m h root (n, k)
| RunStep s s' : machine_runs b m h root s -> machine_step s s' -> machine_runs b m h root s'.

Lemma run_settled b m h root s : firmware_tables m root -> machine_runs b m h root s ->
  ipc_steps (boot_kernel m h) s.2 /\ schedulable s.2 /\ forall ti, s.1 = Some ti -> resumes s.2 ti.
Proof.
  intros Hfw Hr. induction Hr as [n k Hb|s s' _ IH Hs].
  - by apply boot_settles in Hb as (n' & [= ->] & ?).
  - destruct IH as (Hi & Hk & Hn). pose proof (ok_steps _ _ (boot_inv m h) Hi) as Hinv.
    assert (Hset : forall n k', settled s.2 n k' -> ipc_steps (boot_kernel m h) k' /\ schedulable k' /\ forall ti, n = Some ti -> resumes k' ti).
    { intros n k' [Hr Hk' Hn']. split; [|done]. destruct (Hr (sc_fixed _ Hk)). by eapply steps_trans. }
    destruct Hs as [ti k m' h' _|n k m' h' _|ti k fuel f n k' Hf Hd|k fuel f n k' Hf Hd]; cbn [fst snd] in *.
    + split; [|split; [by destruct Hk|intros ? [= <-]; by destruct (Hn ti eq_refl)]]. eapply StepsSnoc; [exact Hi|]. by apply StepEnv.
    + split; [|split; [by destruct Hk|intros tj E; by destruct (Hn tj E)]]. eapply StepsSnoc; [exact Hi|]. by apply StepEnv.
    + destruct (dispatch_settles fuel f k ti _ _ Hinv Hk (Hn ti eq_refl) Hf Hd) as (n' & [= ->] & Hst). by apply Hset.
    + destruct (wake_settles fuel f k _ _ Hinv Hk Hf Hd) as (n' & [= ->] & Hst). by apply Hset.
Qed.

End Run.
