(* ===== verification/SpaceRun.v ===== *)
(** * Tasks of the running machine

    The invariant of [SpaceKernel] holds in every state the machine reaches:
    tasks are apart from each other and from the page tables that say so, and
    only the first task can bring the kernel down. *)

From stdpp Require Import strings.
From S2P Require Import Prelude Bytes CMem Abi Sched Arguments Kernel Memory Space Ipc Acpi Iommu Device Core IpcInv IpcCalls IpcSafe SpaceInv KernelFrame SpaceKernel KernelSteps SpaceBuild SpaceMap SpaceTask KernelRun.

Section Spaces.
Context {H : Type} `{LO : LayoutOk} `{HW : Hardware H}.
Implicit Types (k : Kernel H).

(** ** Steps of the kernel *)

Definition keeps k k' : Prop := fixed k -> space_inv nobody k -> fixed k' /\ space_inv nobody k'.

#[export] Instance keeps_preorder : PreOrder keeps.
Proof. split; [intros k Hf Hi; done|]. intros k1 k2 k3 A B Hf Hi. destruct (A Hf Hi). by apply B. Qed.

Lemma keeps_dev k k' : dev_step k k' -> keeps k k'.
Proof. intros Hd Hf Hi. split; [by destruct (Hd Hf)|by apply (inv_dev _ k)]. Qed.

Lemma keeps_ipc k k' : ipc_frame k k' -> keeps k k'.
Proof. intros Hd Hf Hi. split; [by apply (fixed_ipc k)|by apply (inv_ipc _ k)]. Qed.

Lemma keeps_set_task k i f : (forall t, still_task t (f t)) -> keeps k (set_task i f k).
Proof. intros Hs Hf Hi. split; [done|]. by apply (inv_still _ k); [apply still_set_task|]. Qed.

Lemma keeps_field k k' : tasks k' = tasks k -> owner k' = owner k -> next_pid k' = next_pid k -> device_owner k' = device_owner k ->
  bundle_phys k' = bundle_phys k -> bundle_bytes k' = bundle_bytes k -> memory k' = memory k ->
  iommu k' = iommu k -> mmio_ready k' = mmio_ready k -> boot_mmio_pd k' = boot_mmio_pd k -> keeps k k'.
Proof.
  intros E1 E2 E3 E4 E5 E6 E7 E8 E9 E10 Hf Hi. split; [unfold fixed; by rewrite E8, E9, E10|]. by apply (inv_still _ k); [apply still_field|].
Qed.

Lemma keeps_dead ti st k : (ti < SF_MAX_TASKS)%nat -> keeps k (task_dead ti st k).
Proof.
  intros Hti Hf Hi. split; [by destruct (fades_dead ti st k Hf)|]. apply inv_task_dead; [done|done|by intros []|done].
Qed.

Lemma keeps_task_new p bootstrap pages k : plan_typed p -> 0 <= pages ->
  (bootstrap = true \/ t_state (task k (Z.to_nat (current k))) = T_READY) -> keeps k (task_new_limited p bootstrap pages k).2.
Proof.
  intros Hp Hg Hr Hf Hi. split; [by destruct (evolves_task_new p bootstrap pages k Hp Hr Hf) as (_ & ? & _)|].
  apply task_new_inv; [done|done|done|apply Hp].
Qed.

Lemma keeps_copy_out k t dst bs : alive (task k t) = true -> keeps k (copy_out t dst bs k).2.
Proof.
  intros Ha Hf Hi. split; [by destruct (calm_copy_out k k t dst bs ltac:(done) Hf) as [_ ?]|]. by apply inv_copy_out.
Qed.

(** *** Faults of the device *)

Lemma keeps_fault source k : keeps k (fault_task source k).
Proof.
  unfold fault_task. destruct (find_index _ _) as [i|] eqn:Ef; [|done]. apply find_index_Some in Ef as (Hi & _).
  pose proof (dev_release k k i ltac:(done)) as Hd. destruct (device_release i k) as [x k1]. cbn [snd] in Hd.
  transitivity k1; [by apply keeps_dev|]. clear Hd. etransitivity; [|by apply keeps_dev, dev_serial]. etransitivity; [|by apply keeps_dead].
  etransitivity; [by apply keeps_dev, dev_quarantine|]. by apply keeps_set_task.
Qed.

Lemma keeps_poll_faults n : forall k, keeps k (poll_faults n k).
Proof.
  induction n as [|n IH]; intros k; cbn [poll_faults]; [done|]. pose proof (dev_iommu_fault k k ltac:(done)) as Hd.
  destruct (iommu_fault k) as [[[[source reason] address]|] k1]; cbn [snd] in Hd; [|by apply keeps_dev].
  transitivity k1; [by apply keeps_dev|]. etransitivity; [|apply IH]. etransitivity; [|apply keeps_fault].
  apply keeps_dev, dev_serial. by apply (dev_field k1 k1); try done; intros [].
Qed.

(** *** System calls *)

Lemma inv_limit i b k : space_inv nobody k -> page_count (task k i) <= b <= SF_PAGE_LIMIT_MAX ->
  space_inv nobody (set_task i (fun t => t <| page_limit := b |>) k).
Proof.
  intros Hi Hb. set (k' := set_task i _ k).
  assert (Et : forall ti, task k' ti = task k ti \/ ti = i /\ task k' ti = (task k ti) <| page_limit := b |>).
  { intros ti. unfold k'. rewrite task_set. case_decide as Hd; [right; destruct Hd as [-> _]; done|by left]. }
  assert (Es : forall ti, pid (task k' ti) = pid (task k ti) /\ cr3 (task k' ti) = cr3 (task k ti) /\ page_count (task k' ti) = page_count (task k ti) /\
    t_state (task k' ti) = t_state (task k ti) /\ recv_buffer (task k' ti) = recv_buffer (task k ti)).
  { intros ti. by destruct (Et ti) as [->|[_ ->]]. }
  assert (Ea : forall ti, here nobody k' ti <-> here nobody k ti).
  { intros ti. unfold here, alive, in_tstate. by destruct (Es ti) as (_ & _ & _ & -> & _). }
  pose proof Hi as [I1 I2 I3 I4 I5 I6 I0 I7 I8 I9 I10 I11]. constructor; try done.
  - unfold k'. by rewrite length_set_task.
  - intros ti. destruct (Es ti) as (-> & _). apply I4.
  - intros ti tj. destruct (Es ti) as (-> & _), (Es tj) as (-> & _). apply I5.
  - intros ti. rewrite Ea. destruct (Es ti) as (-> & _). apply I6.
  - intros ti. destruct (Es ti) as (-> & _ & _ & -> & _). apply I0.
  - intros j. destruct (I7 j) as [|(ti & Hti & Ho)]; [by left|]. right. exists ti. rewrite Ea. by destruct (Es ti) as (-> & _).
  - intros ti Hti. rewrite Ea in Hti. destruct (I8 ti Hti) as [C1 C2]. destruct (Es ti) as (-> & _ & -> & _).
    split; [exact C1|]. destruct (Et ti) as [->|[-> ->]]; [done|]. exact Hb.
  - intros ti Ha. assert (Ha' : alive (task k ti) = true) by (unfold alive, in_tstate in *; by destruct (Es ti) as (_ & _ & _ & <- & _)).
    destruct (I9 ti Ha') as (T & Hs & Hr). exists T. destruct (Es ti) as (-> & Ec & _ & -> & ->). rewrite Ec.
    assert (Hs' : space k' (pid (task k ti)) (cr3 (task k ti)) T) by (by apply (space_frame k)). split; [done|]. intros Hb'.
    rewrite (user_range_frame k k' (pid (task k ti)) ti T); auto. done.
  - destruct I10 as [|(ti & Hti & E)]; [by left|]. right. exists ti. rewrite Ea. by destruct (Es ti) as (-> & _).
Qed.

Lemma keeps_copy_dev k k1 ti dst bs : t_state (task k ti) = T_READY -> dev_step k k1 -> keeps k (copy_out ti dst bs k1).2.
Proof.
  intros Hr Hd Hf Hi. destruct (Hd Hf) as [F Hf1]. apply keeps_copy_out; [|done|by apply (inv_still _ k); [apply still_framed|]].
  apply alive_state_ready. by destruct (fr_task _ _ F ti) as (? & ? & ? & ? & ->).
Qed.

Lemma keeps_ipc_syscall call a b c k r k' : (Z.to_nat (current k) < SF_MAX_TASKS)%nat -> 0 <= a ->
  t_state (task k (Z.to_nat (current k))) = T_READY -> ipc_syscall call a b c k = Ret (r, k') -> keeps k k'.
Proof.
  intros Hti Ha Hst E Hf Hi. destruct (evolves_ipc_syscall call a b c k r k' Hti Ha Hst E Hf) as (_ & Hf' & _). split; [done|].
  destruct (inv_ipc_syscall nobody call a b c k Hst Hi) as (r' & k'' & E' & Hi'). congruence.
Qed.

Lemma keeps_syscall call a b c k r k' : (Z.to_nat (current k) < SF_MAX_TASKS)%nat -> 0 <= a -> 0 <= b ->
  t_state (task k (Z.to_nat (current k))) = T_READY -> syscall call a b c k = Ret (r, k') -> keeps k k'.
Proof.
  apply syscall_run; try (intros; by apply keeps_set_task).
  - apply _.
  - apply keeps_dev.
  - intros. by apply keeps_dead.
  - intros i b0 k0 Hb Hf Hi. split; [done|by apply inv_limit].
  - apply keeps_copy_dev.
  - intros. by apply keeps_task_new; [| |right].
  - apply keeps_ipc_syscall.
Qed.

(** *** Scheduling and interrupts *)

Lemma keeps_arch_task ti k : keeps k (arch_task ti k).
Proof. by apply keeps_field. Qed.

Lemma keeps_schedule_loop n : forall k r k', schedulable k -> schedule_loop n k = Ret (r, k') -> keeps k k'.
Proof.
  assert (Hgo : forall k ti i, keeps k (arch_task ti (set_task ti (fun t => t <| t_ready_since := ticks k |>) (k <| current := i |>)))).
  { intros k ti i. transitivity (k <| current := i |>); [by apply keeps_field|]. set (k1 := k <| current := i |>).
    change (ticks k) with (ticks k1). clearbody k1. etransitivity; [|apply keeps_arch_task]. by apply keeps_set_task. }
  induction n as [|n IH]; intros k r k' Hk; cbn [schedule_loop]; cbv zeta; fold (picked k).
  all: destruct (picked_cases k Hk) as [[-> _]|(ti & Hti & -> & Hr)]; [by intros [= <- <-]|].
  all: destruct (Z.ltb_spec (Z.of_nat ti) 0); [lia|]; rewrite Nat2Z.id.
  all: destruct (noncanonical (rsp (frame (task k ti)))); [destruct (pid (task k ti) =? 1); [done|]|].
  - by intros [= <- <-].
  - intros [= <- <-]. apply Hgo.
  - intros E. etransitivity; [by apply (keeps_dead ti (-113))|]. by eapply IH; [apply schedulable_dead|].
  - intros [= <- <-]. apply Hgo.
Qed.

Lemma schedulable_noted ti k : schedulable k -> schedulable (set_task ti (fun t => t <| t_ready_since := ticks k |>) k).
Proof. intros [Hl Hc Hf]. constructor; [by rewrite length_set_task|done|done]. Qed.

Lemma keeps_schedule k r k' : schedulable k -> schedule k = Ret (r, k') -> keeps k k'.
Proof.
  intros Hk. unfold schedule. cbv zeta. destruct (_ && _); [|by apply keeps_schedule_loop]. intros E.
  etransitivity; [|by eapply keeps_schedule_loop, E; apply schedulable_noted]. by apply keeps_set_task.
Qed.

Lemma keeps_scheduled k r k' : schedulable k -> scheduled (schedule k) = Ret (r, k') -> keeps k k'.
Proof.
  intros Hk. destruct (schedule k) as [[n k2]|] eqn:E; [|done]. intros [= <- <-]. by apply (keeps_schedule k n).
Qed.

Lemma keeps_ticked f k : keeps k (ticked f k).
Proof.
  unfold ticked. destruct (_ =? 32); [|done]. transitivity (k <| ticks := u64 (ticks k + 1) |>); [by apply keeps_field|].
  set (k0 := k <| ticks := _ |>). clearbody k0. transitivity (outb_ 0x20 0x20 k0); [by apply keeps_dev, dev_outb|]. apply keeps_ipc, ipcf_deadlines.
Qed.

Lemma keeps_received fuel f k : keeps k (received fuel f k).
Proof. unfold received. destruct (_ =? 36); [by apply keeps_dev, dev_console_irq|done]. Qed.

Lemma keeps_entered fuel f ti k : keeps k (entered fuel f ti k).
Proof.
  unfold entered. transitivity (ticked f k); [apply keeps_ticked|]. transitivity (received fuel f (ticked f k)); [apply keeps_received|].
  set (k2 := received _ _ _). clearbody k2. transitivity (arch_save ti k2); [by apply keeps_set_task|].
  set (k3 := arch_save ti k2). clearbody k3. etransitivity; [|apply keeps_poll_faults]. by apply keeps_set_task.
Qed.

(** The dispatch of a trap from task [ti], by cases. *)
Lemma dispatch_user fuel f k ti : fixed k -> current k = Z.of_nat ti -> user_frame f ->
  interrupt_dispatch fuel f k =
  (let k1 := entered fuel f ti k in
   if in_tstate (task k1 ti) T_DEAD then scheduled (schedule k1)
   else if vector f =? 128 then
     let* rk := syscall (rax f) (rdi f) (rsi f) (rdx f) k1 in
     scheduled (schedule (set_task ti (fun t => t <| frame ::= fun f => f <| rax := u64 rk.1 |> |>) rk.2))
   else if vector f <? 32 then
     if pid (task k1 ti) =? 1 then Panic
     else scheduled (schedule (task_dead ti (-100 - vector f) (serial (txt "[CORE] isolated user fault") k1)))
   else scheduled (schedule k1)).
Proof.
  intros Hf Hc [_ Hu]. unfold interrupt_dispatch. cbv zeta. fold (ticked f k). fold (received fuel f (ticked f k)).
  destruct (Z.eqb_spec (Z.land (cs f) 3) 0); [done|].
  assert (Ec : Z.to_nat (current (received fuel f (ticked f k))) = ti).
  { destruct (evolves_ticked f k Hf) as (_ & Hf1 & E1). destruct (evolves_received fuel f _ Hf1) as (_ & _ & E2). rewrite E2, E1, Hc. lia. }
  rewrite Ec. by fold (entered fuel f ti k).
Qed.

Lemma keeps_dispatch fuel f k ti r k' : ipc_inv k -> schedulable k -> resumes k ti -> user_frame f ->
  interrupt_dispatch fuel f k = Ret (r, k') -> keeps k k'.
Proof.
  intros Hi Hk [Hti Hc Hr _ _] Hu. rewrite (dispatch_user fuel f k ti (sc_fixed k Hk) Hc Hu). destruct Hu as [(_ & Ha & Hb & _) Hu]. cbv zeta.
  pose proof (evolves_entered fuel f ti k) as He. pose proof (entered_state fuel f ti k (sc_fixed k Hk) Hr) as Hst.
  pose proof (evolves_schedulable _ _ Hi Hk He) as Hk1. destruct (He (sc_fixed k Hk)) as (Hs1 & _ & Ec1).
  pose proof (ok_steps _ _ Hi Hs1) as Hi1. pose proof (keeps_entered fuel f ti k) as H1.
  set (k1 := entered fuel f ti k) in *. clearbody k1. rewrite Hc in Ec1.
  unfold in_tstate. case_bool_decide as Hd; [intros E; transitivity k1; [done|by apply (keeps_scheduled _ r)]|]. assert (Hr1 : t_state (task k1 ti) = T_READY) by tauto.
  destruct (vector f =? 128); [|destruct (vector f <? 32)].
  - destruct (syscall _ _ _ _ k1) as [[v k2]|] eqn:Es; [|done]. cbn [obind fst snd]. intros E. transitivity k1; [done|].
    assert (He2 : evolves k1 k2) by (apply (evolves_syscall _ _ _ _ _ _ _) in Es; [done| |done|done|]; rewrite Ec1, Nat2Z.id; done).
    transitivity k2; [apply (keeps_syscall _ _ _ _ _ _ _) in Es; [done| |done|done|]; rewrite Ec1, Nat2Z.id; done|].
    etransitivity; [|apply (keeps_scheduled _ r); [|exact E]]; [by apply keeps_set_task|].
    apply (evolves_schedulable k1); [done|done|]. etransitivity; [exact He2|by apply evolves_set_task].
  - destruct (_ =? 1); [done|]. intros E. transitivity k1; [done|].
    etransitivity; [by apply keeps_dev, (dev_serial k1 k1 (txt "[CORE] isolated user fault"))|].
    etransitivity; [by apply (keeps_dead ti (-100 - vector f))|]. apply (keeps_scheduled _ r); [|done].
    apply schedulable_dead. by destruct Hk1.
  - intros E. transitivity k1; [done|by apply (keeps_scheduled _ r)].
Qed.

Lemma keeps_wake fuel f k r k' : ipc_inv k -> schedulable k -> kernel_frame f -> idle_interrupt fuel f k = Ret (r, k') -> keeps k k'.
Proof.
  intros Hi Hk Hu. unfold idle_interrupt, interrupt_dispatch. cbv zeta. fold (ticked f k). fold (received fuel f (ticked f k)).
  rewrite (proj2 (Z.eqb_eq _ _) Hu). destruct (_ <? 32); [done|]. cbn [obind snd].
  assert (He : evolves k (received fuel f (ticked f k))) by (etransitivity; [apply evolves_ticked|apply evolves_received]).
  assert (H1 : keeps k (received fuel f (ticked f k))) by (etransitivity; [apply keeps_ticked|apply keeps_received]).
  set (k1 := received _ _ _) in *. clearbody k1. pose proof (evolves_schedulable _ _ Hi Hk He) as Hk1.
  destruct (schedule_loop _ k1) as [[n k2]|] eqn:E; [|done]. intros [= <- <-]. transitivity k1; [done|]. by apply (keeps_schedule_loop _ _ _ _ Hk1 E).
Qed.

(** ** Boot *)

(** The loader puts the bundle outside the pool and the DMA arena. *)
Definition bundle_apart (b : SfBootInfo) : Prop :=
  0 <= bi_bundle b /\ 0 <= bi_bundle_bytes b /\ apart (bi_bundle b) (bi_bundle_bytes b + 4095) pool POOL_BYTES /\ apart (bi_bundle b) (bi_bundle_bytes b + 4095) dma SF_DMA_BYTES.

(** No task exists yet. *)
Lemma inv_fresh k : tasks k = replicate SF_MAX_TASKS zero_task -> owner k = replicate POOL_PAGES 0 -> next_pid k = 1 -> device_owner k = 0 ->
  0 <= bundle_bytes k -> 0 <= bundle_phys k -> bundle_phys k + bundle_bytes k <= 0x40000000 ->
  apart (bundle_phys k) (bundle_bytes k + 4095) pool POOL_BYTES -> apart (bundle_phys k) (bundle_bytes k + 4095) dma SF_DMA_BYTES -> space_inv nobody k.
Proof.
  intros Et Eo En Ed B1 B2 B3 B4 B5.
  assert (Hz : forall ti, task k ti = zero_task \/ task k ti = inhabitant).
  { intros ti. unfold task. rewrite Et, list_lookup_total_alt. destruct (replicate SF_MAX_TASKS zero_task !! ti) as [t|] eqn:E; [|by right].
    apply lookup_replicate in E as [-> _]. by left. }
  assert (Hp : forall ti, pid (task k ti) = 0 /\ alive (task k ti) = false) by (intros ti; by destruct (Hz ti) as [->| ->]).
  assert (Hh : forall ti, ~ here nobody k ti) by (intros ti [Ha|[]]; destruct (Hp ti); congruence).
  assert (Hn : forall j, nth j (owner k) 0 = 0) by (intros j; rewrite Eo; destruct (nth_lookup_or_length (replicate POOL_PAGES 0) j 0) as [E|E]; [by apply lookup_replicate in E as [-> _]|by apply nth_overflow]).
  constructor; try done.
  - by rewrite Et, length_replicate.
  - by rewrite Eo, length_replicate.
  - rewrite En. unfold SF_PID_MAX. lia.
  - intros ti. destruct (Hp ti) as [-> _]. rewrite En. lia.
  - intros ti tj. by destruct (Hp ti) as [-> _].
  - intros ti Hti. by destruct (Hh ti).
  - intros ti _. left. apply Hp.
  - intros j. by left.
  - intros ti Hti. by destruct (Hh ti).
  - intros ti Ha. destruct (Hp ti). congruence.
  - by left.
Qed.

Lemma keeps_space_mmio_init base k :
  outside_pool k -> keeps k (space_mmio_init base k).2.
Proof.
  intros Ha Hf Hi. split; [by destruct (evolves_space_mmio_init base k Ha Hf) as (_ & ? & _)|]. unfold outside_pool in Ha. unfold space_mmio_init.
  destruct (negb _); [done|]. cbv zeta. destruct (_ || _); [done|]. cbn [snd]. apply (inv_still _ k); [|done].
  constructor; try done; try (intros; apply still_task_refl). intros a Hx. pose proof mmio_pd_apart. pose proof mmio_pt_apart. cbn.
  unfold frame_of in Ha. rewrite !store_apart; [done|done|apply land_511|done|done|apply land_511|done|done|apply land_511|done].
Qed.

Lemma keeps_device_init b k : firmware_tables (memory k) (live_cr3 k) -> keeps k (device_init b k).
Proof. apply device_init_run; [apply _|apply keeps_dev|intros; by apply keeps_space_mmio_init]. Qed.

Lemma keeps_program_pic k : keeps k (program_pic k).
Proof. apply keeps_dev, dev_program_pic. Qed.

(** Boot comes to the creation of the first task, or panics. *)
Lemma boot_creates b m h root r k : firmware_tables m root -> bundle_apart b -> kernel_main b (power_on m h root) = Ret (r, k) ->
  exists k4, evolves (boot_kernel m h) k4 /\ fixed k4 /\ space_inv nobody k4 /\ (task_new (boot_plan b) true k4).1 = 1 /\
    scheduled (schedule (serial (txt "[CORE] entering isolated sf-init.sfmod, timer=100Hz") (task_new (boot_plan b) true k4).2)) = Ret (r, k).
Proof.
  intros Hfw (Hb0 & Hbb & Hb1 & Hb2). unfold kernel_main. set (k1 := serial _ _).
  assert (H0 : fixed (boot_kernel m h)) by (split; [by left|done]).
  assert (H1 : evolves (boot_kernel m h) k1) by (by apply evolves_field).
  assert (Hfw1 : firmware_tables (memory k1) (live_cr3 k1)) by done. cbv zeta.
  destruct (boot_info_ok b && bundle_ok b && map_ok b) eqn:Eok; [|done]. cbn [negb]. destruct (negb _); [done|].
  set (k2 := k1 <| bundle_phys := _ |> <| bundle_bytes := _ |>).
  assert (S2 : space_inv nobody k2).
  { apply andb_prop in Eok as [Eok _]. apply andb_prop in Eok as [_ Eok]. unfold bundle_ok in Eok. repeat (apply andb_prop in Eok as [Eok ?]).
    apply inv_fresh; try done; cbn; unfold apart in *; lia. }
  assert (H2 : evolves (boot_kernel m h) k2) by (etransitivity; [exact H1|by apply evolves_field]).
  assert (Hfw2 : firmware_tables (memory k2) (live_cr3 k2)) by done. clearbody k2. clear H1 Hfw1. clearbody k1. clear Eok.
  unfold require_features. destruct (_ =? _); [|done]. cbn [obind].
  assert (H3 : evolves (boot_kernel m h) (program_pic k2)) by (etransitivity; [exact H2|by apply evolves_dev, dev_program_pic]).
  assert (Hfw3 : firmware_tables (memory (program_pic k2)) (live_cr3 (program_pic k2))) by done.
  destruct (H2 H0) as (_ & F2 & _). destruct (keeps_program_pic k2 F2 S2) as [F3 S3].
  set (k3 := program_pic k2) in *. clearbody k3. clear H2 Hfw2.
  assert (H4 : evolves (boot_kernel m h) (device_init b k3)) by (etransitivity; [exact H3|by apply evolves_device_init]).
  destruct (keeps_device_init b k3 Hfw3 F3 S3) as [F4 S4].
  set (k4 := device_init b k3) in *. clearbody k4. destruct (negb _); [done|]. intros Hs. exists k4. revert Hs.
  destruct (task_new (boot_plan b) true k4) as [x k5]. destruct (Z.eqb_spec x 1) as [->|]; cbn [negb]; [|discriminate]. intros Hs. cbn [fst snd].
  exact (conj H4 (conj F4 (conj S4 (conj eq_refl Hs)))).
Qed.

Lemma boot_spaces b m h root r k : firmware_tables m root -> bundle_apart b -> kernel_main b (power_on m h root) = Ret (r, k) -> space_inv nobody k.
Proof.
  intros Hfw Hb Hk. destruct (boot_creates b m h root r k Hfw Hb Hk) as (k4 & H4 & F4 & S4 & _ & Hs).
  assert (Hi : ipc_inv (boot_kernel m h)) by apply boot_inv.
  assert (H0 : schedulable (boot_kernel m h)) by (constructor; [done|simpl; unfold SF_MAX_TASKS; lia|split; [by left|done]]).
  pose proof (evolves_task_new (boot_plan b) true SF_PAGE_LIMIT_MAX k4 (plan_typed_boot b) (or_introl eq_refl)) as H5.
  destruct (keeps_task_new (boot_plan b) true SF_PAGE_LIMIT_MAX k4 (plan_typed_boot b) ltac:(done) (or_introl eq_refl) F4 S4) as [F5 S5].
  unfold task_new in Hs. set (k5 := (task_new_limited _ _ _ k4).2) in *. clearbody k5. set (k6 := serial _ k5) in *.
  assert (H6 : evolves (boot_kernel m h) k6).
  { etransitivity; [exact H4|]. etransitivity; [exact H5|]. by apply evolves_dev, dev_serial. }
  destruct (keeps_dev k5 k6 ltac:(by apply dev_serial) F5 S5) as [F6 S6]. clearbody k6.
  by destruct (keeps_scheduled k6 r k (evolves_schedulable _ _ Hi H0 H6) Hs F6 S6).
Qed.

(** ** Runs *)

(** A program that runs writes to its own pages, or to the device it owns. *)
Lemma program_wrote k ti m h : space_inv nobody k -> resumes k ti ->
  (forall a, m a <> memory k a -> program_writes k a \/ dma_byte a) -> space_inv nobody (k <| memory := m |> <| hw := h |>).
Proof.
  intros Hi [_ _ Hr _ Ec] Hm. pose proof (alive_state_ready _ Hr) as Ha. destruct (si_space _ _ Hi ti Ha) as (T & Hs & _).
  apply (inv_wrote nobody k _ (pid (task k ti)) T); try done.
  - apply (si_exists _ _ Hi). by left.
  - constructor; try done. intros a E. cbn in E. destruct (Hm a E) as [(va & Hw)|Hd]; [|by right; left]. rewrite Ec in Hw.
    assert (Hrd : user_reads (memory k) (cr3 (task k ti)) va a) by (destruct Hw as (es & ? & ? & _); by exists es).
    destruct (user_target k _ _ T va a Hs Hrd) as [?|[[_ ?]|[_ Hno]]]; [by left|by right|done].
  - intros tj Hj E. by rewrite (si_unique _ _ Hi tj ti E) by (apply (si_exists _ _ Hi); by left).
Qed.

Lemma device_wrote k m h : space_inv nobody k -> (forall a, m a <> memory k a -> dma_byte a) -> space_inv nobody (k <| memory := m |> <| hw := h |>).
Proof.
  intros Hi Hm. apply (inv_still _ k); [|done]. constructor; try done; try (intros; apply still_task_refl). intros a Hx. cbn.
  destruct (Z.eq_dec (m a) (memory k a)) as [|E]; [done|]. exfalso. apply (device_not_pool a); [left; by apply Hm|done].
Qed.

Lemma run_spaces b m h root s : firmware_tables m root -> bundle_apart b -> machine_runs b m h root s -> space_inv nobody s.2.
Proof.
  intros Hfw Hb Hr. induction Hr as [n k Hk|s s' Hrun IH Hs]; [by apply (boot_spaces b m h root (Scheduled n))|].
  destruct (run_settled b m h root s Hfw Hrun) as (Hsteps & Hk & Hn). pose proof (ok_steps _ _ (boot_inv m h) Hsteps) as Hinv.
  destruct Hs as [ti k m' h' Hm|n k m' h' Hm|ti k fuel f n k' Hf Hd|k fuel f n k' Hf Hd]; cbn [fst snd] in *.
  - apply (program_wrote k ti); auto.
  - by apply device_wrote.
  - by destruct (keeps_dispatch fuel f k ti _ _ Hinv Hk (Hn ti eq_refl) Hf Hd (sc_fixed _ Hk) IH).
  - by destruct (keeps_wake fuel f k _ _ Hinv Hk Hf Hd (sc_fixed _ Hk) IH).
Qed.

End Spaces.
