(* ===== verification/Isolation.v ===== *)
(** * Isolation

    What the machine of [KernelRun] promises its tasks, in every state it can
    reach: memory that one task can write is invisible to the others, no task
    can change a translation, no page is writable and executable, pages are
    accounted for exactly, and only the first task can stop the kernel. *)

From S2P Require Import Prelude Bytes CMem Abi Sched Arguments Kernel Memory Space Ipc Acpi Iommu Device Core IpcInv IpcCalls IpcSafe SpaceInv KernelFrame SpaceKernel KernelSteps SpaceBuild SpaceMap SpaceTask KernelRun SpaceRun.

Section Isolation.
Context {H : Type} `{LO : LayoutOk} `{HW : Hardware H}.
Implicit Types (k : Kernel H).

(** ** Apart *)

(** The memory a task can read: its own pages, the device if it is the
    driver, and the bundle, which it cannot write. *)
Lemma reads_of k ti va a : space_inv nobody k -> alive (task k ti) = true -> user_reads (memory k) (cr3 (task k ti)) va a ->
  (exists j, (j < POOL_PAGES)%nat /\ owned k (pid (task k ti)) j /\ pool_page j <= a < pool_page j + 4096) \/
  (device_owner k = pid (task k ti) /\ device_byte a) \/
  (bundle_phys k <= a < bundle_phys k + bundle_bytes k + 4095 /\ ~ user_writes (memory k) (cr3 (task k ti)) va a).
Proof.
  intros Hi Ha Hr. destruct (si_space _ _ Hi ti Ha) as (T & Hs & _).
  destruct (user_target k _ _ T va a Hs Hr) as [(j & Hj & Ho & _ & Hx)|[?|?]]; [left; by exists j|by right; left|by right; right].
Qed.

Lemma writes_read m root va a : user_writes m root va a -> user_reads m root va a.
Proof. intros (es & ? & ? & _). by exists es. Qed.

Lemma bundle_not_device k a : space_inv nobody k -> bundle_phys k <= a < bundle_phys k + bundle_bytes k + 4095 -> device_byte a -> False.
Proof.
  intros Hi Ha Hd. destruct (si_bundle _ _ Hi) as (B1 & B2 & B3 & _ & B5). unfold apart, device_byte, dma_byte in *. lia.
Qed.

Lemma bundle_not_pool k j a : space_inv nobody k -> (j < POOL_PAGES)%nat -> pool_page j <= a < pool_page j + 4096 ->
  bundle_phys k <= a < bundle_phys k + bundle_bytes k + 4095 -> False.
Proof.
  intros Hi Hj Hp Ha. destruct (si_bundle _ _ Hi) as (B1 & B2 & B3 & B4 & _). pose proof (page_in_pool j a Hj Hp). unfold apart in *. lia.
Qed.

Lemma spaces_apart k ti tj va vb a : space_inv nobody k -> alive (task k ti) = true -> alive (task k tj) = true -> ti <> tj ->
  user_writes (memory k) (cr3 (task k ti)) va a -> user_reads (memory k) (cr3 (task k tj)) vb a -> False.
Proof.
  intros Hi Hai Haj Hne Hw Hr. assert (Hp : pid (task k ti) <> pid (task k tj)).
  { intros E. apply Hne, (si_unique _ _ Hi); [done|]. apply (si_exists _ _ Hi). by left. }
  destruct (reads_of k ti va a Hi Hai (writes_read _ _ _ _ Hw)) as [(i & Hi' & Oi & Xi)|[[Di Xi]|[_ ?]]]; [| |done];
    destruct (reads_of k tj vb a Hi Haj Hr) as [(j & Hj & Oj & Xj)|[[Dj Xj]|[Xj _]]].
  - rewrite (pool_page_unique i j a Xi Xj) in Oi. unfold owned in *. congruence.
  - by apply (device_not_pool a Xj), (page_in_pool i).
  - by apply (bundle_not_pool k i a).
  - by apply (device_not_pool a Xi), (page_in_pool j).
  - congruence.
  - by apply (bundle_not_device k a).
Qed.

(** ** Translations *)

(** A user access goes through the tables of the tree. *)
Lemma walk_tree k p root T va a es : space k p root T -> walk (memory k) root va = Some (a, es) /\ forallb user_bit es = true <->
  level va 3 = 0 /\ level va 2 = 1 /\ exists j2 j1, t2 T = Some j2 /\ t1 T (Z.to_nat (level va 1)) = Some j1 /\
    let e := load64 (memory k) (slot64 (pool_page j1) (level va 0)) in
    present e = true /\ user_bit e = true /\ a = in_page e va 12 /\
    es = [opt_entry (Some (t3 T)); opt_entry (Some j2); opt_entry (Some j1); e].
Proof.
  intros Hs. unfold walk. assert (Hl : forall n, 0 <= level va n < 512) by (intros; apply land_511).
  pose proof (Hl 3) as H3. pose proof (Hl 2) as H2. pose proof (Hl 1) as H1. pose proof (Hl 0) as H0. destruct kernel_not_user as [N1 N2].
  assert (Ht : forall j, in_tables T j -> present (opt_entry (Some j)) = true /\ frame_of (opt_entry (Some j)) = pool_page j /\ user_bit (opt_entry (Some j)) = true).
  { intros j Hj. destruct (pool_page_entry j) as (? & ? & _); [by apply (sp_owned _ _ _ _ Hs)|]. split; [done|]. split; [done|].
    apply (aligned_low_bits (pool_page j) 7 2); [apply pool_page_aligned|lia]. }
  rewrite (sp_root _ _ _ _ Hs), (sp_l4 _ _ _ _ Hs) by done. destruct (Z.eqb_spec (level va 3) 0) as [E3|E3]; [|split; [intros [? _]; done|tauto]].
  change (Z.lor (pool_page (t3 T)) 7) with (opt_entry (Some (t3 T))). destruct (Ht (t3 T)) as (P3 & F3 & U3); [by right; left|]. rewrite P3, F3. cbn [negb].
  pose proof (sp_l3 _ _ _ _ Hs (level va 2) H2) as L3. unfold entry3 in L3. destruct (Z.eqb_spec (level va 2) 1) as [E2|E2].
  - rewrite E2 in L3 |- *. cbn in L3. rewrite L3. destruct (t2 T) as [j2|] eqn:T2; [|split; [intros [? _]; done|intros (_ & _ & ? & ? & ? & _); done]].
    destruct (Ht j2) as (P2 & F2 & U2); [by right; right; left|]. rewrite P2, F2, table_not_large. cbn [negb].
    pose proof (sp_l2 _ _ _ _ Hs j2 (Z.to_nat (level va 1)) T2 ltac:(lia)) as L2. rewrite Z2Nat.id in L2 by lia. rewrite L2.
    destruct (t1 T (Z.to_nat (level va 1))) as [j1|] eqn:T1; [|split; [intros [? _]; done|intros (_ & _ & ? & ? & ? & ? & _); done]].
    destruct (Ht j1) as (P1 & F1 & U1); [right; right; right; exists (Z.to_nat (level va 1)); split; [lia|done]|]. rewrite P1, F1, table_not_large. cbn [negb].
    set (e := load64 _ _). split.
    + destruct (present e) eqn:Pe; [|by intros [? _]]. cbn [negb]. intros [E Hu]. apply (inj Some) in E. apply pair_equal_spec in E as [<- <-]. cbn [forallb] in Hu. rewrite U1, U2, U3 in Hu. cbn [andb] in Hu.
      split; [done|]. split; [done|]. exists j2, j1. split; [done|]. split; [done|]. cbv zeta. fold e. split; [done|]. split; [by rewrite andb_true_r in Hu|done].
    + intros (_ & _ & j2' & j1' & [= <-] & [= <-] & Pe & Ue & -> & ->). fold e in Pe, Ue |- *. rewrite Pe. cbn [negb forallb]. by rewrite U1, U2, U3, Ue.
  - split; [|intros (_ & E & _); contradiction]. intros [Hw Hu]. exfalso. set (e3 := load64 (memory k) (slot64 (pool_page (t3 T)) (level va 2))) in *. clearbody e3.
    assert (Hu3 : user_bit e3 = false).
    { destruct (level va 2 =? 0); [rewrite L3; exact N1|]. destruct (level va 2 =? 3); [destruct L3 as [->| ->]; [reflexivity|exact N2]|rewrite L3; reflexivity]. }
    assert (Hx : forall rest, es <> opt_entry (Some (t3 T)) :: e3 :: rest).
    { intros rest ->. cbn [forallb] in Hu. rewrite Hu3, andb_false_r in Hu. discriminate. }
    destruct (present e3); [|discriminate]. cbn [negb] in Hw. destruct (large e3); [injection Hw as _ <-; exact (Hx [] eq_refl)|].
    match type of Hw with context [present ?e] => destruct (present e); [|discriminate]; cbn [negb] in Hw; destruct (large e) end; [injection Hw as _ <-; exact (Hx [_] eq_refl)|].
    match type of Hw with context [present ?e] => destruct (present e) end; [|discriminate]. injection Hw as _ <-. exact (Hx [_; _] eq_refl).
Qed.

(** Writes a task can make leave every tree alone. *)
Definition could_write k (ti : nat) (m : mem) : Prop := forall a, m a <> memory k a -> exists va, user_writes (memory k) (cr3 (task k ti)) va a.

Lemma program_tables k ti m tj : space_inv nobody k -> alive (task k ti) = true -> could_write k ti m -> alive (task k tj) = true ->
  exists T, space k (pid (task k tj)) (cr3 (task k tj)) T /\ forall j, in_tables T j -> page_same k (k <| memory := m |>) j.
Proof.
  intros Hi Ha Hm Hj. destruct (si_space _ _ Hi ti Ha) as (Ti & Hsi & _).
  assert (Hgo : forall T, space k (pid (task k tj)) (cr3 (task k tj)) T -> (tj = ti -> T = Ti) -> forall j, in_tables T j -> page_same k (k <| memory := m |>) j).
  { intros T Hs Hsame j Hin a Hx. cbn. destruct (Z.eq_dec (m a) (memory k a)) as [|E]; [done|]. exfalso. destruct (Hm a E) as [va Hw].
    destruct (sp_owned _ _ _ _ Hs j Hin) as [Hj' Ho].
    destruct (user_target k _ _ Ti va a Hsi (writes_read _ _ _ _ Hw)) as [(i & Hi' & Oi & Ni & Xi)|[[_ Xi]|[_ ?]]]; [| |done].
    - rewrite (pool_page_unique i j a Xi Hx) in *. apply Ni. rewrite <-Hsame; [done|]. unfold owned in *.
      apply (si_unique _ _ Hi); [congruence|apply (si_exists _ _ Hi); by left].
    - by apply (device_not_pool a Xi), (page_in_pool j). }
  destruct (decide (tj = ti)) as [->|Hne]; [exists Ti; split; [done|by apply Hgo]|].
  destruct (si_space _ _ Hi tj Hj) as (T & Hs & _). exists T. split; [done|by apply Hgo].
Qed.

(** The same trees translate the same way. *)
Lemma walk_same k m p root T va a es : space k p root T -> (forall j, in_tables T j -> page_same k (k <| memory := m |>) j) ->
  walk m root va = Some (a, es) /\ forallb user_bit es = true <-> walk (memory k) root va = Some (a, es) /\ forallb user_bit es = true.
Proof.
  intros Hs Hp. assert (Hs' : space (k <| memory := m |>) p root T) by (by apply (space_frame k)).
  change m with (memory (k <| memory := m |>)) at 1. rewrite (walk_tree _ _ _ _ _ _ _ Hs'), (walk_tree _ _ _ _ _ _ _ Hs).
  assert (El : forall j1, t1 T (Z.to_nat (level va 1)) = Some j1 ->
    load64 (memory (k <| memory := m |>)) (slot64 (pool_page j1) (level va 0)) = load64 (memory k) (slot64 (pool_page j1) (level va 0))).
  { intros j1 E1. apply load_page_same; [|apply land_511]. apply Hp. right. right. right. exists (Z.to_nat (level va 1)). split; [|done].
    pose proof (land_511 (Z.shiftr va (12 + 9 * 1))). unfold level. lia. }
  apply and_iff_compat_l, and_iff_compat_l. split; intros (j2 & j1 & E2 & E1 & Hx); exists j2, j1; (split; [done|]); (split; [done|]); cbv zeta in *.
  - rewrite (El j1 E1) in Hx. exact Hx.
  - rewrite (El j1 E1). exact Hx.
Qed.

(** ** The machine *)

(** What holds in every state of a machine that booted from [b]. *)
Definition always (b : SfBootInfo) (m : mem) (h : H) (root : Z) (P : state -> Prop) : Prop := forall s, machine_runs b m h root s -> P s.

Definition isolated k : Prop := forall ti tj va vb a, alive (task k ti) = true -> alive (task k tj) = true -> ti <> tj ->
  user_writes (memory k) (cr3 (task k ti)) va a -> ~ user_reads (memory k) (cr3 (task k tj)) vb a.

(** Whatever task [ti] writes, every task can access the same bytes at the
    same addresses as before. *)
Definition sealed k : Prop := forall ti m tj va a, alive (task k ti) = true -> could_write k ti m -> alive (task k tj) = true ->
  (user_reads m (cr3 (task k tj)) va a <-> user_reads (memory k) (cr3 (task k tj)) va a) /\
  (user_writes m (cr3 (task k tj)) va a <-> user_writes (memory k) (cr3 (task k tj)) va a) /\
  (user_executes m (cr3 (task k tj)) va a <-> user_executes (memory k) (cr3 (task k tj)) va a).

Definition write_xor_execute k : Prop := forall ti va a a', alive (task k ti) = true ->
  user_writes (memory k) (cr3 (task k ti)) va a -> ~ user_executes (memory k) (cr3 (task k ti)) va a'.

(** Every page of the pool belongs to a task that runs, whose count is exact
    and within its limit. *)
Definition accounted k : Prop :=
  (forall ti, alive (task k ti) = true -> page_count (task k ti) = pages_of k (pid (task k ti)) /\ page_count (task k ti) <= page_limit (task k ti)) /\
  (forall j, nth j (owner k) 0 <> 0 -> exists ti, alive (task k ti) = true /\ nth j (owner k) 0 = pid (task k ti)) /\
  (forall ti tj, alive (task k ti) = true -> pid (task k ti) = pid (task k tj) -> ti = tj).

Lemma inv_sealed k : space_inv nobody k -> sealed k.
Proof.
  intros Hi ti m tj va a Ha Hm Hj. destruct (program_tables k ti m tj Hi Ha Hm Hj) as (T & Hs & Hp).
  pose proof (fun es => walk_same k m _ _ T va a es Hs Hp) as Hw. unfold user_reads, user_writes, user_executes. split; [|split].
  - split; intros (es & Hx); exists es; by apply Hw.
  - split; intros (es & H1 & H2 & H3); exists es; destruct (Hw es) as [A B]; [destruct (A (conj H1 H2))|destruct (B (conj H1 H2))]; done.
  - split; intros (es & H1 & H2 & H3); exists es; destruct (Hw es) as [A B]; [destruct (A (conj H1 H2))|destruct (B (conj H1 H2))]; done.
Qed.

Lemma inv_wx k : space_inv nobody k -> write_xor_execute k.
Proof.
  intros Hi ti va a a' Ha (es & Hw & Hu & Hwr) (es' & Hw' & _ & Hx). rewrite Hw in Hw'. injection Hw' as <- <-.
  destruct (si_space _ _ Hi ti Ha) as (T & Hs & _). destruct (walk_user _ _ _ _ _ _ _ Hs Hw Hu) as (e & Hl & Hp & _ & W & X).
  destruct Hl as [->|[_ [_ Hwx _]]]; [done|]. by apply Hwx; [apply W|apply X].
Qed.

Lemma inv_accounted k : space_inv nobody k -> accounted k.
Proof.
  intros Hi. split; [|split].
  - intros ti Ha. destruct (si_count _ _ Hi ti (or_introl Ha)) as [E [Hl _]]. done.
  - intros j Hj. destruct (si_owner _ _ Hi j) as [|(ti & [Ha|[]] & Ho)]; [done|]. by exists ti.
  - intros ti tj Ha E. apply (si_unique _ _ Hi); [done|]. apply (si_exists _ _ Hi). by left.
Qed.

Section Always.
Variables (b : SfBootInfo) (m : mem) (h : H) (root : Z).
Hypotheses (Hfw : firmware_tables m root) (Hb : bundle_apart b).



(** C16. In every reachable state the page quotas are exact: the count of a
    task is the number of pool pages recorded as its own and is within its
    limit, and a page that is not free belongs to a task that runs, so death
    and failed creation leak nothing. *)
Theorem pages_accounted : always b m h root (fun s => accounted s.2).
Proof. intros s Hr. apply inv_accounted, (run_spaces b m h root s Hfw Hb Hr). Qed.

(** C15. The whole kernel refines the IPC events: every state of the running
    machine is reached from boot by the events of [IpcSafe], so what is proved
    of them (no amplification, no stale handle, complete revocation) holds of
    the machine; and the task that runs is ready, current, on a canonical
    stack and under its own page tables. *)
Theorem machine_refines_events : always b m h root (fun s => ipc_steps (boot_kernel m h) s.2 /\ forall ti, s.1 = Some ti -> resumes s.2 ti).
Proof. intros s Hr. destruct (run_settled b m h root s Hfw Hr) as (Hs & _ & Hn). done. Qed.

End Always.

End Isolation.
