(* ===== verification/FirstTask.v ===== *)
(** * The first task

    The kernel panics when its first task exits, faults or resumes on an
    impossible stack, and for no other trap: no other task, whatever it does,
    can stop the machine. *)

From stdpp Require Import strings.
From S2P Require Import Prelude Bytes CMem Abi Sched Arguments Kernel Memory Space Ipc Acpi Iommu Device Core IpcInv IpcCalls IpcSafe SpaceInv KernelFrame SpaceKernel KernelSteps SpaceBuild SpaceMap SpaceTask KernelRun SpaceRun Isolation.

Section First.
Context {H : Type} `{LO : LayoutOk} `{HW : Hardware H}.
Implicit Types (k : Kernel H).

(** ** Creation spares the other tasks *)

Lemma fades_abandon slot r k : fades k (abandon slot r k).2.
Proof.
  unfold abandon. pose proof (dev_release k k slot ltac:(done)) as Hd. destruct (device_release slot k) as [x k1]. cbn [snd] in *.
  transitivity k1; [by apply fades_dev|]. clear Hd. pose proof (fades_ipc _ _ (ipcf_cleanup slot k1)) as H1. set (k2 := ipc_cleanup slot k1) in *. clearbody k2.
  transitivity k2; [done|]. assert (Hc : calm k2 (device_forget slot (pages_free (pid (task k2 slot)) k2))) by (by apply calm_device_forget, calm_pages_free).
  set (k3 := device_forget slot _) in *. clearbody k3. transitivity k3; [by apply fades_calm|]. apply fades_set_task. intros t. split; [done|]. split; [done|by right; left].
Qed.

Lemma fades_equip slot bootstrap p page k : plan_typed p -> fades k (equip slot bootstrap p page k).2.
Proof.
  intros Hp. unfold equip. cbv zeta. set (args := boot_args _ _). clearbody args. set (k1 := fill_page _ _ k).
  assert (H1 : fades k k1) by (by apply fades_calm, calm_fill_page). clearbody k1. transitivity k1; [done|]. clear H1.
  set (w := if needs_bundle bootstrap p then _ else _). assert (Hw : fades k1 w.2) by (unfold w; apply fades_calm, calm_if2; [by apply calm_bundle|done]).
  destruct w as [ok k2]. cbn [snd] in Hw. destruct (negb ok); [done|]. transitivity k2; [done|]. clear Hw.
  set (args' := if needs_bundle bootstrap p then _ else args). clearbody args'.
  set (g := if bootstrap then _ else _). assert (Hg : ipc_frame k2 g.2) by (unfold g; destruct bootstrap; [done|apply ipcf_plan_grants]).
  destruct g as [[ok2 args2] k3]. cbn [snd] in Hg. apply fades_ipc in Hg. destruct (negb ok2); [done|]. destruct (_ =? 0); [done|].
  transitivity k3; [done|]. by apply fades_calm, calm_device_grant; [apply Hp|].
Qed.

(** All but the slot that is filled keep their pid and stack. *)
Record spared (slot : nat) k k' : Prop := {
  sr_next : next_pid k' = next_pid k;
  sr_task : forall tj, pid (task k' tj) = pid (task k tj) /\ (tj <> slot -> rsp (frame (task k' tj)) = rsp (frame (task k tj)))
}.

Lemma spared_fades slot k k' k'' : fades k k' -> fixed k -> spared slot k' k'' -> spared slot k k''.
Proof.
  intros Hfd Hf [Hn Ht]. destruct (Hfd Hf) as [[_ F [_ N]] _]. constructor; [congruence|]. intros tj. destruct (F tj) as (E1 & E2 & _).
  destruct (Ht tj) as [E3 E4]. split; [congruence|]. intros Hne. rewrite E4 by done. congruence.
Qed.

Lemma spared_all slot k k' : fades k k' -> fixed k -> spared slot k k'.
Proof. intros Hfd Hf. apply (spared_fades slot k k' k'); [done|done|]. by constructor. Qed.

Lemma construct_spares slot bootstrap base p k : plan_typed p -> fixed k -> spared slot k (construct slot bootstrap base p k).2.
Proof.
  intros Hp Hf. unfold construct. cbv zeta. pose proof (calm_space_new k k (pid (task k slot)) ltac:(done)) as H1.
  set (par := if bootstrap then None else _). clearbody par. destruct (space_new _ k) as [root k1]. cbn [snd] in H1.
  assert (H2 : calm k (set_task slot (fun t => t <| cr3 := root |>) k1)) by (by apply calm_set_task).
  set (k2 := set_task slot _ k1) in *. clearbody k2. clear H1. destruct (H2 Hf) as [_ Hf2]. apply (spared_fades slot k k2); [by apply fades_calm|done|]. clear H2.
  destruct (root =? 0); [apply spared_all; [apply fades_abandon|done]|].
  pose proof (calm_build_image slot par base p k2 k2 ltac:(done)) as H3. destruct (build_image slot par base p k2) as [ok k3]. cbn [snd] in H3.
  destruct (H3 Hf2) as [_ Hf3]. apply (spared_fades slot k2 k3); [by apply fades_calm|done|]. destruct (negb ok); [apply spared_all; [apply fades_abandon|done]|].
  pose proof (calm_arg_page k3 k3 slot ltac:(done)) as H4. destruct (arg_page slot k3) as [page k4]. cbn [snd] in H4.
  destruct (H4 Hf3) as [_ Hf4]. apply (spared_fades slot k3 k4); [by apply fades_calm|done|]. destruct (page =? 0); [apply spared_all; [apply fades_abandon|done]|].
  pose proof (fades_equip slot bootstrap p page k4 Hp) as H5. destruct (equip slot bootstrap p page k4) as [[r args] k5]. cbn [snd] in H5.
  destruct (H5 Hf4) as [_ Hf5]. apply (spared_fades slot k4 k5); [done|done|]. destruct (truthy r); [apply spared_all; [apply fades_abandon|done]|].
  unfold launch. cbn [snd]. set (k6 := fill_page page _ k5).
  apply (spared_fades slot k5 k6); [by apply fades_calm, calm_fill_page|done|]. clearbody k6. constructor; [done|]. intros tj. rewrite task_set.
  case_decide as Hd; [|done]. destruct Hd as [<- _]. done.
Qed.

(** ** The stack of the first task *)

(** Steps after which the first task is where it was, on the same stack. *)
Definition first_kept k k' : Prop :=
  2 <= next_pid k' /\ forall tj, pid (task k' tj) = 1 -> pid (task k tj) = 1 /\ rsp (frame (task k' tj)) = rsp (frame (task k tj)).
Definition pins k k' : Prop := keeps k k' /\ (fixed k -> space_inv nobody k -> 2 <= next_pid k -> first_kept k k').

#[export] Instance pins_preorder : PreOrder pins.
Proof.
  split; [intros k; split; [done|]; intros _ _ Hn; split; [done|by intros tj]|]. intros k1 k2 k3 [A1 A2] [B1 B2]. split; [by transitivity k2|].
  intros Hf Hi Hn. destruct (A1 Hf Hi) as [Hf2 Hi2]. destruct (A2 Hf Hi Hn) as [N2 T2]. destruct (B2 Hf2 Hi2 N2) as [N3 T3]. split; [done|].
  intros tj Hp. destruct (T3 tj Hp) as [P2 R2]. destruct (T2 tj P2) as [P1 R1]. split; [done|congruence].
Qed.

Lemma pins_fades k k' : keeps k k' -> fades k k' -> pins k k'.
Proof.
  intros Hk Hfd. split; [done|]. intros Hf _ Hn. destruct (Hfd Hf) as [[_ F [_ N]] _]. split; [by rewrite N|]. intros tj. by destruct (F tj) as (-> & -> & _).
Qed.

Lemma pins_dev k k' : dev_step k k' -> pins k k'.
Proof. intros Hd. apply pins_fades; [by apply keeps_dev|by apply fades_dev]. Qed.

Lemma pins_task_new p pages k : plan_typed p -> 0 <= pages -> t_state (task k (Z.to_nat (current k))) = T_READY ->
  pins k (task_new_limited p false pages k).2.
Proof.
  intros Hp Hg Hr. split; [apply keeps_task_new; [done|done|by right]|]. intros Hf Hi Hn. pose proof (si_next _ _ Hi) as Hnx. unfold task_new_limited.
  assert (Hself : first_kept k k) by (split; [done|by intros tj]).
  destruct (_ <? _); [done|]. destruct (_ || _); [done|]. cbv zeta. destruct (find_index _ _) as [slot|] eqn:Ef; [|done].
  apply find_index_Some in Ef as (Hs & _). unfold sf_pid_take. destruct (Z.eqb_spec (next_pid k) 0); [lia|]. cbn [orb].
  destruct (Z.ltb_spec SF_PID_MAX (next_pid k)); [done|]. destruct (_ <? 0); [by rewrite u32_small by (unfold SF_PID_MAX in *; lia); split; [cbn; lia|by intros tj]|].
  change (default (next_pid k) (Some (u32 (next_pid k + 1)))) with (u32 (next_pid k + 1)). rewrite u32_small by (unfold SF_PID_MAX in *; lia).
  set (k1 := set_task slot _ _). assert (Hf1 : fixed k1) by done.
  destruct (construct_spares slot false (if truthy (lp_image_base p) then lp_image_base p else SF_BASE) p k1 Hp Hf1) as [N T].
  split; [rewrite N; change (next_pid k1) with (next_pid k + 1); lia|]. intros tj. destruct (T tj) as [-> Hx]. destruct (decide (tj = slot)) as [->|Hne].
  - intros E. exfalso. unfold k1 in E. rewrite task_set_same in E by (cbn; by rewrite (si_tasks _ _ Hi)).
    change (next_pid k = 1) in E. lia.
  - rewrite Hx by done. unfold k1. by rewrite task_set_other by done.
Qed.

Lemma pins_ipc_syscall call a b c k r k' : (Z.to_nat (current k) < SF_MAX_TASKS)%nat -> 0 <= a ->
  t_state (task k (Z.to_nat (current k))) = T_READY -> ipc_syscall call a b c k = Ret (r, k') -> pins k k'.
Proof.
  intros Hti Ha Hst E. split; [by apply (keeps_ipc_syscall call a b c k r)|]. intros Hf Hi Hn.
  destruct (call_syscall _ _ _ _ _ _ _ E) as [_ T [P _ _ _ S] _ _ _ (_ & _ & N & _)]. split; [by rewrite N|]. intros tj.
  destruct (decide (tj = Z.to_nat (current k))) as [->|Hne]; [by rewrite P, S|]. destruct (T tj Hne) as [-> _ _ _ _ _ ->]. done.
Qed.

Lemma pins_syscall call a b c k r k' : (Z.to_nat (current k) < SF_MAX_TASKS)%nat -> 0 <= a -> 0 <= b ->
  t_state (task k (Z.to_nat (current k))) = T_READY -> syscall call a b c k = Ret (r, k') -> pins k k'.
Proof.
  apply syscall_run.
  - apply _.
  - apply pins_dev.
  - intros. apply pins_fades; [by apply keeps_dead|apply fades_dead].
  - intros i l k0 Hl. apply pins_fades; [intros Hf Hi; split; [done|by apply inv_limit]|]. apply fades_set_task. intros t. split; [done|]. split; [done|by left].
  - intros i l k0. apply pins_fades; [by apply keeps_set_task|]. apply fades_set_task. intros t. split; [done|]. split; [done|by left].
  - intros i l k0. apply pins_fades; [by apply keeps_set_task|]. apply fades_set_task. intros t. split; [done|]. split; [done|by left].
  - intros k0 k1 ti dst bs Hr Hd. apply pins_fades; [by apply keeps_copy_dev|]. by apply fades_calm, calm_copy_out, calm_dev.
  - apply pins_task_new.
  - apply pins_ipc_syscall.
Qed.

(** A call panics only where the first task exits. *)
Lemma syscall_panics call a b c k : space_inv nobody k -> t_state (task k (Z.to_nat (current k))) = T_READY ->
  syscall call a b c k = Panic -> call = SYS_EXIT /\ pid (task k (Z.to_nat (current k))) = 1.
Proof.
  intros Hi Hr. unfold syscall, init_only. destruct (Z.eqb_spec call SYS_EXIT) as [->|_]; [destruct (Z.eqb_spec (pid (task k (Z.to_nat (current k)))) 1); done|].
  repeat match goal with |- (if ?x then _ else _) = Panic -> _ => destruct x; [try done; try (by destruct (_ =? 1))|] end.
  destruct (inv_ipc_syscall nobody call a b c k Hr Hi) as (r & k' & -> & _). done.
Qed.

(** ** Traps *)

Lemma entered_stack fuel f ti k : fixed k -> (ti < length (tasks k))%nat -> next_pid (entered fuel f ti k) = next_pid k /\
  forall tj, pid (task (entered fuel f ti k) tj) = pid (task k tj) /\
    rsp (frame (task (entered fuel f ti k) tj)) = if decide (tj = ti) then rsp f else rsp (frame (task k tj)).
Proof.
  intros Hf Hti. unfold entered.
  assert (H1 : fades k (arch_save ti (received fuel f (ticked f k)))).
  { transitivity (ticked f k); [apply fades_ticked|]. transitivity (received fuel f (ticked f k)); [apply fades_received|].
    apply fades_set_task. intros t. split; [done|]. split; [done|by left]. }
  set (k1 := arch_save ti _) in *. clearbody k1. destruct (H1 Hf) as [[L1 T1 [_ N1]] Hf1].
  assert (Hf2 : fixed (set_task ti (fun t => t <| frame := f |>) k1)) by done.
  assert (Es : forall tj, pid (task (set_task ti (fun t => t <| frame := f |>) k1) tj) = pid (task k1 tj) /\
    rsp (frame (task (set_task ti (fun t => t <| frame := f |>) k1) tj)) = if decide (tj = ti) then rsp f else rsp (frame (task k1 tj))).
  { intros tj. destruct (decide (tj = ti)) as [->|Hne]; [|by rewrite task_set_other by done]. rewrite task_set_same by (by rewrite L1). done. }
  assert (N2 : next_pid (set_task ti (fun t => t <| frame := f |>) k1) = next_pid k) by exact N1.
  set (k2 := set_task ti _ k1) in *. clearbody k2. destruct (fades_poll_faults 64 k2 Hf2) as [[_ T3 [_ N3]] _].
  unfold device_poll. split; [congruence|]. intros tj. destruct (T3 tj) as (-> & -> & _). destruct (Es tj) as [-> ->]. by destruct (T1 tj) as (-> & -> & _).
Qed.

(** The first task is the one that trapped, exiting, faulting or on an
    impossible stack, or it was stopped earlier on such a stack. *)
Definition first_fell k (ti : nat) (f : Frame) : Prop :=
  exists tj, (tj < SF_MAX_TASKS)%nat /\ pid (task k tj) = 1 /\
    (tj = ti /\ (vector f = 128 /\ rax f = SYS_EXIT \/ vector f < 32 \/ noncanonical (rsp f) = true) \/
     tj <> ti /\ noncanonical (rsp (frame (task k tj))) = true).

Lemma bad_first_pins k k' : first_kept k k' -> bad_first k' -> bad_first k.
Proof. intros [_ T] (tj & Hj & Hp & Hb). destruct (T tj Hp) as [Hp' E]. exists tj. by rewrite <-E. Qed.

Lemma bad_first_entered fuel f ti k : fixed k -> (ti < length (tasks k))%nat -> bad_first (entered fuel f ti k) -> first_fell k ti f.
Proof.
  intros Hf Hti (tj & Hj & Hp & Hb). destruct (entered_stack fuel f ti k Hf Hti) as [_ T]. destruct (T tj) as [E1 E2]. rewrite E1 in Hp. rewrite E2 in Hb.
  exists tj. split; [done|]. split; [done|]. case_decide; [left|right]; auto.
Qed.

Lemma scheduled_panics k : schedulable k -> scheduled (schedule k) = Panic -> bad_first k.
Proof. intros Hk. pose proof (schedule_spec k Hk) as Hs. by destruct (schedule k) as [[n k']|]. Qed.

Lemma dispatch_panics fuel f k ti : ipc_inv k -> schedulable k -> resumes k ti -> space_inv nobody k -> 2 <= next_pid k -> user_frame f ->
  interrupt_dispatch fuel f k = Panic -> first_fell k ti f.
Proof.
  intros Hi Hk [Hti Hc Hr _ _] Hsp Hn Hu. pose proof (sc_fixed k Hk) as Hf. rewrite (dispatch_user fuel f k ti Hf Hc Hu). destruct Hu as [(_ & Ha & Hb & _) Hu]. cbv zeta.
  assert (Hlen : (ti < length (tasks k))%nat) by (by rewrite (sc_tasks _ Hk)).
  pose proof (evolves_entered fuel f ti k) as He. pose proof (entered_state fuel f ti k Hf Hr) as Hst.
  pose proof (evolves_schedulable _ _ Hi Hk He) as Hk1. destruct (He Hf) as (Hs1 & Hf1 & Ec1). pose proof (ok_steps _ _ Hi Hs1) as Hi1.
  destruct (keeps_entered fuel f ti k Hf Hsp) as [_ Hsp1]. destruct (entered_stack fuel f ti k Hf Hlen) as [N1 T1].
  pose proof (bad_first_entered fuel f ti k Hf Hlen) as Hbad. destruct (T1 ti) as [Ep1 _]. set (k1 := entered fuel f ti k) in *. clearbody k1. rewrite Hc in Ec1.
  assert (Ecur : Z.to_nat (current k1) = ti) by (rewrite Ec1; lia).
  unfold in_tstate. case_bool_decide as Hd; [intros E; by apply Hbad, scheduled_panics|]. assert (Hr1 : t_state (task k1 ti) = T_READY) by tauto.
  destruct (Z.eqb_spec (vector f) 128) as [Ev|_]; [|destruct (Z.ltb_spec (vector f) 32) as [Ev|_]].
  - destruct (syscall (rax f) (rdi f) (rsi f) (rdx f) k1) as [[v k2]|] eqn:Es.
    + cbn [obind fst snd]. intros E. apply Hbad.
      assert (He2 : evolves k1 k2) by (apply (evolves_syscall _ _ _ _ _ _ _) in Es; [done| |done|done|]; by rewrite Ecur).
      assert (Hp2 : pins k1 k2) by (apply (pins_syscall _ _ _ _ _ _ _) in Es; [done| |done|done|]; by rewrite Ecur).
      assert (Hp3 : pins k1 (set_task ti (fun t => t <| frame ::= fun f => f <| rax := u64 v |> |>) k2)).
      { etransitivity; [exact Hp2|]. apply pins_fades; [by apply keeps_set_task|]. apply fades_set_task. intros t. split; [done|]. split; [done|by left]. }
      apply (bad_first_pins k1 _ (proj2 Hp3 Hf1 Hsp1 ltac:(lia))). apply scheduled_panics; [|exact E].
      apply (evolves_schedulable k1); [done|done|]. etransitivity; [exact He2|by apply evolves_set_task].
    + intros _. destruct (syscall_panics _ _ _ _ k1 Hsp1 ltac:(by rewrite Ecur) Es) as [Ex Ep]. rewrite Ecur in Ep. exists ti. split; [done|]. split; [congruence|]. left. auto.
  - destruct (Z.eqb_spec (pid (task k1 ti)) 1) as [Ep|_]; [intros _; exists ti; split; [done|]; split; [congruence|left; auto]|]. intros E. apply Hbad.
    assert (Hp2 : pins k1 (task_dead ti (-100 - vector f) (serial (txt "[CORE] isolated user fault") k1))).
    { etransitivity; [by apply pins_dev, (dev_serial k1 k1 (txt "[CORE] isolated user fault"))|]. apply pins_fades; [by apply keeps_dead|apply fades_dead]. }
    apply (bad_first_pins k1 _ (proj2 Hp2 Hf1 Hsp1 ltac:(lia))). apply scheduled_panics; [|exact E]. apply schedulable_dead. by destruct Hk1.
  - intros E. by apply Hbad, scheduled_panics.
Qed.

(** ** Runs *)

Lemma schedule_loop_next n : forall k r k', fixed k -> schedule_loop n k = Ret (r, k') -> next_pid k' = next_pid k.
Proof.
  induction n as [|n IH]; intros k r k' Hf; cbn [schedule_loop]; cbv zeta; fold (picked k); (destruct (_ <? 0); [by intros [= <- <-]|]);
    (destruct (noncanonical _); [destruct (_ =? 1); [done|]|by intros [= <- <-]]).
  - by intros [= <- <-].
  - set (ti := Z.to_nat (picked k)). destruct (fades_dead ti (-113) k Hf) as [[_ _ [_ N]] Hf1]. intros E. rewrite <-N. by apply (IH _ r).
Qed.

Lemma scheduled_next k r k' : fixed k -> scheduled (schedule k) = Ret (r, k') -> next_pid k' = next_pid k.
Proof.
  intros Hf. unfold scheduled, schedule. cbv zeta. set (k1 := if _ : bool then _ else k).
  assert (H1 : fixed k1 /\ next_pid k1 = next_pid k) by (unfold k1; by destruct (_ && _)). clearbody k1. destruct H1 as [Hf1 <-].
  destruct (schedule_loop SF_MAX_TASKS k1) as [[n k2]|] eqn:E; [|done]. intros [= _ <-]. by apply (schedule_loop_next _ _ _ _ Hf1 E).
Qed.

Lemma dispatch_next fuel f k ti r k' : ipc_inv k -> schedulable k -> resumes k ti -> space_inv nobody k -> 2 <= next_pid k -> user_frame f ->
  interrupt_dispatch fuel f k = Ret (r, k') -> 2 <= next_pid k'.
Proof.
  intros Hi Hk [Hti Hc Hr _ _] Hsp Hn Hu. pose proof (sc_fixed k Hk) as Hf. rewrite (dispatch_user fuel f k ti Hf Hc Hu). destruct Hu as [(_ & Ha & Hb & _) Hu]. cbv zeta.
  assert (Hlen : (ti < length (tasks k))%nat) by (by rewrite (sc_tasks _ Hk)).
  pose proof (evolves_entered fuel f ti k) as He. pose proof (entered_state fuel f ti k Hf Hr) as Hst.
  destruct (He Hf) as (Hs1 & Hf1 & Ec1). destruct (keeps_entered fuel f ti k Hf Hsp) as [_ Hsp1]. destruct (entered_stack fuel f ti k Hf Hlen) as [N1 _].
  set (k1 := entered fuel f ti k) in *. clearbody k1. rewrite Hc in Ec1. assert (Ecur : Z.to_nat (current k1) = ti) by (rewrite Ec1; lia). rewrite <-N1 in Hn.
  unfold in_tstate. case_bool_decide as Hd; [intros E; by rewrite (scheduled_next k1 r k' Hf1 E)|]. assert (Hr1 : t_state (task k1 ti) = T_READY) by tauto.
  destruct (_ =? 128); [|destruct (_ <? 32)].
  - destruct (syscall (rax f) (rdi f) (rsi f) (rdx f) k1) as [[v k2]|] eqn:Es; [|done]. cbn [obind fst snd]. intros E.
    assert (Hp2 : pins k1 k2) by (apply (pins_syscall _ _ _ _ _ _ _) in Es; [done| |done|done|]; by rewrite Ecur).
    destruct (proj1 Hp2 Hf1 Hsp1) as [Hf2 _]. destruct (proj2 Hp2 Hf1 Hsp1 Hn) as [N2 _].
    rewrite (scheduled_next _ r k' (fixed_set_task ti _ k2 Hf2) E). done.
  - destruct (_ =? 1); [done|]. intros E. set (k2 := serial _ k1) in *. assert (Hf2 : fixed k2) by done. assert (N2 : next_pid k2 = next_pid k1) by done. clearbody k2.
    destruct (fades_dead ti (-100 - vector f) k2 Hf2) as [[_ _ [_ N3]] Hf3]. rewrite (scheduled_next _ r k' Hf3 E). lia.
  - intros E. by rewrite (scheduled_next k1 r k' Hf1 E).
Qed.

Lemma wake_next fuel f k r k' : fixed k -> kernel_frame f -> idle_interrupt fuel f k = Ret (r, k') -> next_pid k' = next_pid k.
Proof.
  intros Hf Hu. unfold idle_interrupt, interrupt_dispatch. cbv zeta. fold (ticked f k). fold (received fuel f (ticked f k)).
  rewrite (proj2 (Z.eqb_eq _ _) Hu). destruct (_ <? 32); [done|]. cbn [obind snd].
  assert (Hfd : fades k (received fuel f (ticked f k))) by (transitivity (ticked f k); [apply fades_ticked|apply fades_received]).
  set (k1 := received _ _ _) in *. clearbody k1. destruct (Hfd Hf) as [[_ _ [_ N]] Hf1].
  destruct (schedule_loop SF_MAX_TASKS k1) as [[n k2]|] eqn:E; [|done]. intros [= <- <-]. rewrite <-N. by apply (schedule_loop_next _ _ _ _ Hf1 E).
Qed.

(** The boot is over once the first task has its pid. *)
Lemma task_new_first p k : plan_typed p -> space_inv nobody k -> fixed k -> (task_new p true k).1 = 1 -> 2 <= next_pid (task_new p true k).2.
Proof.
  intros Hp Hi Hf. pose proof (si_next _ _ Hi) as Hnx. unfold task_new, task_new_limited. destruct (_ <? _); [done|]. destruct (_ || _); [done|]. cbv zeta.
  destruct (find_index _ _) as [slot|]; [|done]. unfold sf_pid_take. destruct (Z.eqb_spec (next_pid k) 0); [lia|]. cbn [orb].
  destruct (Z.ltb_spec SF_PID_MAX (next_pid k)); [done|]. destruct (Z.ltb_spec (next_pid k) 0); [lia|]. intros _.
  change (default (next_pid k) (Some (u32 (next_pid k + 1)))) with (u32 (next_pid k + 1)). rewrite u32_small by (unfold SF_PID_MAX in *; lia).
  set (k1 := set_task slot _ _). assert (Hf1 : fixed k1) by done.
  destruct (construct_spares slot true (if truthy (lp_image_base p) then lp_image_base p else SF_BASE) p k1 Hp Hf1) as [N _]. rewrite N.
  change (next_pid k1) with (next_pid k + 1). lia.
Qed.

Lemma run_booted b m h root s : firmware_tables m root -> bundle_apart b -> machine_runs b m h root s -> 2 <= next_pid s.2.
Proof.
  intros Hfw Hb Hr. induction Hr as [n k Hk|s s' Hrun IH Hs].
  - destruct (boot_creates b m h root _ k Hfw Hb Hk) as (k4 & _ & F4 & S4 & E1 & Hs).
    pose proof (task_new_first (boot_plan b) k4 (plan_typed_boot b) S4 F4 E1) as N.
    destruct (evolves_task_new (boot_plan b) true SF_PAGE_LIMIT_MAX k4 (plan_typed_boot b) (or_introl eq_refl) F4) as (_ & F5 & _).
    unfold task_new in *. set (k5 := (task_new_limited _ _ _ k4).2) in *. clearbody k5. set (k6 := serial _ k5) in *.
    assert (F6 : fixed k6) by done. assert (N6 : next_pid k6 = next_pid k5) by done. clearbody k6. cbn [snd]. rewrite (scheduled_next k6 _ k F6 Hs). lia.
  - destruct (run_settled b m h root s Hfw Hrun) as (Hsteps & Hk & Hn). pose proof (ok_steps _ _ (boot_inv m h) Hsteps) as Hinv.
    pose proof (run_spaces b m h root s Hfw Hb Hrun) as Hsp.
    destruct Hs as [ti k m' h' Hm|n k m' h' Hm|ti k fuel f n k' Hf Hd|k fuel f n k' Hf Hd]; cbn [fst snd] in *; [done|done| |].
    + by apply (dispatch_next fuel f k ti (Scheduled n)); auto.
    + by rewrite (wake_next fuel f k (Scheduled n) k' (sc_fixed _ Hk) Hf Hd).
Qed.

(** The trap of the task that runs panics only by the first task's doing. *)
Definition panics_by_first (s : state) : Prop :=
  forall ti fuel f, s.1 = Some ti -> user_frame f -> interrupt_dispatch fuel f s.2 = Panic -> first_fell s.2 ti f.


End First.
