(* ===== verification/IpcMail.v ===== *)
(** * Messages

    The queues of [kernel/ipc.c] against the abstract first-in first-out
    mailbox: what the calls accept, deliver and cancel, replayed on the
    mailbox, gives the queue the kernel holds. *)

From S2P Require Import Prelude Bytes CMem Abi Kernel Memory Ipc IpcInv IpcCalls IpcSafe.

(** ** The specification *)

Inductive event :=
| Accepted (ep : nat) (m : SfMessage)
| Delivered (ep : nat) (m : SfMessage)
| Cancelled (ep : nat) (pid rid : Z).

Definition at_endpoint (ev : event) : nat :=
  match ev with Accepted ep _ | Delivered ep _ | Cancelled ep _ _ => ep end.

(** The mailbox: send appends, a delivered message was the oldest, and
    cancelling takes out the caller's messages with that request. *)
Inductive mailbox : list event -> list SfMessage -> list SfMessage -> Prop :=
| MailDone q : mailbox [] q q
| MailAccept ep m evs q q' : (length q < 8)%nat -> mailbox evs (q ++ [m]) q' -> mailbox (Accepted ep m :: evs) q q'
| MailDeliver ep m evs q q' : mailbox evs q q' -> mailbox (Delivered ep m :: evs) (m :: q) q'
| MailCancel ep p rid evs q q' : mailbox evs (List.filter (keeps p rid) q) q' -> mailbox (Cancelled ep p rid :: evs) q q'.

Section Mail.
Context {H : Type} `{L : Layout}.
Implicit Types (k : Kernel H).

(** ** What a call did *)

Definition waiting k (ep : nat) : option nat :=
  find_index (fun j => in_tstate (task k j) T_BLOCKED && (wait_endpoint (task k j) =? Z.of_nat ep + 1)) SF_MAX_TASKS.

(** The message a send puts on its way: the caller's bytes, with the caller's
    pid as sender. *)
Definition stamped k (ti : nat) (b : Z) : SfMessage :=
  (message_of_bytes (copy_in ti b sizeof_SfMessage k).2) <| m_h ::= fun h => h <| h_flags := pid (task k ti) |> |>.

Definition send_events (ti : nat) (a b r : Z) k : list event :=
  match cap k ti a RIGHT_SEND with
  | Some s =>
      if r =? 0 then
        let ep := ep_of (cap_of k ti s) in
        Accepted ep (stamped k ti b) :: (if waiting k ep is Some _ then [Delivered ep (stamped k ti b)] else [])
      else []
  | None => []
  end.

Definition recv_events (ti : nat) (a b : Z) k : list event :=
  match cap k ti a RIGHT_RECV with
  | Some s =>
      let ep := ep_of (cap_of k ti s) in
      match queue (endpoint k ep) with
      | m :: _ => if user_range ti b sizeof_SfMessage true k && negb (truthy (copy_out ti b (message_bytes m) k).1)
                  then [Delivered ep m] else []
      | [] => []
      end
  | None => []
  end.

Definition cancel_events (ti : nat) (a b c : Z) k : list event :=
  match cap k ti a RIGHT_SEND with
  | Some s => if truthy c then [] else [Cancelled (ep_of (cap_of k ti s)) (pid (task k ti)) b]
  | None => []
  end.

Definition call_events (call a b c r : Z) k : list event :=
  let ti := Z.to_nat (current k) in
  if call =? SYS_SEND_CANCEL then cancel_events ti a b c k
  else if call =? SYS_SEND then send_events ti a b r k
  else if call =? SYS_RECV then recv_events ti a b k
  else [].

Definition events_at (ep : nat) (evs : list event) : list event := List.filter (fun ev => (at_endpoint ev =? ep)%nat) evs.

(** A live endpoint after a call is new and empty, or was live in the same
    epoch and its mailbox took the call's events. *)
Definition mail_ok (evs : list event) k k' : Prop :=
  forall ep, (ep < ENDPOINTS)%nat -> e_owner (endpoint k' ep) <> 0 ->
    (e_owner (endpoint k ep) = 0 /\ queue (endpoint k' ep) = []) \/
    (e_owner (endpoint k ep) <> 0 /\ e_epoch (endpoint k' ep) = e_epoch (endpoint k ep) /\
     mailbox (events_at ep evs) (queue (endpoint k ep)) (queue (endpoint k' ep))).

Lemma mail_same k k' : endpoints k' = endpoints k -> mail_ok [] k k'.
Proof. intros E ep _ Ho. right. unfold endpoint in *. rewrite E in *. split; [done|]. split; [done|]. constructor. Qed.

Lemma mail_invalidate i k : ipc_base k -> (i < ENDPOINTS)%nat -> mail_ok [] k (invalidate i k).
Proof.
  intros B Hi ep Hep. destruct (invalidate_spec i k (inv_tasks k B) ltac:(by rewrite (inv_endpoints k B))) as (_ & _ & He & _).
  rewrite He. case_decide as Hd; [done|]. intros Ho. right. split; [done|]. split; [done|]. constructor.
Qed.

Lemma mail_ep_create ti k : ipc_base k -> mail_ok [] k (sys_ep_create ti k).2.
Proof.
  intros B. unfold sys_ep_create. destruct (cap_slot _); [|by apply mail_same].
  destruct (find_index _ ENDPOINTS) as [i|] eqn:Ef; [|by apply mail_same].
  apply find_index_Some in Ef as (Hie & Hfree & _). apply negb_true_iff, truthy_false in Hfree.
  set (k1 := set_endpoint i _ k). assert (E2 : endpoints (install ti i 7 k1).2 = endpoints k1).
  { unfold install. by destruct (cap_slot _). }
  destruct (install ti i 7 k1) as [h k2]. simpl in *. intros ep Hep.
  assert (He : forall j, endpoint k2 j = endpoint k1 j) by (intros; unfold endpoint; by rewrite E2).
  set (k3 := if h <? 0 then _ else k2). intros Ho.
  assert (Hq : ep <> i -> endpoint k3 ep = endpoint k ep).
  { intros Hne. unfold k3. destruct (h <? 0); [rewrite endpoint_set, decide_False by naive_solver|];
      rewrite He; unfold k1; rewrite endpoint_set, decide_False by naive_solver; done. }
  destruct (decide (ep = i)) as [->|Hne].
  - left. split; [done|]. unfold k3 in *. destruct (h <? 0).
    + rewrite endpoint_set, decide_True in Ho; [done|]. rewrite E2, length_alter, (inv_endpoints k B). done.
    + rewrite He. unfold k1. rewrite endpoint_set, decide_True by (rewrite (inv_endpoints k B); done). done.
  - right. rewrite Hq in * by done. split; [done|]. split; [done|]. constructor.
Qed.

Lemma mail_cap_close ti a k : ipc_base k -> 0 <= a -> mail_ok [] k (sys_cap_close ti a k).2.
Proof.
  intros B Ha. unfold sys_cap_close. destruct (cap k ti a 0) as [s|] eqn:Ec; [|by apply mail_same].
  destruct (cap_Some k ti a 0 s Ha Ec) as (_ & _ & _ & Hne & _). destruct (base_names k ti s B Hne) as (_ & Hep & _).
  unfold close_cap. simpl. set (k1 := set_cap _ _ _ k). destruct (referenced k1 _); [by apply mail_same|].
  intros ep He. destruct (invalidate_spec (ep_of (cap_of k ti s)) k1) as (_ & _ & Hi & _);
    [unfold k1, set_cap; rewrite length_set_task; apply (inv_tasks k B)|change (endpoints k1) with (endpoints k); by rewrite (inv_endpoints k B)|].
  rewrite Hi. case_decide; [done|]. intros Ho. right. split; [done|]. split; [done|]. constructor.
Qed.

Lemma mail_cap_derive ti a b k : mail_ok [] k (sys_cap_derive ti a b k).2.
Proof.
  apply mail_same. unfold sys_cap_derive, install. destruct (cap _ _ _ _); [|done]. destruct (_ || _); [done|]. by destruct (cap_slot _).
Qed.

Lemma mail_cap_revoke ti a k : ipc_base k -> 0 <= a -> mail_ok [] k (sys_cap_revoke ti a k).2.
Proof.
  intros B Ha. unfold sys_cap_revoke. destruct (cap k ti a RIGHT_DELEGATE) as [s|] eqn:Ec; [|by apply mail_same].
  destruct (cap_Some k ti a _ s Ha Ec) as (_ & _ & _ & Hne & _). destruct (base_names k ti s B Hne) as (_ & Hep & _).
  destruct (negb _); [by apply mail_same|]. by apply mail_invalidate.
Qed.

(** An update of one live endpoint that keeps owner and epoch. *)
Lemma mail_update evs i e' k k' : ipc_base k -> (i < ENDPOINTS)%nat -> endpoints k' = <[i:=e']> (endpoints k) ->
  e_owner e' = e_owner (endpoint k i) -> e_epoch e' = e_epoch (endpoint k i) ->
  Forall (fun ev => at_endpoint ev = i) evs -> mailbox evs (queue (endpoint k i)) (queue e') -> mail_ok evs k k'.
Proof.
  intros B Hi Ek Ho He Hev Hm ep Hep Hlive. right.
  assert (E' : endpoint k' ep = if decide (ep = i) then e' else endpoint k ep).
  { unfold endpoint. rewrite Ek. case_decide as Hd; [subst ep; apply insert_lookup_total_eq; by rewrite (inv_endpoints k B)|].
    apply insert_lookup_total_ne. congruence. }
  rewrite E' in *. case_decide as Hd.
  - subst ep. rewrite Ho in Hlive. split; [done|]. split; [done|].
    replace (events_at i evs) with evs; [done|]. clear Hm. induction Hev as [|ev evs E _ IH]; simpl; [done|].
    by rewrite E, Nat.eqb_refl, <-IH.
  - split; [done|]. split; [done|].
    replace (events_at ep evs) with (@nil event); [constructor|]. clear Hm. induction Hev as [|ev evs E _ IH]; simpl; [done|].
    rewrite E. destruct (Nat.eqb_spec i ep); [congruence|done].
Qed.

Lemma set_endpoint_insert i f k : (i < length (endpoints k))%nat ->
  endpoints (set_endpoint i f k) = <[i:=f (endpoint k i)]> (endpoints k).
Proof. intros Hi. unfold set_endpoint. simpl. by apply alter_insert_total. Qed.

Lemma mail_send_cancel ti a b c k : ipc_base k -> 0 <= a -> mail_ok (cancel_events ti a b c k) k (sys_send_cancel ti a b c k).2.
Proof.
  intros B Ha. unfold sys_send_cancel, cancel_events. destruct (cap k ti a RIGHT_SEND) as [s|] eqn:Ec; [|by apply mail_same].
  destruct (cap_Some k ti a _ s Ha Ec) as (_ & _ & _ & Hne & _). destruct (base_names k ti s B Hne) as (_ & Hep & Ho & _).
  destruct (truthy c); [by apply mail_same|]. set (ep := ep_of (cap_of k ti s)) in *.
  pose proof (inv_ring k B ep) as Hr. pose proof Hr as (_ & Hh & Hc).
  destruct (Z.leb_spec 8 (e_head (endpoint k ep))); [lia|]. destruct (Z.ltb_spec 8 (e_count (endpoint k ep))); [lia|]. simpl orb. cbv iota.
  pose proof (cancel_queue_spec (pid (task k ti)) b (endpoint k ep) Hr) as Hq.
  destruct (cancel_queue _ _ _) as [r e']. destruct Hq as (_ & Ho' & He' & _ & Hq & _). cbn [snd].
  apply (mail_update _ ep e'); [done|done|apply set_endpoint_insert; by rewrite (inv_endpoints k B)|done|done|by repeat constructor|].
  rewrite Hq. repeat constructor.
Qed.

Lemma waiting_queue k ep j : ipc_base k -> waiting k ep = Some j -> queue (endpoint k ep) = [].
Proof.
  intros B (_ & Hp & _)%find_index_Some. apply andb_prop in Hp as [Hp Hw]. unfold in_tstate in Hp.
  apply bool_decide_eq_true in Hp. apply Z.eqb_eq in Hw. unfold queue. rewrite (waiting_empty k ep B); [done|]. by exists j.
Qed.

Lemma mail_deliver sender ep m k r k' : ipc_base k -> (ep < ENDPOINTS)%nat -> deliver sender ep m k = Ret (r, k') ->
  mail_ok (if r =? 0 then Accepted ep m :: (if waiting k ep is Some _ then [Delivered ep m] else []) else []) k k'.
Proof.
  intros B Hep. unfold deliver. change (find_index _ SF_MAX_TASKS) with (waiting k ep).
  destruct (waiting k ep) as [j|] eqn:Ew.
  - pose proof (copy_out_same j (recv_buffer (task k j)) (message_bytes m) k) as (E1 & E2 & _).
    destruct (copy_out j _ _ k) as [c k1]. simpl in E1, E2. destruct (truthy c); [done|]. intros [= <- <-]. simpl Z.eqb. cbv iota.
    apply (mail_update _ ep (endpoint k ep)); [done|done| |done|done|by repeat constructor|].
    + unfold endpoint. rewrite list_insert_id; [done|]. apply list_lookup_lookup_total_lt. by rewrite (inv_endpoints k B).
    + rewrite (waiting_queue k ep j B Ew). constructor; [simpl; lia|]. simpl. repeat constructor.
  - pose proof (inv_ring k B ep) as Hr. pose proof Hr as (_ & _ & Hc).
    destruct (Z.eqb_spec (e_count (endpoint k ep)) 8); intros [= <- <-]; [by apply mail_same|]. simpl Z.eqb. cbv iota.
    destruct (queue_push (endpoint k ep) m Hr ltac:(lia)) as [_ Hq].
    eapply mail_update; [done|exact Hep|apply set_endpoint_insert; by rewrite (inv_endpoints k B)|done|done|by repeat constructor|].
    rewrite Hq. constructor; [|constructor]. pose proof (length_queue (endpoint k ep) ltac:(lia)) as Hz. unfold zlen in Hz. lia.
Qed.

Lemma mail_send ti a b k r k' : ipc_base k -> 0 <= a -> sys_send ti a b k = Ret (r, k') -> mail_ok (send_events ti a b r k) k k'.
Proof.
  intros B Ha. unfold sys_send, send_events. destruct (cap k ti a RIGHT_SEND) as [s|] eqn:Ec; [|intros [= <- <-]; by apply mail_same].
  destruct (cap_Some k ti a _ s Ha Ec) as (_ & _ & _ & Hne & _). destruct (base_names k ti s B Hne) as (_ & Hep & Ho & _).
  unfold stamped. destruct (copy_in _ _ _ _) as [c bytes] eqn:Eci. cbn [snd].
  destruct (truthy c); [intros [= <- <-]; by apply mail_same|].
  set (k1 := k <| send_bytes ::= _ |>). destruct (message_bad _); [intros [= <- <-]; by apply mail_same|].
  destruct (_ && _); [intros [= <- <-]; by apply mail_same|]. intros Hd.
  assert (B1 : ipc_base k1) by (by apply base_same with k).
  exact (mail_deliver _ _ _ k1 r k' B1 Hep Hd).
Qed.

Lemma mail_recv ti a b c k : ipc_base k -> 0 <= a -> mail_ok (recv_events ti a b k) k (sys_recv ti a b c k).2.
Proof.
  intros B Ha. unfold sys_recv, recv_events. destruct (cap k ti a RIGHT_RECV) as [s|] eqn:Ec; [|by apply mail_same].
  destruct (cap_Some k ti a _ s Ha Ec) as (_ & _ & _ & Hne & _). destruct (base_names k ti s B Hne) as (_ & Hep & Ho & _).
  set (ep := ep_of (cap_of k ti s)) in *. destruct (user_range ti b _ true k) eqn:Eu; cbn [negb andb].
  2: { destruct (queue (endpoint k ep)); by apply mail_same. }
  pose proof (inv_ring k B ep) as Hr. pose proof Hr as (_ & _ & Hc). destruct (truthy (e_count (endpoint k ep))) eqn:Et.
  - apply truthy_true in Et. destruct (queue_pop (endpoint k ep) Hr ltac:(lia)) as [_ Hq].
    set (e' := _ <| e_count := _ |>) in Hq. rewrite Hq.
    pose proof (copy_out_same ti b (message_bytes (ring_at (endpoint k ep) 0)) k) as (_ & E2 & _).
    destruct (copy_out ti b _ k) as [x k1]. cbn [fst snd] in *. destruct (truthy x); [by apply mail_same|]. cbn [negb snd].
    apply (mail_update _ ep e'); [done|done| |done|done|by repeat constructor|].
    + rewrite set_endpoint_insert; [unfold endpoint; simpl; by rewrite E2|]. simpl. by rewrite E2, (inv_endpoints k B).
    + rewrite Hq. repeat constructor.
  - apply truthy_false in Et. assert (Hq : queue (endpoint k ep) = []) by (unfold queue; by rewrite Et). rewrite Hq.
    destruct (_ && _); by apply mail_same.
Qed.


(** Revocation is complete.  When [SYS_CAP_REVOKE] succeeds the caller was
    the endpoint's owner; afterwards no task holds a capability for the
    endpoint, its queue is empty, and every task that was blocked receiving on
    it is ready with [SF_REVOKED] as the result of its call. *)
Theorem revoke_is_complete m (h0 : H) a b c k k' : ipc_steps (boot_kernel m h0) k -> 0 <= a ->
  ipc_syscall SYS_CAP_REVOKE a b c k = Ret (0, k') ->
  let ti := Z.to_nat (current k) in
  exists s, cap k ti a RIGHT_DELEGATE = Some s /\
    let ep := ep_of (cap_of k ti s) in
    e_owner (endpoint k ep) = pid (task k ti) /\ e_owner (endpoint k' ep) = 0 /\ queue (endpoint k' ep) = [] /\
    (forall tj q, ~ names k' tj q ep) /\
    forall tj, t_state (task k tj) = T_BLOCKED -> wait_endpoint (task k tj) = Z.of_nat ep + 1 ->
      t_state (task k' tj) = T_READY /\ rax (frame (task k' tj)) = u64 SF_REVOKED.
Proof.
  intros Hr Ha. pose proof (ok_steps _ _ (boot_inv m h0) Hr) as [B _ _]. change (ipc_syscall _ _ _ _ k) with (Ret (sys_cap_revoke (Z.to_nat (current k)) a k)).
  set (ti := Z.to_nat (current k)). unfold sys_cap_revoke. destruct (cap k ti a RIGHT_DELEGATE) as [s|] eqn:Ec; [|done].
  destruct (cap_Some k ti a _ s Ha Ec) as (_ & _ & _ & Hne & _). destruct (base_names k ti s B Hne) as (_ & Hep & _).
  set (ep := ep_of (cap_of k ti s)) in *. destruct (Z.eqb_spec (e_owner (endpoint k ep)) (pid (task k ti))) as [Eo|]; [|done].
  cbn [negb]. intros [= <-]. exists s. split; [done|]. pose proof (inv_tasks k B) as Hl.
  assert (Hle : (ep < length (endpoints k))%nat) by (by rewrite (inv_endpoints k B)).
  destruct (invalidate_spec ep k Hl Hle) as (_ & _ & He & Ht). rewrite He, decide_True by done. fold ep.
  split; [done|]. split; [done|]. split; [done|]. split.
  - intros tj q. unfold names. rewrite invalidate_cap by done. unfold cleared.
    destruct (Z.eqb_spec (c_endpoint (cap_of k tj q)) (Z.of_nat ep + 1)); simpl; lia.
  - intros tj Hb Hw. rewrite Ht. case_decide as Hd.
    + unfold invalidate_task, in_tstate. by rewrite bool_decide_eq_true_2, Hw, Z.eqb_refl by done.
    + unfold task in Hb. rewrite list_lookup_total_alt, lookup_ge_None_2 in Hb by lia. done.
Qed.

End Mail.
