(* ===== verification/IpcDemo.v ===== *)
(** * A small kernel run

    One task, its page tables and an endpoint: a concrete run of the IPC
    events, for the theorems that speak of reachable states. *)

From S2P Require Import Prelude Bytes CMem Abi Kernel Memory Ipc IpcInv IpcCalls IpcSafe IpcMail.

#[local] Instance demo_layout : Layout :=
  {| pool := 0x1000000; kernel_pd := 0x10000; mmio_pd := 0x11000; mmio_pt := 0x12000; device_pt := 0x13000;
     dma := 0x14000; guard := 0x18000; vtd_tables := 0x20000; kernel_end := 0x100000 |}.

(** Tables at 0x2000 to 0x5000 that map the page 0x6000 at [SF_BASE], with a
    message header of 40 bytes, protocol 1.0, in it. *)
Definition demo_mem : mem :=
  foldl (fun m w => store64 m w.1 w.2) (fun _ => 0)
    [(0x2000, 0x3007); (0x3008, 0x4007); (0x4000, 0x5007); (0x5000, 0x6007); (0x6000, 0x100000028)].

Definition value {H} (o : outcome (Z * Kernel H)) : Z := match o with Ret (r, _) => r | Panic => -1 end.
Definition called {H} (o : outcome (Z * Kernel H)) (k : Kernel H) : Kernel H := match o with Ret (_, k') => k' | Panic => k end.
Definition returned {H} (o : outcome (Z * Kernel H)) : bool := match o with Ret _ => true | Panic => false end.

Lemma called_Ret {H} (o : outcome (Z * Kernel H)) k : returned o = true -> o = Ret (value o, called o k).
Proof. by destruct o as [[r k']|]. Qed.

Definition demo_boot : Kernel unit := boot_kernel demo_mem tt.
Definition demo_spawned : Kernel unit :=
  set_task 0 (finish T_READY) (grants 0 0 [] (set_task 0 (new_task 1) demo_boot)).
Definition demo_running : Kernel unit := (set_task 0 (fun t => t <| cr3 := 0x2000 |>) demo_spawned) <| current := 0 |>.
Definition demo_call (call a b c : Z) (k : Kernel unit) : Kernel unit := called (ipc_syscall call a b c k) k.
Definition demo_created : Kernel unit := demo_call SYS_EP_CREATE 0 0 0 demo_running.

Lemma demo_call_step k0 call a b c k : ipc_steps k0 k -> (Z.to_nat (current k) <? SF_MAX_TASKS)%nat = true ->
  in_tstate (task k (Z.to_nat (current k))) T_READY = true -> 0 <= a -> returned (ipc_syscall call a b c k) = true ->
  ipc_steps k0 (demo_call call a b c k).
Proof.
  intros Hs Hc Ht Ha Hr. eapply StepsSnoc; [exact Hs|]. eapply StepCall; [by apply Nat.ltb_lt| |exact Ha|by apply called_Ret].
  unfold in_tstate in Ht. by apply bool_decide_eq_true in Ht.
Qed.

(** Loading page tables and choosing the current task. *)
Lemma env_dispatch {H} i root c (k : Kernel H) : env_step k ((set_task i (fun t => t <| cr3 := root |>) k) <| current := c |>).
Proof.
  split; [apply length_set_task|]. split; [done|]. intros ti. change (task (?k <| current := c |>) ti) with (task k ti).
  rewrite task_set. case_decide as Hd; [|done]. destruct Hd as [-> _]. done.
Qed.

Lemma demo_running_steps : ipc_steps demo_boot demo_running.
Proof.
  apply StepsSnoc with demo_spawned; [|apply StepEnv, env_dispatch].
  eapply StepsSnoc; [apply StepsNil|]. eapply StepSpawn; [by left|by unfold SF_MAX_TASKS; lia|by split; [left|]| |done]. lia.
Qed.

Lemma demo_created_steps : ipc_steps demo_boot demo_created.
Proof. apply demo_call_step; [apply demo_running_steps|done|done|done|by vm_compute]. Qed.

Definition demo_closed : Kernel unit := demo_call SYS_CAP_CLOSE 257 0 0 demo_created.
Definition demo_reused : Kernel unit := demo_call SYS_EP_CREATE 0 0 0 demo_closed.

Lemma demo_closed_steps : ipc_steps demo_created demo_closed.
Proof. apply demo_call_step; [apply StepsNil|done|done|done|by vm_compute]. Qed.

Lemma demo_reused_steps : ipc_steps demo_closed demo_reused.
Proof. apply demo_call_step; [apply StepsNil|by vm_compute|by vm_compute|done|by vm_compute]. Qed.

Lemma demo_holds : holds demo_created 0 0 7.
Proof. exists 0%nat. split; by vm_compute. Qed.

Lemma reachable_ipc_sound_witness :
  ipc_steps demo_boot demo_created /\ e_owner (endpoint demo_created 0) = 1 /\ exists ti s, names demo_created ti s 0.
Proof.
  split; [apply demo_created_steps|]. split; [by vm_compute|].
  apply (reachable_ipc_sound demo_mem tt demo_created demo_created_steps). by vm_compute.
Defined.


Lemma stale_handle_stays_stale_witness :
  cap demo_created 0 257 0 = Some 0%nat /\ cap demo_closed 0 257 0 = None /\ cap demo_reused 0 513 RIGHT_SEND = Some 0%nat /\
  cap demo_reused 0 257 RIGHT_SEND = None.
Proof.
  split; [by vm_compute|]. split; [by vm_compute|]. split; [by vm_compute|].
  apply (stale_handle_stays_stale demo_mem tt demo_created demo_closed demo_reused 0 257 0 RIGHT_SEND demo_created_steps);
    [done|by vm_compute|apply demo_closed_steps|by vm_compute|apply demo_reused_steps].
Defined.


Lemma revoke_is_complete_witness :
  let revoked := demo_call SYS_CAP_REVOKE 257 0 0 demo_created in
  e_owner (endpoint demo_created 0) = 1 /\ e_owner (endpoint revoked 0) = 0.
Proof.
  split; [by vm_compute|].
  destruct (revoke_is_complete demo_mem tt 257 0 0 demo_created (demo_call SYS_CAP_REVOKE 257 0 0 demo_created) demo_created_steps)
    as (s & Hs & _ & Ho & _); [done|by apply (called_Ret (ipc_syscall SYS_CAP_REVOKE 257 0 0 demo_created) demo_created)|].
  assert (s = 0%nat) as -> by (vm_compute in Hs; congruence). exact Ho.
Defined.
