(* ===== verification/Vtd.v ===== *)
(** * DMA remapping

    The translation that the VT-d unit performs with the tables of
    [kernel/vtd_tables.c]: legacy root and context entries and a second stage
    of three levels.  The tables let one function of bus 0 reach the DMA arena
    and nothing else. *)

From S2P Require Import Prelude Bytes CMem Abi Kernel Memory Space Acpi Iommu SpaceInv KernelFrame.

(** ** The unit's walk *)

(** An entry of the second stage passes a request of the wanted kind. *)
Definition stage_allows (write : bool) (e : Z) : bool := Z.testbit e (if write then 1 else 0).

(** Request by [source] (bus, device and function) at [iova]: the physical
    address, or a fault.  Address width 1 is the three-level table. *)
Definition vtd_walk (m : mem) (root : Z) (write : bool) (source iova : Z) : option Z :=
  let re := load64 m (slot64 root (2 * Z.shiftr source 8)) in
  if negb (present re) then None
  else
    let context := frame_of re in
    let lo := load64 m (slot64 context (2 * Z.land source 255)) in
    let hi := load64 m (slot64 context (2 * Z.land source 255 + 1)) in
    if negb (present lo) || negb (Z.land (Z.shiftr lo 2) 3 =? 0) || negb (Z.land hi 7 =? 1) || (2 ^ 39 <=? iova) then None
    else
      let e3 := load64 m (slot64 (frame_of lo) (Z.land (Z.shiftr iova 30) 511)) in
      if negb (stage_allows write e3) then None
      else
        let e2 := load64 m (slot64 (frame_of e3) (Z.land (Z.shiftr iova 21) 511)) in
        if negb (stage_allows write e2) then None
        else
          let e1 := load64 m (slot64 (frame_of e2) (Z.land (Z.shiftr iova 12) 511)) in
          if negb (stage_allows write e1) then None else Some (frame_of e1 + iova mod 4096).

(** ** The tables *)

Lemma load_slot m t i j v : 0 <= v <= UINT64_MAX -> load64 (store64 m (slot64 t i) v) (slot64 t j) = if j =? i then v else load64 m (slot64 t j).
Proof.
  intros Hv. destruct (Z.eqb_spec j i) as [->|Hne]; [by apply load64_store64_same|]. apply load64_store64_other. unfold slot64. lia.
Qed.

Lemma slot_table t n i : slot64 (t + 4096 * n) i = slot64 t (512 * n + i).
Proof. unfold slot64. lia. Qed.

(** What [sf_vtd_tables] leaves in the five tables, as one array. *)
Definition vtd_entry (t bdf physical i : Z) : Z :=
  if (2048 <=? i) && (i <? 2048 + SF_DMA_BYTES / 4096) then Z.lor (physical + (i - 2048) * 4096) 3
  else if i =? 1536 + Z.shiftr SF_DMA_IOVA 21 then Z.lor (t + VTD_LEVEL1) 3
  else if i =? 1024 then Z.lor (t + VTD_LEVEL2) 3
  else if i =? 512 + bdf * 2 + 1 then 0x101
  else if i =? 512 + bdf * 2 then Z.lor (t + VTD_LEVEL3) 1
  else if i =? 0 then Z.lor (t + VTD_CONTEXT) 1
  else 0.

Lemma low_or p v : p mod 4096 = 0 -> 0 <= p < 0x40000000 -> 0 <= v < 4096 -> frame_of v = 0 ->
  frame_of (Z.lor p v) = p /\ 0 <= Z.lor p v <= UINT64_MAX /\ forall n, 0 <= n < 12 -> Z.testbit (Z.lor p v) n = Z.testbit v n.
Proof.
  intros Hp Hr Hv Hf. split; [|split].
  - rewrite frame_of_lor, (frame_of_page p), Hf, Z.lor_0_r by (done || lia). done.
  - rewrite (lor_disjoint 12) by (done || lia). sflia.
  - intros n Hn. by apply aligned_low_bits.
Qed.

(** The first [n] pages of the arena are mapped, over what was there. *)
Lemma vtd_pages t physical m n : 0 <= physical -> physical + SF_DMA_BYTES <= 0x40000000 -> physical mod 4096 = 0 -> (n <= 16)%nat ->
  forall i, load64 (loop n (fun i m => store64 m (slot64 (t + VTD_LEVEL1) (Z.of_nat i)) (Z.lor (physical + Z.of_nat i * 4096) 3)) m) (slot64 t i) =
    if (2048 <=? i) && (i <? 2048 + Z.of_nat n) then Z.lor (physical + (i - 2048) * 4096) 3 else load64 m (slot64 t i).
Proof.
  intros Hp He Ha. unfold SF_DMA_BYTES in He.
  apply (loop_inv (fun n m' => (n <= 16)%nat -> forall i, load64 m' (slot64 t i) =
    if (2048 <=? i) && (i <? 2048 + Z.of_nat n) then Z.lor (physical + (i - 2048) * 4096) 3 else load64 m (slot64 t i))).
  - intros _ i. destruct (Z.leb_spec 2048 i), (Z.ltb_spec i (2048 + Z.of_nat 0)); cbn [andb]; done || lia.
  - intros j m' Hj IH Hn i.
    assert (Hx : (physical + Z.of_nat j * 4096) mod 4096 = 0) by (by rewrite Z.mod_add).
    destruct (low_or (physical + Z.of_nat j * 4096) 3 Hx) as (_ & Hb & _); [lia|lia|done|].
    change VTD_LEVEL1 with (4096 * 4). rewrite slot_table, load_slot, IH by (done || lia). destruct (Z.eqb_spec i (512 * 4 + Z.of_nat j)) as [->|Hne].
    + destruct (Z.leb_spec 2048 (512 * 4 + Z.of_nat j)); [|lia]. destruct (Z.ltb_spec (512 * 4 + Z.of_nat j) (2048 + Z.of_nat (S j))); [|lia].
      cbn [andb]. f_equal. lia.
    + destruct (Z.leb_spec 2048 i); [|done]. destruct (Z.ltb_spec i (2048 + Z.of_nat j)), (Z.ltb_spec i (2048 + Z.of_nat (S j))); cbn [andb]; done || lia.
Qed.

(** What the unit can be told of. *)
Record vtd_args (t bdf physical : Z) : Prop := { va_t : 0 <= t; va_bdf : 0 <= bdf; va_physical : 0 <= physical }.

Lemma vtd_accepts t bdf physical m m' : vtd_args t bdf physical -> sf_vtd_tables t t bdf physical m = (0, m') ->
  t mod 4096 = 0 /\ physical mod 4096 = 0 /\ t + sizeof_SfVtdTables <= 0x40000000 /\ physical + SF_DMA_BYTES <= 0x40000000 /\ bdf < 256.
Proof.
  intros [Ht Hb Hp]. unfold sf_vtd_tables. destruct (truthy (Z.land (Z.lor t physical) 4095)) eqn:Ea; [done|]. cbn [orb].
  destruct (Z.leb_spec 0x40000000 t); [done|]. destruct (Z.ltb_spec (0x40000000 - t) sizeof_SfVtdTables); [done|].
  destruct (Z.leb_spec 0x40000000 physical); [done|]. destruct (Z.ltb_spec (0x40000000 - physical) SF_DMA_BYTES); [done|].
  destruct (Z.leb_spec 256 bdf); [done|]. intros _. apply truthy_false in Ea. rewrite Z.land_lor_distr_l in Ea.
  apply Z.lor_eq_0_iff in Ea as [E1 E2]. rewrite !land_4095 in *. repeat split; done || lia.
Qed.

Lemma vtd_table_entries t bdf physical m m' : vtd_args t bdf physical -> sf_vtd_tables t t bdf physical m = (0, m') ->
  forall i, 0 <= i < 2560 -> load64 m' (slot64 t i) = vtd_entry t bdf physical i.
Proof.
  intros Ha E. pose proof Ha as [Ht Hb Hp]. destruct (vtd_accepts _ _ _ _ _ Ha E) as (At & Ap & Bt & Bp & Bb). unfold sizeof_SfVtdTables, SF_DMA_BYTES in *.
  revert E. unfold sf_vtd_tables. destruct (_ || _); [discriminate|]. cbv zeta. intros E. apply pair_equal_spec in E as [_ <-]. intros i Hi.
  rewrite vtd_pages by (unfold SF_DMA_BYTES; done || lia). unfold vtd_entry. change (Z.of_nat (Z.to_nat (SF_DMA_BYTES / 4096))) with 16. change (SF_DMA_BYTES / 4096) with 16.
  destruct (_ && _); [done|]. unfold VTD_CONTEXT, VTD_LEVEL3, VTD_LEVEL2, VTD_LEVEL1.
  assert (Hm : forall n, 0 <= n <= 4 -> (t + 4096 * n) mod 4096 = 0) by (intros n _; rewrite Z.mul_comm, Z.mod_add by lia; done).
  assert (Hl : forall n v, 0 <= n <= 4 -> 0 <= v < 4096 -> frame_of v = 0 -> 0 <= Z.lor (t + 4096 * n) v <= UINT64_MAX).
  { intros n v Hn Hv Hf. by apply (low_or (t + 4096 * n) v); [apply Hm| | |]; lia. }
  pose proof (Hl 4 3 ltac:(lia) ltac:(lia) eq_refl). pose proof (Hl 3 3 ltac:(lia) ltac:(lia) eq_refl).
  pose proof (Hl 2 1 ltac:(lia) ltac:(lia) eq_refl). pose proof (Hl 1 1 ltac:(lia) ltac:(lia) eq_refl).
  change 16384 with (4096 * 4). change 12288 with (4096 * 3). change 8192 with (4096 * 2). replace (t + 4096) with (t + 4096 * 1) by lia.
  rewrite !slot_table. rewrite !load_slot by (done || sflia). change (512 * 3) with 1536. change (512 * 2 + 0) with 1024. rewrite !Z.add_assoc. change (512 * 1) with 512.
  repeat (match goal with |- (if ?b then _ else _) = _ => destruct b; [done|] end).
  apply load64_zero; unfold slot64; sflia.
Qed.

(** ** What the unit lets through *)

Lemma stage_none write e : e = 0 -> stage_allows write e = false.
Proof. intros ->. unfold stage_allows. by destruct write. Qed.

Lemma stage_some p write : p mod 4096 = 0 -> 0 <= p < 0x40000000 -> stage_allows write (Z.lor p 3) = true /\ frame_of (Z.lor p 3) = p.
Proof.
  intros Hp Hr. destruct (low_or p 3 Hp Hr) as (F & _ & B); [lia|done|]. split; [|done]. unfold stage_allows. by destruct write; rewrite B.
Qed.

Lemma index9 x n : 0 <= n -> Z.land (Z.shiftr x n) 511 = (x / 2 ^ n) mod 512.
Proof. intros Hn. change 511 with (Z.ones 9). rewrite Z.land_ones, Z.shiftr_div_pow2 by lia. done. Qed.

Section Walk.
Context (t bdf physical : Z) (m m' : mem).
Hypothesis Hargs : vtd_args t bdf physical.
Hypothesis Hset : sf_vtd_tables t t bdf physical m = (0, m').

Let entry i (Hi : 0 <= i < 2560) := vtd_table_entries t bdf physical m m' Hargs Hset i Hi.

(** A table of the five. *)
Lemma table_at n : 0 <= n <= 4 -> (t + 4096 * n) mod 4096 = 0 /\ 0 <= t + 4096 * n < 0x40000000.
Proof.
  destruct (vtd_accepts _ _ _ _ _ Hargs Hset) as (At & _ & Bt & _). intros Hn. unfold sizeof_SfVtdTables in Bt. pose proof (va_t _ _ _ Hargs).
  split; [|lia]. by rewrite Z.mul_comm, Z.mod_add by lia.
Qed.

(** The root: bus 0 only. *)
Lemma root_entry source : 0 <= source < 65536 ->
  load64 m' (slot64 t (2 * Z.shiftr source 8)) = if source <? 256 then Z.lor (t + VTD_CONTEXT) 1 else 0.
Proof.
  intros Hs. rewrite Z.shiftr_div_pow2 by lia. change (2 ^ 8) with 256. pose proof (Z.div_mod source 256 ltac:(lia)).
  pose proof (Z.mod_pos_bound source 256 ltac:(lia)). rewrite entry by lia. pose proof (va_bdf _ _ _ Hargs). unfold vtd_entry. change (SF_DMA_BYTES / 4096) with 16.
  change (Z.shiftr SF_DMA_IOVA 21) with 8. set (q := source / 256) in *. clearbody q.
  destruct (Z.leb_spec 2048 (2 * q)); [lia|]. destruct (Z.eqb_spec (2 * q) (1536 + 8)); [lia|]. destruct (Z.eqb_spec (2 * q) 1024); [lia|].
  destruct (Z.eqb_spec (2 * q) (512 + bdf * 2 + 1)); [lia|]. destruct (Z.eqb_spec (2 * q) (512 + bdf * 2)); [lia|]. cbn [andb].
  destruct (Z.eqb_spec (2 * q) 0), (Z.ltb_spec source 256); done || lia.
Qed.

(** The contexts: the one function. *)
Lemma context_entry source : 0 <= source < 256 ->
  load64 m' (slot64 (t + 4096 * 1) (2 * source)) = (if source =? bdf then Z.lor (t + VTD_LEVEL3) 1 else 0) /\
  (source = bdf -> load64 m' (slot64 (t + 4096 * 1) (2 * source + 1)) = 0x101).
Proof.
  intros Hs. destruct (vtd_accepts _ _ _ _ _ Hargs Hset) as (_ & _ & _ & _ & Bb). pose proof (va_bdf _ _ _ Hargs). rewrite !slot_table. unfold vtd_entry. split.
  - rewrite entry by lia. unfold vtd_entry. change (SF_DMA_BYTES / 4096) with 16. change (Z.shiftr SF_DMA_IOVA 21) with 8. set (i := 512 * 1 + 2 * source).
    destruct (Z.leb_spec 2048 i); [lia|]. destruct (Z.eqb_spec i (1536 + 8)); [lia|]. destruct (Z.eqb_spec i 1024); [lia|].
    destruct (Z.eqb_spec i (512 + bdf * 2 + 1)); [lia|]. cbn [andb].
    destruct (Z.eqb_spec i (512 + bdf * 2)), (Z.eqb_spec source bdf); [done|lia|lia|]. destruct (Z.eqb_spec i 0); [lia|done].
  - intros ->. rewrite entry by lia. unfold vtd_entry. change (SF_DMA_BYTES / 4096) with 16. change (Z.shiftr SF_DMA_IOVA 21) with 8. set (i := 512 * 1 + (2 * bdf + 1)).
    destruct (Z.leb_spec 2048 i); [lia|]. destruct (Z.eqb_spec i (1536 + 8)); [lia|]. destruct (Z.eqb_spec i 1024); [lia|].
    destruct (Z.eqb_spec i (512 + bdf * 2 + 1)); [done|lia].
Qed.

(** The second stage. *)
Lemma level_entry n i : 2 <= n <= 4 -> 0 <= i < 512 -> load64 m' (slot64 (t + 4096 * n) i) =
  if n =? 2 then (if i =? 0 then Z.lor (t + 4096 * 3) 3 else 0)
  else if n =? 3 then (if i =? 8 then Z.lor (t + 4096 * 4) 3 else 0)
  else (if i <? 16 then Z.lor (physical + i * 4096) 3 else 0).
Proof.
  intros Hn Hi. destruct (vtd_accepts _ _ _ _ _ Hargs Hset) as (_ & _ & _ & _ & Bb). pose proof (va_bdf _ _ _ Hargs). rewrite slot_table, entry by lia.
  unfold vtd_entry. change (SF_DMA_BYTES / 4096) with 16. change (Z.shiftr SF_DMA_IOVA 21) with 8. change VTD_LEVEL1 with (4096 * 4). change VTD_LEVEL2 with (4096 * 3).
  assert (Hc : n = 2 \/ n = 3 \/ n = 4) by lia. destruct Hc as [->|[->| ->]]; cbn [Z.eqb Pos.eqb].
  - destruct (Z.leb_spec 2048 (512 * 2 + i)); [lia|]. cbn [andb]. destruct (Z.eqb_spec (512 * 2 + i) (1536 + 8)); [lia|].
    destruct (Z.eqb_spec (512 * 2 + i) 1024), (Z.eqb_spec i 0); [done|lia|lia|]. destruct (Z.eqb_spec (512 * 2 + i) (512 + bdf * 2 + 1)); [lia|].
    destruct (Z.eqb_spec (512 * 2 + i) (512 + bdf * 2)); [lia|]. destruct (Z.eqb_spec (512 * 2 + i) 0); [lia|done].
  - destruct (Z.leb_spec 2048 (512 * 3 + i)); [lia|]. cbn [andb]. destruct (Z.eqb_spec (512 * 3 + i) (1536 + 8)), (Z.eqb_spec i 8); [done|lia|lia|].
    destruct (Z.eqb_spec (512 * 3 + i) 1024); [lia|]. destruct (Z.eqb_spec (512 * 3 + i) (512 + bdf * 2 + 1)); [lia|].
    destruct (Z.eqb_spec (512 * 3 + i) (512 + bdf * 2)); [lia|]. destruct (Z.eqb_spec (512 * 3 + i) 0); [lia|done].
  - destruct (Z.leb_spec 2048 (512 * 4 + i)); [|lia]. cbn [andb]. destruct (Z.ltb_spec (512 * 4 + i) (2048 + 16)), (Z.ltb_spec i 16); [f_equal; lia|lia|lia|].
    destruct (Z.eqb_spec (512 * 4 + i) (1536 + 8)); [lia|]. destruct (Z.eqb_spec (512 * 4 + i) 1024); [lia|].
    destruct (Z.eqb_spec (512 * 4 + i) (512 + bdf * 2 + 1)); [lia|]. destruct (Z.eqb_spec (512 * 4 + i) (512 + bdf * 2)); [lia|].
    destruct (Z.eqb_spec (512 * 4 + i) 0); [lia|done].
Qed.

(** The three levels, for an address the width allows. *)
Lemma stage_walk write iova : 0 <= iova < 2 ^ 39 ->
  (let e3 := load64 m' (slot64 (t + 4096 * 2) (Z.land (Z.shiftr iova 30) 511)) in
   if negb (stage_allows write e3) then None
   else
     let e2 := load64 m' (slot64 (frame_of e3) (Z.land (Z.shiftr iova 21) 511)) in
     if negb (stage_allows write e2) then None
     else
       let e1 := load64 m' (slot64 (frame_of e2) (Z.land (Z.shiftr iova 12) 511)) in
       if negb (stage_allows write e1) then None else Some (frame_of e1 + iova mod 4096)) =
  if (SF_DMA_IOVA <=? iova) && (iova <? SF_DMA_IOVA + SF_DMA_BYTES) then Some (physical + (iova - SF_DMA_IOVA)) else None.
Proof.
  intros Hi. destruct (vtd_accepts _ _ _ _ _ Hargs Hset) as (_ & Ap & _ & Bp & _). pose proof (va_physical _ _ _ Hargs) as Hp0. unfold SF_DMA_IOVA, SF_DMA_BYTES in *.
  rewrite !index9 by lia. cbv zeta. change (2 ^ 12) with 4096.
  pose proof (Z.div_mod iova 4096 ltac:(lia)) as D1. pose proof (Z.mod_pos_bound iova 4096 ltac:(lia)) as M1.
  pose proof (Z.div_mod (iova / 4096) 512 ltac:(lia)) as D2. pose proof (Z.mod_pos_bound (iova / 4096) 512 ltac:(lia)) as M2.
  assert (Q2 : iova / 2 ^ 21 = iova / 4096 / 512) by (by rewrite Z.div_div by lia).
  pose proof (Z.div_mod (iova / 4096 / 512) 512 ltac:(lia)) as D3. pose proof (Z.mod_pos_bound (iova / 4096 / 512) 512 ltac:(lia)) as M3.
  assert (Q3 : iova / 2 ^ 30 = iova / 4096 / 512 / 512) by (by rewrite !Z.div_div by lia).
  assert (Q4 : 0 <= iova / 4096 / 512 / 512 < 512) by (rewrite <-Q3; split; [apply Z.div_pos; lia|apply Z.div_lt_upper_bound; lia]).
  rewrite Q3, Q2, (Z.mod_small (iova / 4096 / 512 / 512)) by done. set (c := (iova / 4096) mod 512) in *. set (b := (iova / 4096 / 512) mod 512) in *.
  set (a := iova / 4096 / 512 / 512) in *. set (z := iova mod 4096) in *.
  assert (Ei : iova = 4096 * (512 * (512 * a + b) + c) + z) by lia. clearbody a b c z. clear D1 D2 D3 Q2 Q3. rewrite (level_entry 2 a) by lia. cbn [Z.eqb Pos.eqb].
  assert (Hno : a <> 0 \/ b <> 8 \/ 16 <= c -> (16777216 <=? iova) && (iova <? 16777216 + 65536) = false).
  { intros Hc. destruct (Z.leb_spec 16777216 iova); [|done]. destruct (Z.ltb_spec iova (16777216 + 65536)); [lia|done]. }
  destruct (Z.eqb_spec a 0) as [->|Ha]; [|rewrite stage_none by done; cbn [negb]; by rewrite Hno by lia].
  destruct (table_at 3 ltac:(lia)) as [T3 R3]. destruct (stage_some (t + 4096 * 3) write T3 R3) as [-> ->]. cbn [negb]. rewrite (level_entry 3 b) by lia. cbn [Z.eqb Pos.eqb].
  destruct (Z.eqb_spec b 8) as [->|Hb]; [|rewrite stage_none by done; cbn [negb]; by rewrite Hno by lia].
  destruct (table_at 4 ltac:(lia)) as [T4 R4]. destruct (stage_some (t + 4096 * 4) write T4 R4) as [-> ->]. cbn [negb]. rewrite (level_entry 4 c) by lia. cbn [Z.eqb Pos.eqb].
  destruct (Z.ltb_spec c 16) as [Hc|Hc]; [|rewrite stage_none by done; cbn [negb]; by rewrite Hno by lia].
  destruct (stage_some (physical + c * 4096) write) as [-> ->]; [by rewrite Z.mod_add|lia|]. cbn [negb].
  destruct (Z.leb_spec 16777216 iova); [|lia]. destruct (Z.ltb_spec iova (16777216 + 65536)); [|lia]. cbn [andb]. f_equal. lia.
Qed.

End Walk.

(** The tables let one function reach the arena and nothing else. *)
Lemma vtd_confined t bdf physical m m' write source iova :
  vtd_args t bdf physical -> sf_vtd_tables t t bdf physical m = (0, m') -> 0 <= source < 65536 -> 0 <= iova ->
  vtd_walk m' t write source iova =
    if (source =? bdf) && ((SF_DMA_IOVA <=? iova) && (iova <? SF_DMA_IOVA + SF_DMA_BYTES)) then Some (physical + (iova - SF_DMA_IOVA)) else None.
Proof.
  intros Ha Hset Hs Hi. unfold vtd_walk. rewrite (root_entry t bdf physical m m' Ha Hset) by done. destruct (vtd_accepts _ _ _ _ _ Ha Hset) as (_ & _ & _ & _ & Bb).
  destruct (Z.ltb_spec source 256) as [Hb|Hb].
  2: { change (present 0) with false. cbn [negb]. destruct (Z.eqb_spec source bdf); [lia|done]. }
  destruct (table_at t bdf physical m m' Ha Hset 1 ltac:(lia)) as [T1 R1]. destruct (table_at t bdf physical m m' Ha Hset 2 ltac:(lia)) as [T2 R2].
  change VTD_CONTEXT with (4096 * 1). destruct (low_or (t + 4096 * 1) 1 T1 R1) as (F1 & _ & P1); [lia|done|]. unfold present at 1. rewrite P1, F1 by lia. cbn [negb Z.testbit].
  change 255 with (Z.ones 8). rewrite Z.land_ones, Z.mod_small by lia. destruct (context_entry t bdf physical m m' Ha Hset source ltac:(lia)) as [-> Eh].
  destruct (Z.eqb_spec source bdf) as [->|Hne]; cbn [andb]; [|done]. rewrite (Eh eq_refl). change VTD_LEVEL3 with (4096 * 2).
  destruct (low_or (t + 4096 * 2) 1 T2 R2) as (F2 & _ & P2); [lia|done|].
  assert (El : Z.land (Z.shiftr (Z.lor (t + 4096 * 2) 1) 2) 3 = 0).
  { rewrite (lor_disjoint 12) by (done || lia). change 3 with (Z.ones 2). rewrite Z.land_ones, Z.shiftr_div_pow2 by lia. change (2 ^ 2) with 4.
    pose proof (Z.div_mod (t + 4096 * 2) 4096 ltac:(lia)). rewrite T2 in *. set (q := (t + 4096 * 2) / 4096) in *.
    replace (t + 4096 * 2 + 1) with (1 + (1024 * q) * 4) by lia. rewrite Z.div_add by lia. change (1 / 4) with 0. rewrite Z.add_0_l.
    replace (1024 * q) with (256 * q * 4) by lia. by rewrite Z.mod_mul. }
  unfold present at 1. rewrite P2, El, F2 by lia. change (Z.land 257 7 =? 1) with true. cbn [negb orb Z.testbit Z.eqb].
  destruct (Z.leb_spec (2 ^ 39) iova).
  - destruct (Z.ltb_spec iova (SF_DMA_IOVA + SF_DMA_BYTES)); [unfold SF_DMA_IOVA, SF_DMA_BYTES in *; lia|]. by rewrite andb_false_r.
  - by apply (stage_walk t bdf physical m m' Ha Hset).
Qed.

(** ** Granting and revoking *)

Section Unit.
Context {H : Type} `{LO : LayoutOk} `{HW : Hardware H}.
Implicit Types (k : Kernel H).

Definition same_memory k k' : Prop := memory k' = memory k.

Lemma same_w64 k0 k off v : same_memory k0 k -> same_memory k0 (w64 off v k).
Proof. done. Qed.
Lemma same_r64 k0 k off : same_memory k0 k -> same_memory k0 (r64 off k).2.
Proof. unfold r64. by destruct (reg_read64 _ _). Qed.
Lemma same_fail k0 k : same_memory k0 k -> same_memory k0 (invalidate_fail k).2.
Proof. done. Qed.
#[local] Hint Resolve same_w64 same_r64 same_fail : dev.

Lemma same_poll n test k0 : (forall k, same_memory k0 k -> same_memory k0 (test k).2) -> forall k, same_memory k0 k -> same_memory k0 (poll n test k).2.
Proof.
  intros Ht. induction n as [|n IH]; intros k Hk; cbn [poll]; [done|]. specialize (Ht k Hk). destruct (test k) as [[] k1]; [done|by apply IH].
Qed.

Lemma same_wait64 k0 k off mask : same_memory k0 k -> same_memory k0 (wait64 off mask k).2.
Proof. apply same_poll. intros k1 Hk. pose proof (same_r64 k0 k1 off Hk). by destruct (r64 off k1). Qed.
#[local] Hint Resolve same_wait64 : dev.

Lemma same_invalidate k0 k : same_memory k0 k -> same_memory k0 (iommu_invalidate k).2.
Proof. intros. unfold iommu_invalidate. dev_run. Qed.

(** C17. A grant that the remapping unit accepts lets exactly the granted
    function reach exactly the DMA arena at the fixed bus address, for reads
    and writes; every other source and every other address faults. *)
Theorem dma_confined bdf k address k' : 0 <= bdf -> iommu_mode k = 1 -> iommu_grant bdf dma k = (0, address, k') ->
  address = SF_DMA_IOVA /\ active_bdf (iommu k') = bdf /\
  forall write source iova, 0 <= source < 65536 -> 0 <= iova -> vtd_walk (memory k') vtd_tables write source iova =
    if (source =? bdf) && ((SF_DMA_IOVA <=? iova) && (iova <? SF_DMA_IOVA + SF_DMA_BYTES)) then Some (dma + (iova - SF_DMA_IOVA)) else None.
Proof.
  intros Hb Hm. unfold iommu_grant. rewrite Hm. cbn [Z.eqb Pos.eqb negb orb]. destruct (negb _); [discriminate|]. destruct (_ || _); [discriminate|].
  destruct (sf_vtd_tables _ _ _ _ _) as [r m'] eqn:Et. destruct (truthy r) eqn:Er.
  { cbv zeta beta iota. rewrite Er. discriminate. }
  apply truthy_false in Er as ->. set (k1 := k <| memory := m' |>). pose proof (same_invalidate k1 k1 eq_refl) as Hs.
  destruct (iommu_invalidate k1) as [x k2]. cbn [snd] in Hs. destruct (truthy x); [discriminate|]. intros E. injection E as <- <-.
  split; [done|]. split; [done|]. intros write source iova Hsrc Hi. cbn. change (memory k2 = m') in Hs. rewrite Hs.
  apply (vtd_confined _ _ _ (memory k)); [|done|done|done]. constructor; [apply vtd_positive|done|]. pose proof dma_bounds. lia.
Qed.

Lemma vtd_empty m t write source iova : 0 <= source < 65536 -> vtd_walk (mwrite m t (fill 0 sizeof_SfVtdTables)) t write source iova = None.
Proof.
  intros Hs. unfold vtd_walk. rewrite load64_zero; [done| |]; unfold slot64, sizeof_SfVtdTables; rewrite Z.shiftr_div_pow2 by lia; change (2 ^ 8) with 256;
    pose proof (Z.div_mod source 256 ltac:(lia)); pose proof (Z.mod_pos_bound source 256 ltac:(lia)); lia.
Qed.

(** Once the unit has accepted the revocation of the active function no
    request of any function is translated any more. *)
Theorem dma_revoked bdf k k' : iommu_mode k = 1 -> active_bdf (iommu k) <> UINT32_MAX -> iommu_revoke bdf k = (0, k') ->
  active_bdf (iommu k) = bdf /\ active_bdf (iommu k') = UINT32_MAX /\
  forall write source iova, 0 <= source < 65536 -> vtd_walk (memory k') vtd_tables write source iova = None.
Proof.
  intros Hm Ha. unfold iommu_revoke. rewrite Hm. cbn [Z.eqb Pos.eqb negb]. rewrite (proj2 (Z.eqb_neq _ _) Ha).
  destruct (Z.eqb_spec (active_bdf (iommu k)) bdf) as [Eb|]; [|discriminate]. cbn [negb]. cbv zeta.
  destruct (iommu_invalidate _) as [x k2]. destruct (truthy x); [discriminate|]. intros E. injection E as <-.
  split; [done|]. split; [done|]. intros write source iova Hs. by apply vtd_empty.
Qed.

End Unit.
