(* ===== verification/MachineDemo.v ===== *)
(** * A machine that boots and spawns

    A concrete machine: a pool of 16 MB, no PCI device, one memory range and an
    image of one page whose first bytes are a load plan.  It boots, and its
    first task spawns a second one from the plan. *)

From S2P Require Import Prelude Bytes CMem Abi Sched Arguments Kernel Memory Space Ipc Acpi Iommu Device Core IpcInv IpcSafe SpaceInv KernelFrame SpaceKernel KernelRun SpaceRun Isolation FirstTask Vtd.

#[local] Instance small_layout : Layout :=
  {| pool := 0x1000000; kernel_pd := 0x10000; mmio_pd := 0x11000; mmio_pt := 0x12000; device_pt := 0x13000;
     dma := 0x20000; guard := 0x18000; vtd_tables := 0x40000; kernel_end := 0x2000000 |}.

#[local] Instance small_layout_ok : LayoutOk.
Proof. constructor; unfold apart; cbn; unfold POOL_BYTES, SF_DMA_BYTES; try lia; reflexivity. Qed.

(** Nothing answers on the bus. *)
#[local] Instance bare_machine : Hardware unit :=
  {| inb := fun h _ => (0, h); inw := fun h _ => (0, h); inl := fun h _ => (UINT32_MAX, h);
     outb := fun h _ _ => h; outw := fun h _ _ => h; outl := fun h _ _ => h;
     mmio_read8 := fun h _ => (0, h); mmio_write8 := fun h _ _ => h;
     reg_read32 := fun h _ => (0, h); reg_read64 := fun h _ => (0, h); reg_write32 := fun h _ _ => h; reg_write64 := fun h _ _ => h;
     fx_save := fun _ => []; fx_restore := fun _ h => h; cpuid_edx := fun _ => 0x07000001 |}.

(** A memory map of one range of 1 GB, and the image with its plan: one
    executable segment, a copy of the image itself. *)
Definition loaded : mem :=
  foldl (fun m w => store64 m w.1 w.2) (fun _ => 0)
    [(0x3000000, 0); (0x3000010, 0x40000); (0x3000020, 1);
     (0x3200000, 832 + 2 ^ 32); (0x3200038, 4096); (0x3200040, SF_BASE); (0x3200048, 5)].

Definition small_boot : SfBootInfo :=
  MkBootInfo 0x3001000 0x5f1f0f05 1 0x3000000 40 40 1 0 472 1 1 0 0x3100000 4096 [MkBootSegment 0x3200000 0 4096 4096 5 0].

Definition spawn_frame : Frame := zero_frame <| vector := 128 |> <| cs := 0x1b |> <| rax := SYS_SPAWN |> <| rdi := SF_BASE |> <| rsp := SF_STACK - 8 |>.

(** A byte of the stack of a task. *)
Definition stack_byte (k : Kernel unit) (ti : nat) : option Z :=
  match walk (memory k) (cr3 (task k ti)) (SF_STACK - 16) with
  | Some (a, es) => if forallb user_bit es && forallb writable es then Some a else None
  | None => None
  end.

Definition is_some {A} (o : option A) : bool := match o with Some _ => true | None => false end.
Definition pid_1_canonical (k : Kernel unit) : bool :=
  all_below (fun i => negb (pid (task k i) =? 1) || negb (noncanonical (rsp (frame (task k i))))) SF_MAX_TASKS.

(** The run in one expression, evaluated once. *)
Definition summary (o : outcome (resume * Kernel unit)) (trap : Kernel unit -> outcome (resume * Kernel unit)) : option (nat * nat * Z * Z) :=
  match o with
  | Ret (Scheduled (Some n), k) =>
      match trap k with
      | Ret (Scheduled (Some n'), k') =>
          if alive (task k' 0) && alive (task k' 1) && is_some (stack_byte k' 0) && pid_1_canonical k'
          then Some (n, n', page_count (task k' 1), pid (task k' 1)) else None
      | _ => None
      end
  | _ => None
  end.

(** What the run shows of the state [k] it ends in. *)
Record two_tasks (k : Kernel unit) : Prop := {
  tt_runs : machine_runs small_boot loaded tt 0x9000 (Some 1%nat, k);
  tt_first : alive (task k 0) = true; tt_second : alive (task k 1) = true;
  tt_stack : exists a, user_writes (memory k) (cr3 (task k 0)) (SF_STACK - 16) a;
  tt_canonical : pid_1_canonical k = true;
  tt_pages : page_count (task k 1) = 24; tt_pid : pid (task k 1) = 2
}.

Lemma spawn_user : user_frame spawn_frame.
Proof. split; [|discriminate]. split; [|split; [|split]]; discriminate. Qed.

Lemma stack_writable k ti : is_some (stack_byte k ti) = true -> exists a, user_writes (memory k) (cr3 (task k ti)) (SF_STACK - 16) a.
Proof.
  unfold stack_byte. destruct (walk _ _ _) as [[a es]|] eqn:E; [|discriminate]. destruct (_ && _) eqn:Ec; [|discriminate].
  intros _. apply andb_prop in Ec as [H1 H2]. by exists a, es.
Qed.

Lemma summary_facts o trap :
  (forall n k, o = Ret (Scheduled n, k) -> machine_runs small_boot loaded tt 0x9000 (n, k)) ->
  (forall k n k', trap k = Ret (Scheduled n, k') -> machine_step (Some 0%nat, k) (n, k')) ->
  summary o trap = Some (0%nat, 1%nat, 24, 2) -> exists k, two_tasks k.
Proof.
  intros Ho Ht. unfold summary. destruct o as [[[|[n|]] k]|]; intros E; try discriminate E.
  destruct (trap k) as [[[|[n'|]] k']|] eqn:Et; try discriminate E.
  destruct (_ && _) eqn:Ec; [|discriminate E]. apply andb_prop in Ec as [Ec H1]. apply andb_prop in Ec as [Ec H2]. apply andb_prop in Ec as [H3 H4].
  injection E as -> -> Hc Hp. exists k'. constructor; try assumption; [|by apply stack_writable].
  exact (RunStep _ _ _ _ _ _ (Ho _ _ eq_refl) (Ht _ _ _ Et)).
Qed.

Lemma run_evaluates : summary (kernel_main small_boot (power_on loaded tt 0x9000)) (interrupt_dispatch 0 spawn_frame) = Some (0%nat, 1%nat, 24, 2).
Proof. lazy. reflexivity. Qed.

Lemma two_tasks_run : exists k, two_tasks k.
Proof.
  refine (summary_facts _ _ _ _ run_evaluates).
  - intros n k E. exact (RunBoot _ _ _ _ _ _ E).
  - intros k n k' E. exact (MTrap _ _ _ _ _ _ spawn_user E).
Qed.

Lemma small_firmware : firmware_tables loaded 0x9000.
Proof.
  assert (E4 : frame_of (load64 loaded (slot64 0x9000 0)) = 0) by (lazy; reflexivity).
  assert (E3 : frame_of (load64 loaded (slot64 0 3)) = 0) by (lazy; reflexivity).
  unfold firmware_tables. cbv zeta. rewrite E4, E3. unfold apart, slot64, POOL_BYTES. change guard with 0x18000. change pool with 0x1000000. lia.
Qed.

Lemma small_bundle : bundle_apart small_boot.
Proof. unfold bundle_apart, apart. cbn. unfold POOL_BYTES, SF_DMA_BYTES. lia. Qed.



(** The second task owns twenty-four pages. *)
Lemma pages_accounted_witness : exists k, two_tasks k /\ pages_of k 2 = 24.
Proof.
  destruct two_tasks_run as [k Hk]. exists k. split; [exact Hk|].
  destruct (proj1 (pages_accounted small_boot loaded tt 0x9000 small_firmware small_bundle (Some 1%nat, k) (tt_runs k Hk)) 1%nat (tt_second k Hk)) as [E _].
  cbn [snd] in E. rewrite (tt_pid k Hk), (tt_pages k Hk) in E. symmetry. exact E.
Defined.

(** A page fault of the second task does not stop the machine. *)
Definition fault_frame : Frame := zero_frame <| vector := 14 |> <| cs := 0x1b |>.

Lemma fault_user : user_frame fault_frame.
Proof. split; [|discriminate]. split; [|split; [|split]]; discriminate. Qed.


(** The second task has the processor, under its own tables. *)
Lemma machine_refines_events_witness : exists k, two_tasks k /\ ipc_steps (boot_kernel loaded tt) k /\ live_cr3 k = cr3 (task k 1).
Proof.
  destruct two_tasks_run as [k Hk]. exists k. split; [exact Hk|].
  destruct (machine_refines_events small_boot loaded tt 0x9000 small_firmware (Some 1%nat, k) (tt_runs k Hk)) as [Hs Hr].
  split; [exact Hs|]. exact (re_space _ _ (Hr 1%nat eq_refl)).
Defined.

(** A kernel with one ready task and one on an impossible stack. *)
Definition one_ready : Kernel unit :=
  set_task 4 (fun t => t <| pid := 3 |> <| t_state := T_READY |> <| cr3 := 0x5000 |>)
    (set_task 2 (fun t => t <| pid := 2 |> <| t_state := T_READY |> <| frame := zero_frame <| rsp := 2 ^ 47 |> |>) (boot_kernel (fun _ => 0) tt)).

Definition chosen (o : outcome (option nat * Kernel unit)) : option nat := match o with Ret (n, _) => n | Panic => None end.


(** ** A remapping unit *)

(** Its registers say that every invalidation is done. *)
#[local] Instance ready_unit : Hardware bool :=
  {| inb := fun h _ => (0, h); inw := fun h _ => (0, h); inl := fun h _ => (UINT32_MAX, h);
     outb := fun h _ _ => h; outw := fun h _ _ => h; outl := fun h _ _ => h;
     mmio_read8 := fun h _ => (0, h); mmio_write8 := fun h _ _ => h;
     reg_read32 := fun h _ => (0, h); reg_read64 := fun h _ => (2 ^ 59 + 2 ^ 57, h); reg_write32 := fun h _ _ => h; reg_write64 := fun h _ _ => h;
     fx_save := fun _ => []; fx_restore := fun _ h => h; cpuid_edx := fun _ => 0x07000001 |}.

(** Remapping is on, with function 3 of device 0 in its scope. *)
Definition remapping : Kernel bool :=
  (boot_kernel (fun _ => 0) true) <| iommu ::= fun i => i <| mode := 1 |> <| topology ::= fun t => t <| covered := fill 1 256 |> |> |>.
Definition granted : Kernel bool := (iommu_grant 3 dma remapping).2.
Definition revoked : Kernel bool := (iommu_revoke 3 granted).2.

Lemma dma_confined_witness : iommu_grant 3 dma remapping = (0, SF_DMA_IOVA, granted) /\
  vtd_walk (memory granted) vtd_tables true 3 (SF_DMA_IOVA + 5) = Some (dma + 5) /\ vtd_walk (memory granted) vtd_tables true 4 SF_DMA_IOVA = None.
Proof.
  assert (E : iommu_grant 3 dma remapping = (0, SF_DMA_IOVA, granted)).
  { unfold granted. assert (E1 : (iommu_grant 3 dma remapping).1 = (0, SF_DMA_IOVA)) by (lazy; reflexivity).
    destruct (iommu_grant 3 dma remapping) as [x k]. cbn [fst snd] in *. by rewrite E1. }
  split; [exact E|]. destruct (dma_confined 3 remapping SF_DMA_IOVA granted ltac:(discriminate) eq_refl E) as (_ & _ & W).
  split; rewrite W by (unfold SF_DMA_IOVA; lia); reflexivity.
Defined.

Lemma dma_revoked_witness : iommu_revoke 3 granted = (0, revoked) /\ vtd_walk (memory revoked) vtd_tables false 3 SF_DMA_IOVA = None.
Proof.
  assert (E : iommu_revoke 3 granted = (0, revoked)).
  { unfold revoked. assert (E1 : (iommu_revoke 3 granted).1 = 0) by (lazy; reflexivity).
    destruct (iommu_revoke 3 granted) as [x k]. cbn [fst snd] in *. by rewrite E1. }
  assert (Em : iommu_mode granted = 1) by (lazy; reflexivity). assert (Ea : active_bdf (iommu granted) = 3) by (lazy; reflexivity).
  split; [exact E|]. destruct (dma_revoked 3 granted revoked Em ltac:(rewrite Ea; discriminate) E) as (_ & _ & W).
  apply W. split; [discriminate|reflexivity].
Defined.
